(** * polish-cli: the file organization pipeline

    A shallow embedding of the TypeScript sources of the pipeline
    (FileScanner, ClaudeService, ContentExtractor, MarkdownGenerator,
    FileProcessor) and the properties the specification states about them.

    Conventions.
    - A JavaScript string is a [string]: a sequence of code units, here the
      8-bit ones of Rocq's [ascii], read as the code units 0 to 255 (the
      Latin-1 characters); [length] counts code units, as
      [String.prototype.length] does. Strings with a larger code unit are
      outside the development; so are the pictographs some log lines of
      FileProcessor open with, which are left out of those lines.
    - A JavaScript [number] used as a size or a count is a [Z].
    - A [Promise] is the computation it awaits: [async] functions live in the
      monad [M] of section Effects (state, exceptions, fuel). *)

From Stdlib Require Import ZArith QArith Lia Lqa Bool Ascii String List.
From Stdlib Require Import Sorting.Sorted Sorting.Permutation.
From stdpp Require Import base option list strings gmap sets pretty.

Open Scope string_scope.
Open Scope list_scope.
Open Scope Z_scope.

(** ** JavaScript strings *)

Module JS.

Definition nl_char : ascii := ascii_of_nat 10.
Definition nl : string := String nl_char EmptyString.

(** The letters among the code units below 256: [A-Z] and [a-z], the
    capitals 192 to 222 but the multiplication sign 215, the small letters
    224 to 254 but the division sign 247. A capital and its small letter
    are 32 apart. *)
Definition is_upper (c : ascii) : bool :=
  let n := nat_of_ascii c in
  ((65 <=? n)%nat && (n <=? 90)%nat)
  || ((192 <=? n)%nat && (n <=? 222)%nat && negb (n =? 215)%nat).

Definition is_lower (c : ascii) : bool :=
  let n := nat_of_ascii c in
  ((97 <=? n)%nat && (n <=? 122)%nat)
  || ((224 <=? n)%nat && (n <=? 254)%nat && negb (n =? 247)%nat).

Definition lower_char (c : ascii) : ascii :=
  if is_upper c then ascii_of_nat (nat_of_ascii c + 32) else c.

(** The sharp s (223) has the capital [SS]. The capitals of the micro sign
    (181) and of the y with diaeresis (255) are code units above 255: the
    two are kept, so that [toUpperCase] is exact on the strings without
    them. *)
Definition upper_char (c : ascii) : string :=
  if is_lower c then String (ascii_of_nat (nat_of_ascii c - 32)) EmptyString
  else if (nat_of_ascii c =? 223)%nat then "SS"
  else String c EmptyString.

Fixpoint map_chars (f : ascii -> ascii) (s : string) : string :=
  match s with
  | EmptyString => EmptyString
  | String c r => String (f c) (map_chars f r)
  end.

(** [s.toLowerCase()], [s.toUpperCase()] *)
Definition toLowerCase : string -> string := map_chars lower_char.

Fixpoint toUpperCase (s : string) : string :=
  match s with
  | EmptyString => EmptyString
  | String c r => upper_char c +:+ toUpperCase r
  end.

(** [s.length] *)
Definition len (s : string) : Z := Z.of_nat (String.length s).

(** [s.startsWith(p)] *)
Fixpoint startsWith (p s : string) : bool :=
  match p, s with
  | EmptyString, _ => true
  | String a p', String b s' => Ascii.eqb a b && startsWith p' s'
  | String _ _, EmptyString => false
  end.

(** [s.includes(p)] *)
Fixpoint includes (p s : string) : bool :=
  startsWith p s ||
  match s with
  | EmptyString => false
  | String _ s' => includes p s'
  end.

(** [s.endsWith(p)] *)
Fixpoint endsWith (p s : string) : bool :=
  String.eqb p s ||
  match s with
  | EmptyString => false
  | String _ s' => endsWith p s'
  end.

(** [s.split(c)] for a one-character separator: never the empty list. *)
Fixpoint split (c : ascii) (s : string) : list string :=
  match s with
  | EmptyString => [EmptyString]
  | String a r =>
      if Ascii.eqb a c then EmptyString :: split c r
      else match split c r with
           | [] => [String a EmptyString]
           | seg :: segs => String a seg :: segs
           end
  end.

(** [l.join(sep)] *)
Fixpoint join (sep : string) (l : list string) : string :=
  match l with
  | [] => EmptyString
  | [x] => x
  | x :: r => x +:+ sep +:+ join sep r
  end.

(** [s.substring(0, n)] for [0 <= n] *)
Definition substring0 (n : Z) (s : string) : string :=
  String.substring 0 (Z.to_nat n) s.

(** [s.slice(1)] *)
Definition slice1 (s : string) : string :=
  match s with
  | EmptyString => EmptyString
  | String _ r => r
  end.

(** [s.charAt(0)] *)
Definition charAt0 (s : string) : string :=
  match s with
  | EmptyString => EmptyString
  | String c _ => String c EmptyString
  end.

(** [String(n)] for an integer [n] *)
Definition ofZ (n : Z) : string := pretty n.

(** [s.padStart(2, '0')] *)
Definition padStart2 (s : string) : string :=
  match String.length s with
  | O => "00"
  | S O => "0" +:+ s
  | _ => s
  end.

(** [a.slice(0, n)] on an array: a negative [n] counts from the end. *)
Definition slice0 {A} (n : Z) (l : list A) : list A :=
  if n <? 0 then firstn (Z.to_nat (Z.max (Z.of_nat (length l) + n) 0)) l
  else firstn (Z.to_nat n) l.

(** A [Set<string>]: insertion-ordered, [add] ignores a member. *)
Definition set_add (x : string) (s : list string) : list string :=
  if existsb (String.eqb x) s then s else s ++ [x].

(** [a.includes(x)] on an array of strings *)
Definition arr_includes (x : string) (l : list string) : bool :=
  existsb (String.eqb x) l.

Definition quoteChar : ascii := ascii_of_nat 34.
Definition quote : string := String quoteChar EmptyString.

(** The names every object inherits from [Object.prototype]: a table
    written as an object literal answers for them as well as for its own
    keys. *)
Definition objectPrototypeKeys : list string :=
  ["constructor"; "__proto__"; "hasOwnProperty"; "isPrototypeOf";
   "propertyIsEnumerable"; "toString"; "toLocaleString"; "valueOf";
   "__defineGetter__"; "__defineSetter__"; "__lookupGetter__"; "__lookupSetter__"].

(** What [table[key]] is, for an object literal with string values: the
    value of an own key, else the member of [Object.prototype] of that
    name, else [undefined]. *)
Inductive Member : Type :=
  | Own (value : string)
  | Inherited (name : string)
  | Undefined.

Definition member (table : list (string * string)) (key : string) : Member :=
  match List.find (fun kv : string * string => String.eqb (fst kv) key) table with
  | Some kv => Own (snd kv)
  | None => if arr_includes key objectPrototypeKeys then Inherited key else Undefined
  end.

(** A value that is a string, or a member of [Object.prototype]: the
    prototype object itself for [__proto__], a native function for the
    other names. *)
Inductive Value : Type :=
  | Str (s : string)
  | Proto (name : string).

(** [table[key] || fallback]: the empty string and [undefined] are falsy,
    the members of [Object.prototype] are not. *)
Definition memberOr (m : Member) (fallback : string) : Value :=
  match m with
  | Own value => if String.eqb value "" then Str fallback else Str value
  | Inherited name => Proto name
  | Undefined => Str fallback
  end.

(** The [name] of the function a name of [Object.prototype] stands for. *)
Definition nativeName (name : string) : string :=
  if String.eqb name "constructor" then "Object" else name.

(** [String(v)], the conversion a template literal, [+] and a property
    key apply. *)
Definition toString (v : Value) : string :=
  match v with
  | Str s => s
  | Proto name =>
      if String.eqb name "__proto__" then "[object Object]"
      else "function " +:+ nativeName name +:+ "() { [native code] }"
  end.

(** Stable sort, as [Array.prototype.sort] is specified since ES2019:
    [cmp a b <= 0] keeps [a] before [b]. The insertion keeps an element
    in front of the ones it ties with, which come later in the input. *)
Section Sort.
Context {A : Type} (cmp : A -> A -> Q).

Fixpoint insert (x : A) (l : list A) : list A :=
  match l with
  | [] => [x]
  | y :: r => if Qle_bool (cmp x y) 0 then x :: y :: r else y :: insert x r
  end.

Fixpoint sort (l : list A) : list A :=
  match l with
  | [] => []
  | x :: r => insert x (sort r)
  end.
End Sort.

End JS.

(** A thrown value: an [Error] with its message, or anything else. *)
Inductive Thrown : Type :=
  | JsError (message : string)
  | NonError (value : string).

(** ** Data model *)

(** The enum [FileType]. Its declaration (types/index.ts) is not among the
    sources; the string values are the ones the tests of ClaudeService read
    back ([type/document], [category] equal to [code], ...). *)
Inductive FileType : Type :=
  | Document | Image | Code | Data | Archive | Media | Unknown.

#[global] Instance FileType_eq_dec : EqDecision FileType.
Proof. solve_decision. Defined.

Definition FileType_str (t : FileType) : string :=
  match t with
  | Document => "document"
  | Image => "image"
  | Code => "code"
  | Data => "data"
  | Archive => "archive"
  | Media => "media"
  | Unknown => "unknown"
  end.

(** A [Date], by the observations the pipeline makes on it. *)
Module Date.
Record t : Type := mk {
  getTime : Z;                  (* milliseconds since the epoch *)
  getFullYear : Z;
  getMonth : Z;                 (* 0 .. 11 *)
  toISOString : string;
  toLocaleDateString : string
}.
End Date.

Module FileInfo.
Record t : Type := mk {
  path : string;
  name : string;
  extension : string;
  size : Z;
  createdAt : Date.t;
  modifiedAt : Date.t;
  type : FileType
}.
End FileInfo.

(** ** FileScanner: the scanner's extension table *)

Module FileScanner.

Definition set_all (exts : list string) (t : FileType)
    (m : gmap string FileType) : gmap string FileType :=
  foldl (fun acc ext => <[ext := t]> acc) m exts.

Definition buildExtensionMap : gmap string FileType :=
  let map := ∅ in
  let map := set_all ["pdf"; "docx"; "doc"; "txt"; "rtf"; "odt"] Document map in
  let map := set_all ["png"; "jpg"; "jpeg"; "gif"; "bmp"; "svg"; "webp"] Image map in
  let map := set_all ["js"; "ts"; "py"; "java"; "cpp"; "c"; "go"; "rs"; "rb";
                      "php"; "swift"; "kt"] Code map in
  let map := set_all ["json"; "csv"; "xml"; "yaml"; "yml"; "sql"] Data map in
  let map := set_all ["zip"; "tar"; "gz"; "rar"; "7z"; "bz2"] Archive map in
  let map := set_all ["mp3"; "mp4"; "avi"; "mov"; "wav"; "flac"] Media map in
  map.

(** [this.extensionMap.get(extension) || FileType.Unknown] *)
Definition getFileType (extension : string) : FileType :=
  default Unknown (buildExtensionMap !! extension).

End FileScanner.

(** ** FileProcessor.determineFileType: the table used for archive members *)

Definition determineFileType (extension : string) : FileType :=
  let ext := JS.toLowerCase extension in
  if JS.arr_includes ext ["pdf"; "doc"; "docx"; "txt"; "md"; "rtf"; "odt"] then Document
  else if JS.arr_includes ext ["jpg"; "jpeg"; "png"; "gif"; "bmp"; "svg"; "webp"] then Image
  else if JS.arr_includes ext ["js"; "ts"; "py"; "java"; "cpp"; "c"; "go"; "rs"; "rb"; "php"]
       then Code
  else if JS.arr_includes ext ["json"; "csv"; "xml"; "yaml"; "yml"] then Data
  else if JS.arr_includes ext ["mp3"; "wav"; "mp4"; "avi"; "mov"; "mkv"] then Media
  else if JS.arr_includes ext ["zip"; "rar"; "tar"; "gz"; "7z"] then Archive
  else Unknown.

Example determine_md : determineFileType "md" = Document.
Proof. vm_compute. reflexivity. Qed.

(** ** ClaudeService: the heuristic tag and category suggestions *)

Module TagSuggestion.
Record t : Type := mk {
  tag : string;
  confidence : Q;
  source : string
}.
End TagSuggestion.

Module CategorySuggestion.
Record t : Type := mk {
  category : string;
  confidence : Q;
  reasoning : string
}.
End CategorySuggestion.

Module ClaudeService.

(** [.replace(/[._-]/g, ' ')] *)
Definition is_name_separator (c : ascii) : bool :=
  Ascii.eqb c "." || Ascii.eqb c "_" || Ascii.eqb c "-".

Definition replace_separators : string -> string :=
  JS.map_chars (fun c => if is_name_separator c then " "%char else c).

(** [file.name.toLowerCase().replace(/[._-]/g, ' ').split(' ')
     .filter(word => word.length > 3)] *)
Definition nameWords (name : string) : list string :=
  List.filter (fun word => 3 <? JS.len word)
    (JS.split " " (replace_separators (JS.toLowerCase name))).

Definition topicTag (word : string) : TagSuggestion.t :=
  TagSuggestion.mk ("topic/" +:+ word) (7 # 10) "filename".

Definition dateTag (d : Date.t) : string :=
  let year := Date.getFullYear d in
  let month := JS.padStart2 (JS.ofZ (Date.getMonth d + 1)) in
  "date/" +:+ JS.ofZ year +:+ "/" +:+ month.

Definition suggestTags (file : FileInfo.t) (_content : option string)
    : list TagSuggestion.t :=
  let push (tags : list TagSuggestion.t) t := (tags ++ [t])%list in
  let tags := [] in
  let tags := push tags
    (TagSuggestion.mk ("type/" +:+ FileType_str (FileInfo.type file)) 1 "type") in
  let tags := push tags
    (TagSuggestion.mk ("format/" +:+ FileInfo.extension file) 1 "type") in
  let tags := push tags
    (TagSuggestion.mk (dateTag (FileInfo.modifiedAt file)) 1 "context") in
  foldl push tags (map topicTag (nameWords (FileInfo.name file))).

(** The loop over [existingFolders] with its [break]: the first folder
    whose lowercased name occurs in the lowercased file name. *)
Fixpoint firstMatchingFolder (lowerName : string) (existingFolders : list string)
    : option string :=
  match existingFolders with
  | [] => None
  | folder :: rest =>
      if JS.includes (JS.toLowerCase folder) lowerName then Some folder
      else firstMatchingFolder lowerName rest
  end.

Definition suggestCategory (file : FileInfo.t) (existingFolders : list string)
    : CategorySuggestion.t :=
  let ty := FileType_str (FileInfo.type file) in
  let category := JS.toUpperCase (JS.charAt0 ty) +:+ JS.slice1 ty in
  let lowerName := JS.toLowerCase (FileInfo.name file) in
  let category := default category (firstMatchingFolder lowerName existingFolders) in
  CategorySuggestion.mk category (8 # 10) "Based on file type and name analysis".

End ClaudeService.

(** ** Node's [path] module (POSIX flavour) *)

Module Path.

Definition is_slash (c : ascii) : bool := Ascii.eqb c "/".

Fixpoint dropWhile {A} (f : A -> bool) (l : list A) : list A :=
  match l with
  | [] => []
  | x :: r => if f x then dropWhile f r else l
  end.

Fixpoint takeWhile {A} (f : A -> bool) (l : list A) : list A :=
  match l with
  | [] => []
  | x :: r => if f x then x :: takeWhile f r else []
  end.

(** One segment of [normalizeString]: [st] is the stack of segments kept
    so far, the last one first. *)
Definition normalizeStep (allowAboveRoot : bool) (st : list string) (seg : string)
    : list string :=
  if String.eqb seg "" || String.eqb seg "." then st
  else if String.eqb seg ".." then
    match st with
    | top :: below =>
        if String.eqb top ".." then (if allowAboveRoot then ".." :: st else st)
        else below
    | [] => if allowAboveRoot then [".."] else []
    end
  else seg :: st.

Definition normalizeSegments (allowAboveRoot : bool) (segs : list string) : list string :=
  rev (foldl (normalizeStep allowAboveRoot) [] segs).

Definition normalizeString (path : string) (allowAboveRoot : bool) : string :=
  JS.join "/" (normalizeSegments allowAboveRoot (JS.split "/" path)).

Definition isAbsolute (path : string) : bool := JS.startsWith "/" path.

Definition hasTrailingSeparator (path : string) : bool :=
  match rev (list_ascii_of_string path) with
  | c :: _ => is_slash c
  | [] => false
  end.

Definition normalize (path : string) : string :=
  if String.eqb path "" then "."
  else
    let abs := isAbsolute path in
    let trailingSeparator := hasTrailingSeparator path in
    let p := normalizeString path (negb abs) in
    if String.eqb p "" then
      (if abs then "/" else if trailingSeparator then "./" else ".")
    else
      (if abs then "/" else "") +:+ p +:+ (if trailingSeparator then "/" else "").

(** [path.join(...args)] *)
Definition join (args : list string) : string :=
  match List.filter (fun arg => negb (String.eqb arg "")) args with
  | [] => "."
  | parts => normalize (JS.join "/" parts)
  end.

(** [path.join] checks that every argument is a string before it joins
    them: the first that is none throws a [TypeError], which names what it
    got. *)
Definition invalidPathArgument (name : string) : Thrown :=
  JsError ("The " +:+ JS.quote +:+ "path" +:+ JS.quote
           +:+ " argument must be of type string. Received "
           +:+ (if String.eqb name "__proto__" then "an instance of Object"
                else "function " +:+ JS.nativeName name)).

Fixpoint validateStrings (args : list JS.Value) : Thrown + list string :=
  match args with
  | [] => inr []
  | JS.Str s :: rest =>
      match validateStrings rest with
      | inl e => inl e
      | inr l => inr (s :: l)
      end
  | JS.Proto name :: _ => inl (invalidPathArgument name)
  end.

Definition joinValues (args : list JS.Value) : Thrown + string :=
  match validateStrings args with
  | inl e => inl e
  | inr l => inr (join l)
  end.

(** [path.basename(p)] *)
Definition basename (p : string) : string :=
  let r := dropWhile is_slash (rev (list_ascii_of_string p)) in
  string_of_list_ascii (rev (takeWhile (fun c => negb (is_slash c)) r)).

(** The extension of a base name: from its last dot, unless that dot is
    the first character or the name is [..]. *)
Definition extOfBase (base : string) : string :=
  let r := rev (list_ascii_of_string base) in
  let is_dot c := Ascii.eqb c "." in
  let tail := takeWhile (fun c => negb (is_dot c)) r in
  match dropWhile (fun c => negb (is_dot c)) r with
  | [] => ""                                   (* no dot *)
  | _dot :: [] => ""                           (* the dot leads the name *)
  | _dot :: _ =>
      if String.eqb base ".." then ""
      else string_of_list_ascii ("."%char :: rev tail)
  end.

(** [path.extname(p)] *)
Definition extname (p : string) : string := extOfBase (basename p).

(** [path.parse(p).name], by the loop of [parse]: from the last character
    down to the first (the second, for an absolute path), over the
    trailing separators, then over the base name as far as the separator in
    front of it. *)
Module Parse.
Record t : Type := mk {
  startDot : option nat;        (* the last dot of the base name *)
  startPart : nat;              (* where the base name starts *)
  end_ : option nat;            (* where it ends *)
  preDotState : Z;
  stopped : bool                (* the [break] *)
}.
End Parse.

Definition parseStep (st : Parse.t) (ic : nat * ascii) : Parse.t :=
  let '(i, c) := ic in
  if Parse.stopped st then st
  else if is_slash c then
    match Parse.end_ st with
    | Some _ => Parse.mk (Parse.startDot st) (S i) (Parse.end_ st) (Parse.preDotState st) true
    | None => st
    end
  else
    let end_ := match Parse.end_ st with Some e => Some e | None => Some (S i) end in
    if Ascii.eqb c "." then
      match Parse.startDot st with
      | None => Parse.mk (Some i) (Parse.startPart st) end_ (Parse.preDotState st) false
      | Some _ => Parse.mk (Parse.startDot st) (Parse.startPart st) end_ 1 false
      end
    else
      match Parse.startDot st with
      | None => Parse.mk None (Parse.startPart st) end_ (Parse.preDotState st) false
      | Some _ => Parse.mk (Parse.startDot st) (Parse.startPart st) end_ (-1) false
      end.

(** [s.slice(i, j)] for [0 <= i] and [0 <= j] *)
Definition sliceFromTo (i j : nat) (s : string) : string := String.substring i (j - i) s.

Definition parseName (p : string) : string :=
  let chars := list_ascii_of_string p in
  let isAbsolute := match chars with c :: _ => is_slash c | [] => false end in
  let start := if isAbsolute then 1%nat else 0%nat in
  let indexed := skipn start (combine (seq 0 (length chars)) chars) in
  let st := foldl parseStep (Parse.mk None 0 None 0 false) (rev indexed) in
  match Parse.end_ st with
  | None => ""
  | Some end_ =>
      let from := if (Parse.startPart st =? 0)%nat && isAbsolute then 1%nat
                  else Parse.startPart st in
      match Parse.startDot st with
      | None => sliceFromTo from end_ p
      | Some startDot =>
          if (Parse.preDotState st =? 0)
             || ((Parse.preDotState st =? 1) && (startDot =? end_ - 1)%nat
                 && (startDot =? Parse.startPart st + 1)%nat)
          then sliceFromTo from end_ p
          else sliceFromTo from startDot p
      end
  end.

(** [path.dirname(p)] *)
Definition dirname (p : string) : string :=
  match list_ascii_of_string p with
  | [] => "."
  | c0 :: rest =>
      let hasRoot := is_slash c0 in
      let r := dropWhile is_slash (rev rest) in
      match dropWhile (fun c => negb (is_slash c)) r with
      | [] => if hasRoot then "/" else "."
      | _slash :: before =>
          match before with
          | [] => if hasRoot then "//" else string_of_list_ascii [c0]
          | _ => string_of_list_ascii (c0 :: rev before)
          end
      end
  end.

End Path.

(** ** The path-traversal guard of the zip extraction *)

(** [.replace(/^\/+/, '')] *)
Fixpoint stripLeadingSlashes (s : string) : string :=
  match s with
  | EmptyString => EmptyString
  | String c r => if Path.is_slash c then stripLeadingSlashes r else s
  end.

(** [.replace(/\.\./g, '')]: the matches are taken from left to right and do
    not overlap. *)
Fixpoint removeDotDot (s : string) : string :=
  match s with
  | EmptyString => EmptyString
  | String a r =>
      match r with
      | EmptyString => s
      | String b r' =>
          if Ascii.eqb a "." && Ascii.eqb b "." then removeDotDot r'
          else String a (removeDotDot r)
      end
  end.

Definition sanitizeEntryPath (entryPath : string) : string :=
  removeDotDot (stripLeadingSlashes entryPath).

(** [path.join(outputDir, entry.path.replace(/^\/+/, '').replace(/\.\./g, ''))] *)
Definition safePath (outputDir entryPath : string) : string :=
  Path.join [outputDir; sanitizeEntryPath entryPath].

(** ** Effects: the file system, the clock, the console *)

Set Warnings "-register-all".

(** What an entry of a zip archive holds: bytes of its own, the bytes of
    the archive it is an entry of (a zip archive can hold a copy of itself),
    or nothing its [buffer()] can read. Archives that hold each other in a
    longer cycle are outside the development. *)
Inductive Held (B : Type) : Type :=
  | Bytes (b : B)
  | Itself
  | Unreadable.
Arguments Bytes {B} b.
Arguments Itself {B}.
Arguments Unreadable {B}.

(** What a file holds: its bytes and, when they are a zip archive, the
    entries [unzipper] reads from it, each with a path, a type ([File],
    [Directory], or none) and what it holds. *)
Inductive Blob : Type :=
  | mkBlob (raw : string) (zip : option (list (string * option string * Held Blob))).

(** An entry as [unzipper] presents it: path, type, and the content its
    [buffer()] yields ([None]: the call throws). *)
Definition ZipEntry : Type := (string * option string * option Blob)%type.

Definition blob_raw (b : Blob) : string := let 'mkBlob raw _ := b in raw.
Definition text (s : string) : Blob := mkBlob s None.

Definition buffer (archive : Blob) (held : Held Blob) : option Blob :=
  match held with
  | Bytes b => Some b
  | Itself => Some archive
  | Unreadable => None
  end.

Definition blob_zip (b : Blob) : option (list ZipEntry) :=
  let 'mkBlob _ zip := b in
  match zip with
  | Some members =>
      Some (map (fun m : string * option string * Held Blob => (m.1, buffer b m.2)) members)
  | None => None
  end.

Definition entry_path (e : ZipEntry) : string := e.1.1.
Definition entry_type (e : ZipEntry) : option string := e.1.2.
Definition entry_buffer (e : ZipEntry) : option Blob := e.2.

(** How deep the archives nest in what a file holds, an archive that holds
    itself counted once; and whether some archive in it holds itself, so
    that the nesting has no end. *)
Fixpoint blob_depth (b : Blob) : nat :=
  match b with
  | mkBlob _ None => O
  | mkBlob _ (Some members) =>
      S (list_max (map (fun m : string * option string * Held Blob =>
                          match m.2 with
                          | Bytes b' => blob_depth b'
                          | _ => O
                          end) members))
  end.

Fixpoint endless (b : Blob) : bool :=
  match b with
  | mkBlob _ None => false
  | mkBlob _ (Some members) =>
      existsb (fun m : string * option string * Held Blob =>
                 match m.2 with
                 | Bytes b' => endless b'
                 | Itself => true
                 | Unreadable => false
                 end) members
  end.

Module FsNode.
Record t : Type := mk {
  blob : Blob;
  birthtime : Date.t;
  mtime : Date.t
}.
End FsNode.

(** The calls made on [fs] (and on the libraries that read files). *)
Inductive FsCall : Type :=
  | ReadFile (p : string)
  | Readdir (p : string)
  | Stat (p : string)
  | OpenZip (p : string)
  | Mkdir (p : string)
  | WriteFile (p : string) (data : Blob)
  | CopyFile (src dst : string)
  | Rename (src dst : string)
  | Mkdtemp (prefix : string)
  | Rm (p : string).

Definition mutates (c : FsCall) : bool :=
  match c with
  | ReadFile _ | Readdir _ | Stat _ | OpenZip _ => false
  | _ => true
  end.

Module World.
Record t : Type := mk {
  files : gmap string FsNode.t;      (* the regular files, by path *)
  dirs : gset string;                (* the directories *)
  time : nat;                        (* clock reads so far *)
  tmpSeq : nat;                      (* temporary names handed out *)
  trace : list FsCall;               (* the calls issued, latest first *)
  console : list string              (* the lines logged, latest first *)
}.
End World.

Inductive Outcome (A : Type) : Type :=
  | Ok (a : A)
  | Throw (e : Thrown)
  | OutOfFuel.
Arguments Ok {A} a.
Arguments Throw {A} e.
Arguments OutOfFuel {A}.

Definition M (A : Type) : Type := World.t -> Outcome A * World.t.

Definition ret {A} (a : A) : M A := fun w => (Ok a, w).

Definition bind {A B} (m : M A) (k : A -> M B) : M B :=
  fun w =>
    match m w with
    | (Ok a, w') => k a w'
    | (Throw e, w') => (Throw e, w')
    | (OutOfFuel, w') => (OutOfFuel, w')
    end.

Definition throw {A} (e : Thrown) : M A := fun w => (Throw e, w).

(** A call that returns or throws and does nothing else. *)
Definition returnOrThrow {A} (r : Thrown + A) : M A :=
  match r with
  | inl e => throw e
  | inr a => ret a
  end.

Definition outOfFuel {A} : M A := fun w => (OutOfFuel, w).

(** [try { body } catch (e) { handler(e) }] *)
Definition tryCatch {A} (body : M A) (handler : Thrown -> M A) : M A :=
  fun w =>
    match body w with
    | (Throw e, w') => handler e w'
    | r => r
    end.

(** [try { body } finally { cleanup }], for a [cleanup] that does not
    return out of the block: the outcome of [body] unless [cleanup] throws. *)
Definition tryFinally {A} (body : M A) (cleanup : M unit) : M A :=
  fun w =>
    let '(r, w') := body w in
    match r with
    | OutOfFuel => (OutOfFuel, w')
    | _ =>
        match cleanup w' with
        | (Ok _, w'') => (r, w'')
        | (Throw e, w'') => (Throw e, w'')
        | (OutOfFuel, w'') => (OutOfFuel, w'')
        end
    end.

Declare Scope monad_scope.
Delimit Scope monad_scope with monad.
Notation "x <- m ;; k" := (bind m (fun x => k))
  (at level 100, m at next level, right associativity) : monad_scope.
Notation "m ;;; k" := (bind m (fun _ => k))
  (at level 100, right associativity) : monad_scope.
Open Scope monad_scope.

(** [for (const x of l) { body(x) }] *)
Fixpoint forEachM {A} (body : A -> M unit) (l : list A) : M unit :=
  match l with
  | [] => ret tt
  | x :: r => body x ;;; forEachM body r
  end.

(** What the run time supplies: library code that is no part of the
    sources, and the arithmetic on floating-point numbers. *)
Module ImageMetadata.
Record t : Type := mk {
  format : string;
  width : string;
  height : string;
  space : string;
  channels : string;
  exif : bool
}.
End ImageMetadata.

Module Runtime.
Record t : Type := mk {
  (* utils/formatting.ts *)
  sanitizeFilename : string -> string;
  getDatePath : Date.t -> string;
  (* [formatBytes] of MarkdownGenerator and [formatFileSize] of
     ContentExtractor divide and round floating-point numbers *)
  formatBytes : Z -> string;
  formatFileSize : Z -> string;
  (* the names the regular expression of a language captures in a source
     text, match after match *)
  functionNames : string -> string -> list string;
  (* [path.relative] *)
  relative : string -> string -> string;
  (* optional libraries: [None] when the import fails; applied to the
     bytes of a file, [None] again when the library throws *)
  pdfParse : option (string -> option string);
  mammoth : option (string -> option string);
  unzipper : bool;
  sharp : string -> option ImageMetadata.t;
  (* the operating system *)
  tmpdir : string;
  tmpSuffix : nat -> string;
  calendar : nat -> Date.t;
  (* the directories [rm] fails to remove, with the message of its error *)
  rmRefused : string -> option string;
  (* the order [readdir] lists the entries of a directory in *)
  readdirOrder : list (string * bool) -> list (string * bool);
  readdirOrder_perm : forall entries, Permutation (readdirOrder entries) entries
}.
End Runtime.

(** ** [fs/promises], [console], [Date] *)

Module Stats.
Record t : Type := mk { size : Z; birthtime : Date.t; mtime : Date.t }.
End Stats.

Module Fs.
Section WithRuntime.
Context (rt : Runtime.t).

Definition logCall (c : FsCall) (w : World.t) : World.t :=
  World.mk (World.files w) (World.dirs w) (World.time w) (World.tmpSeq w)
           (c :: World.trace w) (World.console w).

Definition setFiles (files : gmap string FsNode.t) (w : World.t) : World.t :=
  World.mk files (World.dirs w) (World.time w) (World.tmpSeq w)
           (World.trace w) (World.console w).

Definition setDirs (dirs : gset string) (w : World.t) : World.t :=
  World.mk (World.files w) dirs (World.time w) (World.tmpSeq w)
           (World.trace w) (World.console w).

Definition now (w : World.t) : Date.t := Runtime.calendar rt (World.time w).

(** What a path names when it names a directory: its normal form, the
    separator it may end with left off. There are no symbolic links. *)
Definition locate (p : string) : string :=
  let abs := Path.isAbsolute p in
  let body := Path.normalizeString p (negb abs) in
  if String.eqb body "" then (if abs then "/" else ".")
  else (if abs then "/" else "") +:+ body.

(** [/] and [.] are always there; the empty path names nothing. *)
Definition isDir (w : World.t) (p : string) : bool :=
  negb (String.eqb p "")
  && (String.eqb (locate p) "/" || String.eqb (locate p) "."
      || bool_decide (locate p ∈ World.dirs w)).

(** A regular file is named by its path as written. *)
Definition isFile (w : World.t) (p : string) : bool :=
  bool_decide (is_Some (World.files w !! p)).

Definition fsError {A} (code call paths : string) : Outcome A :=
  Throw (JsError (code +:+ ", " +:+ call +:+ " '" +:+ paths +:+ "'")).
Definition enoent {A} : string -> string -> Outcome A :=
  fsError "ENOENT: no such file or directory".
Definition eisdir {A} : string -> string -> Outcome A :=
  fsError "EISDIR: illegal operation on a directory".
Definition enotdir {A} : string -> string -> Outcome A :=
  fsError "ENOTDIR: not a directory".
Definition eexist {A} : string -> string -> Outcome A :=
  fsError "EEXIST: file already exists".

(** The two paths of [rename] and [copyFile] in the message of an error *)
Definition fromTo (src dst : string) : string := src +:+ "' -> '" +:+ dst.

(** The blob of a regular file, for [readFile] and the libraries that
    open files themselves. *)
Definition readBlob (call : FsCall) (p : string) : M Blob :=
  fun w =>
    let w := logCall call w in
    match World.files w !! p with
    | Some node => (Ok (FsNode.blob node), w)
    | None =>
        (if isDir w p
         then Throw (JsError "EISDIR: illegal operation on a directory, read")
         else enoent "open" p, w)
    end.

(** [fs.readFile(p, 'utf-8')] *)
Definition readFile (p : string) : M string :=
  b <- readBlob (ReadFile p) p ;; ret (blob_raw b).

(** [fs.readdir(p, { withFileTypes: true })]: name and [isDirectory()] of
    what lies directly below the directory, in the order the file system
    lists it. *)
Definition readdir (p : string) : M (list (string * bool)) :=
  fun w =>
    let w := logCall (Readdir p) w in
    if isDir w p then
      let under q := String.eqb (Path.dirname q) (locate p)
                     && negb (String.eqb q (locate p)) in
      let fs := List.filter under (map fst (map_to_list (World.files w))) in
      let ds := List.filter under (elements (World.dirs w)) in
      (Ok (Runtime.readdirOrder rt
             (map (fun q => (Path.basename q, false)) fs
              ++ map (fun q => (Path.basename q, true)) ds)%list), w)
    else if isFile w p then (enotdir "scandir" p, w)
    else (enoent "scandir" p, w).

(** [fs.stat(p)]; a directory reports no size and the first date of
    the calendar. *)
Definition stat (p : string) : M Stats.t :=
  fun w =>
    let w := logCall (Stat p) w in
    match World.files w !! p with
    | Some node =>
        (Ok (Stats.mk (JS.len (blob_raw (FsNode.blob node)))
                      (FsNode.birthtime node) (FsNode.mtime node)), w)
    | None =>
        if isDir w p
        then (Ok (Stats.mk 0 (Runtime.calendar rt O) (Runtime.calendar rt O)), w)
        else (enoent "stat" p, w)
    end.

(** [p] and the directories above it, as far as [/] or [.] *)
Fixpoint ancestors (fuel : nat) (p : string) : list string :=
  match fuel with
  | O => []
  | S fuel' =>
      if String.eqb p "/" || String.eqb p "." || String.eqb p "//" then []
      else p :: ancestors fuel' (Path.dirname p)
  end.

(** [fs.mkdir(p, { recursive: true })] *)
Definition mkdir (p : string) : M unit :=
  fun w =>
    let w := logCall (Mkdir p) w in
    let chain := ancestors (S (String.length p)) (locate p) in
    if String.eqb p "" then (enoent "mkdir" p, w)
    else if existsb (isFile w) chain
    then (if isFile w (locate p) then eexist "mkdir" p else enotdir "mkdir" p, w)
    else (Ok tt, setDirs (World.dirs w ∪ list_to_set chain) w).

Definition putFile (p : string) (data : Blob) (w : World.t) : World.t :=
  let birth :=
    match World.files w !! p with
    | Some node => FsNode.birthtime node
    | None => now w
    end in
  setFiles (<[p := FsNode.mk data birth (now w)]> (World.files w)) w.

(** Why a regular file cannot be written at [p], if it cannot: [p] is
    empty, or a directory, or in no directory, or ends with a separator,
    as only the name of a directory may. [paths] is what the message of
    the error shows. *)
Definition writable (w : World.t) (call p paths : string) : option (Outcome unit) :=
  if String.eqb p "" then Some (enoent call paths)
  else if isDir w p then Some (eisdir call paths)
  else if negb (isDir w (Path.dirname p)) then Some (enoent call paths)
  else if Path.hasTrailingSeparator p then Some (eisdir call paths)
  else None.

(** [fs.writeFile(p, data)] *)
Definition writeFile (p : string) (data : Blob) : M unit :=
  fun w =>
    let w := logCall (WriteFile p data) w in
    match writable w "open" p p with
    | Some err => (err, w)
    | None => (Ok tt, putFile p data w)
    end.

(** [fs.copyFile(src, dst)] *)
Definition copyFile (src dst : string) : M unit :=
  fun w =>
    let w := logCall (CopyFile src dst) w in
    match World.files w !! src with
    | None => (enoent "copyfile" (fromTo src dst), w)
    | Some node =>
        match writable w "copyfile" dst (fromTo src dst) with
        | Some err => (err, w)
        | None => (Ok tt, putFile dst (FsNode.blob node) w)
        end
    end.

(** [fs.rename(src, dst)], of a regular file *)
Definition rename (src dst : string) : M unit :=
  fun w =>
    let w := logCall (Rename src dst) w in
    match World.files w !! src with
    | None => (enoent "rename" (fromTo src dst), w)
    | Some node =>
        match writable w "rename" dst (fromTo src dst) with
        | Some err => (err, w)
        | None => (Ok tt, setFiles (<[dst := node]> (delete src (World.files w))) w)
        end
    end.

(** [fs.mkdtemp(prefix)]; the message of an error shows the pattern. *)
Definition mkdtemp (prefix : string) : M string :=
  fun w =>
    let w := logCall (Mkdtemp prefix) w in
    let p := prefix +:+ Runtime.tmpSuffix rt (World.tmpSeq w) in
    let w := World.mk (World.files w) (World.dirs w) (World.time w)
                      (S (World.tmpSeq w)) (World.trace w) (World.console w) in
    if negb (isDir w (Path.dirname p)) then (enoent "mkdtemp" (prefix +:+ "XXXXXX"), w)
    else if isDir w p || isFile w p then (eexist "mkdtemp" (prefix +:+ "XXXXXX"), w)
    else (Ok p, setDirs (World.dirs w ∪ {[locate p]}) w).

(** [fs.rm(p, { recursive: true, force: true })]: the directory goes with
    all below it, unless the operating system refuses, and then nothing
    goes. *)
Definition rm (p : string) : M unit :=
  fun w =>
    let w := logCall (Rm p) w in
    match Runtime.rmRefused rt p with
    | Some message => (Throw (JsError message), w)
    | None =>
        let gone q := String.eqb q (locate p) || JS.startsWith (locate p +:+ "/") q in
        let files := filter (fun kv => gone kv.1 = false) (World.files w) in
        let dirs := filter (fun q => gone q = false) (World.dirs w) in
        (Ok tt, setDirs dirs (setFiles files w))
    end.

(** [console.log], [console.warn] *)
Definition consoleLog (line : string) : M unit :=
  fun w =>
    (Ok tt, World.mk (World.files w) (World.dirs w) (World.time w) (World.tmpSeq w)
                     (World.trace w) (line :: World.console w)).

(** [new Date()] *)
Definition newDate : M Date.t :=
  fun w =>
    (Ok (now w), World.mk (World.files w) (World.dirs w) (S (World.time w))
                          (World.tmpSeq w) (World.trace w) (World.console w)).

(** [Date.now()] *)
Definition dateNow : M Z := d <- newDate ;; ret (Date.getTime d).

(** How a thrown value that follows the text of a log line is printed: the
    name and the message of an error, a value that is no error as it is.
    (The console adds the stack and the properties of an error, which are
    left out.) *)
Definition showThrown (e : Thrown) : string :=
  match e with
  | JsError message => "Error: " +:+ message
  | NonError value => value
  end.
End WithRuntime.
End Fs.

(** ** ContentExtractor *)

Module ContentExtractor.
Section WithRuntime.
Context (rt : Runtime.t).

Definition MAX_FILE_SIZE : Z := 10 * 1024 * 1024.

Definition warn (what : string) (file : FileInfo.t) (error : Thrown) : M unit :=
  Fs.consoleLog (what +:+ FileInfo.name file +:+ ": " +:+ Fs.showThrown error).

Definition extractText (file : FileInfo.t) : M string :=
  Fs.readFile (FileInfo.path file).

(** [x || null] on a string *)
Definition orNull (s : string) : option string :=
  if String.eqb s "" then None else Some s.

Definition extractPDF (file : FileInfo.t) : M (option string) :=
  tryCatch
    (match Runtime.pdfParse rt with
     | None => throw (JsError "Cannot find package 'pdf-parse'")
     | Some pdf =>
         dataBuffer <- Fs.readFile (FileInfo.path file) ;;
         match pdf dataBuffer with
         | None => throw (JsError "Invalid PDF structure")
         | Some text => ret (orNull text)
         end
     end)
    (fun error =>
       warn "Failed to extract PDF content from " file error ;;; ret None).

Definition extractDOCX (file : FileInfo.t) : M (option string) :=
  tryCatch
    (match Runtime.mammoth rt with
     | None => throw (JsError "Cannot find package 'mammoth'")
     | Some extractRawText =>
         bytes <- Fs.readFile (FileInfo.path file) ;;
         match extractRawText bytes with
         | None => throw (JsError "Could not read the document")
         | Some value => ret (orNull value)
         end
     end)
    (fun error =>
       warn "Failed to extract DOCX content from " file error ;;; ret None).

(** [/[\x00-\x08\x0B-\x0C\x0E-\x1F]/] *)
Definition isNonPrintable (c : ascii) : bool :=
  let n := nat_of_ascii c in
  (n <=? 8)%nat || ((11 <=? n)%nat && (n <=? 12)%nat)
  || ((14 <=? n)%nat && (n <=? 31)%nat).

(** [!nonPrintable || nonPrintable.length < content.length * 0.1], the
    product taken exactly. *)
Definition isTextContent (content : string) : bool :=
  let nonPrintable := List.filter isNonPrintable (list_ascii_of_string content) in
  match nonPrintable with
  | [] => true
  | _ => 10 * Z.of_nat (length nonPrintable) <? JS.len content
  end.

Definition extractBasic (file : FileInfo.t) : M (option string) :=
  tryCatch
    (content <- Fs.readFile (FileInfo.path file) ;;
     if isTextContent content then ret (Some content) else ret None)
    (fun _ => ret None).

Definition extractODT (file : FileInfo.t) : M (option string) :=
  Fs.consoleLog ("ODT extraction not yet implemented for " +:+ FileInfo.name file) ;;;
  ret None.

(** [/\s/] on 8-bit code units *)
Definition isSpace (c : ascii) : bool :=
  let n := nat_of_ascii c in
  ((9 <=? n)%nat && (n <=? 13)%nat) || (n =? 32)%nat || (n =? 160)%nat.

(** [.replace(/<[^>]*>/g, '')]: a [<] with a [>] after it goes, with all
    between them. *)
Fixpoint afterTag (l : list ascii) : option (list ascii) :=
  match l with
  | [] => None
  | c :: r => if Ascii.eqb c ">" then Some r else afterTag r
  end.

Fixpoint stripTags (fuel : nat) (l : list ascii) : list ascii :=
  match fuel, l with
  | O, _ => l
  | _, [] => []
  | S fuel', c :: r =>
      if Ascii.eqb c "<" then
        match afterTag r with
        | Some rest => stripTags fuel' rest
        | None => c :: stripTags fuel' r
        end
      else c :: stripTags fuel' r
  end.

(** [.replace(/\s+/g, ' ')]: [inRun] when the previous character was a
    space, already replaced. *)
Fixpoint collapseSpaces (inRun : bool) (l : list ascii) : list ascii :=
  match l with
  | [] => []
  | c :: r =>
      if isSpace c then
        (if inRun then collapseSpaces true r else " "%char :: collapseSpaces true r)
      else c :: collapseSpaces false r
  end.

(** [.trim()] *)
Definition trim (l : list ascii) : list ascii :=
  rev (Path.dropWhile isSpace (rev (Path.dropWhile isSpace l))).

Definition extractHTML (file : FileInfo.t) : M (option string) :=
  tryCatch
    (content <- Fs.readFile (FileInfo.path file) ;;
     let chars := list_ascii_of_string content in
     ret (Some (string_of_list_ascii
                  (trim (collapseSpaces false (stripTags (length chars) chars))))))
    (fun error =>
       warn "Failed to extract HTML content from " file error ;;; ret None).

Definition extractDocument (file : FileInfo.t) : M (option string) :=
  let ext := JS.toLowerCase (FileInfo.extension file) in
  if JS.arr_includes ext ["txt"; "md"; "markdown"; "rtf"] then
    content <- extractText file ;; ret (Some content)
  else if String.eqb ext "pdf" then extractPDF file
  else if JS.arr_includes ext ["docx"; "doc"] then extractDOCX file
  else if String.eqb ext "odt" then extractODT file
  else if JS.arr_includes ext ["html"; "htm"] then extractHTML file
  else ret None.

(** The lines of [info] all start with a label: [.filter(Boolean)] keeps
    them all. *)
Definition extractImage (file : FileInfo.t) : M (option string) :=
  tryCatch
    (image <- Fs.readFile (FileInfo.path file) ;;
     match Runtime.sharp rt image with
     | None => throw (JsError "Input file contains unsupported image format")
     | Some metadata =>
         ret (Some (JS.join JS.nl
           ["Image: " +:+ FileInfo.name file;
            "Format: " +:+ ImageMetadata.format metadata;
            "Dimensions: " +:+ ImageMetadata.width metadata +:+ "x"
                           +:+ ImageMetadata.height metadata;
            "Color space: " +:+ ImageMetadata.space metadata;
            "Channels: " +:+ ImageMetadata.channels metadata;
            if ImageMetadata.exif metadata then "Contains EXIF data"
            else "No EXIF data"]))
     end)
    (fun error =>
       warn "Failed to extract image metadata from " file error ;;;
       ret (Some ("Image file: " +:+ FileInfo.name file +:+ " ("
                  +:+ JS.toUpperCase (FileInfo.extension file) +:+ ")"))).

Definition extractMedia (file : FileInfo.t) : M (option string) :=
  let ext := JS.toLowerCase (FileInfo.extension file) in
  let mediaTypes :=
    [("mp3", "MP3 Audio"); ("wav", "WAV Audio"); ("flac", "FLAC Audio");
     ("aac", "AAC Audio"); ("ogg", "OGG Audio"); ("m4a", "M4A Audio");
     ("mp4", "MP4 Video"); ("mkv", "MKV Video"); ("avi", "AVI Video");
     ("mov", "QuickTime Video"); ("wmv", "WMV Video"); ("webm", "WebM Video")] in
  let mediaType :=
    JS.toString (JS.memberOr (JS.member mediaTypes ext) (JS.toUpperCase ext +:+ " Media")) in
  ret (Some (JS.join JS.nl
    ["Media file: " +:+ FileInfo.name file;
     "Type: " +:+ mediaType;
     "Size: " +:+ Runtime.formatFileSize rt (FileInfo.size file);
     "Created: " +:+ Date.toLocaleDateString (FileInfo.createdAt file)])).

Definition extractArchiveMetadata (file : FileInfo.t) : M (option string) :=
  let ext := JS.toLowerCase (FileInfo.extension file) in
  let archiveTypes :=
    [("zip", "ZIP Archive"); ("rar", "RAR Archive"); ("tar", "TAR Archive");
     ("gz", "GZIP Archive"); ("7z", "7-Zip Archive"); ("bz2", "BZIP2 Archive")] in
  let archiveType :=
    JS.toString
      (JS.memberOr (JS.member archiveTypes ext) (JS.toUpperCase ext +:+ " Archive")) in
  ret (Some (JS.join JS.nl
    ["Archive: " +:+ FileInfo.name file;
     "Type: " +:+ archiveType;
     "Size: " +:+ Runtime.formatFileSize rt (FileInfo.size file);
     "Note: Archive contents not extracted for security"])).

Definition maxSize (file : FileInfo.t) : Z :=
  match FileInfo.type file with
  | Image | Media => 50 * 1024 * 1024
  | _ => MAX_FILE_SIZE
  end.

Definition extract (file : FileInfo.t) : M (option string) :=
  tryCatch
    (if maxSize file <? FileInfo.size file then ret None
     else
       match FileInfo.type file with
       | Document => extractDocument file
       | Code | Data => content <- extractText file ;; ret (Some content)
       | Image => extractImage file
       | Media => extractMedia file
       | Archive => extractArchiveMetadata file
       | Unknown => extractBasic file
       end)
    (fun error => warn "Failed to extract content from " file error ;;; ret None).
End WithRuntime.
End ContentExtractor.

(** The earlier revision of ContentExtractor, kept in the repository: one
    ceiling for every type, no metadata for images, media and archives. *)
Module LegacyContentExtractor.
Definition MAX_FILE_SIZE : Z := 10 * 1024 * 1024.

Definition extractText (file : FileInfo.t) : M string :=
  Fs.readFile (FileInfo.path file).

Definition extractDocument (file : FileInfo.t) : M (option string) :=
  if JS.arr_includes (FileInfo.extension file) ["txt"; "md"] then
    content <- extractText file ;; ret (Some content)
  else ret None.

Definition extractBasic (file : FileInfo.t) : M (option string) :=
  tryCatch
    (content <- Fs.readFile (FileInfo.path file) ;;
     if ContentExtractor.isTextContent content then ret (Some content) else ret None)
    (fun _ => ret None).

Definition extract (file : FileInfo.t) : M (option string) :=
  tryCatch
    (if MAX_FILE_SIZE <? FileInfo.size file then ret None
     else
       match FileInfo.type file with
       | Document => extractDocument file
       | Code | Data => content <- extractText file ;; ret (Some content)
       | Image => ret None
       | _ => extractBasic file
       end)
    (fun error =>
       ContentExtractor.warn "Failed to extract content from " file error ;;; ret None).
End LegacyContentExtractor.

(** ** Frontmatter *)

Module Frontmatter.
(** The fields in the order the object literals of FileProcessor list
    them; the optional ones are absent from some of the literals. *)
Record t : Type := mk {
  title : string;
  originalFile : string;
  sourceLocation : option string;
  fileType : string;
  archiveType : option string;
  extractedFiles : option Z;
  created : string;
  processed : string;
  tags : list string
}.

Inductive Value : Type :=
  | Str (s : string)
  | Num (n : Z)
  | Arr (items : list string).

(** [Object.entries(frontmatter)] *)
Definition entries (fm : t) : list (string * Value) :=
  ([("title", Str (title fm)); ("originalFile", Str (originalFile fm))]
   ++ match sourceLocation fm with Some s => [("sourceLocation", Str s)] | None => [] end
   ++ [("fileType", Str (fileType fm))]
   ++ match archiveType fm with Some s => [("archiveType", Str s)] | None => [] end
   ++ match extractedFiles fm with Some n => [("extractedFiles", Num n)] | None => [] end
   ++ [("created", Str (created fm)); ("processed", Str (processed fm));
       ("tags", Arr (tags fm))])%list.
End Frontmatter.

(** ** MarkdownGenerator *)

Module MarkdownGenerator.

Definition hexDigit (n : nat) : ascii :=
  ascii_of_nat (if (n <? 10)%nat then 48 + n else 87 + n).

Definition quoteChar : ascii := ascii_of_nat 34.
Definition backslashChar : ascii := ascii_of_nat 92.
Definition quote : string := String quoteChar "".
Definition backslash : string := String backslashChar "".

(** [JSON.stringify] of one code unit inside a string *)
Definition jsonChar (c : ascii) : string :=
  let n := nat_of_ascii c in
  if Ascii.eqb c quoteChar then backslash +:+ quote
  else if Ascii.eqb c backslashChar then backslash +:+ backslash
  else if (n =? 8)%nat then backslash +:+ "b"
  else if (n =? 9)%nat then backslash +:+ "t"
  else if (n =? 10)%nat then backslash +:+ "n"
  else if (n =? 12)%nat then backslash +:+ "f"
  else if (n =? 13)%nat then backslash +:+ "r"
  else if (n <? 32)%nat then
    backslash +:+ "u00" +:+ String (hexDigit (n / 16)) (String (hexDigit (n mod 16)) "")
  else String c "".

Fixpoint jsonChars (s : string) : string :=
  match s with
  | EmptyString => EmptyString
  | String c r => jsonChar c +:+ jsonChars r
  end.

Definition stringify (v : Frontmatter.Value) : string :=
  match v with
  | Frontmatter.Str s => quote +:+ jsonChars s +:+ quote
  | Frontmatter.Num n => JS.ofZ n
  | Frontmatter.Arr items =>
      "[" +:+ JS.join "," (map (fun s => quote +:+ jsonChars s +:+ quote) items) +:+ "]"
  end.

Definition generateFrontmatter (frontmatter : Frontmatter.t) : string :=
  let line (kv : string * Frontmatter.Value) : list string :=
    match kv.2 with
    | Frontmatter.Arr value =>
        if String.eqb kv.1 "tags"
        then "tags:" :: map (fun tag => "  - " +:+ tag) value
        else [kv.1 +:+ ": " +:+ stringify kv.2]
    | _ => [kv.1 +:+ ": " +:+ stringify kv.2]
    end in
  JS.join JS.nl
    (["---"] ++ concat (map line (Frontmatter.entries frontmatter))
     ++ [("---" +:+ JS.nl)%string])%list.

(** [if (content)]: a string that is neither null nor empty *)
Definition truthy (content : option string) : option string :=
  match content with
  | Some s => if String.eqb s "" then None else Some s
  | None => None
  end.

Definition generateDocumentContent (content : option string) : string :=
  match truthy content with
  | None => "## Content" +:+ JS.nl +:+ JS.nl +:+ "*Unable to extract content from this document.*"
  | Some content =>
      let sections := ["## Content" +:+ JS.nl] in
      let maxLength := 5000 in
      let sections :=
        if maxLength <? JS.len content then
          (sections ++ [JS.substring0 maxLength content;
                        (JS.nl +:+ JS.nl +:+ "*... (content truncated)*")%string])%list
        else (sections ++ [content])%list in
      JS.join JS.nl sections
  end.

(** [languageMap[extension] || extension], as the string every use of it
    makes of it (a template literal, a [+], a property key). *)
Definition getLanguageFromExtension (extension : string) : string :=
  let languageMap :=
    [("js", "javascript"); ("ts", "typescript"); ("py", "python"); ("rb", "ruby");
     ("java", "java"); ("cpp", "cpp"); ("c", "c"); ("cs", "csharp"); ("go", "go");
     ("rs", "rust"); ("php", "php"); ("swift", "swift"); ("kt", "kotlin")] in
  JS.toString (JS.memberOr (JS.member languageMap extension) extension).

Section WithRuntime.
Context (rt : Runtime.t).

Definition generateImageContent (file : FileInfo.t) : string :=
  JS.join JS.nl
    ["![[" +:+ FileInfo.name file +:+ "]]";
     "";
     "## Description";
     "Image file: " +:+ FileInfo.name file;
     "";
     "## Properties";
     "- **Format**: " +:+ JS.toUpperCase (FileInfo.extension file);
     "- **Size**: " +:+ Runtime.formatBytes rt (FileInfo.size file);
     "- **Modified**: " +:+ Date.toLocaleDateString (FileInfo.modifiedAt file)].

(** The captures of the pattern of [language], empty ones dropped,
    then [[...new Set(functions)]]. [language] is what
    [getLanguageFromExtension] returned, which never is the name of a
    member of [Object.prototype]: [patterns[language]] is the pattern of an
    own key or [undefined]. *)
Definition extractFunctions (content language : string) : list string :=
  let functions :=
    if JS.arr_includes language ["javascript"; "typescript"; "python"; "java"]
    then List.filter (fun funcName => negb (String.eqb funcName ""))
                     (Runtime.functionNames rt language content)
    else [] in
  foldl (fun set funcName => JS.set_add funcName set) [] functions.

Definition generateCodeContent (file : FileInfo.t) (content : option string) : string :=
  let language := getLanguageFromExtension (FileInfo.extension file) in
  let sections :=
    ["## Overview"; "Source code file written in " +:+ language +:+ "."; ""] in
  let sections :=
    match truthy content with
    | None => sections
    | Some content =>
        let lines := JS.split JS.nl_char content in
        let functions := extractFunctions content language in
        (sections
         ++ ["## Statistics";
             ("- **Lines of code**: " +:+ JS.ofZ (Z.of_nat (length lines)))%string;
             ("- **File size**: " +:+ Runtime.formatBytes rt (FileInfo.size file))%string;
             ""]
         ++ match functions with
            | [] => []
            | _ => ["## Key Functions"]
                   ++ map (fun func => ("- `" +:+ func +:+ "`")%string)
                          (firstn 10 functions)
                   ++ [""]
            end
         ++ ["## Code Preview"; ("```" +:+ language)%string;
             JS.join JS.nl (firstn 50 lines)]
         ++ (if (50 <? length lines)%nat then ["// ... (truncated)"] else [])
         ++ ["```"])%list
    end in
  JS.join JS.nl sections.

Definition generateDefaultContent (file : FileInfo.t) (content : option string) : string :=
  let sections :=
    ["## File Information";
     "- **Type**: " +:+ FileType_str (FileInfo.type file);
     "- **Format**: " +:+ FileInfo.extension file;
     "- **Size**: " +:+ Runtime.formatBytes rt (FileInfo.size file);
     "- **Modified**: " +:+ Date.toLocaleDateString (FileInfo.modifiedAt file)] in
  let sections :=
    match truthy content with
    | None => sections
    | Some content =>
        (sections
         ++ [""; "## Content Preview"; "```"; JS.substring0 1000 content]
         ++ (if 1000 <? JS.len content then ["... (truncated)"] else [])
         ++ ["```"])%list
    end in
  JS.join JS.nl sections.

Definition generateFooter (file : FileInfo.t) : string :=
  JS.nl +:+ "---" +:+ JS.nl +:+ "*Original file: [" +:+ FileInfo.name file
        +:+ "](file://" +:+ FileInfo.path file +:+ ")*".

Definition generate (file : FileInfo.t) (content : option string)
    (frontmatter : Frontmatter.t) : string :=
  let sections :=
    [generateFrontmatter frontmatter;
     "# " +:+ Frontmatter.title frontmatter +:+ JS.nl;
     match FileInfo.type file with
     | Image => generateImageContent file
     | Code => generateCodeContent file content
     | Document => generateDocumentContent content
     | _ => generateDefaultContent file content
     end;
     generateFooter file] in
  JS.join JS.nl sections.
End WithRuntime.
End MarkdownGenerator.

(** ** Configuration and results *)

Module VaultStructure.
Record t : Type := mk {
  documents : string;
  media : string;
  code : string;
  references : string
}.
End VaultStructure.

Module VaultConfig.
Record t : Type := mk { path : string; structure : VaultStructure.t }.
End VaultConfig.

Module OriginalsConfig.
Record t : Type := mk {
  path : string;
  organizationStyle : string;
  createYearFolders : bool
}.
End OriginalsConfig.

Module TaggingConfig.
Record t : Type := mk { maxTags : Z }.
End TaggingConfig.

Module Config.
Record t : Type := mk {
  vault : VaultConfig.t;
  originals : OriginalsConfig.t;
  tagging : TaggingConfig.t
}.
End Config.

Module ProcessOptions.
(** [onProgress] is code of the caller: a computation like any other, that
    may throw. *)
Record t : Type := mk {
  dryRun : bool;
  copy : bool;
  batchSize : Z;
  onProgress : option (Z -> Z -> FileInfo.t -> M unit)
}.
End ProcessOptions.

Module ProcessedFile.
Record t : Type := mk {
  original : FileInfo.t;
  markdownPath : string;
  originalNewPath : string;
  content : string;
  frontmatter : Frontmatter.t;
  tags : list string;
  category : string
}.
End ProcessedFile.

Module Summary.
Record t : Type := mk {
  total : Z;
  successful : Z;
  failed : Z;
  duration : Z
}.
End Summary.

Module OrganizationResult.
Record t : Type := mk {
  processed : list ProcessedFile.t;
  failed : list (FileInfo.t * string);
  summary : Summary.t
}.
End OrganizationResult.

(** ** FileProcessor *)

Module FileProcessor.
Section WithConfig.
Context (rt : Runtime.t) (config : Config.t).

(** The comparator [(a, b) => b.confidence - a.confidence] *)
Definition byConfidence (a b : TagSuggestion.t) : Q :=
  TagSuggestion.confidence b - TagSuggestion.confidence a.

(** [tagSuggestions.sort(...).slice(0, maxTags).map(t => t.tag)] *)
Definition selectTags (tagSuggestions : list TagSuggestion.t) : list string :=
  map TagSuggestion.tag
    (JS.slice0 (TaggingConfig.maxTags (Config.tagging config))
               (JS.sort byConfidence tagSuggestions)).

Definition getExistingVaultFolders : M (list string) :=
  tryCatch
    (entries <- Fs.readdir rt (VaultConfig.path (Config.vault config)) ;;
     ret (map fst
            (List.filter (fun entry : string * bool =>
                            entry.2 && negb (JS.startsWith "." entry.1)) entries)))
    (fun _ => ret []).

(** [typeMap[category.toLowerCase()] || structure.references]: declared
    to return a string, it returns the member of [Object.prototype] for a
    category that lowercases to the name of one. *)
Definition mapCategoryToVaultFolder (category : string) : JS.Value :=
  let structure := VaultConfig.structure (Config.vault config) in
  let typeMap :=
    [("document", VaultStructure.documents structure);
     ("image", VaultStructure.media structure);
     ("code", VaultStructure.code structure);
     ("media", VaultStructure.media structure)] in
  JS.memberOr (JS.member typeMap (JS.toLowerCase category))
              (VaultStructure.references structure).

(** [path.join(this.config.vault.path, vaultCategory, sanitizeFilename(name))] *)
Definition markdownPathOf (vaultCategory : JS.Value) (name : string) : M string :=
  returnOrThrow
    (Path.joinValues [JS.Str (VaultConfig.path (Config.vault config)); vaultCategory;
                      JS.Str (Runtime.sanitizeFilename rt name)]).

(** [getDatePath()] reads the clock. *)
Definition getOriginalFilePath (file : FileInfo.t) (category : string) : M string :=
  let originals := Config.originals config in
  let basePath := OriginalsConfig.path originals in
  let basePath :=
    if OriginalsConfig.createYearFolders originals
    then Path.join [basePath; JS.ofZ (Date.getFullYear (FileInfo.modifiedAt file))]
    else basePath in
  basePath <-
    (if String.eqb (OriginalsConfig.organizationStyle originals) "type-based"
     then ret (Path.join [basePath; category])
     else if String.eqb (OriginalsConfig.organizationStyle originals) "date-based"
     then today <- Fs.newDate rt ;;
          ret (Path.join [basePath; Runtime.getDatePath rt today])
     else ret basePath) ;;
  ret (Path.join [basePath; FileInfo.name file]).

Definition ensureDirectory (dirPath : string) : M unit := Fs.mkdir dirPath.

(** The file operations both per-file routines end with. *)
Definition placeFiles (options : ProcessOptions.t) (file : FileInfo.t)
    (markdownPath originalNewPath markdownContent : string) : M unit :=
  if negb (ProcessOptions.dryRun options) then
    ensureDirectory (Path.dirname markdownPath) ;;;
    ensureDirectory (Path.dirname originalNewPath) ;;;
    Fs.writeFile rt markdownPath (text markdownContent) ;;;
    if ProcessOptions.copy options
    then Fs.copyFile rt (FileInfo.path file) originalNewPath
    else Fs.rename (FileInfo.path file) originalNewPath
  else ret tt.

Definition wikiLink (target : string) : string := "[[file://" +:+ target +:+ "]]".

(** The per-file routine for a file that is no archive: lines 74-133 of
    [processFile], which [processFileAsNormal] repeats word for word. *)
Definition processFileAsNormal (file : FileInfo.t) (options : ProcessOptions.t)
    : M ProcessedFile.t :=
  content <- ContentExtractor.extract rt file ;;
  let tagSuggestions := ClaudeService.suggestTags file (MarkdownGenerator.truthy content) in
  let tags := selectTags tagSuggestions in
  existingFolders <- getExistingVaultFolders ;;
  let categorySuggestion := ClaudeService.suggestCategory file existingFolders in
  let category := CategorySuggestion.category categorySuggestion in
  let vaultCategory := mapCategoryToVaultFolder category in
  markdownPath <- markdownPathOf vaultCategory (Path.parseName (FileInfo.name file) +:+ ".md") ;;
  originalNewPath <- getOriginalFilePath file category ;;
  processed <- Fs.newDate rt ;;
  let frontmatter :=
    Frontmatter.mk (Path.parseName (FileInfo.name file))
                   (wikiLink originalNewPath)
                   (Some (FileInfo.path file))
                   (FileInfo.extension file)
                   None None
                   (Date.toISOString (FileInfo.createdAt file))
                   (Date.toISOString processed)
                   tags in
  let markdownContent := MarkdownGenerator.generate rt file content frontmatter in
  placeFiles options file markdownPath originalNewPath markdownContent ;;;
  ret (ProcessedFile.mk file markdownPath originalNewPath markdownContent
                        frontmatter tags category).

(** [!entry.type || entry.type === 'File'] *)
Definition isFileEntry (entry : ZipEntry) : bool :=
  match entry_type entry with
  | None => true
  | Some t => String.eqb t "" || String.eqb t "File"
  end.

Definition extractEntry (outputDir : string) (entry : ZipEntry) : M string :=
  let safePath := safePath outputDir (entry_path entry) in
  Fs.mkdir (Path.dirname safePath) ;;;
  buffer <- match entry_buffer entry with
            | Some buffer => ret buffer
            | None => throw (JsError "invalid stored block lengths")
            end ;;
  Fs.writeFile rt safePath buffer ;;;
  ret safePath.

(** The loop over [archive.files]. [extractedFiles] keeps what was pushed
    before an entry throws; the thrown value is returned beside it. *)
Fixpoint extractEntries (outputDir : string) (entries : list ZipEntry)
    (extractedFiles : list string) : M (list string * option Thrown) :=
  match entries with
  | [] => ret (extractedFiles, None)
  | entry :: rest =>
      if isFileEntry entry then
        fun w =>
          match extractEntry outputDir entry w with
          | (Ok safePath, w') =>
              extractEntries outputDir rest (extractedFiles ++ [safePath])%list w'
          | (Throw e, w') => (Ok (extractedFiles, Some e), w')
          | (OutOfFuel, w') => (OutOfFuel, w')
          end
      else extractEntries outputDir rest extractedFiles
  end.

(** The import of [unzipper] and [Open.file(file.path)]: the entries of
    the archive, or [None] when either throws. *)
Definition openArchive (file : FileInfo.t) : M (option (list ZipEntry)) :=
  tryCatch
    (if Runtime.unzipper rt then
       archive <- Fs.readBlob (OpenZip (FileInfo.path file)) (FileInfo.path file) ;;
       match blob_zip archive with
       | Some entries => ret (Some entries)
       | None => throw (JsError "FILE_ENDED")
       end
     else throw (JsError "Cannot find package 'unzipper'"))
    (fun _ => ret None).

(** The inner [catch] logs whatever the import, the opening or an entry
    threw; nothing in the outer [try] block can throw past it. *)
Definition extractArchive (file : FileInfo.t) (outputDir : string) : M (list string) :=
  if String.eqb (JS.toLowerCase (FileInfo.extension file)) "zip" then
    opened <- openArchive file ;;
    r <- match opened with
         | Some entries => extractEntries outputDir entries []
         | None => ret ([], Some (JsError "import"))
         end ;;
    match r.2 with
    | Some _ =>
        Fs.consoleLog "Archive extraction requires 'unzipper' package. Install with: npm install unzipper" ;;;
        Fs.consoleLog ("Skipping extraction of " +:+ FileInfo.name file) ;;;
        ret r.1
    | None => ret r.1
    end
  else
    Fs.consoleLog ("Archive type " +:+ FileInfo.extension file
                   +:+ " not yet supported for extraction") ;;;
    ret [].

(** [groups[category].push(file)] on a group that is there, or after
    [groups[category] = []] *)
Fixpoint pushGroup (category : string) (file : ProcessedFile.t)
    (groups : list (string * list ProcessedFile.t))
    : list (string * list ProcessedFile.t) :=
  match groups with
  | [] => [(category, [file])]
  | (key, files) :: rest =>
      if String.eqb key category then (key, files ++ [file])%list :: rest
      else (key, files) :: pushGroup category file rest
  end.

Definition isDigit (c : ascii) : bool :=
  let n := nat_of_ascii c in (48 <=? n)%nat && (n <=? 57)%nat.

(** The integer a key denotes when it is an array index: decimal, no
    leading zero, below [2^32 - 1]. *)
Definition arrayIndex (key : string) : option Z :=
  let digits := list_ascii_of_string key in
  let value :=
    foldl (fun acc c => 10 * acc + Z.of_nat (nat_of_ascii c - 48)) 0 digits in
  match digits with
  | [] => None
  | d :: more =>
      if forallb isDigit digits
         && (negb (Ascii.eqb d "0") || match more with [] => true | _ => false end)
         && (length digits <=? 10)%nat && (value <? 4294967295)
      then Some value else None
  end.

(** [Object.entries]: the array-index keys in ascending order, then the
    other keys in the order of their creation. *)
Definition objectEntries {V} (o : list (string * V)) : list (string * V) :=
  let indexed :=
    omap (fun kv : string * V => (fun i => (i, kv)) <$> arrayIndex kv.1) o in
  let others :=
    List.filter (fun kv : string * V =>
                   match arrayIndex kv.1 with None => true | Some _ => false end) o in
  (map snd (JS.sort (fun a b : Z * (string * V) => inject_Z (a.1 - b.1)) indexed)
   ++ others)%list.

(** [.replace(/\.md$/, '')] *)
Definition stripMd (p : string) : string :=
  if JS.endsWith ".md" p then String.substring 0 (String.length p - 3) p else p.

(** One turn of the [reduce]. [groups] starts as [{}]: for a category
    that is the name of a member of [Object.prototype], [groups[category]]
    is that member, no group is made, and the member has no [push]. *)
Definition groupChild (groups : Thrown + list (string * list ProcessedFile.t))
    (file : ProcessedFile.t) : Thrown + list (string * list ProcessedFile.t) :=
  match groups with
  | inl e => inl e
  | inr groups =>
      let category :=
        if String.eqb (ProcessedFile.category file) "" then "unknown"
        else ProcessedFile.category file in
      if JS.arr_includes category JS.objectPrototypeKeys
      then inl (JsError "groups[category].push is not a function")
      else inr (pushGroup category file groups)
  end.

Definition generateArchiveSummary (archiveFile : FileInfo.t)
    (extractedFiles : list ProcessedFile.t) : Thrown + string :=
  let summary :=
    ["# Archive: " +:+ FileInfo.name archiveFile;
     "";
     "This archive contained " +:+ JS.ofZ (Z.of_nat (length extractedFiles))
       +:+ " files that were extracted and processed:";
     ""] in
  let section (entry : string * list ProcessedFile.t) : list string :=
    let '(category, files) := entry in
    (["## " +:+ JS.toUpperCase (JS.charAt0 category) +:+ JS.slice1 category
            +:+ " Files (" +:+ JS.ofZ (Z.of_nat (length files)) +:+ ")";
      ""]
     ++ map (fun file =>
               let linkName := Path.parseName (FileInfo.name (ProcessedFile.original file)) in
               let relativePath :=
                 Runtime.relative rt (VaultConfig.path (Config.vault config))
                                  (ProcessedFile.markdownPath file) in
               ("- [[" +:+ stripMd relativePath +:+ "|" +:+ linkName +:+ "]]")%string)
            files
     ++ [""])%list in
  match foldl groupChild (inr []) extractedFiles with
  | inl e => inl e
  | inr byCategory =>
      inr (JS.join JS.nl (summary ++ concat (map section (objectEntries byCategory)))%list)
  end.

(** [tag.split('/').pop()] *)
Definition lastSegment (tag : string) : string :=
  List.last (JS.split "/" tag) "".

Definition generateArchiveTags (archiveFile : FileInfo.t)
    (extractedFiles : list ProcessedFile.t) : list string :=
  let tags := [] in
  let tags := JS.set_add "type/archive" tags in
  let tags := JS.set_add ("format/" +:+ FileInfo.extension archiveFile) tags in
  let tags := JS.set_add "source/expanded" tags in
  let tags := JS.set_add (ClaudeService.dateTag (FileInfo.modifiedAt archiveFile)) tags in
  let childTags :=
    foldl (fun childTags file =>
             foldl (fun childTags tag =>
                      if negb (JS.startsWith "type/" tag) && negb (JS.startsWith "format/" tag)
                      then JS.set_add tag childTags else childTags)
                   childTags (ProcessedFile.tags file))
          [] extractedFiles in
  let tagCounts :=
    map (fun tag =>
           (tag, Z.of_nat (length (List.filter
                    (fun file => JS.arr_includes tag (ProcessedFile.tags file))
                    extractedFiles))))
        childTags in
  let common :=
    JS.slice0 5 (JS.sort (fun a b : string * Z => inject_Z (b.2 - a.2)) tagCounts) in
  let tags :=
    foldl (fun tags tc => JS.set_add ("contains/" +:+ lastSegment tc.1) tags) tags common in
  JS.slice0 (TaggingConfig.maxTags (Config.tagging config)) tags.

(** One turn of the loop over the extracted files: the child is pushed
    when it is processed, logged and left out when anything throws. *)
Definition processExtracted (processFile : FileInfo.t -> M ProcessedFile.t)
    (childResults : list ProcessedFile.t) (extractedFile : string)
    : M (list ProcessedFile.t) :=
  tryCatch
    (stat <- Fs.stat rt extractedFile ;;
     let extension := JS.toLowerCase (JS.slice1 (Path.extname extractedFile)) in
     let fileInfo :=
       FileInfo.mk extractedFile (Path.basename extractedFile) extension
                   (Stats.size stat) (Stats.birthtime stat) (Stats.mtime stat)
                   (determineFileType extension) in
     processed <- processFile fileInfo ;;
     ret (childResults ++ [processed])%list)
    (fun error =>
       Fs.consoleLog ("Failed to process extracted file " +:+ extractedFile +:+ ": "
                      +:+ Fs.showThrown error) ;;;
       ret childResults).

Fixpoint foldM {A B} (f : A -> B -> M A) (acc : A) (l : list B) : M A :=
  match l with
  | [] => ret acc
  | x :: r => acc' <- f acc x ;; foldM f acc' r
  end.

(** [processFile] is the routine called back for the members. *)
Definition processArchiveRecursively (processFile : FileInfo.t -> M ProcessedFile.t)
    (file : FileInfo.t) (options : ProcessOptions.t) : M ProcessedFile.t :=
  tempExtractDir <- Fs.mkdtemp rt (Path.join [Runtime.tmpdir rt; "polish-archive-"]) ;;
  tryFinally
    (Fs.consoleLog ("Expanding archive: " +:+ FileInfo.name file) ;;;
     extractedFiles <- extractArchive file tempExtractDir ;;
     match extractedFiles with
     | [] =>
         Fs.consoleLog ("Archive " +:+ FileInfo.name file
                        +:+ " appears to be empty or could not be extracted") ;;;
         processFileAsNormal file options
     | _ =>
         Fs.consoleLog ("Found " +:+ JS.ofZ (Z.of_nat (length extractedFiles))
                        +:+ " files in archive") ;;;
         childResults <- foldM (processExtracted processFile) [] extractedFiles ;;
         archiveContent <- returnOrThrow (generateArchiveSummary file childResults) ;;
         let tags := generateArchiveTags file childResults in
         existingFolders <- getExistingVaultFolders ;;
         let categorySuggestion := ClaudeService.suggestCategory file existingFolders in
         let category := CategorySuggestion.category categorySuggestion in
         let vaultCategory := mapCategoryToVaultFolder category in
         markdownPath <-
           markdownPathOf vaultCategory (Path.parseName (FileInfo.name file) +:+ "_archive.md") ;;
         originalNewPath <- getOriginalFilePath file category ;;
         processed <- Fs.newDate rt ;;
         let frontmatter :=
           Frontmatter.mk ("Archive: " +:+ Path.parseName (FileInfo.name file))
                          (wikiLink originalNewPath)
                          (Some (FileInfo.path file))
                          (FileInfo.extension file)
                          (Some "expanded")
                          (Some (Z.of_nat (length childResults)))
                          (Date.toISOString (FileInfo.createdAt file))
                          (Date.toISOString processed)
                          tags in
         let markdownContent :=
           MarkdownGenerator.generate rt file (Some archiveContent) frontmatter in
         placeFiles options file markdownPath originalNewPath markdownContent ;;;
         ret (ProcessedFile.mk file markdownPath originalNewPath markdownContent
                               frontmatter tags category)
     end)
    (tryCatch
       (Fs.rm rt tempExtractDir)
       (fun error =>
          Fs.consoleLog ("Failed to clean up temporary directory " +:+ tempExtractDir
                         +:+ ": " +:+ Fs.showThrown error))).

(** [processFile]; the recursion through the members of an archive is
    bounded by [fuel]. *)
Fixpoint processFile (fuel : nat) (file : FileInfo.t) (options : ProcessOptions.t)
    : M ProcessedFile.t :=
  match fuel with
  | O => outOfFuel
  | S fuel' =>
      if decide (FileInfo.type file = Archive)
      then processArchiveRecursively (fun member => processFile fuel' member options)
                                     file options
      else processFileAsNormal file options
  end.

(** [error instanceof Error ? error.message : 'Unknown error'] *)
Definition errorMessage (error : Thrown) : string :=
  match error with
  | JsError message => message
  | NonError _ => "Unknown error"
  end.

Definition pushProcessed (processed : ProcessedFile.t) (results : OrganizationResult.t)
    : OrganizationResult.t :=
  let s := OrganizationResult.summary results in
  OrganizationResult.mk
    (OrganizationResult.processed results ++ [processed])%list
    (OrganizationResult.failed results)
    (Summary.mk (Summary.total s) (Summary.successful s + 1) (Summary.failed s)
                (Summary.duration s)).

Definition pushFailed (file : FileInfo.t) (error : string) (results : OrganizationResult.t)
    : OrganizationResult.t :=
  let s := OrganizationResult.summary results in
  OrganizationResult.mk
    (OrganizationResult.processed results)
    (OrganizationResult.failed results ++ [(file, error)])%list
    (Summary.mk (Summary.total s) (Summary.successful s) (Summary.failed s + 1)
                (Summary.duration s)).

Definition setDuration (duration : Z) (results : OrganizationResult.t)
    : OrganizationResult.t :=
  let s := OrganizationResult.summary results in
  OrganizationResult.mk
    (OrganizationResult.processed results) (OrganizationResult.failed results)
    (Summary.mk (Summary.total s) (Summary.successful s) (Summary.failed s) duration).

Section Batch.
(** The per-file routine: [processFile] of this revision at some fuel,
    or the one of the earlier revision. *)
Context (perFile : FileInfo.t -> ProcessOptions.t -> M ProcessedFile.t).

(** [if (options.onProgress) options.onProgress(i + 1, files.length, file)] *)
Definition reportProgress (options : ProcessOptions.t) (index total : Z) (file : FileInfo.t)
    : M unit :=
  match ProcessOptions.onProgress options with
  | Some onProgress => onProgress index total file
  | None => ret tt
  end.

(** The body of the [for] loop at index [i] (from 0): the callback is
    called before the [try] block, whose handler does not see what it
    throws. *)
Definition processOne (total : Z) (options : ProcessOptions.t)
    (results : OrganizationResult.t) (i : Z) (file : FileInfo.t)
    : M OrganizationResult.t :=
  reportProgress options (i + 1) total file ;;;
  tryCatch
    (processed <- perFile file options ;;
     ret (pushProcessed processed results))
    (fun error => ret (pushFailed file (errorMessage error) results)).

Fixpoint batchLoop (total : Z) (options : ProcessOptions.t)
    (results : OrganizationResult.t) (i : Z) (files : list FileInfo.t)
    : M OrganizationResult.t :=
  match files with
  | [] => ret results
  | file :: rest =>
      results' <- processOne total options results i file ;;
      batchLoop total options results' (i + 1) rest
  end.

Definition processFilesWith (files : list FileInfo.t) (options : ProcessOptions.t)
    : M OrganizationResult.t :=
  let total := Z.of_nat (length files) in
  let results := OrganizationResult.mk [] [] (Summary.mk total 0 0 0) in
  startTime <- Fs.dateNow rt ;;
  results <- batchLoop total options results 0 files ;;
  endTime <- Fs.dateNow rt ;;
  ret (setDuration (endTime - startTime) results).
End Batch.

Definition processFiles (fuel : nat) (files : list FileInfo.t)
    (options : ProcessOptions.t) : M OrganizationResult.t :=
  processFilesWith (processFile fuel) files options.
End WithConfig.
End FileProcessor.

(** ** The earlier revision of FileProcessor, kept in the repository

    No archives; [originalFile] links to the source path and the
    frontmatter has no [sourceLocation]. *)

Module LegacyFileProcessor.
Section WithConfig.
Context (rt : Runtime.t) (config : Config.t).

Definition processFile (file : FileInfo.t) (options : ProcessOptions.t)
    : M ProcessedFile.t :=
  content <- LegacyContentExtractor.extract file ;;
  let tagSuggestions := ClaudeService.suggestTags file (MarkdownGenerator.truthy content) in
  let tags := FileProcessor.selectTags config tagSuggestions in
  existingFolders <- FileProcessor.getExistingVaultFolders rt config ;;
  let categorySuggestion := ClaudeService.suggestCategory file existingFolders in
  let category := CategorySuggestion.category categorySuggestion in
  let vaultCategory := FileProcessor.mapCategoryToVaultFolder config category in
  markdownPath <-
    FileProcessor.markdownPathOf rt config vaultCategory
      (Path.parseName (FileInfo.name file) +:+ ".md") ;;
  originalNewPath <- FileProcessor.getOriginalFilePath rt config file category ;;
  processed <- Fs.newDate rt ;;
  let frontmatter :=
    Frontmatter.mk (Path.parseName (FileInfo.name file))
                   (FileProcessor.wikiLink (FileInfo.path file))
                   None
                   (FileInfo.extension file)
                   None None
                   (Date.toISOString (FileInfo.createdAt file))
                   (Date.toISOString processed)
                   tags in
  let markdownContent := MarkdownGenerator.generate rt file content frontmatter in
  FileProcessor.placeFiles rt options file markdownPath originalNewPath markdownContent ;;;
  ret (ProcessedFile.mk file markdownPath originalNewPath markdownContent
                        frontmatter tags category).

Definition processFiles (files : list FileInfo.t) (options : ProcessOptions.t)
    : M OrganizationResult.t :=
  FileProcessor.processFilesWith rt processFile files options.
End WithConfig.
End LegacyFileProcessor.


(** ** Sample data *)

Definition epoch : Date.t := Date.mk 0 1970 0 "1970-01-01T00:00:00.000Z" "1/1/1970".

Definition march2024 : Date.t :=
  Date.mk 1710460800000 2024 2 "2024-03-15T00:00:00.000Z" "3/15/2024".

Definition notes_txt : FileInfo.t :=
  FileInfo.mk "/test/path/file.txt" "project-meeting-notes.txt" "txt" 1024
              epoch march2024 Document.

Definition data_json : FileInfo.t :=
  FileInfo.mk "/in/data.json" "data.json" "json" 20 epoch march2024 Data.

(** A run time for the examples: the helpers of utils/formatting as their
    tests describe them, sizes printed in bytes, no optional library but
    [unzipper]. *)
Definition sampleSanitize (s : string) : string :=
  let bad c := JS.arr_includes (String c "") ["<"; ">"; ":"; "/"; "|"; "?"; "*"; " "]
               || Ascii.eqb c MarkdownGenerator.quoteChar
               || Ascii.eqb c MarkdownGenerator.backslashChar in
  let fix go (prev : bool) (l : list ascii) : list ascii :=
    match l with
    | [] => []
    | c :: r =>
        if bad c || Ascii.eqb c "_"
        then (if prev then go true r else "_"%char :: go true r)
        else c :: go false r
    end in
  string_of_list_ascii (go false (list_ascii_of_string s)).

Definition sampleDatePath (d : Date.t) : string :=
  JS.ofZ (Date.getFullYear d) +:+ "/" +:+ JS.padStart2 (JS.ofZ (Date.getMonth d + 1)).

Definition sampleRelative (from to : string) : string :=
  if JS.startsWith (from +:+ "/") to
  then String.substring (S (String.length from)) (String.length to) to
  else to.

Definition sampleCalendar (n : nat) : Date.t :=
  Date.mk (1710460800000 + Z.of_nat n) 2024 2 "2024-03-15T00:00:00.000Z" "3/15/2024".

Definition sampleRuntime : Runtime.t :=
  Runtime.mk sampleSanitize sampleDatePath
             (fun n => JS.ofZ n +:+ " Bytes") (fun n => JS.ofZ n +:+ " Bytes")
             (fun _ _ => []) sampleRelative
             None None true (fun _ => None)
             "/tmp" (fun n => "t" +:+ JS.ofZ (Z.of_nat n)) sampleCalendar
             (fun _ => None) (fun entries => entries)
             (fun entries => Permutation_refl entries).

Definition sampleConfig : Config.t :=
  Config.mk
    (VaultConfig.mk "/vault" (VaultStructure.mk "Documents" "Media" "Code" "References"))
    (OriginalsConfig.mk "/originals" "type-based" true)
    (TaggingConfig.mk 5).

Definition dryOptions : ProcessOptions.t := ProcessOptions.mk true false 10 None.
Definition wetOptions : ProcessOptions.t := ProcessOptions.mk false false 10 None.

Definition node (b : Blob) : FsNode.t := FsNode.mk b epoch march2024.

(** An archive of two members, one of them an archive again. *)
Definition inner_zip : Blob :=
  mkBlob "PK-inner" (Some [("deep/readme.md", Some "File", Bytes (text "# deep"))]).

Definition outer_zip : Blob :=
  mkBlob "PK-outer"
    (Some [("docs/", Some "Directory", Unreadable);
           ("docs/notes.txt", Some "File", Bytes (text "meeting notes"));
           ("../../inner.zip", None, Bytes inner_zip)]).

Definition sampleWorld : World.t :=
  World.mk
    (list_to_map
       [("/in/data.json", node (text "{}"));
        ("/in/project-meeting-notes.txt", node (text "agenda"));
        ("/in/bundle.zip", node outer_zip)])
    (list_to_set ["/in"; "/tmp"; "/vault"; "/originals"])
    O O [] [].

Definition bundle_zip : FileInfo.t :=
  FileInfo.mk "/in/bundle.zip" "bundle.zip" "zip" 8 epoch march2024 Archive.

Definition meeting_notes : FileInfo.t :=
  FileInfo.mk "/in/project-meeting-notes.txt" "project-meeting-notes.txt" "txt" 6
              epoch march2024 Document.

Definition missing_txt : FileInfo.t :=
  FileInfo.mk "/in/missing.txt" "missing.txt" "txt" 6 epoch march2024 Document.

Definition epoch_file : FileInfo.t := FileInfo.mk "" "" "" 0 epoch epoch Unknown.

(** An archive whose second member is named after a vault folder the first
    member makes appear. *)
Definition pack_zip_blob : Blob :=
  mkBlob "PK-pack"
    (Some [("a.txt", Some "File", Bytes (text "hello"));
           ("documents-list.csv", Some "File", Bytes (text "a,b"))]).

Definition packWorld : World.t :=
  World.mk (list_to_map [("/in/pack.zip", node pack_zip_blob)])
           (list_to_set ["/in"; "/tmp"; "/vault"; "/originals"])
           O O [] [].

Definition pack_zip : FileInfo.t :=
  FileInfo.mk "/in/pack.zip" "pack.zip" "zip" 7 epoch march2024 Archive.

(** An archive whose one member is the archive again. *)
Definition quine_blob : Blob := mkBlob "PK-quine" (Some [("again.zip", Some "File", Itself)]).

Definition quine_zip : FileInfo.t :=
  FileInfo.mk "/in/quine.zip" "quine.zip" "zip" 8 epoch march2024 Archive.

(** A callback that throws. *)
Definition failingProgress : Z -> Z -> FileInfo.t -> M unit :=
  fun _ _ _ => throw (JsError "progress bar closed").

Definition reportingOptions : ProcessOptions.t :=
  ProcessOptions.mk true false 10 (Some failingProgress).


(** ** Vocabulary of the properties *)

Definition driftedExtensions : list string :=
  ["md"; "swift"; "kt"; "sql"; "flac"; "mkv"; "bz2"].

Definition unableNotice : string :=
  "## Content" +:+ JS.nl +:+ JS.nl +:+ "*Unable to extract content from this document.*".

Definition truncationNotice : string :=
  JS.nl +:+ JS.nl +:+ "*... (content truncated)*".

(** The claim as the specification words it: content of 5000 characters
    or fewer is the whole body under the heading. *)
Definition short_content_rendered_unmodified : Prop :=
  forall content : string,
    JS.len content <= 5000 ->
    MarkdownGenerator.generateDocumentContent (Some content)
    = "## Content" +:+ JS.nl +:+ JS.nl +:+ content.

Fixpoint repeatChar (c : ascii) (n : nat) : string :=
  match n with
  | O => ""
  | S n' => String c (repeatChar c n')
  end.

(** The tokens of a string: its maximal runs of characters that are no
    separators. *)
Fixpoint tokens (isSep : ascii -> bool) (s : string) : list string :=
  match s with
  | EmptyString => []
  | String c r =>
      if isSep c then tokens isSep r
      else
        match r with
        | EmptyString => [String c ""]
        | String d _ =>
            if isSep d then String c "" :: tokens isSep r
            else match tokens isSep r with
                 | t :: ts => String c t :: ts
                 | [] => [String c ""]
                 end
        end
  end.

(** The separators of the code: [.], [_], [-] and the space. *)
Definition nameSeparator (c : ascii) : bool :=
  ClaudeService.is_name_separator c || Ascii.eqb c " ".

(** The separators of the specification: [.], [_], [-] and whitespace. *)
Definition specSeparator (c : ascii) : bool :=
  ClaudeService.is_name_separator c || ContentExtractor.isSpace c.

Definition longWord (word : string) : bool := 3 <? JS.len word.

Definition nonEmpty (word : string) : bool := negb (String.eqb word "").

(** The candidates as the specification words them: from the name without
    its extension. *)
Definition spec_filename_candidates (file : FileInfo.t) : list TagSuggestion.t :=
  map ClaudeService.topicTag
    (List.filter longWord
       (tokens specSeparator (JS.toLowerCase (Path.parseName (FileInfo.name file))))).

(** The E with acute accent, capital (code unit 201) and small (233). *)
Definition E_acute : string := String (ascii_of_nat 201) EmptyString.
Definition e_acute : string := String (ascii_of_nat 233) EmptyString.

(** A file with accented capitals in its name: [ECOLE-ETE.txt] with the
    three E's accented. *)
Definition ecole_ete : FileInfo.t :=
  FileInfo.mk "/in/ecole"
              (E_acute +:+ "COLE-" +:+ E_acute +:+ "T" +:+ E_acute +:+ ".txt")
              "txt" 6 epoch march2024 Document.

Definition filename_candidates (tags : list TagSuggestion.t) : list TagSuggestion.t :=
  List.filter (fun t => String.eqb (TagSuggestion.source t) "filename") tags.

Definition conf := TagSuggestion.confidence.

(** [a] may stand before [b]: its confidence is not the lower one. *)
Definition notBelow (a b : TagSuggestion.t) : Prop := (conf b <= conf a)%Q.

(** The candidates of one confidence. *)
Definition withConfidence (c : Q) (l : list TagSuggestion.t) : list TagSuggestion.t :=
  List.filter (fun t => Qeq_bool (conf t) c) l.

Definition MiB : Z := 1024 * 1024.

Definition huge_pdf : FileInfo.t :=
  FileInfo.mk "/in/huge.pdf" "huge.pdf" "pdf" (20 * MiB) epoch march2024 Document.

Definition big_photo : FileInfo.t :=
  FileInfo.mk "/in/photo.png" "photo.png" "png" (20 * MiB) epoch march2024 Image.

Definition huge_movie : FileInfo.t :=
  FileInfo.mk "/in/movie.mp4" "movie.mp4" "mp4" (60 * MiB) epoch march2024 Media.

(** [w'] is [w] after some calls that read: the same files and
    directories, the trace longer by calls that do not mutate. *)
Definition observes (w w' : World.t) : Prop :=
  World.files w' = World.files w
  /\ World.dirs w' = World.dirs w
  /\ World.tmpSeq w' = World.tmpSeq w
  /\ exists calls, World.trace w' = calls ++ World.trace w
                   /\ Forall (fun c => mutates c = false) calls.

(** Every run of [m] ends, and relates the worlds before and after by [R]. *)
Definition Runs {A} (R : World.t -> World.t -> Prop) (m : M A) : Prop :=
  forall w r w', m w = (r, w') -> r <> OutOfFuel /\ R w w'.

(** Every run of [m] returns a value. *)
Definition Returns {A} (m : M A) : Prop :=
  forall w, exists a w', m w = (Ok a, w').

(** The options with [dryRun] set. *)
Definition withDryRun (dryRun : bool) (options : ProcessOptions.t) : ProcessOptions.t :=
  ProcessOptions.mk dryRun (ProcessOptions.copy options) (ProcessOptions.batchSize options)
                    (ProcessOptions.onProgress options).

(** What the file operations of a run that is no dry run end with. *)
Definition relocation (options : ProcessOptions.t) (file : FileInfo.t) (destination : string)
    : FsCall :=
  if ProcessOptions.copy options then CopyFile (FileInfo.path file) destination
  else Rename (FileInfo.path file) destination.

(** The record a run returned, for the runs of the examples. *)
Definition noFrontmatter : Frontmatter.t := Frontmatter.mk "" "" None "" None None "" "" [].

Definition returned (r : Outcome ProcessedFile.t * World.t) : ProcessedFile.t :=
  match r.1 with
  | Ok pf => pf
  | _ => ProcessedFile.mk epoch_file "" "" "" noFrontmatter [] ""
  end.

Definition notes_wet_run : Outcome ProcessedFile.t * World.t :=
  FileProcessor.processFile sampleRuntime sampleConfig 1 meeting_notes wetOptions sampleWorld.

Definition notes_dry_run : Outcome ProcessedFile.t * World.t :=
  FileProcessor.processFile sampleRuntime sampleConfig 1 meeting_notes dryOptions sampleWorld.

Definition bundle_dry_run : Outcome ProcessedFile.t * World.t :=
  FileProcessor.processFile sampleRuntime sampleConfig 3 bundle_zip dryOptions sampleWorld.

(** [p] is the directory [dir] or a path below it. *)
Definition inside (dir p : string) : Prop :=
  p = dir
  \/ JS.startsWith (dir +:+ "/") p = true
  \/ (dir = "/" /\ JS.startsWith "/" p = true).

(** Two dots in a row. *)
Fixpoint hasDotDot (s : string) : bool :=
  match s with
  | EmptyString => false
  | String a r => (Ascii.eqb a "." && JS.startsWith "." r) || hasDotDot r
  end.

(** The segments [normalizeString] keeps as they are. *)
Definition keptSegment (seg : string) : bool :=
  negb (String.eqb seg "" || String.eqb seg ".").

(** [entry] is an entry of the archive at the path of [file]. *)
Definition archiveEntry (w : World.t) (file : FileInfo.t) (entry : ZipEntry) : Prop :=
  exists node entries,
    World.files w !! FileInfo.path file = Some node
    /\ blob_zip (FsNode.blob node) = Some entries
    /\ entry ∈ entries.

Definition bundle_extraction : Outcome (list string) * World.t :=
  FileProcessor.extractArchive sampleRuntime bundle_zip "/tmp/out" sampleWorld.

(** The claim on dry runs, as the specification words its second half: the
    calls a dry run issues do not mutate. *)
Definition dry_run_never_mutates : Prop :=
  forall (fuel : nat) (file : FileInfo.t) (w : World.t),
    World.trace w = [] ->
    Forall (fun c => mutates c = false)
      (World.trace
         (FileProcessor.processFile sampleRuntime sampleConfig fuel file dryOptions w).2).

Definition pack_dry_run : Outcome ProcessedFile.t * World.t :=
  FileProcessor.processFile sampleRuntime sampleConfig 2 pack_zip dryOptions packWorld.

Definition pack_wet_run : Outcome ProcessedFile.t * World.t :=
  FileProcessor.processFile sampleRuntime sampleConfig 2 pack_zip wetOptions packWorld.

(** How deep the archive at a path nests; 0 where there is no file. *)
Definition depthAt (w : World.t) (p : string) : nat :=
  match World.files w !! p with
  | Some node => blob_depth (FsNode.blob node)
  | None => O
  end.

(** The nesting of what is at a path has an end: no archive in it holds
    itself. *)
Definition endsAt (w : World.t) (p : string) : Prop :=
  match World.files w !! p with
  | Some node => endless (FsNode.blob node) = false
  | None => True
  end.

(** What is at [p] nests to an end, and at most [k] deep. *)
Definition nestsAt (k : nat) (w : World.t) (p : string) : Prop :=
  endsAt w p /\ (depthAt w p <= k)%nat.

(** Where [w] nests to an end and at most [j] deep, for a [j] from [k]
    on, so does [w']. *)
Definition grows (k : nat) (w w' : World.t) : Prop :=
  forall p j, (k <= j)%nat -> nestsAt j w p -> nestsAt j w' p.

(** From a world that satisfies [J], a run of [m] ends and relates the
    worlds before and after by [R]. *)
Definition RunsFrom {A} (J : World.t -> Prop) (R : World.t -> World.t -> Prop) (m : M A)
    : Prop :=
  forall w r w', J w -> m w = (r, w') -> r <> OutOfFuel /\ R w w'.

(** What the world holds at the path of [file] nests to an end, at most
    [k] deep. *)
Definition shallow (k : nat) (file : FileInfo.t) (w : World.t) : Prop :=
  nestsAt k w (FileInfo.path file).

(** The extracted files all nest less than [k]. *)
Definition membersShallow (k : nat) (paths : list string) (w : World.t) : Prop :=
  Forall (nestsAt (pred k) w) paths.

(** No file of the world holds an archive that holds itself. *)
Definition wellNested (w : World.t) : Prop := forall p, endsAt w p.

(** [m2] does what [m1] does whenever [m1] has fuel enough. *)
Definition refines {A} (m1 m2 : M A) : Prop :=
  forall w r w', m1 w = (r, w') -> r <> OutOfFuel -> m2 w = (r, w').

(** The terminal outcome of a file: its ProcessedFile or its failure. *)
Definition FileOutcome : Type := (ProcessedFile.t + FileInfo.t * string)%type.

Definition successes (outcomes : list FileOutcome) : list ProcessedFile.t :=
  omap (fun o => match o with inl pf => Some pf | inr _ => None end) outcomes.

Definition failures (outcomes : list FileOutcome) : list (FileInfo.t * string) :=
  omap (fun o => match o with inl _ => None | inr f => Some f end) outcomes.

(** The outcome is one of [file]. *)
Definition outcomeOf (file : FileInfo.t) (o : FileOutcome) : Prop :=
  match o with
  | inl pf => ProcessedFile.original pf = file
  | inr (f, _) => f = file
  end.

Definition sample_batch : Outcome OrganizationResult.t * World.t :=
  FileProcessor.processFiles sampleRuntime sampleConfig 3
    [missing_txt; bundle_zip; meeting_notes] wetOptions sampleWorld.

(** The terminal outcome of a file whose processing ended with [r]. *)
Definition terminal (file : FileInfo.t) (r : Outcome ProcessedFile.t) : option FileOutcome :=
  match r with
  | Ok pf => Some (inl pf)
  | Throw e => Some (inr (file, FileProcessor.errorMessage e))
  | OutOfFuel => None
  end.

(** The files of a batch, handled one after the other from index [i]:
    each is reported to the callback, which returns, and is then
    processed, in the world the files before it have left; its outcome is
    what its processing returned or threw there. *)
Inductive batchRun (perFile : FileInfo.t -> ProcessOptions.t -> M ProcessedFile.t)
    (options : ProcessOptions.t) (total : Z)
    : Z -> list FileInfo.t -> World.t -> list FileOutcome -> World.t -> Prop :=
  | batchRun_nil (i : Z) (w : World.t) : batchRun perFile options total i [] w [] w
  | batchRun_cons (i : Z) (file : FileInfo.t) (rest : list FileInfo.t)
      (w w1 w2 w' : World.t) (r : Outcome ProcessedFile.t) (o : FileOutcome)
      (outcomes : list FileOutcome) :
      FileProcessor.reportProgress options (i + 1) total file w = (Ok tt, w1) ->
      perFile file options w1 = (r, w2) ->
      terminal file r = Some o ->
      batchRun perFile options total (i + 1) rest w2 outcomes w' ->
      batchRun perFile options total i (file :: rest) w (o :: outcomes) w'.

(** [results] is what a batch leaves: the records of the files that were
    processed and the failures of the others, each list in the order of the
    files, and the time the batch took. *)
Definition batchResult (rt : Runtime.t)
    (perFile : FileInfo.t -> ProcessOptions.t -> M ProcessedFile.t)
    (files : list FileInfo.t) (options : ProcessOptions.t) (w : World.t)
    (results : OrganizationResult.t) (w' : World.t) : Prop :=
  exists (outcomes : list FileOutcome) (startTime endTime : Z) (w0 w1 : World.t),
    Fs.dateNow rt w = (Ok startTime, w0)
    /\ batchRun perFile options (Z.of_nat (length files)) 0 files w0 outcomes w1
    /\ Fs.dateNow rt w1 = (Ok endTime, w')
    /\ OrganizationResult.processed results = successes outcomes
    /\ OrganizationResult.failed results = failures outcomes
    /\ Summary.duration (OrganizationResult.summary results) = endTime - startTime.

(** The callback returns whenever it is called. *)
Definition callbackReturns (options : ProcessOptions.t) : Prop :=
  forall (index total : Z) (file : FileInfo.t) (w : World.t),
    exists w', FileProcessor.reportProgress options index total file w = (Ok tt, w').

(** The callback leaves no archive that holds itself where there was
    none. *)
Definition callbackKeepsNesting (options : ProcessOptions.t) : Prop :=
  forall (index total : Z) (file : FileInfo.t) (w w' : World.t) (r : Outcome unit),
    FileProcessor.reportProgress options index total file w = (r, w') ->
    wellNested w -> wellNested w'.

(** [results] accounts for each of [files] exactly once, in order, and its
    counters count what its lists hold. *)
Definition accountsFor (files : list FileInfo.t) (results : OrganizationResult.t) : Prop :=
  exists outcomes : list FileOutcome,
    Forall2 outcomeOf files outcomes
    /\ OrganizationResult.processed results = successes outcomes
    /\ OrganizationResult.failed results = failures outcomes.

Definition countersAgree (files : list FileInfo.t) (results : OrganizationResult.t) : Prop :=
  let s := OrganizationResult.summary results in
  Summary.total s = Z.of_nat (length files)
  /\ Summary.successful s = Z.of_nat (length (OrganizationResult.processed results))
  /\ Summary.failed s = Z.of_nat (length (OrganizationResult.failed results))
  /\ Summary.successful s + Summary.failed s = Summary.total s.

(** A world with a zip archive that holds itself. *)
Definition quineWorld : World.t :=
  Fs.setFiles (<["/in/quine.zip" := node quine_blob]> (World.files sampleWorld)) sampleWorld.

(** The claim on the batch loop as the specification words it: for every
    list of files, whatever the options and the world, [processFiles]
    returns a result that accounts for every file. *)
Definition every_batch_returns : Prop :=
  forall (files : list FileInfo.t) (options : ProcessOptions.t) (w : World.t),
    exists (fuel : nat) (results : OrganizationResult.t) (w' : World.t),
      FileProcessor.processFiles sampleRuntime sampleConfig fuel files options w
      = (Ok results, w')
      /\ accountsFor files results
      /\ countersAgree files results.

(** ** Vocabulary of the further properties *)

Definition legacy_notes_run : Outcome ProcessedFile.t * World.t :=
  LegacyFileProcessor.processFile sampleRuntime sampleConfig meeting_notes wetOptions
                                  sampleWorld.

Definition backup_tar : FileInfo.t :=
  FileInfo.mk "/in/backup.tar" "backup.tar" "tar" 2048 epoch march2024 Archive.

Definition tar_dry_run : Outcome ProcessedFile.t * World.t :=
  FileProcessor.processArchiveRecursively sampleRuntime sampleConfig
    (fun member => FileProcessor.processFile sampleRuntime sampleConfig 0 member dryOptions)
    backup_tar dryOptions sampleWorld.

(** Every code unit of the string is below 128. *)
Definition isAscii (s : string) : bool :=
  forallb (fun c => (nat_of_ascii c <? 128)%nat) (list_ascii_of_string s).

(** [x || fallback] on strings *)
Definition orElse (x fallback : string) : string :=
  if String.eqb x "" then fallback else x.

(** The folder of the vault for the notes of a type. *)
Definition folderOfType (structure : VaultStructure.t) (type : FileType) : string :=
  match type with
  | Document => orElse (VaultStructure.documents structure) (VaultStructure.references structure)
  | Image | Media => orElse (VaultStructure.media structure) (VaultStructure.references structure)
  | Code => orElse (VaultStructure.code structure) (VaultStructure.references structure)
  | Data | Archive | Unknown => VaultStructure.references structure
  end.

(** The category of a file by its type alone: the name of the type with
    its first letter in upper case. *)
Definition capitalisedType (type : FileType) : string :=
  match type with
  | Document => "Document"
  | Image => "Image"
  | Code => "Code"
  | Data => "Data"
  | Archive => "Archive"
  | Media => "Media"
  | Unknown => "Unknown"
  end.

(** A vault with a folder called [Constructor], and a file whose name
    mentions it. *)
Definition constructor_notes : FileInfo.t :=
  FileInfo.mk "/in/constructor-notes.txt" "constructor-notes.txt" "txt" 13 epoch march2024
              Document.

Definition constructorWorld : World.t :=
  Fs.setDirs (World.dirs sampleWorld ∪ {["/vault/Constructor"]})
    (Fs.setFiles (<["/in/constructor-notes.txt" := FsNode.mk (text "meeting notes") epoch
                                                            march2024]>
                    (World.files sampleWorld)) sampleWorld).

(** The sample configuration with a separator at the end of the vault
    path, and a vault with a folder, a hidden folder and a note. *)
Definition slashVaultConfig : Config.t :=
  Config.mk
    (VaultConfig.mk "/vault/" (VaultStructure.mk "Documents" "Media" "Code" "References"))
    (OriginalsConfig.mk "/originals" "type-based" true)
    (TaggingConfig.mk 5).

Definition folderWorld : World.t :=
  Fs.setDirs (World.dirs sampleWorld ∪ {["/vault/Projects"]} ∪ {["/vault/.obsidian"]})
    (Fs.setFiles (<["/vault/index.md" := FsNode.mk (text "# index") epoch march2024]>
                    (World.files sampleWorld)) sampleWorld).

(** A file named after a folder with an accented capital: [ecole-meeting.txt]
    and the folder [Ecole], the E's with their acute accent. *)
Definition ecole_meeting : FileInfo.t :=
  FileInfo.mk "/in/ecole-meeting.txt" (e_acute +:+ "cole-meeting.txt") "txt" 6
              epoch march2024 Document.

Definition Ecole : string := E_acute +:+ "cole".

(** The file name mentions the folder: [lowerName.includes(folder.toLowerCase())]. *)
Definition mentions (file : FileInfo.t) (folder : string) : bool :=
  JS.includes (JS.toLowerCase folder) (JS.toLowerCase (FileInfo.name file)).

(** The heading a child is listed under: [file.category || 'unknown']. *)
Definition groupOf (file : ProcessedFile.t) : string :=
  orElse (ProcessedFile.category file) "unknown".

(** The groups of an archive summary, in the order of their sections:
    the [reduce] over the children, then [Object.entries]. *)
Definition archiveGroups (extractedFiles : list ProcessedFile.t)
    : list (string * list ProcessedFile.t) :=
  FileProcessor.objectEntries
    (foldl (fun groups file => FileProcessor.pushGroup (groupOf file) file groups)
           [] extractedFiles).

(** A record filed under another category. *)
Definition withCategory (category : string) (pf : ProcessedFile.t) : ProcessedFile.t :=
  ProcessedFile.mk (ProcessedFile.original pf) (ProcessedFile.markdownPath pf)
                   (ProcessedFile.originalNewPath pf) (ProcessedFile.content pf)
                   (ProcessedFile.frontmatter pf) (ProcessedFile.tags pf) category.

(** What [push] called on an inherited member throws. *)
Definition pushIsNoFunction : Thrown := JsError "groups[category].push is not a function".

(** An archive with one member, whose name mentions the folder [valueOf]
    of the vault. *)
Definition valueOf_zip_blob : Blob :=
  mkBlob "PK-v" (Some [("valueof-notes.txt", Some "File", Bytes (text "hi"))]).

Definition valueOf_zip : FileInfo.t :=
  FileInfo.mk "/in/v.zip" "v.zip" "zip" 4 epoch march2024 Archive.

Definition valueOfWorld : World.t :=
  World.mk (list_to_map [("/in/v.zip", node valueOf_zip_blob)])
           (list_to_set ["/in"; "/tmp"; "/vault"; "/vault/valueOf"; "/originals"])
           O O [] [].

(** The children of a list that are grouped under [category], in order. *)
Definition groupedUnder (category : string) (files : list ProcessedFile.t)
    : list ProcessedFile.t :=
  List.filter (fun file => String.eqb (groupOf file) category) files.

(** The lines of one section of an archive summary. *)
Definition summarySection (rt : Runtime.t) (config : Config.t)
    (entry : string * list ProcessedFile.t) : list string :=
  ["## " +:+ JS.toUpperCase (JS.charAt0 entry.1) +:+ JS.slice1 entry.1
         +:+ " Files (" +:+ JS.ofZ (Z.of_nat (length entry.2)) +:+ ")";
   ""]
  ++ map (fun file =>
            "- [[" +:+ FileProcessor.stripMd
                         (Runtime.relative rt (VaultConfig.path (Config.vault config))
                                           (ProcessedFile.markdownPath file))
                   +:+ "|" +:+ Path.parseName (FileInfo.name (ProcessedFile.original file))
                   +:+ "]]")
         entry.2
  ++ [""].

(** What the [reduce] has built after the children [seen]: one group for
    each heading met, the groups in the order of their first child, each
    holding the children of its heading in order. *)
Definition groupsOf (seen : list ProcessedFile.t)
    (groups : list (string * list ProcessedFile.t)) : Prop :=
  NoDup (map fst groups)
  /\ Forall (fun g => g.2 <> [] /\ g.2 = groupedUnder g.1 seen) groups
  /\ Forall (fun file => groupOf file ∈ map fst groups) seen
  /\ Permutation (concat (map snd groups)) seen.

(** [tag] is the [contains/] tag of a tag of a child that is neither a
    [type/] nor a [format/] tag. *)
Definition containsTagOf (children : list ProcessedFile.t) (tag : string) : Prop :=
  exists child childTag,
    child ∈ children
    /\ childTag ∈ ProcessedFile.tags child
    /\ JS.startsWith "type/" childTag = false
    /\ JS.startsWith "format/" childTag = false
    /\ tag = "contains/" +:+ FileProcessor.lastSegment childTag.

(** The four tags every archive summary starts with. *)
Definition archiveOwnTags (archiveFile : FileInfo.t) : list string :=
  ["type/archive";
   "format/" +:+ FileInfo.extension archiveFile;
   "source/expanded";
   ClaudeService.dateTag (FileInfo.modifiedAt archiveFile)].

(** The extensions [extractDocument] has a case for. *)
Definition documentExtensions : list string :=
  ["txt"; "md"; "markdown"; "rtf"; "pdf"; "docx"; "doc"; "odt"; "html"; "htm"].

Definition sheet_xls : FileInfo.t :=
  FileInfo.mk "/in/sheet.xls" "sheet.xls" "xls" 4096 epoch march2024 Document.

Definition lost_json : FileInfo.t :=
  FileInfo.mk "/in/lost.json" "lost.json" "json" 10 epoch march2024 Data.

(** A [<] with a [>] somewhere after it: what the pattern of a tag
    matches. *)
Fixpoint hasTag (l : list ascii) : bool :=
  match l with
  | [] => false
  | c :: r => (Ascii.eqb c "<" && existsb (fun d => Ascii.eqb d ">") r) || hasTag r
  end.

(** Two neighbours that are both white space. *)
Fixpoint hasSpaceRun (l : list ascii) : bool :=
  match l with
  | [] => false
  | c :: r =>
      match r with
      | [] => false
      | d :: _ => (ContentExtractor.isSpace c && ContentExtractor.isSpace d) || hasSpaceRun r
      end
  end.

(** What [extractHTML] makes of the text of a file. *)
Definition htmlText (content : string) : string :=
  let chars := list_ascii_of_string content in
  string_of_list_ascii
    (ContentExtractor.trim
       (ContentExtractor.collapseSpaces false
          (ContentExtractor.stripTags (length chars) chars))).

Definition page_html : FileInfo.t :=
  FileInfo.mk "/in/page.html" "page.html" "html" 64 epoch march2024 Document.

Definition page_node : FsNode.t :=
  FsNode.mk (text "<p>Hello,  <b>world</b> </p> <") epoch march2024.

Definition pageWorld : World.t :=
  Fs.setFiles (<["/in/page.html" := page_node]> (World.files sampleWorld)) sampleWorld.

(** The list that opens the body of a file of no special type. *)
Definition fileInformation (rt : Runtime.t) (file : FileInfo.t) : string :=
  JS.join JS.nl
    ["## File Information";
     "- **Type**: " +:+ FileType_str (FileInfo.type file);
     "- **Format**: " +:+ FileInfo.extension file;
     "- **Size**: " +:+ Runtime.formatBytes rt (FileInfo.size file);
     "- **Modified**: " +:+ Date.toLocaleDateString (FileInfo.modifiedAt file)].

(** The preview of a content in a fenced block, [marker] before the
    closing fence. *)
Definition previewBlock (shown : string) (marker : list string) : string :=
  JS.join JS.nl (["## Content Preview"; "```"; shown] ++ marker ++ ["```"]).

Definition report_bin : FileInfo.t :=
  FileInfo.mk "/in/report.bin" "report.bin" "bin" 300 epoch march2024 Unknown.

(** A code unit from 32 on: none of the control characters below the
    space, so no line feed, carriage return or tab. *)
Definition fromSpaceOn (c : ascii) : bool := (32 <=? nat_of_ascii c)%nat.

(** The lines of the fields of a frontmatter that come before [tags]. *)
Definition scalarLines (fm : Frontmatter.t) : list string :=
  map (fun kv : string * Frontmatter.Value =>
         kv.1 +:+ ": " +:+ MarkdownGenerator.stringify kv.2)
      (List.filter (fun kv : string * Frontmatter.Value => negb (String.eqb kv.1 "tags"))
                   (Frontmatter.entries fm)).

Definition members_run : Outcome (list ProcessedFile.t) * World.t :=
  FileProcessor.foldM
    (FileProcessor.processExtracted sampleRuntime
       (fun member =>
          FileProcessor.processFile sampleRuntime sampleConfig 1 member wetOptions))
    [] ["/in/project-meeting-notes.txt"; "/in/missing.txt"] sampleWorld.

(** The record of an extracted file: its path, its name, its lowercased
    extension, what [stat] reports, and the type of the extension. *)
Definition memberInfo (extractedFile : string) (stat : Stats.t) : FileInfo.t :=
  let extension := JS.toLowerCase (JS.slice1 (Path.extname extractedFile)) in
  FileInfo.mk extractedFile (Path.basename extractedFile) extension
              (Stats.size stat) (Stats.birthtime stat) (Stats.mtime stat)
              (determineFileType extension).

(** A line logged for a member that is left out: it opens with the path
    of the member, and what was thrown follows. *)
Definition memberWarning (extractedFile line : string) : Prop :=
  JS.startsWith ("Failed to process extracted file " +:+ extractedFile +:+ ":") line = true.

(** A line logged when the temporary directory cannot be removed. *)
Definition cleanupWarning (tempExtractDir line : string) : Prop :=
  JS.startsWith ("Failed to clean up temporary directory " +:+ tempExtractDir +:+ ":") line
  = true.

Definition logged (line : string) (w : World.t) : World.t := (Fs.consoleLog line w).2.

(** One turn of the loop over the extracted files, from [w]: the member
    is found by [stat] and processed, and gives its record; or [stat]
    throws, or the processing does, and the member gives no record and a
    line in the log. *)
Inductive memberStep (rt : Runtime.t) (member : FileInfo.t -> M ProcessedFile.t)
    (extractedFile : string) (w : World.t) : option ProcessedFile.t -> World.t -> Prop :=
  | member_processed (stat : Stats.t) (w1 w2 : World.t) (pf : ProcessedFile.t) :
      Fs.stat rt extractedFile w = (Ok stat, w1) ->
      member (memberInfo extractedFile stat) w1 = (Ok pf, w2) ->
      memberStep rt member extractedFile w (Some pf) w2
  | member_not_found (error : Thrown) (line : string) (w1 w' : World.t) :
      Fs.stat rt extractedFile w = (Throw error, w1) ->
      memberWarning extractedFile line ->
      w' = logged line w1 ->
      memberStep rt member extractedFile w None w'
  | member_failed (stat : Stats.t) (error : Thrown) (line : string) (w1 w2 w' : World.t) :
      Fs.stat rt extractedFile w = (Ok stat, w1) ->
      member (memberInfo extractedFile stat) w1 = (Throw error, w2) ->
      memberWarning extractedFile line ->
      w' = logged line w2 ->
      memberStep rt member extractedFile w None w'.

(** The turns of the loop, one after the other. *)
Inductive membersRun (rt : Runtime.t) (member : FileInfo.t -> M ProcessedFile.t)
    : list string -> World.t -> list (option ProcessedFile.t) -> World.t -> Prop :=
  | membersRun_nil (w : World.t) : membersRun rt member [] w [] w
  | membersRun_cons (extractedFile : string) (rest : list string) (w w1 w' : World.t)
      (outcome : option ProcessedFile.t) (outcomes : list (option ProcessedFile.t)) :
      memberStep rt member extractedFile w outcome w1 ->
      membersRun rt member rest w1 outcomes w' ->
      membersRun rt member (extractedFile :: rest) w (outcome :: outcomes) w'.

(** The lines of a source text and the preview made of them. *)
Definition codeLines (content : string) : list string := JS.split JS.nl_char content.

Definition codePreview (content : string) : string :=
  JS.join JS.nl (firstn 50 (codeLines content)).

Definition main_py : FileInfo.t :=
  FileInfo.mk "/in/main.py" "main.py" "py" 20 epoch march2024 Code.

(** The temporary directories [mkdtemp] hands out to the archive routine. *)
Definition tempPrefix (rt : Runtime.t) : string :=
  Path.join [Runtime.tmpdir rt; "polish-archive-"].

Definition tempDir (rt : Runtime.t) (n : nat) : string :=
  tempPrefix rt +:+ Runtime.tmpSuffix rt n.

(** [p] is one of the temporary directories, or lies below one. *)
Definition inTemp (rt : Runtime.t) (p : string) : Prop :=
  exists n, inside (tempDir rt n) p \/ inside (Path.normalize (tempDir rt n)) p.

(** The files that are in no temporary directory are as they were. *)
Definition outsideKept (rt : Runtime.t) (w w' : World.t) : Prop :=
  forall p, ~ inTemp rt p -> World.files w' !! p = World.files w !! p.

(** The entries [unzipper] reads from the file, when it is installed and
    can open the file. *)
Definition archiveEntries (rt : Runtime.t) (w : World.t) (file : FileInfo.t)
    : option (list ZipEntry) :=
  if Runtime.unzipper rt then
    match World.files w !! FileInfo.path file with
    | Some node => blob_zip (FsNode.blob node)
    | None => None
    end
  else None.

(** Where the extraction writes the entries of an archive that are files,
    in the order of the archive. *)
Definition destinations (outputDir : string) (entries : list ZipEntry) : list string :=
  map (fun entry => safePath outputDir (entry_path entry))
      (List.filter FileProcessor.isFileEntry entries).

(** The two lines the inner [catch] of the extraction logs, the last one
    first. *)
Definition extractionWarnings (file : FileInfo.t) : list string :=
  ["Skipping extraction of " +:+ FileInfo.name file;
   "Archive extraction requires 'unzipper' package. Install with: npm install unzipper"].

(** An archive whose second entry has no type and a path that ends with a
    separator: it counts as a file, and its destination names a
    directory. *)
Definition slash_zip_blob : Blob :=
  mkBlob "PK-slash"
    (Some [("a.txt", Some "File", Bytes (text "a"));
           ("dir/", None, Bytes (text ""));
           ("b.txt", Some "File", Bytes (text "b"))]).

Definition slash_zip : FileInfo.t :=
  FileInfo.mk "/in/slash.zip" "slash.zip" "zip" 8 epoch march2024 Archive.

Definition slashWorld : World.t :=
  Fs.setFiles (<["/in/slash.zip" := node slash_zip_blob]> (World.files sampleWorld))
              sampleWorld.

Definition slash_extraction : Outcome (list string) * World.t :=
  FileProcessor.extractArchive sampleRuntime slash_zip "/tmp/out" slashWorld.

(** The relation that holds of any two worlds: for what a run leaves
    open. *)
Definition anyChange : World.t -> World.t -> Prop := fun _ _ => True.

(** Every run of [m] relates the worlds before and after by [R], whether
    it ends or not. *)
Definition Keeps {A} (R : World.t -> World.t -> Prop) (m : M A) : Prop :=
  forall w r w', m w = (r, w') -> R w w'.


(** * Properties *)

(** ** Sanity checks of the embedding *)

Example split_ex : JS.split " " "a  b" = ["a"; ""; "b"].
Proof. reflexivity. Qed.

Example ofZ_ex : JS.ofZ 2024 = "2024".
Proof. vm_compute. reflexivity. Qed.

Example scanner_md : FileScanner.getFileType "md" = Unknown.
Proof. vm_compute. reflexivity. Qed.

Example suggestTags_notes :
  map TagSuggestion.tag (ClaudeService.suggestTags notes_txt None)
  = ["type/document"; "format/txt"; "date/2024/03";
     "topic/project"; "topic/meeting"; "topic/notes"].
Proof. vm_compute. reflexivity. Qed.

Example suggestCategory_first_match :
  CategorySuggestion.category
    (ClaudeService.suggestCategory notes_txt ["Reports"; "Meeting"; "Notes"])
  = "Meeting".
Proof. vm_compute. reflexivity. Qed.

Example join_ex1 : Path.join ["/tmp/x"; "a/./b//c.txt"] = "/tmp/x/a/b/c.txt".
Proof. vm_compute. reflexivity. Qed.

Example join_ex2 : Path.join ["/tmp/x"; "../../etc/passwd"] = "/etc/passwd".
Proof. vm_compute. reflexivity. Qed.

Example safePath_ex : safePath "/tmp/x" "/../../etc/./passwd" = "/tmp/x/etc/passwd".
Proof. vm_compute. reflexivity. Qed.

Example sanitize_ex : sanitizeEntryPath "/..././/a" = "././/a".
Proof. vm_compute. reflexivity. Qed.

Example dirname_ex :
  map Path.dirname ["/a/b"; "/a"; "a"; ""; "/a/b/"; "a//b"; "//a"; "/"]
  = ["/a"; "/"; "."; "."; "/a"; "a/"; "//"; "/"].
Proof. vm_compute. reflexivity. Qed.

Example basename_ex :
  map Path.basename ["/a/b.txt"; "a//b/"; "/"; ""; "b"] = ["b.txt"; "b"; ""; ""; "b"].
Proof. vm_compute. reflexivity. Qed.

Example parseName_ex :
  map Path.parseName ["a.b.c"; ".bashrc"; "file."; ".."; "..a"; "notes"; "x/y.tar.gz"]
  = ["a.b"; ".bashrc"; "file"; ".."; "."; "notes"; "y.tar"].
Proof. vm_compute. reflexivity. Qed.

Example extname_ex :
  map Path.extname ["a.b.c"; ".bashrc"; "file."; ".."; "/t/x.ZIP"] = [".c"; ""; "."; ""; ".ZIP"].
Proof. vm_compute. reflexivity. Qed.

Example sampleSanitize_ex :
  map sampleSanitize ["file<>name"; "file   name"; "  file name  "; "file___name"]
  = ["file_name"; "file_name"; "_file_name_"; "file_name"].
Proof. vm_compute. reflexivity. Qed.

Example run_notes_dry :
  let r := FileProcessor.processFile sampleRuntime sampleConfig 1 meeting_notes dryOptions
             sampleWorld in
  match r.1 with
  | Ok pf =>
      ProcessedFile.markdownPath pf = "/vault/Documents/project-meeting-notes.md"
      /\ ProcessedFile.originalNewPath pf
         = "/originals/2024/Document/project-meeting-notes.txt"
      /\ ProcessedFile.tags pf
         = ["type/document"; "format/txt"; "date/2024/03"; "topic/project"; "topic/meeting"]
  | _ => False
  end
  /\ World.trace r.2 = [Readdir "/vault"; ReadFile "/in/project-meeting-notes.txt"].
Proof. vm_compute. auto. Qed.

Example run_notes_wet :
  World.trace (FileProcessor.processFile sampleRuntime sampleConfig 1 meeting_notes wetOptions
                 sampleWorld).2
  = [Rename "/in/project-meeting-notes.txt"
            "/originals/2024/Document/project-meeting-notes.txt";
     WriteFile "/vault/Documents/project-meeting-notes.md"
       (text (ProcessedFile.content
                match (FileProcessor.processFile sampleRuntime sampleConfig 1 meeting_notes
                         dryOptions sampleWorld).1 with
                | Ok pf => pf
                | _ => ProcessedFile.mk meeting_notes "" "" ""
                         (Frontmatter.mk "" "" None "" None None "" "" []) [] ""
                end));
     Mkdir "/originals/2024/Document";
     Mkdir "/vault/Documents";
     Readdir "/vault";
     ReadFile "/in/project-meeting-notes.txt"].
Proof. vm_compute. reflexivity. Qed.

(** ** Classification: the scanner's table and the archive members' table *)

Ltac split_on_key ext k :=
  destruct (String.eqb_spec ext k) as [-> | ?];
  [ try (vm_compute; reflexivity) | ].

(** Off the seven extensions only one of the tables lists, a lowercase
    extension gets the same type from both. *)
Lemma determineFileType_agrees_off_drift (ext : string) :
  JS.toLowerCase ext = ext ->
  ext ∉ driftedExtensions ->
  determineFileType ext = FileScanner.getFileType ext.
Proof.
  intros Hlow Hnot.
  assert (Hd : forall k, k ∈ driftedExtensions -> ext <> k) by (intros k Hk ->; auto).
  unfold determineFileType. rewrite Hlow.
  split_on_key ext "pdf". split_on_key ext "doc". split_on_key ext "docx".
  split_on_key ext "txt". split_on_key ext "rtf". split_on_key ext "odt".
  split_on_key ext "jpg". split_on_key ext "jpeg". split_on_key ext "png".
  split_on_key ext "gif". split_on_key ext "bmp". split_on_key ext "svg".
  split_on_key ext "webp". split_on_key ext "js". split_on_key ext "ts".
  split_on_key ext "py". split_on_key ext "java". split_on_key ext "cpp".
  split_on_key ext "c". split_on_key ext "go". split_on_key ext "rs".
  split_on_key ext "rb". split_on_key ext "php". split_on_key ext "json".
  split_on_key ext "csv". split_on_key ext "xml". split_on_key ext "yaml".
  split_on_key ext "yml". split_on_key ext "mp3". split_on_key ext "wav".
  split_on_key ext "mp4". split_on_key ext "avi". split_on_key ext "mov".
  split_on_key ext "zip". split_on_key ext "rar". split_on_key ext "tar".
  split_on_key ext "gz". split_on_key ext "7z".
  assert (ext <> "md" /\ ext <> "swift" /\ ext <> "kt" /\ ext <> "sql"
          /\ ext <> "flac" /\ ext <> "mkv" /\ ext <> "bz2") as (?&?&?&?&?&?&?).
  { repeat split; apply Hd; unfold driftedExtensions; set_solver. }
  unfold JS.arr_includes, existsb.
  repeat match goal with
         | H : ext <> ?k |- context [String.eqb ext ?k] =>
             rewrite (proj2 (String.eqb_neq ext k) H)
         end.
  cbn [orb].
  unfold FileScanner.getFileType, FileScanner.buildExtensionMap, FileScanner.set_all.
  cbn [foldl].
  rewrite !lookup_insert_ne by congruence.
  rewrite lookup_empty. reflexivity.
Qed.

(** C6 (the code departs from the claim). The type re-derived for an
    archive member is not always the type the scanner gives the same
    extension: [md] is a Document for a member and Unknown for a scanned
    file, and [swift], which the scanner knows as Code, is Unknown for a
    member. *)
Theorem determineFileType_differs_from_scanner :
  determineFileType "md" = Document /\ FileScanner.getFileType "md" = Unknown
  /\ determineFileType "swift" = Unknown /\ FileScanner.getFileType "swift" = Code.
Proof. vm_compute. repeat split; reflexivity. Qed.

(** ** Rendering of a document *)

Lemma substring0_length (n : nat) (s : string) :
  (n <= String.length s)%nat -> String.length (String.substring 0 n s) = n.
Proof.
  revert s. induction n as [|n IH]; intros [|c s] H; cbn in *; try lia; auto.
  rewrite IH; lia.
Qed.

Lemma substring0_prefix (n : nat) (s : string) :
  exists rest, s = String.substring 0 n s +:+ rest.
Proof.
  revert s. induction n as [|n IH]; intros [|c s]; cbn.
  - exists "". reflexivity.
  - exists (String c s). reflexivity.
  - exists "". reflexivity.
  - destruct (IH s) as [rest Hrest]. exists rest.
    change (String c s = String c (String.substring 0 n s +:+ rest)).
    f_equal. exact Hrest.
Qed.

Lemma truthy_nonempty (s : string) :
  s <> "" -> MarkdownGenerator.truthy (Some s) = Some s.
Proof.
  intros H. unfold MarkdownGenerator.truthy.
  destruct (String.eqb_spec s ""); congruence.
Qed.

(** C9, counterexample. The empty string is content of fewer than 5000
    characters and is not null; its body is the unable-to-extract notice. *)
Lemma empty_document_gets_the_notice :
  MarkdownGenerator.generateDocumentContent (Some "") = unableNotice
  /\ ~ short_content_rendered_unmodified.
Proof.
  split; [reflexivity|].
  intros H. specialize (H "" ltac:(vm_compute; discriminate)).
  vm_compute in H. discriminate.
Qed.

(** C9, as amended. Content longer than 5000 characters: the body is the
    heading, exactly the first 5000 characters of the content, and the
    italic truncation notice. Content of 1 to 5000 characters: the body is
    the heading and the content, unmodified, no notice. Null or empty
    content: the body is the italic unable-to-extract notice. *)
Theorem generateDocumentContent_cases (content : option string) :
  (forall s, content = Some s -> 5000 < JS.len s ->
     exists first5000 rest,
       JS.len first5000 = 5000 /\ s = first5000 +:+ rest
       /\ MarkdownGenerator.generateDocumentContent content
          = "## Content" +:+ JS.nl +:+ JS.nl +:+ first5000 +:+ JS.nl +:+ truncationNotice)
  /\ (forall s, content = Some s -> s <> "" -> JS.len s <= 5000 ->
        MarkdownGenerator.generateDocumentContent content
        = "## Content" +:+ JS.nl +:+ JS.nl +:+ s)
  /\ (content = None \/ content = Some "" ->
        MarkdownGenerator.generateDocumentContent content = unableNotice).
Proof.
  repeat split.
  - intros s -> Hlen.
    assert (s <> "") by (intros ->; vm_compute in Hlen; discriminate).
    exists (JS.substring0 5000 s).
    destruct (substring0_prefix (Z.to_nat 5000) s) as [rest Hrest]. exists rest.
    split; [|split; [exact Hrest|]].
    + unfold JS.len, JS.substring0 in *. rewrite substring0_length; lia.
    + unfold MarkdownGenerator.generateDocumentContent.
      rewrite truthy_nonempty by assumption.
      destruct (Z.ltb_spec 5000 (JS.len s)); [|lia].
      reflexivity.
  - intros s -> Hne Hlen.
    unfold MarkdownGenerator.generateDocumentContent.
    rewrite truthy_nonempty by assumption.
    destruct (Z.ltb_spec 5000 (JS.len s)); [lia|].
    reflexivity.
  - intros [-> | ->]; reflexivity.
Qed.

Lemma generateDocumentContent_cases_witness :
  (5000 < JS.len (repeatChar "A" (Z.to_nat 6000))
   /\ exists first5000 rest,
        JS.len first5000 = 5000
        /\ repeatChar "A" (Z.to_nat 6000) = first5000 +:+ rest
        /\ MarkdownGenerator.generateDocumentContent (Some (repeatChar "A" (Z.to_nat 6000)))
           = "## Content" +:+ JS.nl +:+ JS.nl +:+ first5000 +:+ JS.nl +:+ truncationNotice)
  /\ ("agenda" <> "" /\ JS.len "agenda" <= 5000
      /\ MarkdownGenerator.generateDocumentContent (Some "agenda")
         = "## Content" +:+ JS.nl +:+ JS.nl +:+ "agenda").
Proof.
  split.
  - split; [vm_compute; reflexivity|].
    apply (proj1 (generateDocumentContent_cases (Some (repeatChar "A" (Z.to_nat 6000))))
             (repeatChar "A" (Z.to_nat 6000)) eq_refl).
    vm_compute. reflexivity.
  - split; [discriminate|]. split; [vm_compute; discriminate|].
    apply (proj1 (proj2 (generateDocumentContent_cases (Some "agenda"))) "agenda" eq_refl).
    + discriminate.
    + vm_compute. discriminate.
Defined.

(** ** Tags from the file name *)

Lemma split_head_nonsep (c : ascii) (s : string) :
  Ascii.eqb c " " = false ->
  exists seg segs, JS.split " " (String c s) = String c seg :: segs
                   /\ JS.split " " s = seg :: segs.
Proof.
  intros Hc. cbn [JS.split]. rewrite Hc.
  destruct (JS.split " " s) as [|seg segs] eqn:E.
  - destruct s; cbn in E; [discriminate|].
    destruct (Ascii.eqb a " "); [discriminate|].
    destruct (JS.split " " s); discriminate.
  - eauto.
Qed.

Lemma replaced_char (c : ascii) :
  (if ClaudeService.is_name_separator c then " "%char else c) = " "%char
  <-> nameSeparator c = true.
Proof.
  unfold nameSeparator.
  destruct (ClaudeService.is_name_separator c) eqn:E; cbn.
  - tauto.
  - rewrite Ascii.eqb_eq. tauto.
Qed.

Lemma nonempty_words_are_tokens (s : string) :
  List.filter nonEmpty (JS.split " " (ClaudeService.replace_separators s))
  = tokens nameSeparator s.
Proof.
  unfold ClaudeService.replace_separators.
  induction s as [|c r IH]; [reflexivity|].
  cbn [JS.map_chars tokens].
  set (c' := if ClaudeService.is_name_separator c then " "%char else c).
  destruct (nameSeparator c) eqn:Hsep.
  - assert (c' = " "%char) as -> by (apply replaced_char; assumption).
    cbn [JS.split]. rewrite Ascii.eqb_refl. cbn. exact IH.
  - assert (Hc' : Ascii.eqb c' " " = false).
    { apply Ascii.eqb_neq. intros E. apply replaced_char in E. congruence. }
    assert (c' = c) as ->.
    { unfold c', nameSeparator in *.
      destruct (ClaudeService.is_name_separator c); [discriminate|reflexivity]. }
    destruct (split_head_nonsep c (JS.map_chars
                (fun c0 => if ClaudeService.is_name_separator c0 then " "%char else c0) r) Hc')
      as (seg & segs & Hs & Hr).
    rewrite Hs. cbn [List.filter nonEmpty String.eqb negb].
    rewrite Hr in IH.
    destruct r as [|d r'].
    + cbn in Hr. injection Hr as <- <-. reflexivity.
    + destruct (nameSeparator d) eqn:Hd.
      * cbn [JS.map_chars] in Hr.
        assert ((if ClaudeService.is_name_separator d then " "%char else d) = " "%char) as E
            by (apply replaced_char; assumption).
        rewrite E in Hr. cbn [JS.split] in Hr. rewrite Ascii.eqb_refl in Hr.
        injection Hr as <- <-.
        cbn [List.filter nonEmpty String.eqb negb] in IH. rewrite IH. reflexivity.
      * cbn [JS.map_chars] in Hr.
        assert (Hd' : Ascii.eqb (if ClaudeService.is_name_separator d then " "%char else d) " "
                      = false).
        { apply Ascii.eqb_neq. intros E. apply replaced_char in E. congruence. }
        destruct (split_head_nonsep _ (JS.map_chars
                    (fun c0 => if ClaudeService.is_name_separator c0 then " "%char else c0) r')
                    Hd') as (seg' & segs' & Hs' & _).
        rewrite Hs' in Hr. injection Hr as <- <-.
        cbn [List.filter nonEmpty String.eqb negb] in IH. rewrite <- IH. reflexivity.
Qed.

Lemma filter_long_nonempty (l : list string) :
  List.filter longWord (List.filter nonEmpty l) = List.filter longWord l.
Proof.
  induction l as [|w l IH]; [reflexivity|].
  cbn [List.filter]. destruct w as [|a w]; cbn [nonEmpty String.eqb negb].
  - cbn. exact IH.
  - cbn [List.filter]. rewrite IH. reflexivity.
Qed.

Lemma nameWords_tokens (name : string) :
  ClaudeService.nameWords name
  = List.filter longWord (tokens nameSeparator (JS.toLowerCase name)).
Proof.
  unfold ClaudeService.nameWords.
  rewrite <- nonempty_words_are_tokens, filter_long_nonempty. reflexivity.
Qed.

Lemma foldl_push {A} (l acc : list A) :
  foldl (fun tags t => tags ++ [t]) acc l = acc ++ l.
Proof.
  revert acc. induction l as [|x l IH]; intros acc; cbn.
  - rewrite app_nil_r. reflexivity.
  - rewrite IH, <- app_assoc. reflexivity.
Qed.

(** C7, counterexample. [data.json] has the stem [data]; the code emits a
    candidate for the extension as well. *)
Lemma extension_yields_a_topic :
  map TagSuggestion.tag (filename_candidates (ClaudeService.suggestTags data_json None))
  = ["topic/data"; "topic/json"]
  /\ map TagSuggestion.tag (spec_filename_candidates data_json) = ["topic/data"]
  /\ filename_candidates (ClaudeService.suggestTags data_json None)
     <> spec_filename_candidates data_json.
Proof.
  split; [vm_compute; reflexivity|]. split; [vm_compute; reflexivity|].
  intros H. apply (f_equal (@length _)) in H. vm_compute in H. discriminate.
Qed.

(** C7, as amended. After the type, format and date candidates come the
    filename candidates, computed from the whole file name, extension
    included: lowercased and cut at [.], [_], [-] and the space, every
    token longer than 3 characters gives [topic/<token>] with confidence
    0.7 and source [filename], in order; shorter tokens give nothing. *)
Theorem suggestTags_filename_tokens (file : FileInfo.t) (content : option string) :
  ClaudeService.suggestTags file content
  = [TagSuggestion.mk ("type/" +:+ FileType_str (FileInfo.type file)) 1 "type";
     TagSuggestion.mk ("format/" +:+ FileInfo.extension file) 1 "type";
     TagSuggestion.mk (ClaudeService.dateTag (FileInfo.modifiedAt file)) 1 "context"]
    ++ map (fun token => TagSuggestion.mk ("topic/" +:+ token) (7 # 10) "filename")
           (List.filter (fun token => 3 <? JS.len token)
              (tokens nameSeparator (JS.toLowerCase (FileInfo.name file)))).
Proof.
  unfold ClaudeService.suggestTags.
  rewrite foldl_push, nameWords_tokens. reflexivity.
Qed.

(** The name is lowercased as JavaScript lowercases it, accented capitals
    too: the first word of the sample gives a tag, the second is too
    short. *)
Example accented_capitals_are_lowercased :
  JS.toLowerCase (FileInfo.name ecole_ete)
  = e_acute +:+ "cole-" +:+ e_acute +:+ "t" +:+ e_acute +:+ ".txt"
  /\ map TagSuggestion.tag (filename_candidates (ClaudeService.suggestTags ecole_ete None))
     = ["topic/" +:+ e_acute +:+ "cole"].
Proof. vm_compute. split; reflexivity. Qed.

(** ** Sorting the candidates and keeping the first of them *)

Lemma byConfidence_keeps (a b : TagSuggestion.t) :
  Qle_bool (FileProcessor.byConfidence a b) 0 = true <-> notBelow a b.
Proof.
  unfold FileProcessor.byConfidence, notBelow, conf.
  rewrite Qle_bool_iff. split; intros H; lra.
Qed.

Lemma insert_Permutation {A} (cmp : A -> A -> Q) (x : A) (l : list A) :
  Permutation (JS.insert cmp x l) (x :: l).
Proof.
  induction l as [|y r IH]; cbn; [reflexivity|].
  destruct (Qle_bool (cmp x y) 0); [reflexivity|].
  rewrite IH. apply perm_swap.
Qed.

Lemma sort_Permutation {A} (cmp : A -> A -> Q) (l : list A) :
  Permutation (JS.sort cmp l) l.
Proof.
  induction l as [|x r IH]; cbn; [reflexivity|].
  rewrite insert_Permutation, IH. reflexivity.
Qed.

Lemma insert_sorted (x : TagSuggestion.t) (l : list TagSuggestion.t) :
  StronglySorted notBelow l ->
  StronglySorted notBelow (JS.insert FileProcessor.byConfidence x l).
Proof.
  induction 1 as [|y r Hr IH Hy]; cbn.
  - repeat constructor.
  - destruct (Qle_bool (FileProcessor.byConfidence x y) 0) eqn:E.
    + apply byConfidence_keeps in E.
      constructor; [constructor; assumption|].
      constructor; [assumption|].
      eapply Forall_impl; [exact Hy|].
      intros z Hz. unfold notBelow in *. lra.
    + constructor; [assumption|].
      assert (Hxy : notBelow y x).
      { destruct (Qlt_le_dec (conf x) (conf y)) as [Hlt | Hle];
          [unfold notBelow; lra|].
        apply byConfidence_keeps in Hle. congruence. }
      eapply Permutation_Forall; [symmetry; apply insert_Permutation|].
      constructor; assumption.
Qed.

Lemma sort_sorted (l : list TagSuggestion.t) :
  StronglySorted notBelow (JS.sort FileProcessor.byConfidence l).
Proof.
  induction l as [|x r IH]; cbn; [constructor|].
  apply insert_sorted. exact IH.
Qed.

Lemma insert_stable (c : Q) (x : TagSuggestion.t) (l : list TagSuggestion.t) :
  withConfidence c (JS.insert FileProcessor.byConfidence x l) = withConfidence c (x :: l).
Proof.
  unfold withConfidence.
  induction l as [|y r IH]; cbn [JS.insert]; [reflexivity|].
  destruct (Qle_bool (FileProcessor.byConfidence x y) 0) eqn:E; [reflexivity|].
  cbn [List.filter] in *. rewrite IH.
  destruct (Qeq_bool (conf x) c) eqn:Ex; [|reflexivity].
  destruct (Qeq_bool (conf y) c) eqn:Ey; [|reflexivity].
  exfalso.
  apply Qeq_bool_iff in Ex, Ey.
  assert (notBelow x y) as Hk by (unfold notBelow; lra).
  apply byConfidence_keeps in Hk. congruence.
Qed.

Lemma sort_stable (c : Q) (l : list TagSuggestion.t) :
  withConfidence c (JS.sort FileProcessor.byConfidence l) = withConfidence c l.
Proof.
  induction l as [|x r IH]; cbn [JS.sort]; [reflexivity|].
  rewrite insert_stable. unfold withConfidence in *. cbn [List.filter].
  rewrite IH. reflexivity.
Qed.

Lemma slice0_firstn {A} (n : Z) (l : list A) :
  0 <= n -> JS.slice0 n l = firstn (Z.to_nat n) l.
Proof.
  intros H. unfold JS.slice0. destruct (Z.ltb_spec n 0); [lia|reflexivity].
Qed.

Lemma slice0_length {A} (n : Z) (l : list A) :
  0 <= n -> Z.of_nat (length (JS.slice0 n l)) = Z.min n (Z.of_nat (length l)).
Proof.
  intros H. rewrite slice0_firstn by assumption. rewrite length_firstn. lia.
Qed.

Lemma elem_of_skipn {A} (x : A) (n : nat) (l : list A) :
  x ∈ skipn n l -> x ∈ l.
Proof.
  revert l. induction n as [|n IH]; intros [|y l] H; cbn in H; auto.
  apply elem_of_cons. right. apply IH. exact H.
Qed.

Lemma sorted_split (n : nat) (l : list TagSuggestion.t) :
  StronglySorted notBelow l ->
  forall kept dropped, kept ∈ firstn n l -> dropped ∈ skipn n l -> notBelow kept dropped.
Proof.
  intros Hs. revert n. induction Hs as [|y r Hr IH Hy]; intros n kept dropped Hk Hd.
  - rewrite firstn_nil in Hk. inversion Hk.
  - destruct n as [|n]; cbn in *.
    + inversion Hk.
    + apply elem_of_cons in Hk as [-> | Hk].
      * rewrite Forall_forall in Hy. apply Hy.
        eapply elem_of_skipn. exact Hd.
      * eapply IH; eassumption.
Qed.

(** ** Running a computation: what a result tells about its parts *)

Lemma bind_Ok {A B} (m : M A) (k : A -> M B) (w w' : World.t) (b : B) :
  bind m k w = (Ok b, w') ->
  exists a w1, m w = (Ok a, w1) /\ k a w1 = (Ok b, w').
Proof.
  unfold bind. destruct (m w) as [[a | e |] w1]; intros H; try discriminate.
  eauto.
Qed.

Lemma tryFinally_Ok {A} (body : M A) (cleanup : M unit) (w w' : World.t) (a : A) :
  tryFinally body cleanup w = (Ok a, w') ->
  exists w1, body w = (Ok a, w1).
Proof.
  unfold tryFinally. destruct (body w) as [[a' | e |] w1]; intros H.
  - destruct (cleanup w1) as [[[] | e |] w2]; inversion H; subst. eauto.
  - destruct (cleanup w1) as [[[] | e' |] w2]; inversion H.
  - discriminate.
Qed.

Ltac inv_bind H :=
  let a := fresh "a" in
  let w1 := fresh "w" in
  let H1 := fresh "Hrun" in
  apply bind_Ok in H as (a & w1 & H1 & H).

Ltac inv_ret H := unfold ret in H; inversion H; subst; clear H.

(** ** The size ceiling of the extraction *)

Lemma extractImage_some (rt : Runtime.t) (file : FileInfo.t) (w : World.t) :
  exists summary w', ContentExtractor.extractImage rt file w = (Ok (Some summary), w').
Proof.
  unfold ContentExtractor.extractImage, tryCatch, bind, Fs.readFile, Fs.readBlob, bind.
  destruct (World.files (Fs.logCall (ReadFile (FileInfo.path file)) w) !! FileInfo.path file)
    as [node|].
  - cbn. destruct (Runtime.sharp rt (blob_raw (FsNode.blob node))); cbn; eauto.
  - unfold Fs.enoent, Fs.fsError. destruct (Fs.isDir _ _); cbn; eauto.
Qed.

(** C5. The ceiling is checked before any read. A Document, Code or Data
    file above 10 MiB yields null and the world is as it was: no call on the
    file system, nothing logged. An Image or Media file yields null in
    the same way only above 50 MiB; up to 50 MiB its extraction goes on
    and yields its metadata summary. *)
Theorem extract_size_ceiling (rt : Runtime.t) (file : FileInfo.t) (w : World.t) :
  (FileInfo.type file ∈ [Document; Code; Data] -> 10 * MiB < FileInfo.size file ->
     ContentExtractor.extract rt file w = (Ok None, w))
  /\ (FileInfo.type file ∈ [Image; Media] -> 50 * MiB < FileInfo.size file ->
        ContentExtractor.extract rt file w = (Ok None, w))
  /\ (FileInfo.type file ∈ [Image; Media] -> FileInfo.size file <= 50 * MiB ->
        exists summary w',
          ContentExtractor.extract rt file w = (Ok (Some summary), w')).
Proof.
  unfold MiB, ContentExtractor.extract, ContentExtractor.maxSize,
    ContentExtractor.MAX_FILE_SIZE.
  repeat split.
  - intros Ht Hs.
    assert (Hlt : (10 * 1024 * 1024 <? FileInfo.size file) = true) by (apply Z.ltb_lt; lia).
    repeat (apply elem_of_cons in Ht as [-> | Ht]); try (inversion Ht; fail);
      rewrite Hlt; reflexivity.
  - intros Ht Hs.
    assert (Hlt : (50 * 1024 * 1024 <? FileInfo.size file) = true) by (apply Z.ltb_lt; lia).
    repeat (apply elem_of_cons in Ht as [-> | Ht]); try (inversion Ht; fail);
      rewrite Hlt; reflexivity.
  - intros Ht Hs.
    assert (Hge : (50 * 1024 * 1024 <? FileInfo.size file) = false) by (apply Z.ltb_ge; lia).
    repeat (apply elem_of_cons in Ht as [-> | Ht]); try (inversion Ht; fail); rewrite Hge.
    + destruct (extractImage_some rt file w) as (summary & w' & E).
      exists summary, w'. unfold tryCatch. rewrite E. reflexivity.
    + unfold tryCatch, ContentExtractor.extractMedia, ret. eauto.
Qed.

Lemma extract_size_ceiling_witness :
  ContentExtractor.extract sampleRuntime huge_pdf sampleWorld = (Ok None, sampleWorld)
  /\ ContentExtractor.extract sampleRuntime huge_movie sampleWorld = (Ok None, sampleWorld)
  /\ exists summary w',
       ContentExtractor.extract sampleRuntime big_photo sampleWorld = (Ok (Some summary), w').
Proof.
  split; [|split].
  - apply (proj1 (extract_size_ceiling sampleRuntime huge_pdf sampleWorld)).
    + cbn. set_solver.
    + vm_compute. reflexivity.
  - apply (proj1 (proj2 (extract_size_ceiling sampleRuntime huge_movie sampleWorld))).
    + cbn. set_solver.
    + vm_compute. reflexivity.
  - apply (proj2 (proj2 (extract_size_ceiling sampleRuntime big_photo sampleWorld))).
    + cbn. set_solver.
    + vm_compute. discriminate.
Defined.

(** The earlier revision has the one ceiling of 10 MiB for every type. *)
Lemma legacy_extract_single_ceiling (file : FileInfo.t) (w : World.t) :
  10 * MiB < FileInfo.size file ->
  LegacyContentExtractor.extract file w = (Ok None, w).
Proof.
  intros Hs. unfold LegacyContentExtractor.extract, LegacyContentExtractor.MAX_FILE_SIZE.
  assert (Hlt : (10 * 1024 * 1024 <? FileInfo.size file) = true)
    by (apply Z.ltb_lt; unfold MiB in Hs; lia).
  rewrite Hlt. reflexivity.
Qed.


(** ** Computations that only read *)

#[global] Instance observes_preorder : PreOrder observes.
Proof.
  split.
  - intros w. unfold observes. repeat split. exists []. split; [reflexivity|constructor].
  - intros w1 w2 w3 (Hf1 & Hd1 & Ht1 & c1 & Hc1 & Hm1) (Hf2 & Hd2 & Ht2 & c2 & Hc2 & Hm2).
    unfold observes. repeat split; try congruence.
    exists (c2 ++ c1). split.
    + rewrite Hc2, Hc1, app_assoc. reflexivity.
    + apply Forall_app. split; assumption.
Qed.

Section RunsLemmas.
Context (R : World.t -> World.t -> Prop) `{!PreOrder R}.

Lemma Runs_ret {A} (a : A) : Runs R (ret a).
Proof. intros w r w' H. inversion H; subst. split; [discriminate|reflexivity]. Qed.

Lemma Runs_throw {A} (e : Thrown) : Runs R (@throw A e).
Proof. intros w r w' H. inversion H; subst. split; [discriminate|reflexivity]. Qed.

Lemma Runs_bind {A B} (m : M A) (k : A -> M B) :
  Runs R m -> (forall a, Runs R (k a)) -> Runs R (bind m k).
Proof.
  intros Hm Hk w r w' H. unfold bind in H.
  destruct (m w) as [[a | e |] w1] eqn:E; destruct (Hm _ _ _ E) as [Hne HR].
  - destruct (Hk a _ _ _ H) as [Hne' HR']. split; [assumption|]. etransitivity; eassumption.
  - inversion H; subst. split; [discriminate|assumption].
  - congruence.
Qed.

Lemma Runs_tryCatch {A} (body : M A) (handler : Thrown -> M A) :
  Runs R body -> (forall e, Runs R (handler e)) -> Runs R (tryCatch body handler).
Proof.
  intros Hm Hk w r w' H. unfold tryCatch in H.
  destruct (body w) as [[a | e |] w1] eqn:E; destruct (Hm _ _ _ E) as [Hne HR].
  - inversion H; subst. split; [discriminate|assumption].
  - destruct (Hk e _ _ _ H) as [Hne' HR']. split; [assumption|]. etransitivity; eassumption.
  - congruence.
Qed.

Lemma Runs_tryFinally {A} (body : M A) (cleanup : M unit) :
  Runs R body -> Runs R cleanup -> Runs R (tryFinally body cleanup).
Proof.
  intros Hm Hc w r w' H. unfold tryFinally in H.
  destruct (body w) as [[a | e |] w1] eqn:E; destruct (Hm _ _ _ E) as [Hne HR];
    try congruence.
  - destruct (cleanup w1) as [[[] | e |] w2] eqn:E2; destruct (Hc _ _ _ E2) as [Hne2 HR2];
      inversion H; subst; (split; [try discriminate; congruence | etransitivity; eassumption]).
  - destruct (cleanup w1) as [[[] | e' |] w2] eqn:E2; destruct (Hc _ _ _ E2) as [Hne2 HR2];
      inversion H; subst; (split; [try discriminate; congruence | etransitivity; eassumption]).
Qed.

Lemma Runs_foldM {A B} (f : A -> B -> M A) (l : list B) :
  (forall acc x, x ∈ l -> Runs R (f acc x)) ->
  forall acc, Runs R (FileProcessor.foldM f acc l).
Proof.
  induction l as [|x l IH]; intros Hf acc; cbn.
  - apply Runs_ret.
  - apply Runs_bind.
    + apply Hf. left.
    + intros acc'. apply IH. intros acc'' y Hy. apply Hf. right. exact Hy.
Qed.
End RunsLemmas.

Lemma Runs_weaken {A} (R R' : World.t -> World.t -> Prop) (m : M A) :
  (forall w w', R w w' -> R' w w') -> Runs R m -> Runs R' m.
Proof. intros HRR Hm w r w' H. destruct (Hm _ _ _ H). auto. Qed.

Lemma observes_logCall (c : FsCall) (w : World.t) :
  mutates c = false -> observes w (Fs.logCall c w).
Proof.
  intros Hc. unfold observes, Fs.logCall; cbn. repeat split.
  exists [c]. split; [reflexivity|]. constructor; [assumption|constructor].
Qed.

Lemma observes_console (w : World.t) line :
  observes w (World.mk (World.files w) (World.dirs w) (World.time w) (World.tmpSeq w)
                       (World.trace w) (line :: World.console w)).
Proof. unfold observes; cbn. repeat split. exists []. split; [reflexivity|constructor]. Qed.

Lemma Runs_readBlob (c : FsCall) (p : string) :
  mutates c = false -> Runs observes (Fs.readBlob c p).
Proof.
  intros Hc w r w' H. unfold Fs.readBlob in H.
  destruct (World.files (Fs.logCall c w) !! p).
  - inversion H; subst. split; [discriminate|]. apply observes_logCall. assumption.
  - unfold Fs.enoent, Fs.fsError in H.
    destruct (Fs.isDir _ _); inversion H; subst;
      (split; [discriminate|apply observes_logCall; assumption]).
Qed.

Lemma Runs_readFile (p : string) : Runs observes (Fs.readFile p).
Proof.
  unfold Fs.readFile. apply Runs_bind; [typeclasses eauto| |].
  - apply Runs_readBlob. reflexivity.
  - intros b. apply Runs_ret. typeclasses eauto.
Qed.

Lemma Runs_readdir (rt : Runtime.t) (p : string) : Runs observes (Fs.readdir rt p).
Proof.
  intros w r w' H. unfold Fs.readdir, Fs.enoent, Fs.enotdir, Fs.fsError in H.
  destruct (Fs.isDir _ _); [|destruct (Fs.isFile _ _)]; inversion H; subst;
    (split; [discriminate|apply observes_logCall; reflexivity]).
Qed.

Lemma Runs_stat (rt : Runtime.t) (p : string) : Runs observes (Fs.stat rt p).
Proof.
  intros w r w' H. unfold Fs.stat, Fs.enoent, Fs.fsError in H.
  destruct (World.files _ !! p); [|destruct (Fs.isDir _ _)]; inversion H; subst;
    (split; [discriminate|apply observes_logCall; reflexivity]).
Qed.

Lemma Runs_consoleLog (line : string) : Runs observes (Fs.consoleLog line).
Proof.
  intros w r w' H. unfold Fs.consoleLog in H. inversion H; subst.
  split; [discriminate|]. apply observes_console.
Qed.

Lemma Runs_newDate (rt : Runtime.t) : Runs observes (Fs.newDate rt).
Proof.
  intros w r w' H. unfold Fs.newDate in H. inversion H; subst.
  split; [discriminate|]. unfold observes; cbn. repeat split.
  exists []. split; [reflexivity|constructor].
Qed.

Create HintDb runs discriminated.
#[global] Hint Resolve Runs_readFile Runs_readdir Runs_stat Runs_consoleLog Runs_newDate : runs.

(** Splits a computation along its binds, handlers and branches, and closes
    the leaves with the lemmas of the data base [runs]. *)
Ltac runs :=
  repeat first
    [ solve [eauto with runs]
    | apply Runs_ret; [typeclasses eauto]
    | apply Runs_throw; [typeclasses eauto]
    | apply Runs_bind; [typeclasses eauto | | intros ?]
    | apply Runs_tryCatch; [typeclasses eauto | | intros ?]
    | match goal with
      | |- Runs _ (if ?b then _ else _) => destruct b
      | |- Runs _ (match ?x with _ => _ end) => destruct x
      end ].

Lemma Runs_extract (rt : Runtime.t) (file : FileInfo.t) :
  Runs observes (ContentExtractor.extract rt file).
Proof.
  unfold ContentExtractor.extract, ContentExtractor.extractDocument,
    ContentExtractor.extractText, ContentExtractor.extractPDF, ContentExtractor.extractDOCX,
    ContentExtractor.extractODT, ContentExtractor.extractHTML, ContentExtractor.extractImage,
    ContentExtractor.extractMedia, ContentExtractor.extractArchiveMetadata,
    ContentExtractor.extractBasic, ContentExtractor.warn.
  runs.
Qed.

Lemma Returns_ret {A} (a : A) : Returns (ret a).
Proof. intros w. exists a, w. reflexivity. Qed.

Lemma Returns_bind {A B} (m : M A) (k : A -> M B) :
  Returns m -> (forall a, Returns (k a)) -> Returns (bind m k).
Proof.
  intros Hm Hk w. destruct (Hm w) as (a & w1 & E). destruct (Hk a w1) as (b & w2 & E2).
  exists b, w2. unfold bind. rewrite E. exact E2.
Qed.

Lemma Returns_tryCatch {A} (R : World.t -> World.t -> Prop) (body : M A)
    (handler : Thrown -> M A) :
  Runs R body -> (forall e, Returns (handler e)) -> Returns (tryCatch body handler).
Proof.
  intros Hb Hh w. unfold tryCatch.
  destruct (body w) as [[a | e |] w1] eqn:E.
  - eauto.
  - apply Hh.
  - destruct (Hb _ _ _ E). congruence.
Qed.

Lemma Returns_consoleLog (line : string) : Returns (Fs.consoleLog line).
Proof. intros w. unfold Fs.consoleLog. eauto. Qed.

Lemma Returns_newDate (rt : Runtime.t) : Returns (Fs.newDate rt).
Proof. intros w. unfold Fs.newDate. eauto. Qed.

#[global] Hint Resolve Returns_ret Returns_consoleLog Returns_newDate : runs.

Lemma Returns_extract (rt : Runtime.t) (file : FileInfo.t) :
  Returns (ContentExtractor.extract rt file).
Proof.
  unfold ContentExtractor.extract.
  eapply Returns_tryCatch with (R := observes).
  - unfold ContentExtractor.extractDocument,
      ContentExtractor.extractText, ContentExtractor.extractPDF, ContentExtractor.extractDOCX,
      ContentExtractor.extractODT, ContentExtractor.extractHTML, ContentExtractor.extractImage,
      ContentExtractor.extractMedia, ContentExtractor.extractArchiveMetadata,
      ContentExtractor.extractBasic, ContentExtractor.warn.
    runs.
  - intros e. unfold ContentExtractor.warn.
    apply Returns_bind; [apply Returns_consoleLog | intros; apply Returns_ret].
Qed.

Lemma Runs_getExistingVaultFolders (rt : Runtime.t) (config : Config.t) :
  Runs observes (FileProcessor.getExistingVaultFolders rt config).
Proof. unfold FileProcessor.getExistingVaultFolders. runs. Qed.

Lemma Returns_getExistingVaultFolders (rt : Runtime.t) (config : Config.t) :
  Returns (FileProcessor.getExistingVaultFolders rt config).
Proof.
  unfold FileProcessor.getExistingVaultFolders.
  eapply Returns_tryCatch with (R := observes); [runs|].
  intros e. apply Returns_ret.
Qed.

Lemma Runs_getOriginalFilePath (rt : Runtime.t) (config : Config.t) file category :
  Runs observes (FileProcessor.getOriginalFilePath rt config file category).
Proof. unfold FileProcessor.getOriginalFilePath. runs. Qed.

Lemma Returns_getOriginalFilePath (rt : Runtime.t) (config : Config.t) file category :
  Returns (FileProcessor.getOriginalFilePath rt config file category).
Proof.
  unfold FileProcessor.getOriginalFilePath.
  apply Returns_bind; [|intros; apply Returns_ret].
  destruct (String.eqb _ "type-based"); [apply Returns_ret|].
  destruct (String.eqb _ "date-based"); [|apply Returns_ret].
  apply Returns_bind; [apply Returns_newDate | intros; apply Returns_ret].
Qed.

Lemma Runs_returnOrThrow {A} (r : Thrown + A) : Runs observes (returnOrThrow r).
Proof. destruct r; cbn; runs. Qed.

Lemma Runs_markdownPathOf (rt : Runtime.t) (config : Config.t) (vaultCategory : JS.Value)
    (name : string) :
  Runs observes (FileProcessor.markdownPathOf rt config vaultCategory name).
Proof. apply Runs_returnOrThrow. Qed.

#[global] Hint Resolve Runs_extract Runs_getExistingVaultFolders Runs_getOriginalFilePath
  Runs_returnOrThrow Runs_markdownPathOf : runs.

(** ** Lowercasing *)

Lemma lower_char_idempotent (c : ascii) : JS.lower_char (JS.lower_char c) = JS.lower_char c.
Proof. destruct c as [[] [] [] [] [] [] [] []]; vm_compute; reflexivity. Qed.

Lemma toLowerCase_idempotent (s : string) :
  JS.toLowerCase (JS.toLowerCase s) = JS.toLowerCase s.
Proof.
  unfold JS.toLowerCase. induction s as [|c s IH]; cbn; [reflexivity|].
  rewrite lower_char_idempotent, IH. reflexivity.
Qed.

(** The names of [Object.prototype] a lowercased key can be. *)
Lemma lowercase_prototype_key (s : string) :
  JS.arr_includes (JS.toLowerCase s) JS.objectPrototypeKeys = true ->
  JS.toLowerCase s ∈ ["constructor"; "__proto__"].
Proof.
  intros H. pose proof (toLowerCase_idempotent s) as Hid.
  unfold JS.arr_includes, JS.objectPrototypeKeys, existsb in H.
  repeat (apply orb_true_iff in H as [H | H];
          [apply String.eqb_eq in H; rewrite H in Hid |- *;
           first [ vm_compute in Hid; discriminate | set_solver ] |]).
  discriminate.
Qed.

(** The folder of the vault for a category: a string, or the member of
    [Object.prototype] the lowercased category names. *)
Lemma mapCategoryToVaultFolder_cases (config : Config.t) (category : string) :
  (exists folder, FileProcessor.mapCategoryToVaultFolder config category = JS.Str folder)
  \/ (FileProcessor.mapCategoryToVaultFolder config category
      = JS.Proto (JS.toLowerCase category)
      /\ JS.toLowerCase category ∈ ["constructor"; "__proto__"]).
Proof.
  unfold FileProcessor.mapCategoryToVaultFolder, JS.memberOr, JS.member.
  destruct (List.find _ _) as [kv|].
  - left. destruct (String.eqb kv.2 ""); eauto.
  - destruct (JS.arr_includes _ JS.objectPrototypeKeys) eqn:E.
    + right. split; [reflexivity|]. apply lowercase_prototype_key. exact E.
    + left. eauto.
Qed.

(** ** The per-file routine *)

Section PerFile.
Context (rt : Runtime.t) (config : Config.t).

Local Abbreviation processFileAsNormal := (FileProcessor.processFileAsNormal rt config).
Local Abbreviation placeFiles := (FileProcessor.placeFiles rt).

(** A dry run calls nothing that mutates. *)
Lemma dry_run_observes (file : FileInfo.t) (options : ProcessOptions.t) :
  ProcessOptions.dryRun options = true ->
  Runs observes (processFileAsNormal file options).
Proof.
  intros Hdry. unfold FileProcessor.processFileAsNormal, FileProcessor.placeFiles.
  rewrite Hdry. cbn [negb]. runs.
Qed.

(** A dry run returns a record, unless the category of the file lowercases
    to the name of a member of [Object.prototype], and then [path.join]
    throws. *)
Lemma dry_run_returns_or_throws (file : FileInfo.t) (options : ProcessOptions.t)
    (w : World.t) :
  ProcessOptions.dryRun options = true ->
  exists r w',
    processFileAsNormal file options w = (r, w')
    /\ ((exists pf, r = Ok pf)
        \/ exists name, r = Throw (Path.invalidPathArgument name)
                        /\ name ∈ ["constructor"; "__proto__"]).
Proof.
  intros Hdry. unfold FileProcessor.processFileAsNormal, FileProcessor.placeFiles.
  rewrite Hdry. cbn [negb]. unfold bind at 1.
  destruct (Returns_extract rt file w) as (content & w1 & ->).
  unfold bind at 1.
  destruct (Returns_getExistingVaultFolders rt config w1) as (folders & w2 & ->).
  unfold bind at 1. unfold FileProcessor.markdownPathOf, Path.joinValues.
  cbn [Path.validateStrings].
  destruct (mapCategoryToVaultFolder_cases config
              (CategorySuggestion.category (ClaudeService.suggestCategory file folders)))
    as [(folder & ->) | (-> & Hname)].
  - cbn [returnOrThrow ret]. unfold bind at 1.
    destruct (Returns_getOriginalFilePath rt config file
                (CategorySuggestion.category (ClaudeService.suggestCategory file folders)) w2)
      as (dst & w3 & ->).
    unfold bind at 1. destruct (Returns_newDate rt w3) as (date & w4 & ->).
    unfold bind, ret. eexists _, _. split; [reflexivity|]. left. eauto.
  - cbn [returnOrThrow throw]. eexists _, _. split; [reflexivity|]. right. eauto.
Qed.

(** A run is the dry run followed by the file operations. *)
Lemma run_is_dry_run_then_placeFiles (file : FileInfo.t) (options : ProcessOptions.t)
    (w : World.t) :
  processFileAsNormal file options w
  = match processFileAsNormal file (withDryRun true options) w with
    | (Ok pf, w1) =>
        match placeFiles options file (ProcessedFile.markdownPath pf)
                (ProcessedFile.originalNewPath pf) (ProcessedFile.content pf) w1 with
        | (Ok _, w2) => (Ok pf, w2)
        | (Throw e, w2) => (Throw e, w2)
        | (OutOfFuel, w2) => (OutOfFuel, w2)
        end
    | r => r
    end.
Proof.
  unfold FileProcessor.processFileAsNormal, bind.
  destruct (ContentExtractor.extract rt file w) as [[content | e |] w1]; try reflexivity.
  destruct (FileProcessor.getExistingVaultFolders rt config w1) as [[folders | e |] w2];
    try reflexivity.
  destruct (FileProcessor.markdownPathOf rt config _ _ w2) as [[markdownPath | e |] w2'];
    try reflexivity.
  destruct (FileProcessor.getOriginalFilePath rt config file _ w2') as [[dst | e |] w3];
    try reflexivity.
Qed.

(** The record a run returns. *)
Lemma processFileAsNormal_fields (file : FileInfo.t) (options : ProcessOptions.t)
    (w w' : World.t) (pf : ProcessedFile.t) :
  processFileAsNormal file options w = (Ok pf, w') ->
  ProcessedFile.original pf = file
  /\ ProcessedFile.tags pf
     = FileProcessor.selectTags config (ClaudeService.suggestTags file None)
  /\ Frontmatter.tags (ProcessedFile.frontmatter pf) = ProcessedFile.tags pf
  /\ Frontmatter.originalFile (ProcessedFile.frontmatter pf)
     = "[[file://" +:+ ProcessedFile.originalNewPath pf +:+ "]]"
  /\ Frontmatter.sourceLocation (ProcessedFile.frontmatter pf) = Some (FileInfo.path file).
Proof.
  intros H. unfold FileProcessor.processFileAsNormal in H.
  inv_bind H. inv_bind H. inv_bind H. inv_bind H. inv_bind H. inv_bind H. inv_ret H.
  cbn. repeat split; reflexivity.
Qed.

(** The file operations end with the move or the copy of the original. *)
Lemma placeFiles_relocates (file : FileInfo.t) (options : ProcessOptions.t)
    (markdownPath originalNewPath markdownContent : string) (w w' : World.t) :
  ProcessOptions.dryRun options = false ->
  placeFiles options file markdownPath originalNewPath markdownContent w = (Ok tt, w') ->
  head (World.trace w') = Some (relocation options file originalNewPath).
Proof.
  intros Hwet H. unfold FileProcessor.placeFiles in H. rewrite Hwet in H. cbn [negb] in H.
  inv_bind H. inv_bind H. inv_bind H.
  unfold relocation. destruct (ProcessOptions.copy options).
  - unfold Fs.copyFile in H.
    destruct (World.files _ !! _); [|inversion H].
    destruct (Fs.writable _ _ _ _); inversion H; subst; reflexivity.
  - unfold Fs.rename in H.
    destruct (World.files _ !! _); [|inversion H].
    destruct (Fs.writable _ _ _ _); inversion H; subst; reflexivity.
Qed.
End PerFile.

Section Engine.
Context (rt : Runtime.t) (config : Config.t).

Local Abbreviation maxTags := (TaggingConfig.maxTags (Config.tagging config)).
Local Abbreviation processFile := (FileProcessor.processFile rt config).

Lemma processFile_plain (fuel : nat) (file : FileInfo.t) (options : ProcessOptions.t) :
  FileInfo.type file <> Archive ->
  processFile (S fuel) file options
  = FileProcessor.processFileAsNormal rt config file options.
Proof.
  intros Ht. cbn [FileProcessor.processFile].
  destruct (decide (FileInfo.type file = Archive)); [contradiction|reflexivity].
Qed.

Lemma processFile_plain_Ok (fuel : nat) (file : FileInfo.t) (options : ProcessOptions.t)
    (w w' : World.t) (pf : ProcessedFile.t) :
  FileInfo.type file <> Archive ->
  processFile fuel file options w = (Ok pf, w') ->
  FileProcessor.processFileAsNormal rt config file options w = (Ok pf, w').
Proof.
  intros Ht H. destruct fuel as [|fuel]; [discriminate|].
  rewrite processFile_plain in H; assumption.
Qed.

(** What the archive routine returns: the record of the ordinary routine
    when nothing was extracted, the summary record otherwise. *)
Lemma processArchiveRecursively_Ok (member : FileInfo.t -> M ProcessedFile.t)
    (file : FileInfo.t) (options : ProcessOptions.t) (w w' : World.t)
    (pf : ProcessedFile.t) :
  FileProcessor.processArchiveRecursively rt config member file options w = (Ok pf, w') ->
  (exists w1 w2,
      FileProcessor.processFileAsNormal rt config file options w1 = (Ok pf, w2))
  \/ (exists childResults,
        ProcessedFile.original pf = file
        /\ ProcessedFile.tags pf
           = FileProcessor.generateArchiveTags config file childResults
        /\ Frontmatter.tags (ProcessedFile.frontmatter pf) = ProcessedFile.tags pf
        /\ Frontmatter.originalFile (ProcessedFile.frontmatter pf)
           = "[[file://" +:+ ProcessedFile.originalNewPath pf +:+ "]]"
        /\ Frontmatter.extractedFiles (ProcessedFile.frontmatter pf)
           = Some (Z.of_nat (length childResults))).
Proof.
  intros H. unfold FileProcessor.processArchiveRecursively in H.
  inv_bind H. apply tryFinally_Ok in H as (w1 & H).
  inv_bind H. inv_bind H.
  destruct a1 as [|extracted more].
  - inv_bind H. left. eauto.
  - inv_bind H. inv_bind H. inv_bind H. inv_bind H. inv_bind H. inv_bind H. inv_bind H.
    inv_bind H. inv_ret H.
    right. exists a2. cbn. repeat split; reflexivity.
Qed.

Lemma selectTags_length (candidates : list TagSuggestion.t) :
  0 <= maxTags ->
  Z.of_nat (length (FileProcessor.selectTags config candidates))
  = Z.min maxTags (Z.of_nat (length candidates)).
Proof.
  intros H. unfold FileProcessor.selectTags.
  rewrite length_map, slice0_length by assumption.
  rewrite (Permutation_length (sort_Permutation _ _)). reflexivity.
Qed.

Lemma generateArchiveTags_length (file : FileInfo.t) (children : list ProcessedFile.t) :
  0 <= maxTags ->
  Z.of_nat (length (FileProcessor.generateArchiveTags config file children)) <= maxTags.
Proof.
  intros H. unfold FileProcessor.generateArchiveTags.
  rewrite slice0_length by assumption. lia.
Qed.

(** C10. Every ProcessedFile the per-file routine returns, by the
    ordinary path or by the archive-summary path, at any depth of the
    recursion, carries at most [maxTags] tags, the same list as in its
    frontmatter; and the synthesized tags of an archive summary are cut
    to [maxTags] whatever the children are. *)
Theorem tags_capped_on_every_path (fuel : nat) (file : FileInfo.t)
    (options : ProcessOptions.t) (w w' : World.t) (pf : ProcessedFile.t) :
  0 <= maxTags ->
  processFile fuel file options w = (Ok pf, w') ->
  Z.of_nat (length (ProcessedFile.tags pf)) <= maxTags
  /\ Frontmatter.tags (ProcessedFile.frontmatter pf) = ProcessedFile.tags pf
  /\ forall archive children,
       Z.of_nat (length (FileProcessor.generateArchiveTags config archive children))
       <= maxTags.
Proof.
  intros Hmax H.
  assert (Hplain : forall w1 w2,
             FileProcessor.processFileAsNormal rt config file options w1 = (Ok pf, w2) ->
             Z.of_nat (length (ProcessedFile.tags pf)) <= maxTags
             /\ Frontmatter.tags (ProcessedFile.frontmatter pf) = ProcessedFile.tags pf).
  { intros w1 w2 E. apply processFileAsNormal_fields in E as (_ & Ht & Hf & _).
    split; [|assumption]. rewrite Ht, selectTags_length by assumption. lia. }
  assert (forall archive children,
             Z.of_nat (length (FileProcessor.generateArchiveTags config archive children))
             <= maxTags) as Harch
      by (intros; apply generateArchiveTags_length; assumption).
  destruct fuel as [|fuel]; [discriminate|].
  cbn [FileProcessor.processFile] in H.
  destruct (decide (FileInfo.type file = Archive)) as [Ha | Hn].
  - apply processArchiveRecursively_Ok in H
      as [(w1 & w2 & E) | (children & _ & Ht & Hf & _)].
    + destruct (Hplain _ _ E). auto.
    + split; [rewrite Ht; apply Harch|]. split; [exact Hf | exact Harch].
  - destruct (Hplain _ _ H). auto.
Qed.

(** C4. For a file that is no archive, the tags of its ProcessedFile are
    the candidates sorted by descending confidence, cut to the first
    [maxTags]: the sorted list is a permutation of the candidates, never
    rises in confidence, and keeps the candidates of one confidence in
    the order of their emission; the tags are [min maxTags n] of the [n]
    candidates, exactly [maxTags] when there are more, and no candidate
    left out has a higher confidence than one that is kept. *)
Theorem final_tags_are_top_candidates (fuel : nat) (file : FileInfo.t)
    (options : ProcessOptions.t) (w w' : World.t) (pf : ProcessedFile.t) :
  FileInfo.type file <> Archive ->
  0 <= maxTags ->
  processFile fuel file options w = (Ok pf, w') ->
  let candidates := ClaudeService.suggestTags file None in
  let sorted := JS.sort FileProcessor.byConfidence candidates in
  let n := Z.to_nat maxTags in
  ProcessedFile.tags pf = map TagSuggestion.tag (firstn n sorted)
  /\ Permutation sorted candidates
  /\ StronglySorted notBelow sorted
  /\ (forall c, withConfidence c sorted = withConfidence c candidates)
  /\ Z.of_nat (length (ProcessedFile.tags pf))
     = Z.min maxTags (Z.of_nat (length candidates))
  /\ (maxTags < Z.of_nat (length candidates) ->
        Z.of_nat (length (ProcessedFile.tags pf)) = maxTags)
  /\ (forall kept dropped,
        kept ∈ firstn n sorted -> dropped ∈ skipn n sorted ->
        (conf dropped <= conf kept)%Q).
Proof.
  intros Ht Hmax H candidates sorted n.
  apply processFile_plain_Ok in H; [|assumption].
  apply processFileAsNormal_fields in H as (_ & Htags & _).
  assert (Hlen : Z.of_nat (length (ProcessedFile.tags pf))
                 = Z.min maxTags (Z.of_nat (length candidates)))
    by (rewrite Htags; apply selectTags_length; assumption).
  repeat split.
  - rewrite Htags. unfold FileProcessor.selectTags.
    rewrite slice0_firstn by assumption. reflexivity.
  - apply sort_Permutation.
  - apply sort_sorted.
  - intros c. apply sort_stable.
  - exact Hlen.
  - intros Hmore. lia.
  - intros kept dropped Hk Hd.
    exact (sorted_split n sorted (sort_sorted candidates) kept dropped Hk Hd).
Qed.

(** C8. For a file that is no archive and is processed with success, the
    [originalFile] of the frontmatter is the wiki link to the new
    location of the original, the [sourceLocation] keeps the source
    path, and, unless the run is a dry run, that new location is where the
    last file operation moved or copied the original. *)
Theorem originalFile_links_new_location (fuel : nat) (file : FileInfo.t)
    (options : ProcessOptions.t) (w w' : World.t) (pf : ProcessedFile.t) :
  FileInfo.type file <> Archive ->
  processFile fuel file options w = (Ok pf, w') ->
  Frontmatter.originalFile (ProcessedFile.frontmatter pf)
  = "[[file://" +:+ ProcessedFile.originalNewPath pf +:+ "]]"
  /\ Frontmatter.sourceLocation (ProcessedFile.frontmatter pf)
     = Some (FileInfo.path file)
  /\ (ProcessOptions.dryRun options = false ->
        head (World.trace w')
        = Some (relocation options file (ProcessedFile.originalNewPath pf))).
Proof.
  intros Ht H.
  apply processFile_plain_Ok in H; [|assumption].
  destruct (processFileAsNormal_fields rt config _ _ _ _ _ H) as (_ & _ & _ & Hlink & Hsrc).
  repeat split; try assumption.
  intros Hwet. rewrite run_is_dry_run_then_placeFiles in H.
  destruct (FileProcessor.processFileAsNormal rt config file (withDryRun true options) w)
    as [[pf0 | e |] w1]; try discriminate.
  destruct (FileProcessor.placeFiles rt options file _ _ _ w1) as [[[] | e |] w2] eqn:E;
    inversion H; subst.
  eapply placeFiles_relocates; eassumption.
Qed.
End Engine.

(** The earlier revision links [originalFile] to the source path and keeps
    no [sourceLocation]. *)
Lemma legacy_originalFile_links_source (rt : Runtime.t) (config : Config.t)
    (file : FileInfo.t) (options : ProcessOptions.t) (w w' : World.t) (pf : ProcessedFile.t) :
  LegacyFileProcessor.processFile rt config file options w = (Ok pf, w') ->
  Frontmatter.originalFile (ProcessedFile.frontmatter pf)
  = "[[file://" +:+ FileInfo.path file +:+ "]]"
  /\ Frontmatter.sourceLocation (ProcessedFile.frontmatter pf) = None.
Proof.
  intros H. unfold LegacyFileProcessor.processFile in H.
  inv_bind H. inv_bind H. inv_bind H. inv_bind H. inv_bind H. inv_bind H. inv_ret H.
  split; reflexivity.
Qed.

Lemma final_tags_are_top_candidates_witness :
  FileInfo.type meeting_notes <> Archive
  /\ 0 <= TaggingConfig.maxTags (Config.tagging sampleConfig)
  /\ notes_wet_run = (Ok (returned notes_wet_run), notes_wet_run.2)
  /\ Z.of_nat (length (ProcessedFile.tags (returned notes_wet_run)))
     = TaggingConfig.maxTags (Config.tagging sampleConfig).
Proof.
  assert (Ht : FileInfo.type meeting_notes <> Archive) by discriminate.
  assert (Hmax : 0 <= TaggingConfig.maxTags (Config.tagging sampleConfig))
    by (vm_compute; discriminate).
  assert (Hrun : notes_wet_run = (Ok (returned notes_wet_run), notes_wet_run.2))
    by (vm_compute; reflexivity).
  split; [exact Ht|]. split; [exact Hmax|]. split; [exact Hrun|].
  refine (proj1 (proj2 (proj2 (proj2 (proj2 (proj2
    (final_tags_are_top_candidates sampleRuntime sampleConfig 1 meeting_notes
       wetOptions sampleWorld notes_wet_run.2 (returned notes_wet_run) Ht Hmax Hrun)))))) _).
  vm_compute. reflexivity.
Defined.

Lemma originalFile_links_new_location_witness :
  FileInfo.type meeting_notes <> Archive
  /\ notes_wet_run = (Ok (returned notes_wet_run), notes_wet_run.2)
  /\ Frontmatter.originalFile (ProcessedFile.frontmatter (returned notes_wet_run))
     = "[[file://" +:+ ProcessedFile.originalNewPath (returned notes_wet_run) +:+ "]]"
  /\ Frontmatter.sourceLocation (ProcessedFile.frontmatter (returned notes_wet_run))
     = Some (FileInfo.path meeting_notes)
  /\ (ProcessOptions.dryRun wetOptions = false ->
      head (World.trace notes_wet_run.2)
      = Some (relocation wetOptions meeting_notes
                (ProcessedFile.originalNewPath (returned notes_wet_run)))).
Proof.
  assert (Ht : FileInfo.type meeting_notes <> Archive) by discriminate.
  assert (Hrun : notes_wet_run = (Ok (returned notes_wet_run), notes_wet_run.2))
    by (vm_compute; reflexivity).
  split; [exact Ht|]. split; [exact Hrun|].
  exact (originalFile_links_new_location sampleRuntime sampleConfig 1 meeting_notes
           wetOptions sampleWorld notes_wet_run.2 (returned notes_wet_run) Ht Hrun).
Defined.

Lemma tags_capped_on_every_path_witness :
  0 <= TaggingConfig.maxTags (Config.tagging sampleConfig)
  /\ bundle_dry_run = (Ok (returned bundle_dry_run), bundle_dry_run.2)
  /\ Z.of_nat (length (ProcessedFile.tags (returned bundle_dry_run)))
     <= TaggingConfig.maxTags (Config.tagging sampleConfig).
Proof.
  assert (Hmax : 0 <= TaggingConfig.maxTags (Config.tagging sampleConfig))
    by (vm_compute; discriminate).
  assert (Hrun : bundle_dry_run = (Ok (returned bundle_dry_run), bundle_dry_run.2))
    by (vm_compute; reflexivity).
  split; [exact Hmax|]. split; [exact Hrun|].
  exact (proj1 (tags_capped_on_every_path sampleRuntime sampleConfig 3 bundle_zip
                  dryOptions sampleWorld bundle_dry_run.2 (returned bundle_dry_run)
                  Hmax Hrun)).
Defined.

(** ** The path-traversal guard *)

Lemma removeDotDot_head (b : ascii) (r : string) :
  Ascii.eqb b "." = false ->
  exists r', removeDotDot (String b r) = String b r'.
Proof.
  intros Hb. destruct r as [|c r]; cbn [removeDotDot].
  - eauto.
  - rewrite Hb. cbn [andb]. eauto.
Qed.

Lemma removeDotDot_step (a b : ascii) (r : string) :
  removeDotDot (String a (String b r))
  = if Ascii.eqb a "." && Ascii.eqb b "." then removeDotDot r
    else String a (removeDotDot (String b r)).
Proof. reflexivity. Qed.

Lemma removeDotDot_no_dotdot_upto (n : nat) (s : string) :
  (String.length s <= n)%nat -> hasDotDot (removeDotDot s) = false.
Proof.
  revert s. induction n as [|n IH]; intros s Hlen.
  - destruct s; [reflexivity | cbn in Hlen; lia].
  - destruct s as [|a [|b r]]; try reflexivity.
    + cbn. rewrite andb_false_r. reflexivity.
    + rewrite removeDotDot_step.
      destruct (Ascii.eqb a "." && Ascii.eqb b ".") eqn:E.
      * apply IH. cbn in Hlen. lia.
      * cbn [hasDotDot]. rewrite (IH (String b r)) by (cbn in *; lia).
        rewrite orb_false_r.
        destruct (Ascii.eqb a ".") eqn:Ea; [|reflexivity].
        cbn [andb] in *.
        destruct (removeDotDot_head b r E) as (r' & ->).
        change (JS.startsWith "." (String b r')) with (Ascii.eqb "." b && true).
        rewrite Ascii.eqb_sym, E. reflexivity.
Qed.

Lemma removeDotDot_no_dotdot (s : string) : hasDotDot (removeDotDot s) = false.
Proof. apply (removeDotDot_no_dotdot_upto (String.length s)). lia. Qed.

Lemma split_nonempty (c : ascii) (s : string) : JS.split c s <> [].
Proof.
  destruct s as [|a r]; cbn; [discriminate|].
  destruct (Ascii.eqb a c); [discriminate|].
  destruct (JS.split c r); discriminate.
Qed.

Lemma split_first_segment_dot (s seg : string) (segs : list string) :
  JS.split "/" s = seg :: segs ->
  JS.startsWith "." seg = true -> JS.startsWith "." s = true.
Proof.
  destruct s as [|a r]; cbn [JS.split].
  - intros [= <- <-] H. exact H.
  - destruct (Ascii.eqb a "/") eqn:Ea.
    + intros [= <- <-] H. discriminate.
    + destruct (JS.split "/" r); intros [= <- <-] H; exact H.
Qed.

Lemma segments_no_dotdot (s : string) :
  hasDotDot s = false ->
  forall seg, seg ∈ JS.split "/" s -> hasDotDot seg = false.
Proof.
  induction s as [|a r IH]; intros Hs seg Hin.
  - cbn in Hin. apply list_elem_of_singleton in Hin as ->. reflexivity.
  - cbn [hasDotDot] in Hs. apply orb_false_iff in Hs as [Hhead Hr].
    cbn [JS.split] in Hin.
    destruct (Ascii.eqb a "/") eqn:Ea.
    + apply elem_of_cons in Hin as [-> | Hin]; [reflexivity | auto].
    + destruct (JS.split "/" r) as [|seg0 segs] eqn:E.
      { exfalso. exact (split_nonempty _ _ E). }
      apply elem_of_cons in Hin as [-> | Hin].
      * cbn [hasDotDot]. rewrite (IH Hr seg0) by left.
        rewrite orb_false_r.
        destruct (Ascii.eqb a "."); [|reflexivity]. cbn [andb] in *.
        destruct (JS.startsWith "." seg0) eqn:Es; [|reflexivity].
        rewrite (split_first_segment_dot _ _ _ E Es) in Hhead. discriminate.
      * apply (IH Hr). right. exact Hin.
Qed.

Lemma sanitized_segments (entryPath seg : string) :
  seg ∈ JS.split "/" (sanitizeEntryPath entryPath) -> seg <> "..".
Proof.
  intros Hin ->.
  pose proof (segments_no_dotdot _ (removeDotDot_no_dotdot _) _ Hin) as H.
  discriminate.
Qed.

Lemma split_join (a b : string) :
  JS.split "/" (a +:+ "/" +:+ b) = JS.split "/" a ++ JS.split "/" b.
Proof.
  induction a as [|c a IH].
  - reflexivity.
  - change (String c a +:+ "/" +:+ b) with (String c (a +:+ "/" +:+ b)).
    cbn [JS.split]. rewrite IH.
    destruct (Ascii.eqb c "/"); [reflexivity|].
    destruct (JS.split "/" a) eqn:E; [exfalso; exact (split_nonempty _ _ E)|].
    reflexivity.
Qed.

Lemma normalize_only_pushes (allowAboveRoot : bool) (segs st : list string) :
  (forall seg, seg ∈ segs -> seg <> "..") ->
  foldl (Path.normalizeStep allowAboveRoot) st segs
  = rev (List.filter keptSegment segs) ++ st.
Proof.
  revert st. induction segs as [|seg segs IH]; intros st Hno; [reflexivity|].
  cbn [foldl List.filter]. rewrite IH by (intros; apply Hno; right; assumption).
  unfold Path.normalizeStep, keptSegment.
  destruct (String.eqb seg "" || String.eqb seg ".") eqn:E; cbn [negb]; [reflexivity|].
  destruct (String.eqb_spec seg "..") as [-> | _].
  - exfalso. apply (Hno ".."); [left|reflexivity].
  - cbn [rev]. rewrite <- app_assoc. reflexivity.
Qed.

Lemma normalizeStep_nonempty (allowAboveRoot : bool) (segs st : list string) :
  Forall (fun seg => seg <> "") st ->
  Forall (fun seg => seg <> "") (foldl (Path.normalizeStep allowAboveRoot) st segs).
Proof.
  revert st. induction segs as [|seg segs IH]; intros st Hst; [exact Hst|].
  cbn [foldl]. apply IH. unfold Path.normalizeStep.
  destruct (String.eqb_spec seg ""); [assumption|].
  cbn [orb]. destruct (String.eqb seg "."); [assumption|].
  destruct (String.eqb seg "..").
  - destruct st as [|top below].
    + destruct allowAboveRoot; repeat constructor. discriminate.
    + destruct (String.eqb top "..").
      * destruct allowAboveRoot; [constructor; [discriminate|]|]; assumption.
      * inversion Hst; assumption.
  - constructor; assumption.
Qed.

Lemma append_assoc (a b c : string) : a +:+ b +:+ c = (a +:+ b) +:+ c.
Proof.
  induction a as [|x a IH]; [reflexivity|].
  change (String x (a +:+ b +:+ c) = String x ((a +:+ b) +:+ c)). f_equal. exact IH.
Qed.

Lemma append_empty_r (s : string) : s +:+ "" = s.
Proof.
  induction s as [|a s IH]; [reflexivity|].
  change (String a (s +:+ "") = String a s). f_equal. exact IH.
Qed.

Lemma join_nonempty (l : list string) :
  l <> [] -> Forall (fun seg => seg <> "") l -> JS.join "/" l <> "".
Proof.
  destruct l as [|x l]; [congruence|]. intros _ H. inversion H as [|? ? Hx _]; subst.
  destruct x; [congruence|]. destruct l; discriminate.
Qed.

Lemma join_app (l1 l2 : list string) :
  l1 <> [] -> l2 <> [] ->
  JS.join "/" (l1 ++ l2) = JS.join "/" l1 +:+ "/" +:+ JS.join "/" l2.
Proof.
  induction l1 as [|x l1 IH]; [congruence|]. intros _ H2.
  destruct l1 as [|y l1].
  - destruct l2; [congruence|]. reflexivity.
  - change (JS.join "/" ((x :: y :: l1) ++ l2))
      with (x +:+ "/" +:+ JS.join "/" ((y :: l1) ++ l2)).
    rewrite IH by (congruence || assumption).
    change (JS.join "/" (x :: y :: l1)) with (x +:+ "/" +:+ JS.join "/" (y :: l1)).
    rewrite !append_assoc. reflexivity.
Qed.

Lemma startsWith_app (p s : string) : JS.startsWith p (p +:+ s) = true.
Proof.
  induction p as [|a p IH]; [reflexivity|].
  change (Ascii.eqb a a && JS.startsWith p (p +:+ s) = true).
  rewrite Ascii.eqb_refl. exact IH.
Qed.

Lemma startsWith_eq (p s r : string) : s = p +:+ r -> JS.startsWith p s = true.
Proof. intros ->. apply startsWith_app. Qed.

Lemma normalize_absolute (dir : string) :
  Path.isAbsolute dir = true ->
  Path.normalize dir
  = (let S0 := Path.normalizeSegments false (JS.split "/" dir) in
     match S0 with
     | [] => "/"
     | _ => "/" +:+ JS.join "/" S0 +:+ (if Path.hasTrailingSeparator dir then "/" else "")
     end)
  /\ Forall (fun seg => seg <> "") (Path.normalizeSegments false (JS.split "/" dir)).
Proof.
  intros Habs.
  assert (Hne : Forall (fun seg => seg <> "")
                  (Path.normalizeSegments false (JS.split "/" dir))).
  { unfold Path.normalizeSegments. apply Forall_rev.
    apply normalizeStep_nonempty. constructor. }
  split; [|exact Hne].
  unfold Path.normalize. destruct dir as [|c rest]; [discriminate|].
  cbn [String.eqb]. rewrite Habs. cbn [negb].
  unfold Path.normalizeString.
  destruct (Path.normalizeSegments false (JS.split "/" (String c rest))) as [|x l] eqn:E.
  - reflexivity.
  - destruct (String.eqb_spec (JS.join "/" (x :: l)) "") as [Hempty | _]; [|reflexivity].
    exfalso. revert Hempty. apply join_nonempty; [discriminate|exact Hne].
Qed.

Lemma isAbsolute_app (a b : string) :
  Path.isAbsolute a = true -> Path.isAbsolute (a +:+ b) = true.
Proof. destruct a as [|c a]; [discriminate|]. intros H. exact H. Qed.

(** The destination of an entry is the output directory or lies below it. *)
Lemma safePath_inside (outputDir entryPath : string) :
  Path.isAbsolute outputDir = true ->
  Path.hasTrailingSeparator outputDir = false ->
  inside (Path.normalize outputDir) (safePath outputDir entryPath).
Proof.
  intros Habs Htrail. unfold safePath, Path.join.
  set (san := sanitizeEntryPath entryPath).
  assert (Hout : String.eqb outputDir "" = false)
    by (destruct outputDir; [discriminate|reflexivity]).
  cbn [List.filter]. rewrite Hout. cbn [negb].
  destruct (String.eqb_spec san "") as [Hsan | Hsan]; cbn [negb].
  { left. reflexivity. }
  change (JS.join "/" [outputDir; san]) with (outputDir +:+ "/" +:+ san).
  destruct (normalize_absolute outputDir Habs) as [HN Hne0]. rewrite HN, Htrail.
  destruct (normalize_absolute (outputDir +:+ "/" +:+ san) (isAbsolute_app _ _ Habs))
    as [HJ _].
  rewrite HJ. clear HN HJ. cbv zeta.
  assert (Hsegs : Path.normalizeSegments false (JS.split "/" (outputDir +:+ "/" +:+ san))
                  = Path.normalizeSegments false (JS.split "/" outputDir)
                    ++ List.filter keptSegment (JS.split "/" san)).
  { unfold Path.normalizeSegments. rewrite split_join, foldl_app.
    rewrite normalize_only_pushes by (intros seg Hin; eapply sanitized_segments; exact Hin).
    rewrite rev_app_distr, rev_involutive. reflexivity. }
  rewrite Hsegs.
  set (S0 := Path.normalizeSegments false (JS.split "/" outputDir)) in *.
  set (R := List.filter keptSegment (JS.split "/" san)).
  set (t := if Path.hasTrailingSeparator (outputDir +:+ "/" +:+ san) then "/" else "").
  destruct S0 as [|x S0'] eqn:ES.
  - right. right. split; [reflexivity|].
    cbn [app]. destruct R; reflexivity.
  - destruct R as [|y R'] eqn:ER.
    + rewrite app_nil_r, append_empty_r.
      destruct (Path.hasTrailingSeparator (outputDir +:+ "/" +:+ san)); subst t.
      * right. left. apply startsWith_eq with (r := "").
        rewrite append_empty_r, append_assoc. reflexivity.
      * left. rewrite append_empty_r. reflexivity.
    + right. left. apply startsWith_eq with (r := JS.join "/" (y :: R') +:+ t).
      rewrite join_app by discriminate.
      rewrite append_empty_r, !append_assoc. reflexivity.
Qed.

Lemma mkdir_trace (p : string) (w w' : World.t) (r : Outcome unit) :
  Fs.mkdir p w = (r, w') -> World.trace w' = Mkdir p :: World.trace w.
Proof.
  unfold Fs.mkdir. destruct (String.eqb p ""); [|destruct (existsb _ _)];
    intros [= <- <-]; reflexivity.
Qed.

Lemma mkdir_ends (p : string) (w w' : World.t) (r : Outcome unit) :
  Fs.mkdir p w = (r, w') -> r <> OutOfFuel.
Proof.
  unfold Fs.mkdir, Fs.enoent, Fs.eexist, Fs.enotdir, Fs.fsError.
  destruct (String.eqb p ""); [|destruct (existsb _ _); [destruct (Fs.isFile _ _)|]];
    intros [= <- <-]; discriminate.
Qed.

Lemma writable_throws (w : World.t) (call p paths : string) (err : Outcome unit) :
  Fs.writable w call p paths = Some err -> exists e, err = Throw e.
Proof.
  unfold Fs.writable, Fs.eisdir, Fs.enoent, Fs.fsError.
  repeat match goal with
         | |- context [if ?b then _ else _] => destruct b
         end; intros [= <-]; eauto.
Qed.

Lemma writable_error (w : World.t) (call p paths : string) (err : Outcome unit) :
  Fs.writable w call p paths = Some err -> err <> OutOfFuel.
Proof. intros H. destruct (writable_throws _ _ _ _ _ H) as (e & ->). discriminate. Qed.

Lemma writeFile_trace (rt : Runtime.t) (p : string) (data : Blob) (w w' : World.t)
    (r : Outcome unit) :
  Fs.writeFile rt p data w = (r, w') -> World.trace w' = WriteFile p data :: World.trace w.
Proof.
  unfold Fs.writeFile. destruct (Fs.writable _ _ _ _); intros [= <- <-]; reflexivity.
Qed.

Lemma extractEntry_calls (rt : Runtime.t) (outputDir : string) (entry : ZipEntry)
    (w w' : World.t) (r : Outcome string) :
  FileProcessor.extractEntry rt outputDir entry w = (r, w') ->
  let dst := safePath outputDir (entry_path entry) in
  (World.trace w' = Mkdir (Path.dirname dst) :: World.trace w
   \/ exists data, entry_buffer entry = Some data
                   /\ World.trace w' = WriteFile dst data :: Mkdir (Path.dirname dst)
                                       :: World.trace w)
  /\ r <> OutOfFuel
  /\ forall p, r = Ok p -> p = dst.
Proof.
  intros H. cbv zeta. unfold FileProcessor.extractEntry, bind in H.
  destruct (Fs.mkdir _ w) as [[[] | e |] w1] eqn:Emk;
    pose proof (mkdir_trace _ _ _ _ Emk) as Ht1.
  - destruct (entry_buffer entry) as [data|] eqn:Eb.
    + cbn in H.
      destruct (Fs.writeFile rt _ data w1) as [[[] | e |] w2] eqn:Ewr;
        pose proof (writeFile_trace _ _ _ _ _ _ Ewr) as Ht2.
      * inversion H; subst. split; [|split; [discriminate|intros p [=]; auto]].
        right. exists data. split; [reflexivity|]. rewrite Ht2, Ht1. reflexivity.
      * inversion H; subst. split; [|split; [discriminate|intros p [=]]].
        right. exists data. split; [reflexivity|]. rewrite Ht2, Ht1. reflexivity.
      * exfalso. unfold Fs.writeFile in Ewr.
        destruct (Fs.writable _ _ _ _) as [err|] eqn:Ew; [|discriminate].
        destruct (writable_throws _ _ _ _ _ Ew) as (e' & ->). discriminate.
    + cbn in H. inversion H; subst.
      split; [left; exact Ht1|]. split; [discriminate|]. intros p [=].
  - inversion H; subst. split; [left; exact Ht1|]. split; [discriminate|]. intros p [=].
  - exfalso. exact (mkdir_ends _ _ _ _ Emk eq_refl).
Qed.

Lemma isFileEntry_not_directory (entry : ZipEntry) :
  FileProcessor.isFileEntry entry = true -> entry_type entry <> Some "Directory".
Proof.
  unfold FileProcessor.isFileEntry. destruct (entry_type entry) as [t|]; [|discriminate].
  intros H [= ->]. discriminate.
Qed.

(** The writes of the loop over the entries of an archive. *)
Lemma extractEntries_writes (rt : Runtime.t) (outputDir : string)
    (entries : list ZipEntry) (extracted : list string) (w w' : World.t)
    (r : Outcome (list string * option Thrown)) :
  FileProcessor.extractEntries rt outputDir entries extracted w = (r, w') ->
  r <> OutOfFuel
  /\ exists calls,
       World.trace w' = calls ++ World.trace w
       /\ (forall p data, WriteFile p data ∈ calls ->
             exists entry, entry ∈ entries
                           /\ FileProcessor.isFileEntry entry = true
                           /\ entry_buffer entry = Some data
                           /\ p = safePath outputDir (entry_path entry))
       /\ (forall c, c ∈ calls -> (exists d, c = Mkdir d) \/ (exists p data, c = WriteFile p data))
       /\ (forall paths e, r = Ok (paths, e) ->
             exists new, paths = extracted ++ new
                         /\ Forall (fun p => exists entry, entry ∈ entries
                                     /\ p = safePath outputDir (entry_path entry)) new).
Proof.
  revert extracted w. induction entries as [|entry rest IH]; intros extracted w H.
  - inversion H; subst. split; [discriminate|]. exists []. repeat split.
    + intros p data Hin. inversion Hin.
    + intros c Hin. inversion Hin.
    + intros paths e [= <- <-]. exists []. rewrite app_nil_r. split; [reflexivity|constructor].
  - cbn [FileProcessor.extractEntries] in H.
    destruct (FileProcessor.isFileEntry entry) eqn:Efile.
    + destruct (FileProcessor.extractEntry rt outputDir entry w) as [[p | e |] w1] eqn:E1;
        destruct (extractEntry_calls _ _ _ _ _ _ E1) as (Htr & Hne & Hp).
      * destruct (IH _ _ H) as (Hne' & calls & Hc & Hw & Hk & Hr).
        split; [assumption|].
        assert (Hone : exists mine, World.trace w1 = mine ++ World.trace w
                   /\ (forall q data, WriteFile q data ∈ mine ->
                         entry_buffer entry = Some data
                         /\ q = safePath outputDir (entry_path entry))
                   /\ (forall c, c ∈ mine ->
                         (exists d, c = Mkdir d) \/ (exists q data, c = WriteFile q data))).
        { destruct Htr as [Htr | (data & Hb & Htr)].
          - exists [Mkdir (Path.dirname (safePath outputDir (entry_path entry)))].
            split; [exact Htr|]. split.
            + intros q data' Hin. apply list_elem_of_singleton in Hin. discriminate.
            + intros c Hin. apply list_elem_of_singleton in Hin as ->. left. eauto.
          - exists [WriteFile (safePath outputDir (entry_path entry)) data;
                    Mkdir (Path.dirname (safePath outputDir (entry_path entry)))].
            split; [exact Htr|]. split.
            + intros q data' Hin. apply elem_of_cons in Hin as [[= -> ->] | Hin]; [auto|].
              apply list_elem_of_singleton in Hin. discriminate.
            + intros c Hin. apply elem_of_cons in Hin as [-> | Hin]; [right; eauto|].
              apply list_elem_of_singleton in Hin as ->. left. eauto. }
        destruct Hone as (mine & Hm & Hmw & Hmk).
        exists (calls ++ mine). repeat split.
        -- rewrite Hc, Hm, app_assoc. reflexivity.
        -- intros q data Hin. apply elem_of_app in Hin as [Hin | Hin].
           ++ destruct (Hw _ _ Hin) as (en & Hen & ?). exists en. split; [right; exact Hen|auto].
           ++ destruct (Hmw _ _ Hin) as [Hb ->]. exists entry. repeat split; auto. left.
        -- intros c Hin. apply elem_of_app in Hin as [Hin | Hin]; auto.
        -- intros paths e Hr'. destruct (Hr _ _ Hr') as (new & -> & Hnew).
           exists (p :: new). split; [rewrite <- app_assoc; reflexivity|].
           constructor.
           ++ exists entry. split; [left|]. apply Hp. reflexivity.
           ++ eapply Forall_impl; [exact Hnew|].
              intros q (en & Hen & ->). exists en. split; [right; exact Hen|reflexivity].
      * inversion H; subst. split; [discriminate|].
        destruct Htr as [Htr | (data & Hb & Htr)].
        -- exists [Mkdir (Path.dirname (safePath outputDir (entry_path entry)))].
           repeat split; [exact Htr| | |].
           ++ intros q data' Hin. apply list_elem_of_singleton in Hin. discriminate.
           ++ intros c Hin. apply list_elem_of_singleton in Hin as ->. left. eauto.
           ++ intros paths e' [= <- <-]. exists []. rewrite app_nil_r.
              split; [reflexivity|constructor].
        -- exists [WriteFile (safePath outputDir (entry_path entry)) data;
                    Mkdir (Path.dirname (safePath outputDir (entry_path entry)))].
           repeat split; [exact Htr| | |].
           ++ intros q data' Hin. apply elem_of_cons in Hin as [[= -> ->] | Hin].
              ** exists entry. repeat split; auto. left.
              ** apply list_elem_of_singleton in Hin. discriminate.
           ++ intros c Hin. apply elem_of_cons in Hin as [-> | Hin]; [right; eauto|].
              apply list_elem_of_singleton in Hin as ->. left. eauto.
           ++ intros paths e' [= <- <-]. exists []. rewrite app_nil_r.
              split; [reflexivity|constructor].
      * congruence.
    + destruct (IH _ _ H) as (Hne' & calls & Hc & Hw & Hk & Hr).
      split; [assumption|]. exists calls. repeat split; auto.
      * intros q data Hin. destruct (Hw _ _ Hin) as (en & Hen & ?).
        exists en. split; [right; exact Hen|auto].
      * intros paths e Hr'. destruct (Hr _ _ Hr') as (new & -> & Hnew).
        exists new. split; [reflexivity|].
        eapply Forall_impl; [exact Hnew|].
        intros q (en & Hen & ->). exists en. split; [right; exact Hen|reflexivity].
Qed.

Lemma openArchive_result (rt : Runtime.t) (file : FileInfo.t) (w w' : World.t)
    (r : Outcome (option (list ZipEntry))) :
  FileProcessor.openArchive rt file w = (r, w') ->
  (exists opened, r = Ok opened)
  /\ World.files w' = World.files w
  /\ (World.trace w' = World.trace w
      \/ World.trace w' = OpenZip (FileInfo.path file) :: World.trace w)
  /\ forall entries, r = Ok (Some entries) ->
       exists node, World.files w !! FileInfo.path file = Some node
                    /\ blob_zip (FsNode.blob node) = Some entries.
Proof.
  unfold FileProcessor.openArchive, tryCatch. intros H.
  destruct (Runtime.unzipper rt).
  - unfold bind, Fs.readBlob in H. cbn in H.
    destruct (World.files w !! FileInfo.path file) as [node|] eqn:E.
    + destruct (blob_zip (FsNode.blob node)) as [entries|] eqn:Ez; inversion H; subst;
        (split; [eauto|]); (split; [reflexivity|]); (split; [right; reflexivity|]).
      * intros entries' [= <-]. eauto.
      * intros entries' [=].
    + unfold Fs.enoent, Fs.fsError in H.
      destruct (Fs.isDir _ _); inversion H; subst;
        (split; [eauto|]); (split; [reflexivity|]); (split; [right; reflexivity|]);
        intros entries' [=].
  - inversion H; subst. split; [eauto|]. split; [reflexivity|]. split; [left; reflexivity|].
    intros entries' [=].
Qed.

(** C3. For an absolute output directory that does not end in a slash,
    as [mkdtemp] makes them: the destination computed for any entry path
    is the (normalized) output directory or lies below it; and every file
    the extraction writes is written at the destination of an entry of the
    archive whose type is not [Directory], with the content of that entry,
    so the writes and the paths returned all stay inside the output
    directory and no directory entry is written. *)
Theorem zip_extraction_stays_inside (rt : Runtime.t)
    (file : FileInfo.t) (outputDir : string) (w w' : World.t) (r : Outcome (list string)) :
  Path.isAbsolute outputDir = true ->
  Path.hasTrailingSeparator outputDir = false ->
  FileProcessor.extractArchive rt file outputDir w = (r, w') ->
  (forall entryPath, inside (Path.normalize outputDir) (safePath outputDir entryPath))
  /\ exists calls,
       World.trace w' = calls ++ World.trace w
       /\ (forall p data, WriteFile p data ∈ calls ->
             inside (Path.normalize outputDir) p
             /\ exists entry, archiveEntry w file entry
                              /\ entry_type entry <> Some "Directory"
                              /\ entry_buffer entry = Some data
                              /\ p = safePath outputDir (entry_path entry))
       /\ (forall extracted, r = Ok extracted ->
             Forall (inside (Path.normalize outputDir)) extracted).
Proof.
  intros Habs Htrail H.
  split; [intros; apply safePath_inside; assumption|].
  unfold FileProcessor.extractArchive in H.
  destruct (String.eqb _ "zip").
  2: { unfold bind in H. cbn in H. inversion H; subst. exists []. repeat split.
       - intros. inversion H0.
       - inversion H0.
       - intros extracted [= <-]. constructor. }
  unfold bind in H.
  destruct (FileProcessor.openArchive rt file w) as [ro w1] eqn:Eo.
  destruct (openArchive_result _ _ _ _ _ Eo) as ((opened & ->) & Hf1 & Ht1 & He).
  assert (Hpre : exists pre, World.trace w1 = pre ++ World.trace w
                            /\ forall p data, WriteFile p data ∉ pre).
  { destruct Ht1 as [Ht1 | Ht1].
    - exists []. split; [exact Ht1|]. intros p data Hin. inversion Hin.
    - exists [OpenZip (FileInfo.path file)]. split; [exact Ht1|].
      intros p data Hin. apply list_elem_of_singleton in Hin. discriminate. }
  destruct Hpre as (pre & Hpre & Hnow).
  destruct opened as [entries|].
  - destruct (He entries eq_refl) as (node & Hnode & Hzip).
    destruct (FileProcessor.extractEntries rt outputDir entries [] w1) as [ro w2] eqn:Ee.
    destruct (extractEntries_writes _ _ _ _ _ _ _ Ee) as (Hne & calls & Hc & Hw & Hk & Hr).
    assert (Hwrites : forall p data, WriteFile p data ∈ calls ++ pre ->
               inside (Path.normalize outputDir) p
               /\ exists entry, archiveEntry w file entry
                                /\ entry_type entry <> Some "Directory"
                                /\ entry_buffer entry = Some data
                                /\ p = safePath outputDir (entry_path entry)).
    { intros p data Hin. apply elem_of_app in Hin as [Hin | Hin]; [|destruct (Hnow _ _ Hin)].
      destruct (Hw _ _ Hin) as (entry & Hen & Hfile & Hb & ->).
      split; [apply safePath_inside; assumption|].
      exists entry. split; [exists node, entries; auto|].
      split; [apply isFileEntry_not_directory; assumption|]. auto. }
    assert (Htrace : World.trace w2 = (calls ++ pre) ++ World.trace w)
      by (rewrite Hc, Hpre, app_assoc; reflexivity).
    destruct ro as [[l e] | e |]; [|inversion H; subst|congruence].
    + assert (r = Ok l /\ World.trace w' = World.trace w2) as [-> Ht3]
        by (destruct e; cbn in H; inversion H; subst; split; reflexivity).
      exists (calls ++ pre). split; [congruence|]. split; [exact Hwrites|].
      intros extracted [= <-].
      destruct (Hr _ _ eq_refl) as (new & -> & Hnew). cbn [app].
      eapply Forall_impl; [exact Hnew|].
      intros q (en & _ & ->). apply safePath_inside; assumption.
    + exists (calls ++ pre). split; [exact Htrace|]. split; [exact Hwrites|].
      intros extracted [=].
  - cbn in H. inversion H; subst. exists pre. split; [exact Hpre|]. split.
    + intros p data Hin. destruct (Hnow _ _ Hin).
    + intros extracted [= <-]. constructor.
Qed.

Lemma zip_extraction_stays_inside_witness :
  Path.isAbsolute "/tmp/out" = true
  /\ Path.hasTrailingSeparator "/tmp/out" = false
  /\ bundle_extraction = (bundle_extraction.1, bundle_extraction.2)
  /\ (forall entryPath, inside (Path.normalize "/tmp/out") (safePath "/tmp/out" entryPath))
  /\ exists calls,
       World.trace bundle_extraction.2 = calls ++ World.trace sampleWorld
       /\ (forall p data, WriteFile p data ∈ calls ->
             inside (Path.normalize "/tmp/out") p
             /\ exists entry, archiveEntry sampleWorld bundle_zip entry
                              /\ entry_type entry <> Some "Directory"
                              /\ entry_buffer entry = Some data
                              /\ p = safePath "/tmp/out" (entry_path entry))
       /\ (forall extracted, bundle_extraction.1 = Ok extracted ->
             Forall (inside (Path.normalize "/tmp/out")) extracted).
Proof.
  assert (Habs : Path.isAbsolute "/tmp/out" = true) by reflexivity.
  assert (Htrail : Path.hasTrailingSeparator "/tmp/out" = false) by reflexivity.
  assert (Hrun : bundle_extraction = (bundle_extraction.1, bundle_extraction.2))
    by (vm_compute; reflexivity).
  split; [exact Habs|]. split; [exact Htrail|]. split; [exact Hrun|].
  exact (zip_extraction_stays_inside sampleRuntime bundle_zip "/tmp/out" sampleWorld
           bundle_extraction.2 bundle_extraction.1 Habs Htrail Hrun).
Defined.

Example bundle_extraction_writes :
  rev (World.trace bundle_extraction.2)
  = [OpenZip "/in/bundle.zip";
     Mkdir "/tmp/out/docs";
     WriteFile "/tmp/out/docs/notes.txt" (text "meeting notes");
     Mkdir "/tmp/out";
     WriteFile "/tmp/out/inner.zip" inner_zip]
  /\ bundle_extraction.1 = Ok ["/tmp/out/docs/notes.txt"; "/tmp/out/inner.zip"].
Proof. vm_compute. split; reflexivity. Qed.

(** ** Dry runs *)


(** For an archive the record of the dry run can differ as well: the run
    that is no dry run makes the vault folder [Documents] for the first
    member, and the second member, named after it, changes category. *)
Example archive_record_differs_in_dry_run :
  pack_dry_run.1 = Ok (returned pack_dry_run)
  /\ pack_wet_run.1 = Ok (returned pack_wet_run)
  /\ JS.includes "## Data Files (1)" (ProcessedFile.content (returned pack_dry_run)) = true
  /\ JS.includes "## Data Files (1)" (ProcessedFile.content (returned pack_wet_run)) = false
  /\ JS.includes "## Documents Files (1)" (ProcessedFile.content (returned pack_wet_run))
     = true.
Proof. vm_compute. repeat split; reflexivity. Qed.



(** The earlier revision has no archives: its dry run never mutates. *)
Lemma legacy_dry_run_observes (rt : Runtime.t) (config : Config.t) (file : FileInfo.t)
    (options : ProcessOptions.t) :
  ProcessOptions.dryRun options = true ->
  Runs observes (LegacyFileProcessor.processFile rt config file options).
Proof.
  intros Hdry. unfold LegacyFileProcessor.processFile, FileProcessor.placeFiles.
  rewrite Hdry. cbn [negb].
  unfold LegacyContentExtractor.extract, LegacyContentExtractor.extractDocument,
    LegacyContentExtractor.extractText, LegacyContentExtractor.extractBasic,
    ContentExtractor.warn.
  runs.
Qed.

(** ** Termination: the nesting of archives bounds the recursion *)

#[global] Instance grows_preorder (k : nat) : PreOrder (grows k).
Proof.
  split.
  - intros w p j _ H. exact H.
  - intros w1 w2 w3 H1 H2 p j Hj H. apply H2; [exact Hj|]. apply H1; assumption.
Qed.

Lemma grows_mono (k k' : nat) (w w' : World.t) :
  (k <= k')%nat -> grows k w w' -> grows k' w w'.
Proof. intros Hk H p j Hj. apply H. lia. Qed.

Lemma nestsAt_mono (j j' : nat) (w : World.t) (p : string) :
  (j <= j')%nat -> nestsAt j w p -> nestsAt j' w p.
Proof. intros Hj [He Hd]. split; [exact He|lia]. Qed.

Lemma nestsAt_files (j : nat) (w w' : World.t) (p : string) :
  World.files w' = World.files w -> nestsAt j w p -> nestsAt j w' p.
Proof. unfold nestsAt, endsAt, depthAt. intros ->. auto. Qed.

Lemma same_files_grows (k : nat) (w w' : World.t) :
  World.files w' = World.files w -> grows k w w'.
Proof. intros H p j _. apply nestsAt_files. exact H. Qed.

Lemma observes_grows (k : nat) (w w' : World.t) : observes w w' -> grows k w w'.
Proof. intros (H & _). apply same_files_grows. exact H. Qed.

Lemma observes_nestsAt (j : nat) (w w' : World.t) (p : string) :
  observes w w' -> nestsAt j w p -> nestsAt j w' p.
Proof. intros (H & _). apply nestsAt_files. exact H. Qed.

Lemma observes_depthAt (w w' : World.t) (p : string) :
  observes w w' -> depthAt w' p = depthAt w p.
Proof. intros (H & _). unfold depthAt. rewrite H. reflexivity. Qed.

(** Where no archive held itself, none does after. *)
Lemma grows_wellNested (k : nat) (w w' : World.t) :
  grows k w w' -> wellNested w -> wellNested w'.
Proof.
  intros Hg Hw p.
  destruct (Hg p (Nat.max k (depthAt w p))) as [He _]; [lia | | exact He].
  split; [apply Hw | lia].
Qed.

Section RunsFromLemmas.
Context (J : World.t -> Prop) (R : World.t -> World.t -> Prop) `{!PreOrder R}.
Hypothesis J_kept : forall w w', J w -> R w w' -> J w'.

Lemma Runs_RunsFrom {A} (m : M A) : Runs R m -> RunsFrom J R m.
Proof. intros H w r w' _ E. exact (H _ _ _ E). Qed.

Lemma RunsFrom_bind {A B} (m : M A) (k : A -> M B) :
  RunsFrom J R m -> (forall a, RunsFrom J R (k a)) -> RunsFrom J R (bind m k).
Proof.
  intros Hm Hk w r w' HJ H. unfold bind in H.
  destruct (m w) as [[a | e |] w1] eqn:E; destruct (Hm _ _ _ HJ E) as [Hne HR].
  - destruct (Hk a _ _ _ (J_kept _ _ HJ HR) H) as [Hne' HR'].
    split; [assumption|]. etransitivity; eassumption.
  - inversion H; subst. split; [discriminate|assumption].
  - congruence.
Qed.

Lemma RunsFrom_tryCatch {A} (body : M A) (handler : Thrown -> M A) :
  RunsFrom J R body -> (forall e, RunsFrom J R (handler e)) ->
  RunsFrom J R (tryCatch body handler).
Proof.
  intros Hm Hk w r w' HJ H. unfold tryCatch in H.
  destruct (body w) as [[a | e |] w1] eqn:E; destruct (Hm _ _ _ HJ E) as [Hne HR].
  - inversion H; subst. split; [discriminate|assumption].
  - destruct (Hk e _ _ _ (J_kept _ _ HJ HR) H) as [Hne' HR'].
    split; [assumption|]. etransitivity; eassumption.
  - congruence.
Qed.

Lemma RunsFrom_tryFinally {A} (body : M A) (cleanup : M unit) :
  RunsFrom J R body -> RunsFrom J R cleanup -> RunsFrom J R (tryFinally body cleanup).
Proof.
  intros Hm Hc w r w' HJ H. unfold tryFinally in H.
  destruct (body w) as [[a | e |] w1] eqn:E; destruct (Hm _ _ _ HJ E) as [Hne HR];
    try congruence;
    destruct (cleanup w1) as [[[] | e' |] w2] eqn:E2;
    destruct (Hc _ _ _ (J_kept _ _ HJ HR) E2) as [Hne2 HR2];
    inversion H; subst;
    (split; [try discriminate; congruence | etransitivity; eassumption]).
Qed.

Lemma RunsFrom_foldM {A B} (f : A -> B -> M A) (l : list B) :
  (forall acc x, x ∈ l -> RunsFrom J R (f acc x)) ->
  forall acc, RunsFrom J R (FileProcessor.foldM f acc l).
Proof.
  induction l as [|x l IH]; intros Hf acc; cbn.
  - apply Runs_RunsFrom, Runs_ret. assumption.
  - apply RunsFrom_bind.
    + apply Hf. left.
    + intros acc'. apply IH. intros acc'' y Hy. apply Hf. right. exact Hy.
Qed.
End RunsFromLemmas.

Lemma RunsFrom_weaken {A} (J J' : World.t -> Prop) (R R' : World.t -> World.t -> Prop)
    (m : M A) :
  (forall w, J' w -> J w) -> (forall w w', R w w' -> R' w w') ->
  RunsFrom J R m -> RunsFrom J' R' m.
Proof. intros HJ HR Hm w r w' Hw E. destruct (Hm _ _ _ (HJ _ Hw) E). auto. Qed.

Lemma Runs_observes_grows {A} (k : nat) (m : M A) : Runs observes m -> Runs (grows k) m.
Proof. apply Runs_weaken. intros w w'. apply observes_grows. Qed.

(** The file system calls that write. *)

Lemma nestsAt_putFile (rt : Runtime.t) (j : nat) (p q : string) (data : Blob)
    (w : World.t) :
  nestsAt j (Fs.putFile rt p data w) q
  <-> if decide (p = q) then endless data = false /\ (blob_depth data <= j)%nat
      else nestsAt j w q.
Proof.
  unfold nestsAt, endsAt, depthAt, Fs.putFile, Fs.setFiles. cbn [World.files].
  rewrite lookup_insert. destruct (decide (p = q)); reflexivity.
Qed.

Lemma mkdir_files (p : string) (w w' : World.t) (r : Outcome unit) :
  Fs.mkdir p w = (r, w') -> World.files w' = World.files w.
Proof.
  unfold Fs.mkdir. destruct (String.eqb p ""); [|destruct (existsb _ _)];
    intros [= <- <-]; reflexivity.
Qed.

Lemma Runs_mkdir (k : nat) (p : string) : Runs (grows k) (Fs.mkdir p).
Proof.
  intros w r w' H. split; [exact (mkdir_ends _ _ _ _ H)|].
  apply same_files_grows. exact (mkdir_files _ _ _ _ H).
Qed.

Lemma Runs_mkdtemp (rt : Runtime.t) (k : nat) (prefix : string) :
  Runs (grows k) (Fs.mkdtemp rt prefix).
Proof.
  intros w r w' H. unfold Fs.mkdtemp in H.
  destruct (negb _); [inversion H; subst;
    (split; [discriminate | apply same_files_grows; reflexivity])|].
  destruct (_ || _); inversion H; subst;
    (split; [discriminate | apply same_files_grows; reflexivity]).
Qed.

Lemma Runs_writeFile (rt : Runtime.t) (k : nat) (p : string) (data : Blob) :
  endless data = false -> (blob_depth data <= k)%nat ->
  Runs (grows k) (Fs.writeFile rt p data).
Proof.
  intros He Hd w r w' H. unfold Fs.writeFile in H.
  destruct (Fs.writable _ _ _ _) as [err|] eqn:Ew; inversion H; subst.
  - split; [eapply writable_error; eassumption | apply same_files_grows; reflexivity].
  - split; [discriminate|]. intros q j Hj Hq. apply nestsAt_putFile.
    destruct (decide (p = q)); [split; [exact He|lia] | exact Hq].
Qed.

Lemma copyFile_grows (rt : Runtime.t) (k : nat) (src dst : string) (w w' : World.t)
    (r : Outcome unit) :
  nestsAt k w src ->
  Fs.copyFile rt src dst w = (r, w') -> r <> OutOfFuel /\ grows k w w'.
Proof.
  intros [He Hd] H. unfold Fs.copyFile in H.
  destruct (World.files (Fs.logCall (CopyFile src dst) w) !! src) as [node|] eqn:En.
  - destruct (Fs.writable _ _ _ _) as [err|] eqn:Ew; inversion H; subst.
    + split; [eapply writable_error; eassumption | apply same_files_grows; reflexivity].
    + split; [discriminate|]. intros q j Hj Hq. apply nestsAt_putFile.
      destruct (decide (dst = q)); [|exact Hq].
      unfold endsAt in He. unfold depthAt in Hd.
      cbn [Fs.logCall World.files] in En. rewrite En in He, Hd. split; [exact He|lia].
  - inversion H; subst. split; [discriminate | apply same_files_grows; reflexivity].
Qed.

Lemma rename_grows (k : nat) (src dst : string) (w w' : World.t) (r : Outcome unit) :
  nestsAt k w src ->
  Fs.rename src dst w = (r, w') -> r <> OutOfFuel /\ grows k w w'.
Proof.
  intros [He Hd] H. unfold Fs.rename in H.
  destruct (World.files (Fs.logCall (Rename src dst) w) !! src) as [node|] eqn:En.
  - destruct (Fs.writable _ _ _ _) as [err|] eqn:Ew; inversion H; subst.
    + split; [eapply writable_error; eassumption | apply same_files_grows; reflexivity].
    + split; [discriminate|]. intros q j Hj Hq.
      unfold endsAt in He. unfold depthAt in Hd.
      cbn [Fs.logCall World.files] in En. rewrite En in He, Hd.
      unfold nestsAt, endsAt, depthAt, Fs.setFiles in Hq |- *.
      cbn [World.files Fs.logCall] in Hq |- *.
      rewrite lookup_insert. destruct (decide (dst = q)); [split; [exact He|lia]|].
      rewrite lookup_delete. destruct (decide (src = q)); [split; [exact I|lia] | exact Hq].
  - inversion H; subst. split; [discriminate | apply same_files_grows; reflexivity].
Qed.

Lemma Runs_rm (rt : Runtime.t) (k : nat) (p : string) : Runs (grows k) (Fs.rm rt p).
Proof.
  intros w r w' H. unfold Fs.rm in H.
  destruct (Runtime.rmRefused rt p); inversion H; subst.
  { split; [discriminate | apply same_files_grows; reflexivity]. }
  split; [discriminate|]. intros q j Hj Hq.
  unfold nestsAt, endsAt, depthAt, Fs.setDirs, Fs.setFiles in Hq |- *.
  cbn [World.files Fs.logCall] in Hq |- *.
  rewrite map_lookup_filter.
  destruct (World.files w !! q) as [node|] eqn:E; cbn; [|split; [exact I|lia]].
  destruct (guard _); cbn; [exact Hq | split; [exact I|lia]].
Qed.

Lemma list_max_ge (l : list nat) (n : nat) : n ∈ l -> (n <= list_max l)%nat.
Proof.
  induction l as [|x l IH]; intros H; [inversion H|].
  change (list_max (x :: l)) with (Nat.max x (list_max l)).
  apply elem_of_cons in H as [-> | H]; [lia|]. specialize (IH H). lia.
Qed.

(** In an archive that does not hold itself, the content of an entry nests
    to an end, and less than the archive does. *)
Lemma blob_entry_nests (b b' : Blob) (entries : list ZipEntry) (entry : ZipEntry) :
  endless b = false ->
  blob_zip b = Some entries -> entry ∈ entries -> entry_buffer entry = Some b' ->
  endless b' = false /\ (blob_depth b' < blob_depth b)%nat.
Proof.
  destruct b as [raw [members|]]; cbn [blob_zip endless]; [|discriminate].
  intros Hend [= <-] Hin Hb.
  apply list_elem_of_fmap in Hin as (m & -> & Hm).
  unfold entry_buffer in Hb. cbn [snd] in Hb.
  assert (Hm' : match m.2 with
                | Bytes b0 => endless b0
                | Itself => true
                | Unreadable => false
                end = false).
  { destruct (match m.2 with Bytes b0 => endless b0 | Itself => true | Unreadable => false end)
      eqn:E; [|reflexivity].
    assert (Hex : existsb (fun m : string * option string * Held Blob =>
                             match m.2 with
                             | Bytes b0 => endless b0
                             | Itself => true
                             | Unreadable => false
                             end) members = true).
    { apply existsb_exists. exists m. split; [apply list_elem_of_In; exact Hm | exact E]. }
    congruence. }
  destruct (m.2) as [b0 | |] eqn:Em; cbn [buffer] in Hb; [| discriminate.. ].
  injection Hb as <-. split; [exact Hm'|].
  cbn [blob_depth]. apply Nat.lt_succ_r. apply list_max_ge.
  apply list_elem_of_fmap. exists m. split; [|exact Hm].
  rewrite Em. reflexivity.
Qed.

Section Termination.
Context (rt : Runtime.t) (config : Config.t).

Lemma shallow_kept (k : nat) (file : FileInfo.t) (w w' : World.t) :
  shallow k file w -> grows k w w' -> shallow k file w'.
Proof. unfold shallow. intros H Hg. apply (Hg _ k); [lia | exact H]. Qed.

Lemma placeFiles_grows (k : nat) (file : FileInfo.t) (options : ProcessOptions.t)
    (markdownPath originalNewPath markdownContent : string) :
  RunsFrom (shallow k file) (grows k)
    (FileProcessor.placeFiles rt options file markdownPath originalNewPath markdownContent).
Proof.
  unfold FileProcessor.placeFiles, FileProcessor.ensureDirectory.
  destruct (negb _).
  - apply RunsFrom_bind; [typeclasses eauto | apply shallow_kept | |intros _].
    { apply Runs_RunsFrom, Runs_mkdir. }
    apply RunsFrom_bind; [typeclasses eauto | apply shallow_kept | |intros _].
    { apply Runs_RunsFrom, Runs_mkdir. }
    apply RunsFrom_bind; [typeclasses eauto | apply shallow_kept | |intros _].
    { apply Runs_RunsFrom, Runs_writeFile; [reflexivity | cbn; lia]. }
    destruct (ProcessOptions.copy options); intros w r w' HJ H.
    + eapply copyFile_grows; eassumption.
    + eapply rename_grows; eassumption.
  - apply Runs_RunsFrom, Runs_ret. typeclasses eauto.
Qed.

Lemma processFileAsNormal_grows (k : nat) (file : FileInfo.t)
    (options : ProcessOptions.t) :
  RunsFrom (shallow k file) (grows k)
    (FileProcessor.processFileAsNormal rt config file options).
Proof.
  unfold FileProcessor.processFileAsNormal.
  do 5 (apply RunsFrom_bind;
        [typeclasses eauto | apply shallow_kept
        | apply Runs_RunsFrom, Runs_observes_grows; eauto with runs
        | intros ?]).
  apply RunsFrom_bind; [typeclasses eauto | apply shallow_kept | | intros _].
  - apply placeFiles_grows.
  - apply Runs_RunsFrom, Runs_ret. typeclasses eauto.
Qed.

(** The loop over the entries writes contents that nest to an end, at most
    [k] deep. *)
Lemma extractEntries_grows (k : nat) (outputDir : string) (entries : list ZipEntry) :
  Forall (fun entry => forall b, entry_buffer entry = Some b ->
                         endless b = false /\ (blob_depth b <= k)%nat)
         entries ->
  forall (extracted : list string) (w w' : World.t)
         (r : Outcome (list string * option Thrown)),
    Forall (nestsAt k w) extracted ->
    FileProcessor.extractEntries rt outputDir entries extracted w = (r, w') ->
    grows k w w'
    /\ exists paths e, r = Ok (paths, e) /\ Forall (nestsAt k w') paths.
Proof.
  induction 1 as [|entry rest Hentry Hrest IH]; intros extracted w w' r Hacc H.
  - inversion H; subst. split; [reflexivity|]. eauto.
  - cbn [FileProcessor.extractEntries] in H.
    destruct (FileProcessor.isFileEntry entry); [|eauto].
    unfold FileProcessor.extractEntry, bind in H.
    destruct (Fs.mkdir _ w) as [[[] | e |] w1] eqn:Emk;
      destruct (Runs_mkdir k _ _ _ _ Emk) as [_ Hg1].
    + destruct (entry_buffer entry) as [data|] eqn:Eb.
      * cbn in H. destruct (Hentry _ eq_refl) as [Hend Hdepth].
        destruct (Fs.writeFile rt _ data w1) as [[[] | e |] w2] eqn:Ewr;
          destruct (Runs_writeFile rt k _ data Hend Hdepth _ _ _ Ewr) as [Hne Hg2];
          [| |congruence].
        -- assert (Hacc2 : Forall (nestsAt k w2)
                             (extracted ++ [safePath outputDir (entry_path entry)])).
           { apply Forall_app. split.
             - eapply Forall_impl; [exact Hacc|]. intros q Hq. cbn in Hq.
               apply (Hg2 q k); [lia|]. apply (Hg1 q k); [lia|exact Hq].
             - constructor; [|constructor].
               unfold Fs.writeFile in Ewr.
               destruct (Fs.writable _ _ _ _) as [err|] eqn:Ew.
               { destruct (writable_throws _ _ _ _ _ Ew) as [e' ->]. discriminate. }
               inversion Ewr; subst.
               apply nestsAt_putFile. destruct (decide _); [|congruence].
               split; assumption. }
           destruct (IH _ _ _ _ Hacc2 H) as (Hg3 & paths & e & -> & Hp).
           split; [|eauto]. etransitivity; [|exact Hg3]. etransitivity; eassumption.
        -- inversion H; subst. split; [etransitivity; eassumption|].
           exists extracted, (Some e). split; [reflexivity|].
           eapply Forall_impl; [exact Hacc|]. intros q Hq. cbn in Hq.
           apply (Hg2 q k); [lia|]. apply (Hg1 q k); [lia|exact Hq].
      * cbn in H. inversion H; subst. split; [assumption|].
        eexists _, _. split; [reflexivity|].
        eapply Forall_impl; [exact Hacc|]. intros q Hq. cbn in Hq.
        apply (Hg1 q k); [lia|exact Hq].
    + inversion H; subst. split; [assumption|].
      eexists _, _. split; [reflexivity|].
      eapply Forall_impl; [exact Hacc|]. intros q Hq. cbn in Hq.
      apply (Hg1 q k); [lia|exact Hq].
    + exfalso. exact (mkdir_ends _ _ _ _ Emk eq_refl).
Qed.

(** What [extractArchive] extracts nests less than the archive. *)
Lemma extractArchive_grows (k : nat) (file : FileInfo.t) (outputDir : string)
    (w w' : World.t) (r : Outcome (list string)) :
  shallow k file w ->
  FileProcessor.extractArchive rt file outputDir w = (r, w') ->
  grows (pred k) w w'
  /\ exists paths, r = Ok paths /\ membersShallow k paths w'
                   /\ (paths <> [] -> (0 < k)%nat).
Proof.
  intros Hk H. unfold FileProcessor.extractArchive in H.
  destruct (String.eqb _ "zip").
  2: { unfold bind in H. cbn in H. inversion H; subst.
       split; [apply same_files_grows; reflexivity|].
       exists []. split; [reflexivity|]. split; [constructor|congruence]. }
  unfold bind in H.
  destruct (FileProcessor.openArchive rt file w) as [ro w1] eqn:Eo.
  destruct (openArchive_result _ _ _ _ _ Eo) as ((opened & ->) & Hf1 & _ & He).
  assert (Hg1 : grows (pred k) w w1) by (apply same_files_grows; exact Hf1).
  destruct opened as [entries|].
  - destruct (He entries eq_refl) as (node & Hnode & Hzip).
    destruct Hk as [Hend Hk]. unfold endsAt in Hend. unfold depthAt in Hk.
    rewrite Hnode in Hend, Hk.
    assert (Hdeep : Forall (fun entry => forall b, entry_buffer entry = Some b ->
                               endless b = false /\ (blob_depth b <= pred k)%nat) entries).
    { apply Forall_forall. intros entry Hin b Hb.
      destruct (blob_entry_nests _ _ _ _ Hend Hzip Hin Hb) as [Hb' Hlt].
      split; [exact Hb'|lia]. }
    assert (Hpos : (0 < k)%nat).
    { destruct (FsNode.blob node) as [raw [es|]]; cbn in *; [lia|discriminate]. }
    destruct (FileProcessor.extractEntries rt outputDir entries [] w1) as [ro w2] eqn:Ee.
    destruct (extractEntries_grows _ _ _ Hdeep _ _ _ _ ltac:(constructor) Ee)
      as (Hg2 & paths & e & -> & Hp).
    assert (Hdone : r = Ok paths /\ World.files w' = World.files w2)
      by (destruct e; cbn in H; inversion H; subst; split; reflexivity).
    destruct Hdone as [-> Hf3].
    split.
    + etransitivity; [exact Hg1|]. etransitivity; [exact Hg2|].
      apply same_files_grows. exact Hf3.
    + exists paths. split; [reflexivity|]. split; [|intros _; exact Hpos].
      eapply Forall_impl; [exact Hp|]. intros q Hq. cbn in Hq.
      eapply nestsAt_files; eassumption.
  - cbn in H. inversion H; subst. split; [exact Hg1|].
    exists []. split; [reflexivity|]. split; [constructor|congruence].
Qed.

(** Sequencing with an assertion of its own for the continuation, which
    may use what the first computation returned. *)
Lemma RunsFrom_then {A B} (J : World.t -> Prop) (J2 : A -> World.t -> Prop)
    (R : World.t -> World.t -> Prop) `{!PreOrder R} (m : M A) (k : A -> M B) :
  (forall w r w', J w -> m w = (r, w') ->
     r <> OutOfFuel /\ R w w' /\ forall a, r = Ok a -> J2 a w') ->
  (forall a, RunsFrom (J2 a) R (k a)) ->
  RunsFrom J R (bind m k).
Proof.
  intros Hm Hk w r w' HJ H. unfold bind in H.
  destruct (m w) as [[a | e |] w1] eqn:E; destruct (Hm _ _ _ HJ E) as (Hne & HR & H2).
  - destruct (Hk a _ _ _ (H2 a eq_refl) H) as [Hne' HR'].
    split; [assumption|]. etransitivity; eassumption.
  - inversion H; subst. split; [discriminate|assumption].
  - congruence.
Qed.

Lemma membersShallow_kept (k : nat) (paths : list string) (w w' : World.t) :
  membersShallow k paths w -> grows (pred k) w w' -> membersShallow k paths w'.
Proof.
  unfold membersShallow. intros H Hg. eapply Forall_impl; [exact H|].
  intros q Hq. cbn in Hq. apply (Hg q (pred k)); [lia | exact Hq].
Qed.

Lemma processExtracted_grows (k : nat) (member : FileInfo.t -> M ProcessedFile.t)
    (paths : list string) (acc : list ProcessedFile.t) (q : string) :
  (0 < k)%nat ->
  ((0 < k)%nat ->
   forall file, RunsFrom (shallow (pred k) file) (grows (pred k)) (member file)) ->
  q ∈ paths ->
  RunsFrom (membersShallow k paths) (grows (pred k))
    (FileProcessor.processExtracted rt member acc q).
Proof.
  intros Hpos Hmember Hq. unfold FileProcessor.processExtracted.
  apply RunsFrom_tryCatch; [typeclasses eauto | apply membersShallow_kept | |].
  - apply RunsFrom_bind; [typeclasses eauto | apply membersShallow_kept | |intros stat].
    + apply Runs_RunsFrom, Runs_observes_grows, Runs_stat.
    + apply RunsFrom_bind; [typeclasses eauto | apply membersShallow_kept | |intros pf].
      * eapply (RunsFrom_weaken _ _ (grows (pred k)) (grows (pred k)));
          [|intros w w' Hg; exact Hg|apply Hmember; exact Hpos].
        intros w Hw. unfold shallow, membersShallow in *. cbn [FileInfo.path].
        rewrite Forall_forall in Hw. apply Hw. exact Hq.
      * apply Runs_RunsFrom, Runs_ret. typeclasses eauto.
  - intros e. apply Runs_RunsFrom, Runs_observes_grows.
    apply Runs_bind; [typeclasses eauto | apply Runs_consoleLog | intros _].
    apply Runs_ret. typeclasses eauto.
Qed.

Lemma processArchiveRecursively_grows (k : nat)
    (member : FileInfo.t -> M ProcessedFile.t) (file : FileInfo.t)
    (options : ProcessOptions.t) :
  ((0 < k)%nat ->
   forall file', RunsFrom (shallow (pred k) file') (grows (pred k)) (member file')) ->
  RunsFrom (shallow k file) (grows k)
    (FileProcessor.processArchiveRecursively rt config member file options).
Proof.
  intros Hmember. unfold FileProcessor.processArchiveRecursively.
  apply RunsFrom_bind; [typeclasses eauto | apply shallow_kept | |intros tempExtractDir].
  { apply Runs_RunsFrom, Runs_mkdtemp. }
  apply RunsFrom_tryFinally; [typeclasses eauto | apply shallow_kept | |].
  2: { apply Runs_RunsFrom. apply Runs_tryCatch; [typeclasses eauto | apply Runs_rm |].
       intros e. apply Runs_observes_grows, Runs_consoleLog. }
  apply RunsFrom_bind; [typeclasses eauto | apply shallow_kept | |intros _].
  { apply Runs_RunsFrom, Runs_observes_grows, Runs_consoleLog. }
  apply RunsFrom_then
    with (J2 := fun paths w => shallow k file w /\ membersShallow k paths w
                               /\ (paths <> [] -> (0 < k)%nat));
    [typeclasses eauto | |].
  { intros w r w' HJ H.
    destruct (extractArchive_grows _ _ _ _ _ _ HJ H) as (Hg & paths & -> & Hp & Hpos).
    assert (Hgk : grows k w w') by (eapply grows_mono; [|exact Hg]; lia).
    split; [discriminate|]. split; [exact Hgk|].
    intros a [= <-]. split; [eapply shallow_kept; eassumption | split; assumption]. }
  intros [|extracted more].
  - apply RunsFrom_bind; [typeclasses eauto | | |intros _].
    + intros w w' (HJ & Hp & Hpos) Hg.
      split; [eapply shallow_kept; eassumption|]. split; [constructor|congruence].
    + apply Runs_RunsFrom, Runs_observes_grows, Runs_consoleLog.
    + apply (RunsFrom_weaken (shallow k file) _ (grows k) (grows k));
        [|intros w w' Hg; exact Hg|apply processFileAsNormal_grows].
      intros w [HJ _]. exact HJ.
  - set (paths := extracted :: more).
    apply RunsFrom_then
      with (J2 := fun _ w => shallow k file w /\ membersShallow k paths w
                             /\ (0 < k)%nat);
      [typeclasses eauto | |intros _].
    { intros w r w' (HJ & Hp & Hpos) H.
      destruct (Runs_consoleLog _ _ _ _ H) as [Hne Hobs].
      split; [exact Hne|]. split; [apply observes_grows; exact Hobs|].
      intros a _. split; [|split].
      - eapply observes_nestsAt; eassumption.
      - unfold membersShallow. eapply Forall_impl; [exact Hp|].
        intros q Hq. cbn in Hq. eapply observes_nestsAt; eassumption.
      - apply Hpos. discriminate. }
    apply RunsFrom_then with (J2 := fun _ w => shallow k file w);
      [typeclasses eauto | |intros childResults].
    { intros w r w' (HJ & Hp & Hpos) H.
      assert (Hloop : RunsFrom (membersShallow k paths) (grows (pred k))
                        (FileProcessor.foldM (FileProcessor.processExtracted rt member)
                                             [] paths)).
      { apply RunsFrom_foldM; [typeclasses eauto | apply membersShallow_kept |].
        intros acc q Hq. apply processExtracted_grows; assumption. }
      destruct (Hloop _ _ _ Hp H) as [Hne Hg].
      assert (Hgk : grows k w w') by (eapply grows_mono; [|exact Hg]; lia).
      split; [exact Hne|]. split; [exact Hgk|].
      intros a _. eapply shallow_kept; eassumption. }
    do 5 (apply RunsFrom_bind;
          [typeclasses eauto | apply shallow_kept
          | apply Runs_RunsFrom, Runs_observes_grows; eauto with runs
          | intros ?]).
    apply RunsFrom_bind; [typeclasses eauto | apply shallow_kept | | intros _].
    + apply placeFiles_grows.
    + apply Runs_RunsFrom, Runs_ret. typeclasses eauto.
Qed.

(** With more fuel than the archive at the path of the file nests, and no
    archive in it that holds itself, the per-file routine ends. *)
Lemma processFile_terminates (fuel k : nat) (file : FileInfo.t)
    (options : ProcessOptions.t) :
  (k < fuel)%nat ->
  RunsFrom (shallow k file) (grows k) (FileProcessor.processFile rt config fuel file options).
Proof.
  revert k file. induction fuel as [|fuel IH]; intros k file Hk; [lia|].
  cbn [FileProcessor.processFile].
  destruct (decide (FileInfo.type file = Archive)).
  - apply processArchiveRecursively_grows. intros Hpos member.
    apply IH. lia.
  - apply processFileAsNormal_grows.
Qed.
End Termination.

(** ** More fuel changes nothing once there is enough *)

Lemma refines_refl {A} (m : M A) : refines m m.
Proof. intros w r w' H _. exact H. Qed.

Lemma refines_bind {A B} (m1 m2 : M A) (k1 k2 : A -> M B) :
  refines m1 m2 -> (forall a, refines (k1 a) (k2 a)) -> refines (bind m1 k1) (bind m2 k2).
Proof.
  intros Hm Hk w r w' H Hne. unfold bind in *.
  destruct (m1 w) as [[a | e |] w1] eqn:E.
  - rewrite (Hm _ _ _ E) by discriminate. apply Hk; assumption.
  - rewrite (Hm _ _ _ E) by discriminate. exact H.
  - inversion H; subst. congruence.
Qed.

Lemma refines_tryCatch {A} (b1 b2 : M A) (h : Thrown -> M A) :
  refines b1 b2 -> refines (tryCatch b1 h) (tryCatch b2 h).
Proof.
  intros Hb w r w' H Hne. unfold tryCatch in *.
  destruct (b1 w) as [[a | e |] w1] eqn:E.
  - rewrite (Hb _ _ _ E) by discriminate. exact H.
  - rewrite (Hb _ _ _ E) by discriminate. exact H.
  - inversion H; subst. congruence.
Qed.

Lemma refines_tryFinally {A} (b1 b2 : M A) (cleanup : M unit) :
  refines b1 b2 -> refines (tryFinally b1 cleanup) (tryFinally b2 cleanup).
Proof.
  intros Hb w r w' H Hne. unfold tryFinally in *.
  destruct (b1 w) as [[a | e |] w1] eqn:E.
  - rewrite (Hb _ _ _ E) by discriminate. exact H.
  - rewrite (Hb _ _ _ E) by discriminate. exact H.
  - inversion H; subst. congruence.
Qed.

Lemma refines_foldM {A B} (f1 f2 : A -> B -> M A) (l : list B) :
  (forall acc x, refines (f1 acc x) (f2 acc x)) ->
  forall acc, refines (FileProcessor.foldM f1 acc l) (FileProcessor.foldM f2 acc l).
Proof.
  intros Hf. induction l as [|x l IH]; intros acc; cbn.
  - apply refines_refl.
  - apply refines_bind; [apply Hf | intros acc'; apply IH].
Qed.

Section FuelMonotone.
Context (rt : Runtime.t) (config : Config.t).

Lemma processArchiveRecursively_refines (m1 m2 : FileInfo.t -> M ProcessedFile.t)
    (file : FileInfo.t) (options : ProcessOptions.t) :
  (forall member, refines (m1 member) (m2 member)) ->
  refines (FileProcessor.processArchiveRecursively rt config m1 file options)
          (FileProcessor.processArchiveRecursively rt config m2 file options).
Proof.
  intros Hm. unfold FileProcessor.processArchiveRecursively.
  apply refines_bind; [apply refines_refl | intros tempExtractDir].
  apply refines_tryFinally.
  apply refines_bind; [apply refines_refl | intros _].
  apply refines_bind; [apply refines_refl | intros [|extracted more]].
  - apply refines_refl.
  - apply refines_bind; [apply refines_refl | intros _].
    apply refines_bind; [|intros childResults; apply refines_refl].
    apply refines_foldM. intros acc q. unfold FileProcessor.processExtracted.
    apply refines_tryCatch.
    apply refines_bind; [apply refines_refl | intros stat].
    apply refines_bind; [apply Hm | intros pf; apply refines_refl].
Qed.

Lemma processFile_fuel_monotone (fuel fuel' : nat) (file : FileInfo.t)
    (options : ProcessOptions.t) :
  (fuel <= fuel')%nat ->
  refines (FileProcessor.processFile rt config fuel file options)
          (FileProcessor.processFile rt config fuel' file options).
Proof.
  revert fuel' file. induction fuel as [|fuel IH]; intros fuel' file Hle.
  - intros w r w' H Hne. inversion H; subst. congruence.
  - destruct fuel' as [|fuel']; [lia|]. cbn [FileProcessor.processFile].
    destruct (decide (FileInfo.type file = Archive)); [|apply refines_refl].
    apply processArchiveRecursively_refines. intros member. apply IH. lia.
Qed.

(** From a world where what is at the path of the file nests to an end,
    some fuel is enough for the per-file routine, more fuel gives the same
    result, and the routine leaves no archive that holds itself where there
    was none. *)
Lemma processFile_enough_fuel (file : FileInfo.t) (options : ProcessOptions.t)
    (w : World.t) :
  endsAt w (FileInfo.path file) ->
  exists fuel0 r w',
    r <> OutOfFuel
    /\ grows (depthAt w (FileInfo.path file)) w w'
    /\ forall fuel, (fuel0 <= fuel)%nat ->
         FileProcessor.processFile rt config fuel file options w = (r, w').
Proof.
  intros Hend. set (k := depthAt w (FileInfo.path file)).
  destruct (FileProcessor.processFile rt config (S k) file options w) as [r w'] eqn:E.
  assert (Hk : shallow k file w) by (split; [exact Hend | subst k; lia]).
  destruct (processFile_terminates rt config (S k) k file options ltac:(lia) _ _ _ Hk E)
    as [Hne Hg].
  exists (S k), r, w'. split; [exact Hne|]. split; [exact Hg|].
  intros fuel Hle. eapply processFile_fuel_monotone; eassumption.
Qed.

Lemma processFile_original (fuel : nat) (file : FileInfo.t) (options : ProcessOptions.t)
    (w w' : World.t) (pf : ProcessedFile.t) :
  FileProcessor.processFile rt config fuel file options w = (Ok pf, w') ->
  ProcessedFile.original pf = file.
Proof.
  intros H. destruct fuel as [|fuel]; [discriminate|].
  cbn [FileProcessor.processFile] in H.
  destruct (decide (FileInfo.type file = Archive)).
  - apply processArchiveRecursively_Ok in H as [(w1 & w2 & E) | (children & Ho & _)].
    + apply processFileAsNormal_fields in E. tauto.
    + exact Ho.
  - apply processFileAsNormal_fields in H. tauto.
Qed.
End FuelMonotone.

(** ** The batch loop *)

Lemma successes_app (l1 l2 : list FileOutcome) :
  successes (l1 ++ l2) = successes l1 ++ successes l2.
Proof. unfold successes. apply omap_app. Qed.

Lemma failures_app (l1 l2 : list FileOutcome) :
  failures (l1 ++ l2) = failures l1 ++ failures l2.
Proof. unfold failures. apply omap_app. Qed.

Lemma outcomes_length (outcomes : list FileOutcome) :
  (length (successes outcomes) + length (failures outcomes) = length outcomes)%nat.
Proof.
  induction outcomes as [|[pf | f] l IH]; cbn; [reflexivity | |];
    fold (successes l); fold (failures l); lia.
Qed.

Lemma Returns_dateNow (rt : Runtime.t) : Returns (Fs.dateNow rt).
Proof. intros w. unfold Fs.dateNow, Fs.newDate, bind, ret. eauto. Qed.

Lemma dateNow_files (rt : Runtime.t) (w w' : World.t) (r : Outcome Z) :
  Fs.dateNow rt w = (r, w') -> World.files w' = World.files w.
Proof. unfold Fs.dateNow, Fs.newDate, bind, ret. intros [= <- <-]. reflexivity. Qed.

Lemma wellNested_files (w w' : World.t) :
  World.files w' = World.files w -> wellNested w -> wellNested w'.
Proof. intros H Hw p. unfold endsAt. rewrite H. apply Hw. Qed.

(** A world is well nested when none of its files holds an archive that
    holds itself. *)
Lemma wellNested_of_files (w : World.t) :
  map_Forall (fun _ node => endless (FsNode.blob node) = false) (World.files w) ->
  wellNested w.
Proof.
  intros H p. unfold endsAt.
  destruct (World.files w !! p) as [node|] eqn:E; [|exact I].
  exact (H p node E).
Qed.

Lemma sampleWorld_wellNested : wellNested sampleWorld.
Proof.
  apply wellNested_of_files. apply map_Forall_to_list.
  vm_compute. repeat constructor.
Qed.

(** Without a callback, the report of the progress returns and changes
    nothing. *)
Lemma no_callback_returns (options : ProcessOptions.t) :
  ProcessOptions.onProgress options = None -> callbackReturns options.
Proof.
  intros H index total file w. exists w.
  unfold FileProcessor.reportProgress. rewrite H. reflexivity.
Qed.

Lemma no_callback_keeps_nesting (options : ProcessOptions.t) :
  ProcessOptions.onProgress options = None -> callbackKeepsNesting options.
Proof.
  intros H index total file w w' r E.
  unfold FileProcessor.reportProgress in E. rewrite H in E.
  injection E as _ <-. auto.
Qed.

Section BatchLoop.
Context (rt : Runtime.t) (config : Config.t).

Lemma batchLoop_enough_fuel (files : list FileInfo.t) (options : ProcessOptions.t)
    (total : Z) :
  callbackReturns options -> callbackKeepsNesting options ->
  forall (results : OrganizationResult.t) (i : Z) (w : World.t),
  wellNested w ->
  exists fuel0, forall fuel, (fuel0 <= fuel)%nat ->
  exists (outcomes : list FileOutcome) (results' : OrganizationResult.t) (w' : World.t),
    FileProcessor.batchLoop (FileProcessor.processFile rt config fuel)
                            total options results i files w = (Ok results', w')
    /\ batchRun (FileProcessor.processFile rt config fuel) options total i files w
                outcomes w'
    /\ Forall2 outcomeOf files outcomes
    /\ OrganizationResult.processed results'
       = OrganizationResult.processed results ++ successes outcomes
    /\ OrganizationResult.failed results'
       = OrganizationResult.failed results ++ failures outcomes
    /\ OrganizationResult.summary results'
       = let s := OrganizationResult.summary results in
         Summary.mk (Summary.total s)
                    (Summary.successful s + Z.of_nat (length (successes outcomes)))
                    (Summary.failed s + Z.of_nat (length (failures outcomes)))
                    (Summary.duration s).
Proof.
  intros Hret Hkeep.
  induction files as [|file rest IH]; intros results i w Hw.
  - exists O. intros fuel _. exists [], results, w. cbn.
    split; [reflexivity|]. split; [constructor|].
    repeat split; try (rewrite app_nil_r; reflexivity); [constructor|].
    destruct results as [p f [t s fl d]]; cbn. f_equal; lia.
  - destruct (Hret (i + 1) total file w) as (w1 & Hcb).
    pose proof (Hkeep _ _ _ _ _ _ Hcb Hw) as Hw1.
    destruct (processFile_enough_fuel rt config file options w1 (Hw1 _))
      as (fuelA & r & w2 & Hne & Hg & HA).
    pose proof (grows_wellNested _ _ _ Hg Hw1) as Hw2.
    set (o := match r with
              | Ok pf => inl pf
              | Throw e => inr (file, FileProcessor.errorMessage e)
              | OutOfFuel => inr (file, EmptyString)
              end : FileOutcome).
    set (results1 := match r with
                     | Ok pf => FileProcessor.pushProcessed pf results
                     | Throw e =>
                         FileProcessor.pushFailed file (FileProcessor.errorMessage e) results
                     | OutOfFuel => results
                     end).
    destruct (IH results1 (i + 1) w2 Hw2) as (fuelB & HB).
    exists (Nat.max fuelA fuelB). intros fuel Hle.
    destruct (HB fuel ltac:(lia))
      as (outcomes & results' & w' & Hrun & Hbatch & Hall & Hp & Hf & Hs).
    exists (o :: outcomes), results', w'.
    pose proof (HA fuel ltac:(lia)) as HA'.
    assert (Hstep : FileProcessor.processOne (FileProcessor.processFile rt config fuel)
                      total options results i file w = (Ok results1, w2)).
    { unfold FileProcessor.processOne. unfold bind at 1. rewrite Hcb.
      unfold bind, tryCatch, ret. rewrite HA'. subst results1.
      destruct r as [pf | e |]; [reflexivity | reflexivity | congruence]. }
    split.
    { cbn [FileProcessor.batchLoop]. unfold bind at 1. rewrite Hstep. exact Hrun. }
    split.
    { econstructor; [exact Hcb | exact HA' | | exact Hbatch].
      subst o. destruct r as [pf | e |]; [reflexivity | reflexivity | congruence]. }
    split.
    { constructor; [|exact Hall]. subst o. destruct r as [pf | e |]; cbn.
      - eapply processFile_original. apply (HA fuelA). lia.
      - reflexivity.
      - congruence. }
    subst o results1. destruct r as [pf | e |]; [| | congruence].
    + rewrite Hp, Hf, Hs. cbn. fold (successes outcomes). fold (failures outcomes).
      repeat split.
      * rewrite <- app_assoc. reflexivity.
      * f_equal; lia.
    + rewrite Hp, Hf, Hs. cbn. fold (successes outcomes). fold (failures outcomes).
      repeat split.
      * rewrite <- app_assoc. reflexivity.
      * f_equal; lia.
Qed.

End BatchLoop.

(** A callback that throws: the exception leaves the loop before the first
    file is processed, whatever the fuel. *)
Lemma throwing_callback_ends_the_batch (fuel : nat) :
  (FileProcessor.processFiles sampleRuntime sampleConfig fuel [meeting_notes]
     reportingOptions sampleWorld).1
  = Throw (JsError "progress bar closed").
Proof. reflexivity. Qed.

(** An archive that holds itself: each member extracted is the archive
    again, and the recursion uses up the budget, here every budget up to
    8. *)
Example self_holding_archive_uses_up_the_budget :
  endless quine_blob = true
  /\ Forall (fun fuel =>
               (FileProcessor.processFile sampleRuntime sampleConfig fuel quine_zip
                  dryOptions quineWorld).1 = OutOfFuel)
            (seq 0 9).
Proof.
  split; [reflexivity|]. cbn [seq].
  repeat (constructor; [vm_compute; reflexivity|]). constructor.
Qed.

(** C1, as amended. When the progress callback, if there is one, returns
    whenever it is called and leaves no archive that holds itself, and no
    file of the starting world holds an archive that holds itself, then,
    given enough fuel for the archive recursion, [processFiles] returns a
    result: no exception of a file leaves the loop. The files are handled
    one after the other: each is reported to the callback and then
    processed in the world the files before it have left, also after a
    file that failed, and its outcome is what its processing returned or
    threw there. The result accounts for each input file exactly once, in
    input order, either in [processed] (as the record whose [original] is
    the file) or in [failed]; [summary.total] is the number of input files,
    [summary.successful] and [summary.failed] are the lengths of the two
    lists, and they add up to [summary.total]. *)
Theorem processFiles_accounts_for_every_file (rt : Runtime.t) (config : Config.t)
    (files : list FileInfo.t) (options : ProcessOptions.t) (w : World.t) :
  callbackReturns options ->
  callbackKeepsNesting options ->
  wellNested w ->
  exists fuel0, forall fuel, (fuel0 <= fuel)%nat ->
  exists (results : OrganizationResult.t) (w' : World.t),
    FileProcessor.processFiles rt config fuel files options w = (Ok results, w')
    /\ batchResult rt (FileProcessor.processFile rt config fuel) files options w results w'
    /\ accountsFor files results
    /\ countersAgree files results.
Proof.
  intros Hret Hkeep Hw.
  unfold FileProcessor.processFiles, FileProcessor.processFilesWith.
  destruct (Returns_dateNow rt w) as (startTime & w0 & Hstart).
  pose proof (wellNested_files _ _ (dateNow_files _ _ _ _ Hstart) Hw) as Hw0.
  set (results0 := OrganizationResult.mk [] [] (Summary.mk (Z.of_nat (length files)) 0 0 0)).
  destruct (batchLoop_enough_fuel rt config files options (Z.of_nat (length files))
              Hret Hkeep results0 0 w0 Hw0) as (fuel0 & Hloop).
  exists fuel0. intros fuel Hle.
  destruct (Hloop fuel Hle)
    as (outcomes & results & w1 & Hrun & Hbatch & Hall & Hp & Hf & Hs).
  destruct (Returns_dateNow rt w1) as (endTime & w2 & Hend).
  exists (FileProcessor.setDuration (endTime - startTime) results), w2.
  split.
  { unfold bind at 1. rewrite Hstart. unfold bind at 1. fold results0. rewrite Hrun.
    unfold bind at 1. rewrite Hend. reflexivity. }
  cbn in Hp, Hf, Hs.
  split.
  { exists outcomes, startTime, endTime, w0, w1. cbn. auto 10. }
  split.
  - exists outcomes. cbn. auto.
  - unfold countersAgree. cbn. rewrite Hs, Hp, Hf. cbn.
    pose proof (outcomes_length outcomes) as Hlen.
    pose proof (Forall2_length _ _ _ Hall) as Hlen'.
    repeat split; lia.
Qed.

Lemma processFiles_accounts_for_every_file_witness :
  callbackReturns wetOptions
  /\ callbackKeepsNesting wetOptions
  /\ wellNested sampleWorld
  /\ exists fuel0, forall fuel, (fuel0 <= fuel)%nat ->
     exists (results : OrganizationResult.t) (w' : World.t),
       FileProcessor.processFiles sampleRuntime sampleConfig fuel
         [missing_txt; bundle_zip; meeting_notes] wetOptions sampleWorld = (Ok results, w')
       /\ batchResult sampleRuntime (FileProcessor.processFile sampleRuntime sampleConfig fuel)
            [missing_txt; bundle_zip; meeting_notes] wetOptions sampleWorld results w'
       /\ accountsFor [missing_txt; bundle_zip; meeting_notes] results
       /\ countersAgree [missing_txt; bundle_zip; meeting_notes] results.
Proof.
  pose proof (no_callback_returns wetOptions eq_refl) as Hret.
  pose proof (no_callback_keeps_nesting wetOptions eq_refl) as Hkeep.
  pose proof sampleWorld_wellNested as Hw.
  split; [exact Hret|]. split; [exact Hkeep|]. split; [exact Hw|].
  exact (processFiles_accounts_for_every_file sampleRuntime sampleConfig
           [missing_txt; bundle_zip; meeting_notes] wetOptions sampleWorld Hret Hkeep Hw).
Defined.

(** C1 as the specification words it does not hold: a progress callback
    that throws is called outside the [try] block of the loop, and its
    exception ends [processFiles] before any file is processed. *)
Lemma progress_callback_exception_leaves_the_loop :
  (forall fuel,
     (FileProcessor.processFiles sampleRuntime sampleConfig fuel [meeting_notes]
        reportingOptions sampleWorld).1
     = Throw (JsError "progress bar closed"))
  /\ ~ every_batch_returns.
Proof.
  split.
  - intros fuel. reflexivity.
  - intros H.
    destruct (H [meeting_notes] reportingOptions sampleWorld)
      as (fuel & results & w' & Hrun & _).
    pose proof (throwing_callback_ends_the_batch fuel) as Hthrow.
    rewrite Hrun in Hthrow. discriminate.
Qed.

(** A batch of a file that is missing, an archive and a text file, no dry
    run: the rename of the missing file throws, the failure is recorded with
    the message of the error, and the two files after it are processed. *)
Example batch_continues_after_a_failure :
  match sample_batch.1 with
  | Ok results =>
      map (fun pf => FileInfo.path (ProcessedFile.original pf))
          (OrganizationResult.processed results)
      = ["/in/bundle.zip"; "/in/project-meeting-notes.txt"]
      /\ map (fun f => FileInfo.path f.1) (OrganizationResult.failed results)
         = ["/in/missing.txt"]
      /\ Summary.total (OrganizationResult.summary results) = 3
      /\ Summary.successful (OrganizationResult.summary results) = 2
      /\ Summary.failed (OrganizationResult.summary results) = 1
  | _ => False
  end.
Proof. vm_compute. repeat split; reflexivity. Qed.

(** * Further properties of the pipeline *)

(** ** Classification of archive members *)

Lemma lower_upper_char (c : ascii) :
  (nat_of_ascii c <? 128)%nat = true ->
  JS.toLowerCase (JS.upper_char c) = String (JS.lower_char c) EmptyString.
Proof.
  destruct c as [[] [] [] [] [] [] [] []]; vm_compute; intros H;
    try discriminate H; reflexivity.
Qed.

Lemma toLowerCase_app (s t : string) :
  JS.toLowerCase (s +:+ t) = JS.toLowerCase s +:+ JS.toLowerCase t.
Proof.
  unfold JS.toLowerCase. induction s as [|c s IH]; [reflexivity|].
  change (String c s +:+ t) with (String c (s +:+ t)).
  cbn [JS.map_chars]. rewrite IH. reflexivity.
Qed.

Lemma toLowerCase_toUpperCase (s : string) :
  isAscii s = true -> JS.toLowerCase (JS.toUpperCase s) = JS.toLowerCase s.
Proof.
  unfold isAscii. induction s as [|c s IH]; cbn [JS.toUpperCase list_ascii_of_string forallb];
    [reflexivity|].
  intros H. apply andb_true_iff in H as [Hc Hs].
  rewrite toLowerCase_app, lower_upper_char, IH by assumption. reflexivity.
Qed.

(** The type of an archive member does not depend on the case of its
    extension, for an extension of ASCII characters. *)
Theorem determineFileType_case_insensitive (extension : string) :
  isAscii extension = true ->
  determineFileType (JS.toUpperCase extension) = determineFileType extension.
Proof.
  intros H. unfold determineFileType. rewrite toLowerCase_toUpperCase by exact H.
  reflexivity.
Qed.

Lemma determineFileType_case_insensitive_witness :
  isAscii "Tar" = true
  /\ determineFileType (JS.toUpperCase "Tar") = determineFileType "Tar".
Proof.
  assert (H : isAscii "Tar" = true) by reflexivity.
  exact (conj H (determineFileType_case_insensitive "Tar" H)).
Defined.

(** A lowercase extension gets the same type from the table of the scanner
    and from the table used for archive members exactly when it is none of
    the seven extensions only one of the tables lists. *)
Theorem classifications_agree_iff (ext : string) :
  JS.toLowerCase ext = ext ->
  determineFileType ext = FileScanner.getFileType ext <-> ext ∉ driftedExtensions.
Proof.
  intros Hlow. split.
  - intros Heq Hin. unfold driftedExtensions in Hin.
    repeat (apply elem_of_cons in Hin as [-> | Hin]; [vm_compute in Heq; discriminate|]).
    inversion Hin.
  - apply determineFileType_agrees_off_drift. exact Hlow.
Qed.

Lemma classifications_agree_iff_witness :
  JS.toLowerCase "pdf" = "pdf"
  /\ (determineFileType "pdf" = FileScanner.getFileType "pdf" <-> "pdf" ∉ driftedExtensions).
Proof.
  assert (H : JS.toLowerCase "pdf" = "pdf") by reflexivity.
  exact (conj H (classifications_agree_iff "pdf" H)).
Defined.

(** ** The earlier revision of the pipeline *)

Lemma Runs_legacy_extract (file : FileInfo.t) :
  Runs observes (LegacyContentExtractor.extract file).
Proof.
  unfold LegacyContentExtractor.extract, LegacyContentExtractor.extractDocument,
    LegacyContentExtractor.extractText, LegacyContentExtractor.extractBasic,
    ContentExtractor.warn.
  runs.
Qed.

(** The earlier ContentExtractor: above 10 MiB a file of any type yields
    null and nothing is read; an image yields null at every size, nothing
    read either. *)
Theorem legacy_extract_ceiling_and_images (file : FileInfo.t) (w : World.t) :
  (10 * MiB < FileInfo.size file \/ FileInfo.type file = Image) ->
  LegacyContentExtractor.extract file w = (Ok None, w).
Proof.
  intros [Hs | Ht].
  - apply legacy_extract_single_ceiling. exact Hs.
  - unfold LegacyContentExtractor.extract. rewrite Ht.
    unfold tryCatch, ret. destruct (_ <? _); reflexivity.
Qed.

Lemma legacy_extract_ceiling_and_images_witness :
  LegacyContentExtractor.extract big_photo sampleWorld = (Ok None, sampleWorld).
Proof.
  apply (legacy_extract_ceiling_and_images big_photo sampleWorld).
  left. vm_compute. reflexivity.
Defined.

(** The earlier FileProcessor: what it returns links [originalFile] to the
    path the file was read from, whatever the run moved, and keeps no
    [sourceLocation]; the relocation path is not in the frontmatter. *)
Theorem legacy_frontmatter_links_source (rt : Runtime.t) (config : Config.t)
    (file : FileInfo.t) (options : ProcessOptions.t) (w w' : World.t) (pf : ProcessedFile.t) :
  LegacyFileProcessor.processFile rt config file options w = (Ok pf, w') ->
  Frontmatter.entries (ProcessedFile.frontmatter pf)
  = [("title", Frontmatter.Str (Path.parseName (FileInfo.name file)));
     ("originalFile", Frontmatter.Str ("[[file://" +:+ FileInfo.path file +:+ "]]"));
     ("fileType", Frontmatter.Str (FileInfo.extension file));
     ("created", Frontmatter.Str (Date.toISOString (FileInfo.createdAt file)));
     ("processed", Frontmatter.Str (Frontmatter.processed (ProcessedFile.frontmatter pf)));
     ("tags", Frontmatter.Arr (ProcessedFile.tags pf))].
Proof.
  intros H. unfold LegacyFileProcessor.processFile in H.
  inv_bind H. inv_bind H. inv_bind H. inv_bind H. inv_bind H. inv_bind H. inv_ret H.
  reflexivity.
Qed.

Lemma legacy_frontmatter_links_source_witness :
  legacy_notes_run = (Ok (returned legacy_notes_run), legacy_notes_run.2)
  /\ Frontmatter.entries (ProcessedFile.frontmatter (returned legacy_notes_run)) !! 1%nat
     = Some ("originalFile", Frontmatter.Str "[[file:///in/project-meeting-notes.txt]]").
Proof.
  assert (Hrun : legacy_notes_run = (Ok (returned legacy_notes_run), legacy_notes_run.2))
    by (vm_compute; reflexivity).
  split; [exact Hrun|].
  rewrite (legacy_frontmatter_links_source sampleRuntime sampleConfig meeting_notes
             wetOptions sampleWorld legacy_notes_run.2 (returned legacy_notes_run) Hrun).
  reflexivity.
Defined.

#[global] Instance anyChange_preorder : PreOrder anyChange.
Proof. split; [intros w | intros w1 w2 w3 _ _]; exact I. Qed.

Lemma Runs_anyChange {A} (R : World.t -> World.t -> Prop) (m : M A) :
  Runs R m -> Runs anyChange m.
Proof. apply Runs_weaken. intros w w' _. exact I. Qed.

(** The file operations of a run end. *)
Lemma placeFiles_ends (rt : Runtime.t) (options : ProcessOptions.t) (file : FileInfo.t)
    (markdownPath originalNewPath markdownContent : string) :
  Runs anyChange
    (FileProcessor.placeFiles rt options file markdownPath originalNewPath markdownContent).
Proof.
  unfold FileProcessor.placeFiles, FileProcessor.ensureDirectory.
  destruct (negb _); [|apply Runs_ret; typeclasses eauto].
  apply Runs_bind; [typeclasses eauto | | intros _].
  { apply (Runs_anyChange (grows 0)), Runs_mkdir. }
  apply Runs_bind; [typeclasses eauto | | intros _].
  { apply (Runs_anyChange (grows 0)), Runs_mkdir. }
  apply Runs_bind; [typeclasses eauto | | intros _].
  { apply (Runs_anyChange (grows 0)), Runs_writeFile; [reflexivity | cbn; lia]. }
  destruct (ProcessOptions.copy options); intros w r w' H; (split; [|exact I]).
  - unfold Fs.copyFile in H. destruct (World.files _ !! _); [|inversion H; discriminate].
    destruct (Fs.writable _ _ _ _) as [err|] eqn:Ew; inversion H; subst;
      [eapply writable_error; eassumption | discriminate].
  - unfold Fs.rename in H. destruct (World.files _ !! _); [|inversion H; discriminate].
    destruct (Fs.writable _ _ _ _) as [err|] eqn:Ew; inversion H; subst;
      [eapply writable_error; eassumption | discriminate].
Qed.

Lemma legacy_processFile_ends (rt : Runtime.t) (config : Config.t)
    (file : FileInfo.t) (options : ProcessOptions.t) :
  Runs anyChange (LegacyFileProcessor.processFile rt config file options).
Proof.
  unfold LegacyFileProcessor.processFile.
  apply Runs_bind; [typeclasses eauto | | intros ?].
  { apply (Runs_anyChange observes), Runs_legacy_extract. }
  do 4 (apply Runs_bind;
        [typeclasses eauto
        | apply (Runs_anyChange observes); eauto with runs
        | intros ?]).
  apply Runs_bind; [typeclasses eauto | apply placeFiles_ends | intros _].
  apply Runs_ret. typeclasses eauto.
Qed.

Lemma Returns_legacy_extract (file : FileInfo.t) :
  Returns (LegacyContentExtractor.extract file).
Proof.
  unfold LegacyContentExtractor.extract.
  eapply Returns_tryCatch with (R := observes).
  - unfold LegacyContentExtractor.extractDocument, LegacyContentExtractor.extractText,
      LegacyContentExtractor.extractBasic.
    runs.
  - intros e. unfold ContentExtractor.warn.
    apply Returns_bind; [apply Returns_consoleLog | intros; apply Returns_ret].
Qed.



(** The batch loop, for any per-file routine that ends. *)
Section AnyPerFile.
Context (rt : Runtime.t).
Context (perFile : FileInfo.t -> ProcessOptions.t -> M ProcessedFile.t).
Hypothesis perFile_ends :
  forall file options w r w', perFile file options w = (r, w') -> r <> OutOfFuel.
Hypothesis perFile_original :
  forall file options w pf w',
    perFile file options w = (Ok pf, w') -> ProcessedFile.original pf = file.

Lemma batchLoop_accounts (files : list FileInfo.t) (options : ProcessOptions.t)
    (total : Z) :
  callbackReturns options ->
  forall (results : OrganizationResult.t) (i : Z) (w : World.t),
  exists (outcomes : list FileOutcome) (results' : OrganizationResult.t) (w' : World.t),
    FileProcessor.batchLoop perFile total options results i files w = (Ok results', w')
    /\ batchRun perFile options total i files w outcomes w'
    /\ Forall2 outcomeOf files outcomes
    /\ OrganizationResult.processed results'
       = OrganizationResult.processed results ++ successes outcomes
    /\ OrganizationResult.failed results'
       = OrganizationResult.failed results ++ failures outcomes
    /\ OrganizationResult.summary results'
       = let s := OrganizationResult.summary results in
         Summary.mk (Summary.total s)
                    (Summary.successful s + Z.of_nat (length (successes outcomes)))
                    (Summary.failed s + Z.of_nat (length (failures outcomes)))
                    (Summary.duration s).
Proof.
  intros Hret.
  induction files as [|file rest IH]; intros results i w.
  - exists [], results, w. cbn.
    split; [reflexivity|]. split; [constructor|].
    repeat split; try (rewrite app_nil_r; reflexivity); [constructor|].
    destruct results as [p f [t s fl d]]; cbn. f_equal; lia.
  - destruct (Hret (i + 1) total file w) as (w1 & Hcb).
    assert (Hstep : FileProcessor.processOne perFile total options results i file w
              = match perFile file options w1 with
                | (Ok pf, w2) => (Ok (FileProcessor.pushProcessed pf results), w2)
                | (Throw e, w2) =>
                    (Ok (FileProcessor.pushFailed file (FileProcessor.errorMessage e)
                                                  results), w2)
                | (OutOfFuel, w2) => (OutOfFuel, w2)
                end).
    { unfold FileProcessor.processOne. unfold bind at 1. rewrite Hcb.
      unfold bind, tryCatch, ret.
      destruct (perFile file options _) as [[pf | e |] w2]; reflexivity. }
    cbn [FileProcessor.batchLoop]. unfold bind at 1. rewrite Hstep. clear Hstep.
    destruct (perFile file options w1) as [[pf | e |] w2] eqn:E.
    + destruct (IH (FileProcessor.pushProcessed pf results) (i + 1) w2)
        as (outcomes & results' & w' & Hrun & Hbatch & Hall & Hp & Hf & Hs).
      exists (inl pf :: outcomes), results', w'. split; [exact Hrun|].
      split; [econstructor; [exact Hcb | exact E | reflexivity | exact Hbatch]|].
      split; [constructor; [eapply perFile_original; exact E | exact Hall]|].
      rewrite Hp, Hf, Hs. cbn. fold (successes outcomes). fold (failures outcomes).
      repeat split; [rewrite <- app_assoc; reflexivity | f_equal; lia].
    + destruct (IH (FileProcessor.pushFailed file (FileProcessor.errorMessage e) results)
                   (i + 1) w2)
        as (outcomes & results' & w' & Hrun & Hbatch & Hall & Hp & Hf & Hs).
      exists (inr (file, FileProcessor.errorMessage e) :: outcomes), results', w'.
      split; [exact Hrun|].
      split; [econstructor; [exact Hcb | exact E | reflexivity | exact Hbatch]|].
      split; [constructor; [reflexivity | exact Hall]|].
      rewrite Hp, Hf, Hs. cbn. fold (successes outcomes). fold (failures outcomes).
      repeat split; [rewrite <- app_assoc; reflexivity | f_equal; lia].
    + exfalso. eapply perFile_ends; [exact E | reflexivity].
Qed.

Lemma processFilesWith_accounts (files : list FileInfo.t) (options : ProcessOptions.t)
    (w : World.t) :
  callbackReturns options ->
  exists (results : OrganizationResult.t) (w' : World.t),
    FileProcessor.processFilesWith rt perFile files options w = (Ok results, w')
    /\ batchResult rt perFile files options w results w'
    /\ accountsFor files results
    /\ countersAgree files results.
Proof.
  intros Hret. unfold FileProcessor.processFilesWith.
  destruct (Returns_dateNow rt w) as (startTime & w0 & Hstart).
  set (results0 := OrganizationResult.mk [] [] (Summary.mk (Z.of_nat (length files)) 0 0 0)).
  destruct (batchLoop_accounts files options (Z.of_nat (length files)) Hret results0 0 w0)
    as (outcomes & results & w1 & Hrun & Hbatch & Hall & Hp & Hf & Hs).
  destruct (Returns_dateNow rt w1) as (endTime & w2 & Hend).
  exists (FileProcessor.setDuration (endTime - startTime) results), w2.
  split.
  { unfold bind at 1. rewrite Hstart. unfold bind at 1. fold results0. rewrite Hrun.
    unfold bind at 1. rewrite Hend. reflexivity. }
  cbn in Hp, Hf, Hs.
  split.
  { exists outcomes, startTime, endTime, w0, w1. cbn. auto 10. }
  split.
  - exists outcomes. cbn. auto.
  - unfold countersAgree. cbn. rewrite Hs, Hp, Hf. cbn.
    pose proof (outcomes_length outcomes) as Hlen.
    pose proof (Forall2_length _ _ _ Hall) as Hlen'.
    repeat split; lia.
Qed.
End AnyPerFile.

(** The batch loop of the earlier revision, with a progress callback that
    returns whenever it is called, or with none, returns for every list of
    files: the files are handled one after the other, each reported to the
    callback and then processed in the world the files before it have left,
    also after a file that failed; the result accounts for each file
    exactly once, in input order, in [processed] or in [failed], with
    counters that agree with the lists. *)
Theorem legacy_processFiles_accounts_for_every_file (rt : Runtime.t) (config : Config.t)
    (files : list FileInfo.t) (options : ProcessOptions.t) (w : World.t) :
  callbackReturns options ->
  exists (results : OrganizationResult.t) (w' : World.t),
    LegacyFileProcessor.processFiles rt config files options w = (Ok results, w')
    /\ batchResult rt (LegacyFileProcessor.processFile rt config) files options w results w'
    /\ accountsFor files results
    /\ countersAgree files results.
Proof.
  intros Hret. unfold LegacyFileProcessor.processFiles.
  apply processFilesWith_accounts; [| | exact Hret].
  - intros file options' w0 r w1 E.
    exact (proj1 (legacy_processFile_ends rt config file options' w0 r w1 E)).
  - intros file options' w0 pf w1 E. unfold LegacyFileProcessor.processFile in E.
    inv_bind E. inv_bind E. inv_bind E. inv_bind E. inv_bind E. inv_bind E. inv_ret E.
    reflexivity.
Qed.

Lemma legacy_processFiles_accounts_for_every_file_witness :
  callbackReturns wetOptions
  /\ exists (results : OrganizationResult.t) (w' : World.t),
       LegacyFileProcessor.processFiles sampleRuntime sampleConfig
         [missing_txt; meeting_notes] wetOptions sampleWorld = (Ok results, w')
       /\ batchResult sampleRuntime (LegacyFileProcessor.processFile sampleRuntime sampleConfig)
            [missing_txt; meeting_notes] wetOptions sampleWorld results w'
       /\ accountsFor [missing_txt; meeting_notes] results
       /\ countersAgree [missing_txt; meeting_notes] results.
Proof.
  pose proof (no_callback_returns wetOptions eq_refl) as Hret.
  split; [exact Hret|].
  exact (legacy_processFiles_accounts_for_every_file sampleRuntime sampleConfig
           [missing_txt; meeting_notes] wetOptions sampleWorld Hret).
Defined.

(** ** The tags of a file *)

Lemma sort_of_sorted (l : list TagSuggestion.t) :
  StronglySorted notBelow l -> JS.sort FileProcessor.byConfidence l = l.
Proof.
  induction 1 as [|x r Hr IH Hx]; cbn [JS.sort]; [reflexivity|].
  rewrite IH. destruct r as [|y r']; [reflexivity|]. cbn [JS.insert].
  apply Forall_cons in Hx as [Hxy _].
  apply byConfidence_keeps in Hxy. rewrite Hxy. reflexivity.
Qed.

Lemma topics_sorted (words : list string) :
  StronglySorted notBelow (map ClaudeService.topicTag words).
Proof.
  induction words as [|word words IH]; cbn; constructor; [exact IH|].
  apply Forall_forall. intros t Ht.
  apply list_elem_of_fmap in Ht as (word' & -> & _).
  unfold notBelow, conf. cbn. lra.
Qed.

Lemma suggestTags_sorted (file : FileInfo.t) (content : option string) :
  StronglySorted notBelow (ClaudeService.suggestTags file content).
Proof.
  unfold ClaudeService.suggestTags. rewrite foldl_push. cbn [app].
  assert (Hlow : forall t, t ∈ map ClaudeService.topicTag
                                 (ClaudeService.nameWords (FileInfo.name file)) ->
                           (conf t <= 1)%Q).
  { intros t Ht. apply list_elem_of_fmap in Ht as (word & -> & _).
    unfold conf. cbn. lra. }
  repeat constructor; try apply topics_sorted;
    try (unfold notBelow, conf; cbn; lra);
    apply Forall_forall; intros t Ht; unfold notBelow; cbn; apply Hlow; exact Ht.
Qed.

(** The candidates are emitted in an order that is already the sorted one
    (confidence 1 first, then 0.7), so the sort moves nothing: the tags of
    a file that is no archive are its first [maxTags] candidates as
    emitted. When [maxTags] is 3 or more they start with the type, the
    format and the date tag, and only topic tags follow. *)
Theorem tags_follow_emission_order (rt : Runtime.t) (config : Config.t)
    (fuel : nat) (file : FileInfo.t) (options : ProcessOptions.t) (w w' : World.t)
    (pf : ProcessedFile.t) :
  FileInfo.type file <> Archive ->
  FileProcessor.processFile rt config fuel file options w = (Ok pf, w') ->
  ProcessedFile.tags pf
  = map TagSuggestion.tag
        (JS.slice0 (TaggingConfig.maxTags (Config.tagging config))
                   (ClaudeService.suggestTags file None))
  /\ (3 <= TaggingConfig.maxTags (Config.tagging config) ->
      exists topics,
        ProcessedFile.tags pf
        = ["type/" +:+ FileType_str (FileInfo.type file);
           "format/" +:+ FileInfo.extension file;
           ClaudeService.dateTag (FileInfo.modifiedAt file)] ++ topics
        /\ Forall (fun tag => JS.startsWith "topic/" tag = true) topics).
Proof.
  intros Ht H. apply processFile_plain_Ok in H; [|exact Ht].
  apply processFileAsNormal_fields in H as (_ & Htags & _).
  unfold FileProcessor.selectTags in Htags.
  rewrite sort_of_sorted in Htags by apply suggestTags_sorted.
  split; [exact Htags|]. intros Hmax. rewrite Htags.
  rewrite slice0_firstn by lia.
  unfold ClaudeService.suggestTags. rewrite foldl_push. cbn [app].
  destruct (Z.to_nat (TaggingConfig.maxTags (Config.tagging config)))
    as [|[|[|n]]] eqn:En; try lia.
  cbn [firstn map TagSuggestion.tag]. eexists. split; [reflexivity|].
  apply Forall_forall. intros tag Hin.
  apply list_elem_of_fmap in Hin as (t & -> & Hin).
  assert (Hin' : t ∈ map ClaudeService.topicTag
                       (ClaudeService.nameWords (FileInfo.name file))).
  { rewrite <- (firstn_skipn n (map _ _)). apply elem_of_app. left. exact Hin. }
  apply list_elem_of_fmap in Hin' as (word & -> & _). reflexivity.
Qed.

Lemma tags_follow_emission_order_witness :
  FileInfo.type meeting_notes <> Archive
  /\ notes_wet_run = (Ok (returned notes_wet_run), notes_wet_run.2)
  /\ ProcessedFile.tags (returned notes_wet_run)
     = ["type/document"; "format/txt"; "date/2024/03"; "topic/project"; "topic/meeting"].
Proof.
  assert (Ht : FileInfo.type meeting_notes <> Archive) by discriminate.
  assert (Hrun : notes_wet_run = (Ok (returned notes_wet_run), notes_wet_run.2))
    by (vm_compute; reflexivity).
  split; [exact Ht|]. split; [exact Hrun|].
  rewrite (proj1 (tags_follow_emission_order sampleRuntime sampleConfig 1 meeting_notes
                    wetOptions sampleWorld notes_wet_run.2 (returned notes_wet_run)
                    Ht Hrun)).
  vm_compute. reflexivity.
Defined.

(** ** Archives *)

(** The recursion through nested archives is as deep as the archives nest:
    where no archive in what the file holds holds itself, a budget above
    the nesting depth of the file is never used up, and a larger budget
    gives the same outcome and the same world. *)
Theorem processFile_recursion_bounded (rt : Runtime.t) (config : Config.t)
    (fuel : nat) (file : FileInfo.t) (options : ProcessOptions.t) (w w' : World.t)
    (r : Outcome ProcessedFile.t) :
  endsAt w (FileInfo.path file) ->
  (depthAt w (FileInfo.path file) < fuel)%nat ->
  FileProcessor.processFile rt config fuel file options w = (r, w') ->
  r <> OutOfFuel
  /\ forall fuel', (fuel <= fuel')%nat ->
       FileProcessor.processFile rt config fuel' file options w = (r, w').
Proof.
  intros Hend Hk H.
  assert (Hne : r <> OutOfFuel).
  { refine (proj1 (processFile_terminates rt config fuel (depthAt w (FileInfo.path file))
                     file options Hk w r w' _ H)).
    split; [exact Hend | lia]. }
  split; [exact Hne|]. intros fuel' Hle.
  eapply processFile_fuel_monotone; eassumption.
Qed.

Lemma processFile_recursion_bounded_witness :
  endsAt sampleWorld (FileInfo.path bundle_zip)
  /\ (depthAt sampleWorld (FileInfo.path bundle_zip) < 3)%nat
  /\ bundle_dry_run.1 <> OutOfFuel
  /\ FileProcessor.processFile sampleRuntime sampleConfig 7 bundle_zip dryOptions sampleWorld
     = bundle_dry_run.
Proof.
  assert (Hend : endsAt sampleWorld (FileInfo.path bundle_zip))
    by (vm_compute; reflexivity).
  assert (Hk : (depthAt sampleWorld (FileInfo.path bundle_zip) < 3)%nat)
    by (vm_compute; lia).
  assert (Hrun : FileProcessor.processFile sampleRuntime sampleConfig 3 bundle_zip
                   dryOptions sampleWorld = (bundle_dry_run.1, bundle_dry_run.2))
    by (vm_compute; reflexivity).
  assert (Hle : (3 <= 7)%nat) by lia.
  split; [exact Hend|]. split; [exact Hk|].
  split.
  - exact (proj1 (processFile_recursion_bounded sampleRuntime sampleConfig 3 bundle_zip
                    dryOptions sampleWorld bundle_dry_run.2 bundle_dry_run.1 Hend Hk Hrun)).
  - rewrite (proj2 (processFile_recursion_bounded sampleRuntime sampleConfig 3 bundle_zip
                      dryOptions sampleWorld bundle_dry_run.2 bundle_dry_run.1 Hend Hk Hrun)
               7%nat Hle).
    destruct bundle_dry_run. reflexivity.
Defined.

(** A log line: a text that ends with a colon, and what was thrown after
    it. *)
Lemma warning_line (text subject shown : string) :
  JS.startsWith (text +:+ subject +:+ ":") (text +:+ subject +:+ ": " +:+ shown) = true.
Proof.
  apply (startsWith_eq _ _ (" " +:+ shown)).
  rewrite <- !append_assoc. reflexivity.
Qed.

(** Whatever the archive routine returns or throws, its last call on the
    file system is the removal of the temporary directory it made. When
    the operating system does not refuse the removal, the directory, and
    every file and directory below it, are gone; when it refuses, the
    routine logs a warning that names the directory as its last line. *)
Theorem archive_temp_directory_removed (rt : Runtime.t) (config : Config.t)
    (member : FileInfo.t -> M ProcessedFile.t) (file : FileInfo.t)
    (options : ProcessOptions.t) (w w1 w' : World.t) (tempExtractDir : string)
    (r : Outcome ProcessedFile.t) :
  Fs.mkdtemp rt (Path.join [Runtime.tmpdir rt; "polish-archive-"]) w
  = (Ok tempExtractDir, w1) ->
  FileProcessor.processArchiveRecursively rt config member file options w = (r, w') ->
  r <> OutOfFuel ->
  head (World.trace w') = Some (Rm tempExtractDir)
  /\ match Runtime.rmRefused rt tempExtractDir with
     | None =>
         forall q,
           q = Fs.locate tempExtractDir
           \/ JS.startsWith (Fs.locate tempExtractDir +:+ "/") q = true ->
           World.files w' !! q = None /\ q ∉ World.dirs w'
     | Some message =>
         exists line, head (World.console w') = Some line
                      /\ cleanupWarning tempExtractDir line
     end.
Proof.
  intros Hmk H Hne. unfold FileProcessor.processArchiveRecursively in H.
  unfold bind at 1 in H. rewrite Hmk in H. unfold tryFinally in H.
  match type of H with
  | context [let '(_, _) := ?body w1 in _] => destruct (body w1) as [rb w2]
  end.
  unfold tryCatch, Fs.rm in H.
  destruct (Runtime.rmRefused rt tempExtractDir) as [message|] eqn:Eref.
  - assert (Hw' : w' = snd (Fs.consoleLog
                             ("Failed to clean up temporary directory " +:+ tempExtractDir
                              +:+ ": " +:+ Fs.showThrown (JsError message))
                             (Fs.logCall (Rm tempExtractDir) w2))).
    { unfold Fs.consoleLog in *.
      destruct rb; inversion H; subst; first [reflexivity | congruence]. }
    subst w'. split; [reflexivity|]. eexists. split; [reflexivity|].
    apply warning_line.
  - assert (Hw' : w' = snd (Fs.rm rt tempExtractDir w2)).
    { unfold Fs.rm. rewrite Eref.
      destruct rb; inversion H; subst; first [reflexivity | congruence]. }
    subst w'. unfold Fs.rm. rewrite Eref. cbn.
    split; [reflexivity|]. intros q Hq.
    assert (Hgone : String.eqb q (Fs.locate tempExtractDir)
                    || JS.startsWith (Fs.locate tempExtractDir +:+ "/") q = true).
    { destruct Hq as [-> | Hq]; [rewrite String.eqb_refl; reflexivity|].
      rewrite Hq. apply orb_true_r. }
    split.
    + apply map_lookup_filter_None. right. intros node _. cbn. rewrite Hgone.
      discriminate.
    + intros Hin. apply elem_of_filter in Hin as [Hkept _].
      rewrite Hgone in Hkept. discriminate.
Qed.

Lemma archive_temp_directory_removed_witness :
  head (World.trace bundle_dry_run.2) = Some (Rm "/tmp/polish-archive-t0")
  /\ forall q,
       q = "/tmp/polish-archive-t0" \/ JS.startsWith "/tmp/polish-archive-t0/" q = true ->
       World.files bundle_dry_run.2 !! q = None /\ q ∉ World.dirs bundle_dry_run.2.
Proof.
  assert (Hmk : Fs.mkdtemp sampleRuntime
                  (Path.join [Runtime.tmpdir sampleRuntime; "polish-archive-"]) sampleWorld
                = (Ok "/tmp/polish-archive-t0",
                   snd (Fs.mkdtemp sampleRuntime "/tmp/polish-archive-" sampleWorld)))
    by (vm_compute; reflexivity).
  assert (Hrun : FileProcessor.processArchiveRecursively sampleRuntime sampleConfig
                   (fun member =>
                      FileProcessor.processFile sampleRuntime sampleConfig 2 member dryOptions)
                   bundle_zip dryOptions sampleWorld
                 = (Ok (returned bundle_dry_run), bundle_dry_run.2))
    by (vm_compute; reflexivity).
  assert (Hne : Ok (returned bundle_dry_run) <> OutOfFuel) by discriminate.
  exact (archive_temp_directory_removed sampleRuntime sampleConfig _ bundle_zip dryOptions
           sampleWorld _ bundle_dry_run.2 "/tmp/polish-archive-t0" _ Hmk Hrun Hne).
Defined.

Lemma extractArchive_nothing (rt : Runtime.t) (file : FileInfo.t) (outputDir : string)
    (w : World.t) :
  JS.toLowerCase (FileInfo.extension file) <> "zip" \/ Runtime.unzipper rt = false ->
  exists w', FileProcessor.extractArchive rt file outputDir w = (Ok [], w')
             /\ World.trace w' = World.trace w.
Proof.
  intros Hno. unfold FileProcessor.extractArchive.
  destruct (String.eqb_spec (JS.toLowerCase (FileInfo.extension file)) "zip") as [Hzip | Hzip].
  - destruct Hno as [Hno | Hno]; [contradiction|].
    unfold FileProcessor.openArchive. rewrite Hno.
    unfold bind, tryCatch, throw, ret, Fs.consoleLog. cbn. eauto.
  - unfold bind, ret, Fs.consoleLog. cbn. eauto.
Qed.

Lemma bind_ext_at {A B} (m : M A) (k1 k2 : A -> M B) (w : World.t) :
  (forall a w1, m w = (Ok a, w1) -> k1 a w1 = k2 a w1) -> bind m k1 w = bind m k2 w.
Proof.
  intros H. unfold bind. destruct (m w) as [[a | e |] w1]; try reflexivity.
  apply H. reflexivity.
Qed.

Lemma tryFinally_ext {A} (b1 b2 : M A) (cleanup : M unit) (w : World.t) :
  b1 w = b2 w -> tryFinally b1 cleanup w = tryFinally b2 cleanup w.
Proof. intros H. unfold tryFinally. rewrite H. reflexivity. Qed.

(** An archive that is no zip file, or any archive when [unzipper] is
    not installed, has no member extracted: the members' routine is never
    called, and the record returned is the one of an ordinary file, with
    the tags of its candidates and no [archiveType] or [extractedFiles] in
    the frontmatter. *)
Theorem archive_without_members_is_ordinary (rt : Runtime.t) (config : Config.t)
    (member : FileInfo.t -> M ProcessedFile.t) (file : FileInfo.t)
    (options : ProcessOptions.t) (w : World.t) :
  JS.toLowerCase (FileInfo.extension file) <> "zip" \/ Runtime.unzipper rt = false ->
  (forall member',
     FileProcessor.processArchiveRecursively rt config member' file options w
     = FileProcessor.processArchiveRecursively rt config member file options w)
  /\ forall pf w',
       FileProcessor.processArchiveRecursively rt config member file options w = (Ok pf, w') ->
       Frontmatter.title (ProcessedFile.frontmatter pf) = Path.parseName (FileInfo.name file)
       /\ Frontmatter.archiveType (ProcessedFile.frontmatter pf) = None
       /\ Frontmatter.extractedFiles (ProcessedFile.frontmatter pf) = None
       /\ ProcessedFile.tags pf
          = FileProcessor.selectTags config (ClaudeService.suggestTags file None).
Proof.
  intros Hno. split.
  - intros member'. unfold FileProcessor.processArchiveRecursively.
    apply bind_ext_at. intros tempExtractDir w1 _.
    apply tryFinally_ext.
    apply bind_ext_at. intros _ w2 _.
    apply bind_ext_at. intros extracted w3 E.
    destruct (extractArchive_nothing rt file tempExtractDir w2 Hno) as (w3' & E' & _).
    rewrite E' in E. inversion E; subst. reflexivity.
  - intros pf w' H. unfold FileProcessor.processArchiveRecursively in H.
    inv_bind H. apply tryFinally_Ok in H as (w2 & H).
    inv_bind H. inv_bind H.
    destruct (extractArchive_nothing rt file a w1 Hno) as (wx & E & _).
    rewrite E in Hrun1. inversion Hrun1; subst. inv_bind H.
    pose proof (processFileAsNormal_fields rt config _ _ _ _ _ H) as (_ & Htags & _).
    split; [|split; [|split; [|exact Htags]]];
      unfold FileProcessor.processFileAsNormal in H;
      inv_bind H; inv_bind H; inv_bind H; inv_bind H; inv_bind H; inv_bind H; inv_ret H; reflexivity.
Qed.

Lemma archive_without_members_is_ordinary_witness :
  tar_dry_run = (Ok (returned tar_dry_run), tar_dry_run.2)
  /\ Frontmatter.title (ProcessedFile.frontmatter (returned tar_dry_run)) = "backup"
  /\ Frontmatter.archiveType (ProcessedFile.frontmatter (returned tar_dry_run)) = None.
Proof.
  assert (Hno : JS.toLowerCase (FileInfo.extension backup_tar) <> "zip"
                \/ Runtime.unzipper sampleRuntime = false)
    by (left; vm_compute; discriminate).
  assert (Hrun : tar_dry_run = (Ok (returned tar_dry_run), tar_dry_run.2))
    by (vm_compute; reflexivity).
  split; [exact Hrun|].
  pose proof (proj2 (archive_without_members_is_ordinary sampleRuntime sampleConfig
                       (fun member =>
                          FileProcessor.processFile sampleRuntime sampleConfig 0 member
                                                    dryOptions)
                       backup_tar dryOptions sampleWorld Hno)
                (returned tar_dry_run) tar_dry_run.2 Hrun) as (Htitle & Htype & _).
  split; [exact Htitle | exact Htype].
Defined.

(** ** Extraction of a zip archive *)

Lemma putFile_keeps (rt : Runtime.t) (p q : string) (data : Blob) (w : World.t) :
  is_Some (World.files w !! q) -> is_Some (World.files (Fs.putFile rt p data w) !! q).
Proof.
  intros Hq. unfold Fs.putFile, Fs.setFiles. cbn.
  destruct (decide (p = q)) as [-> | Hne].
  - rewrite lookup_insert_eq. eauto.
  - rewrite lookup_insert_ne by exact Hne. exact Hq.
Qed.

Lemma mkdir_console (p : string) (w w' : World.t) (r : Outcome unit) :
  Fs.mkdir p w = (r, w') -> World.console w' = World.console w.
Proof.
  unfold Fs.mkdir. destruct (String.eqb p ""); [|destruct (existsb _ _)];
    intros [= <- <-]; reflexivity.
Qed.

Lemma writeFile_outcome (rt : Runtime.t) (p : string) (data : Blob) (w w' : World.t)
    (r : Outcome unit) :
  Fs.writeFile rt p data w = (r, w') ->
  World.console w' = World.console w
  /\ (forall q, is_Some (World.files w !! q) -> is_Some (World.files w' !! q))
  /\ (r = Ok tt -> is_Some (World.files w' !! p))
  /\ r <> OutOfFuel.
Proof.
  unfold Fs.writeFile. destruct (Fs.writable _ _ _ _) as [err|] eqn:Ew.
  - destruct (writable_throws _ _ _ _ _ Ew) as (e & ->). intros [= <- <-].
    split; [reflexivity|]. split; [auto|]. split; discriminate.
  - intros [= <- <-]. split; [reflexivity|]. split; [|split; [|discriminate]].
    + intros q Hq. apply putFile_keeps. exact Hq.
    + intros _. unfold Fs.putFile, Fs.setFiles. cbn. rewrite lookup_insert_eq. eauto.
Qed.

(** An entry that is extracted is a file afterwards, no file is lost, and
    nothing is logged. *)
Lemma extractEntry_files (rt : Runtime.t) (outputDir : string) (entry : ZipEntry)
    (w w' : World.t) (r : Outcome string) :
  FileProcessor.extractEntry rt outputDir entry w = (r, w') ->
  (forall q, is_Some (World.files w !! q) -> is_Some (World.files w' !! q))
  /\ (forall p, r = Ok p -> is_Some (World.files w' !! p))
  /\ World.console w' = World.console w.
Proof.
  unfold FileProcessor.extractEntry, bind. intros H.
  destruct (Fs.mkdir _ w) as [[[] | e |] w1] eqn:Emk;
    pose proof (mkdir_files _ _ _ _ Emk) as Hf1;
    pose proof (mkdir_console _ _ _ _ Emk) as Hc1;
    [| injection H as <- <-; rewrite Hf1; split; [auto|split; [discriminate|exact Hc1]]
     | injection H as <- <-; rewrite Hf1; split; [auto|split; [discriminate|exact Hc1]]].
  - destruct (entry_buffer entry) as [data|]; cbn in H;
      [|injection H as <- <-; rewrite Hf1; split; [auto|split; [discriminate|exact Hc1]]].
    destruct (Fs.writeFile rt _ data w1) as [[[] | e |] w2] eqn:Ewr;
      destruct (writeFile_outcome _ _ _ _ _ _ Ewr) as (Hc2 & Hkeep & Hnew & Hne);
      [| |congruence]; injection H as <- <-; rewrite <- Hf1.
    + split; [exact Hkeep|]. split; [|congruence].
      intros p [= <-]. apply Hnew. reflexivity.
    + split; [exact Hkeep|]. split; [discriminate|congruence].
Qed.

Lemma destinations_cons (outputDir : string) (entry : ZipEntry) (rest : list ZipEntry) :
  destinations outputDir (entry :: rest)
  = if FileProcessor.isFileEntry entry
    then safePath outputDir (entry_path entry) :: destinations outputDir rest
    else destinations outputDir rest.
Proof.
  unfold destinations. cbn [List.filter].
  destruct (FileProcessor.isFileEntry entry); reflexivity.
Qed.

(** The loop over the entries returns; it has extracted the entries up to
    the first that threw, or all of them when none did. *)
Lemma extractEntries_outcome (rt : Runtime.t) (outputDir : string)
    (entries : list ZipEntry) :
  forall (extracted : list string) (w : World.t),
    Forall (fun p => is_Some (World.files w !! p)) extracted ->
    exists paths failure w',
      FileProcessor.extractEntries rt outputDir entries extracted w
      = (Ok (paths, failure), w')
      /\ Forall (fun p => is_Some (World.files w' !! p)) paths
      /\ World.console w' = World.console w
      /\ match failure with
         | None => paths = extracted ++ destinations outputDir entries
         | Some _ =>
             exists rest, rest <> []
                          /\ extracted ++ destinations outputDir entries = paths ++ rest
         end.
Proof.
  induction entries as [|entry rest IH]; intros extracted w Hall;
    cbn [FileProcessor.extractEntries].
  - exists extracted, None, w. split; [reflexivity|]. split; [exact Hall|].
    split; [reflexivity|]. unfold destinations. cbn. rewrite app_nil_r. reflexivity.
  - rewrite destinations_cons.
    destruct (FileProcessor.isFileEntry entry); [|apply IH; exact Hall].
    destruct (FileProcessor.extractEntry rt outputDir entry w) as [[p | e |] w1] eqn:E.
    + destruct (extractEntry_files _ _ _ _ _ _ E) as (Hkeep & Hnew & Hcon).
      destruct (extractEntry_calls _ _ _ _ _ _ E) as (_ & _ & Hp).
      rewrite (Hp p eq_refl) in *.
      destruct (IH (extracted ++ [safePath outputDir (entry_path entry)]) w1)
        as (paths & failure & w' & Hrun & Hfiles & Hcon' & Hout).
      { apply Forall_app. split.
        - eapply Forall_impl; [exact Hall | intros q Hq; apply Hkeep; exact Hq].
        - repeat constructor. apply Hnew. reflexivity. }
      exists paths, failure, w'. split; [exact Hrun|]. split; [exact Hfiles|].
      split; [congruence|]. rewrite <- app_assoc in Hout. exact Hout.
    + destruct (extractEntry_files _ _ _ _ _ _ E) as (Hkeep & _ & Hcon).
      exists extracted, (Some e), w1. split; [reflexivity|]. split.
      { eapply Forall_impl; [exact Hall | intros q Hq; apply Hkeep; exact Hq]. }
      split; [exact Hcon|].
      eexists. split; [|reflexivity]. discriminate.
    + destruct (extractEntry_calls _ _ _ _ _ _ E) as (_ & Hne & _). congruence.
Qed.

(** Opening the archive gives its entries, or nothing when [unzipper] is
    not installed or cannot open the file; it changes no file and logs
    nothing. *)
Lemma openArchive_entries (rt : Runtime.t) (file : FileInfo.t) (w : World.t) :
  exists w1,
    FileProcessor.openArchive rt file w = (Ok (archiveEntries rt w file), w1)
    /\ World.files w1 = World.files w
    /\ World.console w1 = World.console w.
Proof.
  unfold FileProcessor.openArchive, archiveEntries, tryCatch, bind, Fs.readBlob, throw, ret.
  destruct (Runtime.unzipper rt); [|eauto]. cbn.
  destruct (World.files w !! FileInfo.path file) as [node|]; cbn.
  - destruct (blob_zip (FsNode.blob node)); eauto.
  - unfold Fs.enoent, Fs.fsError. destruct (Fs.isDir _ _); eauto.
Qed.


(** The extraction of the sample archive: both entries, nothing logged. *)
Example bundle_extraction_is_whole :
  archiveEntries sampleRuntime sampleWorld bundle_zip <> None
  /\ bundle_extraction.1
     = Ok (destinations "/tmp/out"
             (default [] (archiveEntries sampleRuntime sampleWorld bundle_zip)))
  /\ World.console bundle_extraction.2 = World.console sampleWorld.
Proof. vm_compute. repeat split; discriminate || reflexivity. Qed.

(** An entry without a type whose path ends with a separator: the write
    at its destination fails, the extraction ends there with the one file
    it has written, and the warnings are logged. *)
Example extraction_ends_at_the_first_failure :
  destinations "/tmp/out"
    (default [] (archiveEntries sampleRuntime slashWorld slash_zip))
  = ["/tmp/out/a.txt"; "/tmp/out/dir/"; "/tmp/out/b.txt"]
  /\ slash_extraction.1 = Ok ["/tmp/out/a.txt"]
  /\ World.console slash_extraction.2 = extractionWarnings slash_zip.
Proof. vm_compute. repeat split; reflexivity. Qed.

(** ** Where a note is filed *)

Lemma firstMatchingFolder_none (lowerName : string) (folders : list string) :
  Forall (fun folder => JS.includes (JS.toLowerCase folder) lowerName = false) folders ->
  ClaudeService.firstMatchingFolder lowerName folders = None.
Proof.
  induction 1 as [|folder rest Hf _ IH]; cbn; [reflexivity|].
  rewrite Hf. exact IH.
Qed.

(** A file whose name mentions no folder of the vault has its capitalised
    type as category and is filed by its type: documents, code and media
    (images too) go to the folders the configuration names for them, every
    other type to the references; an empty folder name in the
    configuration falls back to the references as well. *)
Theorem note_filed_by_type (config : Config.t) (file : FileInfo.t)
    (existingFolders : list string) :
  Forall (fun folder => mentions file folder = false) existingFolders ->
  let category :=
    CategorySuggestion.category (ClaudeService.suggestCategory file existingFolders) in
  category = capitalisedType (FileInfo.type file)
  /\ FileProcessor.mapCategoryToVaultFolder config category
     = JS.Str (folderOfType (VaultConfig.structure (Config.vault config))
                            (FileInfo.type file)).
Proof.
  intros Hnone. cbv zeta.
  unfold ClaudeService.suggestCategory. cbn [CategorySuggestion.category].
  unfold mentions in Hnone. rewrite firstMatchingFolder_none by exact Hnone. cbn [default].
  assert (Hcat : JS.toUpperCase (JS.charAt0 (FileType_str (FileInfo.type file)))
                 +:+ JS.slice1 (FileType_str (FileInfo.type file))
                 = capitalisedType (FileInfo.type file))
    by (destruct (FileInfo.type file); reflexivity).
  rewrite Hcat. split; [reflexivity|].
  assert (Hlow : JS.toLowerCase (capitalisedType (FileInfo.type file))
                 = FileType_str (FileInfo.type file))
    by (destruct (FileInfo.type file); vm_compute; reflexivity).
  unfold FileProcessor.mapCategoryToVaultFolder, folderOfType, orElse.
  rewrite Hlow. clear Hlow Hcat.
  destruct (FileInfo.type file); cbn;
    try reflexivity;
    match goal with
    | |- context [String.eqb ?x ""] => destruct (String.eqb x ""); reflexivity
    end.
Qed.

Lemma note_filed_by_type_witness :
  Forall (fun folder => mentions meeting_notes folder = false) ["Inbox"; "Projects"]
  /\ CategorySuggestion.category
       (ClaudeService.suggestCategory meeting_notes ["Inbox"; "Projects"]) = "Document"
  /\ FileProcessor.mapCategoryToVaultFolder sampleConfig
       (CategorySuggestion.category
          (ClaudeService.suggestCategory meeting_notes ["Inbox"; "Projects"]))
     = JS.Str (VaultStructure.documents (VaultConfig.structure (Config.vault sampleConfig))).
Proof.
  assert (Hnone : Forall (fun folder => mentions meeting_notes folder = false)
                         ["Inbox"; "Projects"]) by (repeat constructor).
  split; [exact Hnone|].
  exact (note_filed_by_type sampleConfig meeting_notes ["Inbox"; "Projects"] Hnone).
Defined.

(** The folder is looked for in lower case, accented letters too: the
    file is filed under the first folder its name mentions, here the one
    with the accented capital. *)
Example accented_folder_is_mentioned :
  mentions ecole_meeting Ecole = true
  /\ CategorySuggestion.category (ClaudeService.suggestCategory ecole_meeting [Ecole; "Meeting"])
     = Ecole.
Proof. vm_compute. split; reflexivity. Qed.

Lemma firstMatchingFolder_some (lowerName folder : string) (folders : list string) :
  ClaudeService.firstMatchingFolder lowerName folders = Some folder ->
  exists before after,
    folders = before ++ folder :: after
    /\ JS.includes (JS.toLowerCase folder) lowerName = true
    /\ Forall (fun f => JS.includes (JS.toLowerCase f) lowerName = false) before.
Proof.
  induction folders as [|f rest IH]; cbn; [discriminate|].
  destruct (JS.includes (JS.toLowerCase f) lowerName) eqn:E.
  - intros [= ->]. exists [], rest. repeat split; [exact E | constructor].
  - intros H. destruct (IH H) as (before & after & -> & Hin & Hall).
    exists (f :: before), after. repeat split; [exact Hin|]. constructor; assumption.
Qed.

Lemma suggestCategory_first_mention (file : FileInfo.t) (before after : list string)
    (folder : string) :
  Forall (fun f => mentions file f = false) before ->
  mentions file folder = true ->
  CategorySuggestion.category (ClaudeService.suggestCategory file (before ++ folder :: after))
  = folder.
Proof.
  intros Hbefore Hin.
  unfold ClaudeService.suggestCategory. cbn [CategorySuggestion.category].
  induction Hbefore as [|f rest Hf _ IH]; cbn.
  - unfold mentions in Hin. rewrite Hin. reflexivity.
  - unfold mentions in Hf. rewrite Hf. exact IH.
Qed.

Lemma mapCategoryToVaultFolder_inherited (config : Config.t) (category : string) :
  JS.toLowerCase category ∈ ["constructor"; "__proto__"] ->
  FileProcessor.mapCategoryToVaultFolder config category
  = JS.Proto (JS.toLowerCase category).
Proof.
  intros Hin. unfold FileProcessor.mapCategoryToVaultFolder.
  repeat (apply elem_of_cons in Hin as [-> | Hin]; [reflexivity|]). inversion Hin.
Qed.

(** When the name of a file mentions folders of the vault, its category is
    the first of them in the listing. The note is not filed there: unless
    the folder is called like a type ([document], [image], [code],
    [media], in any case), the note goes to the references folder; and for
    a folder called [constructor] or [__proto__], in any case, the folder
    of the note is no string but the member of [Object.prototype] of that
    name. *)
Theorem note_of_a_mentioned_folder (config : Config.t) (file : FileInfo.t)
    (before after : list string) (folder : string) :
  Forall (fun f => mentions file f = false) before ->
  mentions file folder = true ->
  JS.toLowerCase folder ∉ ["document"; "image"; "code"; "media"] ->
  let category :=
    CategorySuggestion.category
      (ClaudeService.suggestCategory file (before ++ folder :: after)) in
  category = folder
  /\ FileProcessor.mapCategoryToVaultFolder config category
     = if decide (JS.toLowerCase folder ∈ ["constructor"; "__proto__"])
       then JS.Proto (JS.toLowerCase folder)
       else JS.Str (VaultStructure.references (VaultConfig.structure (Config.vault config))).
Proof.
  intros Hbefore Hin Hnot. cbv zeta.
  rewrite (suggestCategory_first_mention file before after folder Hbefore Hin).
  split; [reflexivity|].
  destruct (mapCategoryToVaultFolder_cases config folder) as [(value & Hv) | (Hv & Hkey)].
  - assert (Hown : JS.member
                     [("document", VaultStructure.documents
                                     (VaultConfig.structure (Config.vault config)));
                      ("image", VaultStructure.media
                                  (VaultConfig.structure (Config.vault config)));
                      ("code", VaultStructure.code
                                 (VaultConfig.structure (Config.vault config)));
                      ("media", VaultStructure.media
                                  (VaultConfig.structure (Config.vault config)))]
                     (JS.toLowerCase folder)
                   = if JS.arr_includes (JS.toLowerCase folder) JS.objectPrototypeKeys
                     then JS.Inherited (JS.toLowerCase folder) else JS.Undefined).
    { unfold JS.member. cbn [List.find fst snd].
      repeat match goal with
             | |- context [String.eqb ?k (JS.toLowerCase folder)] =>
                 let E := fresh "E" in
                 destruct (String.eqb_spec k (JS.toLowerCase folder)) as [E | E];
                 [exfalso; apply Hnot; rewrite <- E; set_solver|]
             end.
      reflexivity. }
    unfold FileProcessor.mapCategoryToVaultFolder in Hv |- *. rewrite Hown in Hv |- *.
    destruct (JS.arr_includes (JS.toLowerCase folder) JS.objectPrototypeKeys) eqn:Einc;
      cbn [JS.memberOr] in Hv |- *; [discriminate|].
    destruct (decide _) as [Hkey|]; [|reflexivity].
    exfalso. assert (Hinc : JS.arr_includes (JS.toLowerCase folder) JS.objectPrototypeKeys
                            = true); [|congruence].
    repeat (apply elem_of_cons in Hkey as [-> | Hkey]; [reflexivity|]). inversion Hkey.
  - rewrite Hv. destruct (decide _); [reflexivity|contradiction].
Qed.

Lemma note_of_a_mentioned_folder_witness :
  CategorySuggestion.category
    (ClaudeService.suggestCategory meeting_notes ["Reports"; "Meeting"; "Notes"])
  = "Meeting"
  /\ FileProcessor.mapCategoryToVaultFolder sampleConfig
       (CategorySuggestion.category
          (ClaudeService.suggestCategory meeting_notes ["Reports"; "Meeting"; "Notes"]))
     = JS.Str (VaultStructure.references (VaultConfig.structure (Config.vault sampleConfig))).
Proof.
  refine (note_of_a_mentioned_folder sampleConfig meeting_notes ["Reports"] ["Notes"]
            "Meeting" _ _ _).
  - repeat constructor.
  - reflexivity.
  - replace (JS.toLowerCase "Meeting") with "meeting" by reflexivity.
    intros Hin.
    repeat (apply elem_of_cons in Hin as [Hin | Hin]; [discriminate|]).
    inversion Hin.
Defined.

(** A vault with a folder called [Constructor] and a file whose name
    mentions it: the folder of the note is the function [Object], and
    [path.join] throws on it, in a dry run as well. *)
Example note_of_a_folder_called_constructor :
  FileProcessor.mapCategoryToVaultFolder sampleConfig
    (CategorySuggestion.category
       (ClaudeService.suggestCategory constructor_notes ["Constructor"]))
  = JS.Proto "constructor"
  /\ (FileProcessor.processFile sampleRuntime sampleConfig 1 constructor_notes dryOptions
        constructorWorld).1
     = Throw (Path.invalidPathArgument "constructor").
Proof. vm_compute. split; reflexivity. Qed.

(** ** The folders of the vault *)

Lemma readdir_result (rt : Runtime.t) (p : string) (w : World.t) :
  Fs.readdir rt p w
  = (if Fs.isDir w p then
       let under q := String.eqb (Path.dirname q) (Fs.locate p)
                      && negb (String.eqb q (Fs.locate p)) in
       Ok (Runtime.readdirOrder rt
             (map (fun q => (Path.basename q, false))
                  (List.filter under (map fst (map_to_list (World.files w))))
              ++ map (fun q => (Path.basename q, true))
                     (List.filter under (elements (World.dirs w)))))
     else if Fs.isFile w p then Fs.enotdir "scandir" p
     else Fs.enoent "scandir" p,
     Fs.logCall (Readdir p) w).
Proof.
  unfold Fs.readdir. cbv zeta.
  change (Fs.isDir (Fs.logCall (Readdir p) w) p) with (Fs.isDir w p).
  change (Fs.isFile (Fs.logCall (Readdir p) w) p) with (Fs.isFile w p).
  destruct (Fs.isDir w p); [reflexivity|]. destruct (Fs.isFile w p); reflexivity.
Qed.


Lemma getExistingVaultFolders_same (rt : Runtime.t) (config : Config.t) (w w' : World.t) :
  World.files w' = World.files w -> World.dirs w' = World.dirs w ->
  (FileProcessor.getExistingVaultFolders rt config w').1
  = (FileProcessor.getExistingVaultFolders rt config w).1.
Proof.
  intros Hf Hd. unfold FileProcessor.getExistingVaultFolders, tryCatch, bind.
  rewrite !readdir_result. cbv zeta. unfold Fs.isDir, Fs.isFile. rewrite Hf, Hd.
  destruct (negb _ && _); [reflexivity|].
  unfold Fs.enotdir, Fs.enoent, Fs.fsError. destruct (bool_decide _); reflexivity.
Qed.

(** A file whose name mentions, first among the folders of the vault, one
    called [constructor] or [__proto__] (in any case) cannot be processed:
    the folder of its note is the member of [Object.prototype] of that
    name, [path.join] throws its TypeError on it, and nothing has been
    written by then, dry run or not. *)
Theorem note_of_a_folder_named_like_an_inherited_member (rt : Runtime.t)
    (config : Config.t) (fuel : nat) (file : FileInfo.t) (options : ProcessOptions.t)
    (w w0 : World.t) (before after : list string) (folder : string) :
  FileInfo.type file <> Archive ->
  (0 < fuel)%nat ->
  FileProcessor.getExistingVaultFolders rt config w = (Ok (before ++ folder :: after), w0) ->
  Forall (fun f => mentions file f = false) before ->
  mentions file folder = true ->
  JS.toLowerCase folder ∈ ["constructor"; "__proto__"] ->
  exists w',
    FileProcessor.processFile rt config fuel file options w
    = (Throw (Path.invalidPathArgument (JS.toLowerCase folder)), w')
    /\ observes w w'.
Proof.
  intros Ht Hfuel Hlist Hbefore Hin Hkey. destruct fuel as [|fuel]; [lia|].
  rewrite processFile_plain by exact Ht.
  unfold FileProcessor.processFileAsNormal. unfold bind at 1.
  destruct (Returns_extract rt file w) as (content & w1 & E1).
  pose proof (proj2 (Runs_extract rt file w _ w1 E1)) as Hobs1. rewrite E1.
  unfold bind at 1.
  destruct (Returns_getExistingVaultFolders rt config w1) as (folders & w2 & E2).
  pose proof (proj2 (Runs_getExistingVaultFolders rt config w1 _ w2 E2)) as Hobs2.
  assert (Hfolders : folders = before ++ folder :: after).
  { destruct Hobs1 as (Hf & Hd & _).
    pose proof (getExistingVaultFolders_same rt config w w1 Hf Hd) as Hsame.
    rewrite E2, Hlist in Hsame. cbn in Hsame. congruence. }
  rewrite E2. subst folders.
  rewrite (suggestCategory_first_mention file before after folder Hbefore Hin).
  rewrite (mapCategoryToVaultFolder_inherited config folder Hkey).
  unfold bind at 1. unfold FileProcessor.markdownPathOf, Path.joinValues.
  cbn [Path.validateStrings returnOrThrow throw].
  exists w2. split; [reflexivity|]. etransitivity; eassumption.
Qed.

Lemma note_of_a_folder_named_like_an_inherited_member_witness :
  FileInfo.type constructor_notes <> Archive
  /\ (0 < 1)%nat
  /\ exists w',
       FileProcessor.processFile sampleRuntime sampleConfig 1 constructor_notes wetOptions
         constructorWorld
       = (Throw (Path.invalidPathArgument (JS.toLowerCase "Constructor")), w')
       /\ observes constructorWorld w'.
Proof.
  assert (Ht : FileInfo.type constructor_notes <> Archive) by discriminate.
  assert (Hfuel : (0 < 1)%nat) by lia.
  assert (Hlist : FileProcessor.getExistingVaultFolders sampleRuntime sampleConfig
                    constructorWorld
                  = (Ok ([] ++ "Constructor" :: []),
                     Fs.logCall (Readdir "/vault") constructorWorld))
    by (vm_compute; reflexivity).
  assert (Hin : mentions constructor_notes "Constructor" = true)
    by (vm_compute; reflexivity).
  assert (Hkey : JS.toLowerCase "Constructor" ∈ ["constructor"; "__proto__"]) by left.
  split; [exact Ht|]. split; [exact Hfuel|].
  exact (note_of_a_folder_named_like_an_inherited_member sampleRuntime sampleConfig 1
           constructor_notes wetOptions constructorWorld
           (Fs.logCall (Readdir "/vault") constructorWorld) [] [] "Constructor"
           Ht Hfuel Hlist (List.Forall_nil _) Hin Hkey).
Defined.

(** A vault path that ends with a separator names the same directory. *)
Example vault_path_with_a_separator_at_its_end :
  Fs.locate "/vault/" = "/vault"
  /\ (FileProcessor.getExistingVaultFolders sampleRuntime slashVaultConfig folderWorld).1
     = Ok ["Projects"].
Proof. vm_compute. split; reflexivity. Qed.

(** ** The summary of an archive *)

Lemma concat_Permutation {A} (l l' : list (list A)) :
  Permutation l l' -> Permutation (concat l) (concat l').
Proof.
  induction 1 as [|x l l' _ IH|x y l|l l' l'' _ IH1 _ IH2]; cbn.
  - reflexivity.
  - apply Permutation_app_head. exact IH.
  - rewrite !app_assoc. apply Permutation_app_tail, Permutation_app_comm.
  - etransitivity; eassumption.
Qed.

Lemma filter_partition_Permutation {A} (P : A -> bool) (l : list A) :
  Permutation (List.filter P l ++ List.filter (fun x => negb (P x)) l) l.
Proof.
  induction l as [|x l IH]; cbn; [reflexivity|].
  destruct (P x); cbn.
  - constructor. exact IH.
  - etransitivity; [symmetry; apply Permutation_middle|]. constructor. exact IH.
Qed.

(** [Object.entries] reorders the keys and loses none. *)
Lemma objectEntries_Permutation {V} (o : list (string * V)) :
  Permutation (FileProcessor.objectEntries o) o.
Proof.
  unfold FileProcessor.objectEntries.
  set (isIndex := fun kv : string * V =>
                    match FileProcessor.arrayIndex kv.1 with
                    | Some _ => true
                    | None => false
                    end).
  etransitivity; [|apply (filter_partition_Permutation isIndex)].
  apply Permutation_app.
  - etransitivity; [apply Permutation_map, sort_Permutation|].
    induction o as [|kv o IH]; cbn; [reflexivity|].
    subst isIndex. cbn. destruct (FileProcessor.arrayIndex kv.1); cbn; [|exact IH].
    constructor. exact IH.
  - induction o as [|kv o IH]; cbn; [reflexivity|].
    subst isIndex. cbn. destruct (FileProcessor.arrayIndex kv.1); cbn; [exact IH|].
    constructor. exact IH.
Qed.

Lemma pushGroup_new (category : string) (file : ProcessedFile.t)
    (groups : list (string * list ProcessedFile.t)) :
  category ∉ map fst groups ->
  FileProcessor.pushGroup category file groups = groups ++ [(category, [file])].
Proof.
  induction groups as [|[key files] rest IH]; cbn; intros Hnot; [reflexivity|].
  destruct (String.eqb_spec key category) as [-> | Hne].
  - exfalso. apply Hnot. left.
  - f_equal. apply IH. intros Hin. apply Hnot. right. exact Hin.
Qed.

Lemma pushGroup_old (category : string) (file : ProcessedFile.t)
    (groups : list (string * list ProcessedFile.t)) :
  category ∈ map fst groups ->
  exists before files after,
    groups = before ++ (category, files) :: after
    /\ (category ∉ map fst before)
    /\ FileProcessor.pushGroup category file groups
       = before ++ (category, files ++ [file]) :: after.
Proof.
  induction groups as [|[key files] rest IH]; cbn; intros Hin; [inversion Hin|].
  destruct (String.eqb_spec key category) as [-> | Hne].
  - exists [], files, rest. repeat split. intros H. inversion H.
  - apply elem_of_cons in Hin as [-> | Hin]; [contradiction|].
    destruct (IH Hin) as (before & files' & after & -> & Hnot & ->).
    exists ((key, files) :: before), files', after. repeat split.
    cbn. intros H. apply elem_of_cons in H as [-> | H]; [contradiction | auto].
Qed.

Lemma groupedUnder_app (category : string) (l1 l2 : list ProcessedFile.t) :
  groupedUnder category (l1 ++ l2) = groupedUnder category l1 ++ groupedUnder category l2.
Proof. unfold groupedUnder. apply List.filter_app. Qed.

Lemma groupedUnder_none (category : string) (files : list ProcessedFile.t) :
  Forall (fun file => groupOf file <> category) files -> groupedUnder category files = [].
Proof.
  induction 1 as [|file rest Hf _ IH]; cbn; [reflexivity|].
  rewrite (proj2 (String.eqb_neq _ _) Hf). exact IH.
Qed.

Lemma groupedUnder_other (category : string) (file : ProcessedFile.t)
    (seen : list ProcessedFile.t) :
  groupOf file <> category ->
  groupedUnder category (seen ++ [file]) = groupedUnder category seen.
Proof.
  intros Hne. rewrite groupedUnder_app. cbn.
  rewrite (proj2 (String.eqb_neq _ _) Hne). apply app_nil_r.
Qed.

Lemma groupedUnder_same (file : ProcessedFile.t) (seen : list ProcessedFile.t) :
  groupedUnder (groupOf file) (seen ++ [file]) = groupedUnder (groupOf file) seen ++ [file].
Proof. rewrite groupedUnder_app. cbn. rewrite String.eqb_refl. reflexivity. Qed.

Lemma pushGroup_groupsOf (seen : list ProcessedFile.t) (file : ProcessedFile.t)
    (groups : list (string * list ProcessedFile.t)) :
  groupsOf seen groups ->
  groupsOf (seen ++ [file]) (FileProcessor.pushGroup (groupOf file) file groups).
Proof.
  intros (Hkeys & Hgroups & Hseen & Hperm).
  destruct (decide (groupOf file ∈ map fst groups)) as [Hin | Hnot].
  - destruct (pushGroup_old _ file _ Hin) as (before & files & after & -> & Hfresh & ->).
    rewrite map_app in Hkeys. cbn in Hkeys.
    apply NoDup_app in Hkeys as (Hk1 & Hk2 & Hk3).
    apply NoDup_cons in Hk3 as [Hk3 Hk4].
    apply Forall_app in Hgroups as [Hg1 Hg2].
    apply Forall_cons in Hg2 as [[_ Hg] Hg2]. cbn in Hg.
    repeat split.
    + rewrite map_app. cbn. apply NoDup_app. repeat split; try assumption.
      constructor; assumption.
    + apply Forall_app. split; [|constructor; [split|]].
      * apply Forall_forall. intros g Hg'.
        rewrite Forall_forall in Hg1. destruct (Hg1 g Hg') as [Hne Heq].
        split; [exact Hne|]. rewrite groupedUnder_other; [exact Heq|].
        intros Hc. apply Hfresh. rewrite Hc. apply list_elem_of_fmap. eauto.
      * cbn. destruct files; discriminate.
      * cbn. rewrite groupedUnder_same, Hg. reflexivity.
      * apply Forall_forall. intros g Hg'.
        rewrite Forall_forall in Hg2. destruct (Hg2 g Hg') as [Hne Heq].
        split; [exact Hne|]. rewrite groupedUnder_other; [exact Heq|].
        intros Hc. apply Hk3. rewrite Hc. apply list_elem_of_fmap. eauto.
    + apply Forall_app. split.
      * eapply Forall_impl; [exact Hseen|]. intros f Hf. cbn in Hf.
        rewrite map_app in *. exact Hf.
      * repeat constructor. rewrite map_app. cbn. apply elem_of_app. right. left.
    + rewrite map_app, concat_app in *. cbn in *.
      rewrite <- Hperm. rewrite <- !app_assoc.
      apply Permutation_app_head. apply Permutation_app_head.
      apply Permutation_app_comm.
  - rewrite (pushGroup_new _ _ _ Hnot).
    repeat split.
    + rewrite map_app. cbn. apply NoDup_app. repeat split; try assumption.
      * intros k Hk Hk'. apply list_elem_of_singleton in Hk'. subst k. contradiction.
      * apply NoDup_singleton.
    + apply Forall_app. split.
      * apply Forall_forall. intros g Hg'.
        rewrite Forall_forall in Hgroups. destruct (Hgroups g Hg') as [Hne Heq].
        split; [exact Hne|]. rewrite groupedUnder_other; [exact Heq|].
        intros Hc. apply Hnot. rewrite Hc. apply list_elem_of_fmap. eauto.
      * repeat constructor; cbn; [discriminate|].
        rewrite groupedUnder_same, groupedUnder_none; [reflexivity|].
        eapply Forall_impl; [exact Hseen|]. intros f Hf Hc. cbn in Hf.
        apply Hnot. rewrite <- Hc. exact Hf.
    + apply Forall_app. split.
      * eapply Forall_impl; [exact Hseen|]. intros f Hf. cbn in Hf.
        rewrite map_app. apply elem_of_app. left. exact Hf.
      * repeat constructor. rewrite map_app. apply elem_of_app. right. cbn. left.
    + rewrite map_app, concat_app. cbn. rewrite ?app_nil_r.
      apply Permutation_app_tail. exact Hperm.
Qed.

Lemma reduce_groupsOf (files seen : list ProcessedFile.t)
    (groups : list (string * list ProcessedFile.t)) :
  groupsOf seen groups ->
  groupsOf (seen ++ files)
    (foldl (fun groups file => FileProcessor.pushGroup (groupOf file) file groups)
           groups files).
Proof.
  revert seen groups. induction files as [|file rest IH]; intros seen groups H; cbn.
  - rewrite app_nil_r. exact H.
  - replace (seen ++ file :: rest) with ((seen ++ [file]) ++ rest)
      by (rewrite <- app_assoc; reflexivity).
    apply IH. apply pushGroup_groupsOf. exact H.
Qed.

Lemma arr_includes_false (x : string) (l : list string) :
  x ∉ l -> JS.arr_includes x l = false.
Proof.
  intros Hnot. unfold JS.arr_includes.
  destruct (existsb (String.eqb x) l) eqn:E; [|reflexivity].
  exfalso. apply Hnot. apply existsb_exists in E as (y & Hy & Heq).
  apply String.eqb_eq in Heq. subst y. apply list_elem_of_In. exact Hy.
Qed.

(** The [reduce] over children none of which has the name of a member of
    [Object.prototype] for its heading: each child is pushed to the group
    of its heading. *)
Lemma reduce_groupChild (files : list ProcessedFile.t)
    (groups : list (string * list ProcessedFile.t)) :
  Forall (fun file => groupOf file ∉ JS.objectPrototypeKeys) files ->
  foldl FileProcessor.groupChild (inr groups) files
  = inr (foldl (fun groups file => FileProcessor.pushGroup (groupOf file) file groups)
               groups files).
Proof.
  intros Hsafe. revert groups.
  induction Hsafe as [|file rest Hfile _ IH]; intros groups; cbn [foldl]; [reflexivity|].
  rewrite <- IH. f_equal. unfold FileProcessor.groupChild.
  fold (orElse (ProcessedFile.category file) "unknown"). fold (groupOf file).
  rewrite (arr_includes_false _ _ Hfile). reflexivity.
Qed.

(** The [reduce] once a child has such a heading: [push] is called on the
    inherited member, and the TypeError ends it. *)
Lemma reduce_groupChild_throws (files : list ProcessedFile.t) (e : Thrown) :
  foldl FileProcessor.groupChild (inl e) files = inl e.
Proof. induction files as [|file rest IH]; cbn; [reflexivity | exact IH]. Qed.



(** When a child has the name of a member of [Object.prototype] for its
    heading (its category is a folder of the vault called [valueOf], say),
    the grouping finds the inherited member where it looks for the group,
    calls [push] on it, and the summary throws a TypeError: the archive
    fails as a whole. *)
Theorem archive_summary_of_an_inherited_heading (rt : Runtime.t) (config : Config.t)
    (archiveFile : FileInfo.t) (extractedFiles : list ProcessedFile.t) :
  Exists (fun file => groupOf file ∈ JS.objectPrototypeKeys) extractedFiles ->
  FileProcessor.generateArchiveSummary rt config archiveFile extractedFiles
  = inl pushIsNoFunction.
Proof.
  intros Hex. unfold FileProcessor.generateArchiveSummary.
  assert (Hfold : forall groups,
             foldl FileProcessor.groupChild (inr groups) extractedFiles
             = inl pushIsNoFunction).
  { induction Hex as [file rest Hfile | file rest _ IH]; intros groups; cbn [foldl].
    - replace (FileProcessor.groupChild (inr groups) file) with
        (inl pushIsNoFunction : Thrown + list (string * list ProcessedFile.t)).
      + apply reduce_groupChild_throws.
      + unfold FileProcessor.groupChild.
        fold (orElse (ProcessedFile.category file) "unknown"). fold (groupOf file).
        replace (JS.arr_includes (groupOf file) JS.objectPrototypeKeys) with true;
          [reflexivity|].
        symmetry. apply existsb_exists. exists (groupOf file).
        split; [apply list_elem_of_In; exact Hfile | apply String.eqb_refl].
    - destruct (FileProcessor.groupChild (inr groups) file) as [e | groups'] eqn:E.
      + unfold FileProcessor.groupChild in E.
        destruct (JS.arr_includes _ _); [|discriminate].
        injection E as <-. apply reduce_groupChild_throws.
      + apply IH. }
  rewrite Hfold. reflexivity.
Qed.

Lemma archive_summary_of_an_inherited_heading_witness :
  Exists (fun file => groupOf file ∈ JS.objectPrototypeKeys)
         [returned notes_dry_run; withCategory "valueOf" (returned notes_dry_run)]
  /\ FileProcessor.generateArchiveSummary sampleRuntime sampleConfig bundle_zip
       [returned notes_dry_run; withCategory "valueOf" (returned notes_dry_run)]
     = inl pushIsNoFunction.
Proof.
  assert (Hex : Exists (fun file => groupOf file ∈ JS.objectPrototypeKeys)
                       [returned notes_dry_run;
                        withCategory "valueOf" (returned notes_dry_run)]).
  { apply Exists_cons_tl, Exists_cons_hd.
    change (groupOf (withCategory "valueOf" (returned notes_dry_run))) with "valueOf".
    unfold JS.objectPrototypeKeys. set_solver. }
  split; [exact Hex|].
  exact (archive_summary_of_an_inherited_heading sampleRuntime sampleConfig bundle_zip _ Hex).
Defined.

(** An archive whose member is named after the folder [valueOf] of the
    vault: the member is processed, the summary throws, and so does the
    routine, in a dry run as well. *)
Example archive_with_a_member_filed_under_valueOf :
  (FileProcessor.processFile sampleRuntime sampleConfig 2 valueOf_zip dryOptions
     valueOfWorld).1
  = Throw pushIsNoFunction.
Proof. vm_compute. reflexivity. Qed.

(** ** The tags of an archive summary *)

Lemma slice0_is_firstn {A} (n : Z) (l : list A) : exists k, JS.slice0 n l = firstn k l.
Proof. unfold JS.slice0. destruct (n <? 0); eauto. Qed.

Lemma set_add_cases (x : string) (s : list string) :
  (x ∈ s /\ JS.set_add x s = s) \/ ((x ∉ s) /\ JS.set_add x s = s ++ [x]).
Proof.
  unfold JS.set_add. destruct (existsb (String.eqb x) s) eqn:E.
  - left. split; [|reflexivity].
    apply existsb_exists in E as (y & Hy & Heq). apply String.eqb_eq in Heq. subst y.
    apply list_elem_of_In. exact Hy.
  - right. split; [|reflexivity]. intros Hin.
    assert (existsb (String.eqb x) s = true); [|congruence].
    apply existsb_exists. exists x. split; [apply list_elem_of_In; exact Hin|].
    apply String.eqb_refl.
Qed.

(** Adding the images of a list to a [Set], one by one. *)
Lemma foldl_set_add {B} (g : B -> string) (l : list B) :
  forall init, NoDup init ->
  exists extra,
    foldl (fun tags x => JS.set_add (g x) tags) init l = init ++ extra
    /\ NoDup (init ++ extra)
    /\ (length extra <= length l)%nat
    /\ Forall (fun t => exists x, x ∈ l /\ t = g x) extra.
Proof.
  induction l as [|x l IH]; intros init Hnd; cbn.
  - exists []. rewrite app_nil_r.
    split; [reflexivity|]. split; [exact Hnd|]. split; [cbn; lia | constructor].
  - destruct (set_add_cases (g x) init) as [[_ ->] | [Hnot ->]].
    + destruct (IH init Hnd) as (extra & -> & Hnd' & Hlen & Hall).
      exists extra.
      split; [reflexivity|]. split; [exact Hnd'|]. split; [lia|].
      eapply Forall_impl; [exact Hall|]. intros t (y & Hy & ->).
      exists y. split; [right; exact Hy | reflexivity].
    + assert (Hnd1 : NoDup (init ++ [g x])).
      { apply NoDup_app. split; [exact Hnd|]. split; [|apply NoDup_singleton].
        intros y Hy Hy'. apply list_elem_of_singleton in Hy'. subst y. contradiction. }
      destruct (IH (init ++ [g x]) Hnd1) as (extra & -> & Hnd' & Hlen & Hall).
      exists (g x :: extra). rewrite <- app_assoc in *. cbn in *.
      split; [reflexivity|]. split; [exact Hnd'|]. split; [lia|].
      constructor; [exists x; split; [left | reflexivity]|].
      eapply Forall_impl; [exact Hall|]. intros t (y & Hy & ->).
      exists y. split; [right; exact Hy | reflexivity].
Qed.

Lemma childTags_of_file (tags acc : list string) (t : string) :
  t ∈ foldl (fun childTags tag =>
               if negb (JS.startsWith "type/" tag) && negb (JS.startsWith "format/" tag)
               then JS.set_add tag childTags else childTags) acc tags ->
  t ∈ acc
  \/ (t ∈ tags /\ JS.startsWith "type/" t = false /\ JS.startsWith "format/" t = false).
Proof.
  revert acc. induction tags as [|tag tags IH]; intros acc H; cbn [foldl] in H;
    [left; exact H|].
  apply IH in H as [H | (Hin & Hc)]; [|right; split; [right; exact Hin | exact Hc]].
  destruct (negb (JS.startsWith "type/" tag) && negb (JS.startsWith "format/" tag)) eqn:E;
    [|left; exact H].
  destruct (set_add_cases tag acc) as [[_ Heq] | [_ Heq]]; rewrite Heq in H;
    [left; exact H|].
  apply elem_of_app in H as [H | H]; [left; exact H|].
  apply list_elem_of_singleton in H. subst t. right.
  apply andb_true_iff in E as [E1 E2]. apply negb_true_iff in E1, E2.
  split; [left | split; assumption].
Qed.

Lemma childTags_of_children (children : list ProcessedFile.t) (acc : list string)
    (t : string) :
  t ∈ foldl (fun childTags file =>
               foldl (fun childTags tag =>
                        if negb (JS.startsWith "type/" tag)
                           && negb (JS.startsWith "format/" tag)
                        then JS.set_add tag childTags else childTags)
                     childTags (ProcessedFile.tags file)) acc children ->
  t ∈ acc
  \/ exists child, child ∈ children /\ t ∈ ProcessedFile.tags child
                   /\ JS.startsWith "type/" t = false
                   /\ JS.startsWith "format/" t = false.
Proof.
  revert acc. induction children as [|child children IH]; intros acc H; cbn [foldl] in H;
    [left; exact H|].
  apply IH in H as [H | (c & Hc & Hrest)];
    [|right; exists c; split; [right; exact Hc | exact Hrest]].
  apply childTags_of_file in H as [H | (Hin & Hc)]; [left; exact H|].
  right. exists child. split; [left | split; assumption].
Qed.

Lemma archiveOwnTags_NoDup (archiveFile : FileInfo.t) : NoDup (archiveOwnTags archiveFile).
Proof.
  unfold archiveOwnTags, ClaudeService.dateTag.
  repeat (apply NoDup_cons; split;
          [intros Hin;
           repeat (apply elem_of_cons in Hin as [Hin | Hin]; [cbn in Hin; discriminate|]);
           inversion Hin|]).
  apply NoDup_nil. exact I.
Qed.

(** The tags of an archive summary: the four tags of the archive itself,
    then at most five [contains/] tags, each made of the last segment of a
    tag some child carries that is neither a [type/] nor a [format/] tag,
    no tag twice; the first [maxTags] of them are kept. So an archive
    summary never has more than nine tags, whatever [maxTags] is. *)
Theorem archive_tags_shape (config : Config.t) (archiveFile : FileInfo.t)
    (extractedFiles : list ProcessedFile.t) :
  exists contains,
    FileProcessor.generateArchiveTags config archiveFile extractedFiles
    = JS.slice0 (TaggingConfig.maxTags (Config.tagging config))
                (archiveOwnTags archiveFile ++ contains)
    /\ NoDup (archiveOwnTags archiveFile ++ contains)
    /\ (length contains <= 5)%nat
    /\ Forall (containsTagOf extractedFiles) contains
    /\ NoDup (FileProcessor.generateArchiveTags config archiveFile extractedFiles)
    /\ (length (FileProcessor.generateArchiveTags config archiveFile extractedFiles) <= 9)%nat.
Proof.
  unfold FileProcessor.generateArchiveTags.
  set (childTags := foldl _ [] extractedFiles).
  set (tagCounts := map _ childTags).
  set (common := JS.slice0 5 _).
  change (JS.set_add _ (JS.set_add "source/expanded" _)) with (archiveOwnTags archiveFile).
  destruct (foldl_set_add (fun tc : string * Z => "contains/" +:+ FileProcessor.lastSegment tc.1)
              common (archiveOwnTags archiveFile) (archiveOwnTags_NoDup archiveFile))
    as (contains & Heq & Hnd & Hlen & Hall).
  exists contains. rewrite Heq.
  assert (Hcommon : (length common <= 5)%nat).
  { subst common. rewrite slice0_firstn by lia. rewrite length_firstn. lia. }
  split; [reflexivity|]. split; [exact Hnd|]. split; [lia|]. split.
  - eapply Forall_impl; [exact Hall|]. intros t ([tag count] & Hin & ->). cbn [fst].
    assert (Htag : tag ∈ childTags).
    { subst common. rewrite slice0_firstn in Hin by lia.
      apply subseteq_take in Hin.
      rewrite (sort_Permutation _ tagCounts) in Hin.
      subst tagCounts. apply list_elem_of_fmap in Hin as (tag' & [= -> _] & Hin).
      exact Hin. }
    subst childTags. apply childTags_of_children in Htag as [Htag | Htag];
      [inversion Htag|].
    destruct Htag as (child & Hchild & Hin' & Ht & Hf).
    exists child, tag. repeat split; assumption.
  - destruct (slice0_is_firstn (TaggingConfig.maxTags (Config.tagging config))
                (archiveOwnTags archiveFile ++ contains)) as (k & ->).
    split.
    + eapply sublist_NoDup; [exact Hnd | apply sublist_take].
    + rewrite length_firstn, length_app. cbn. lia.
Qed.

(** ** Extraction of the content *)

Lemma startsWith_line (a b c rest : string) :
  JS.startsWith (a +:+ b +:+ c) ((a +:+ b) +:+ c +:+ rest) = true.
Proof.
  replace ((a +:+ b) +:+ c +:+ rest) with ((a +:+ b +:+ c) +:+ rest)
    by (rewrite <- !append_assoc; reflexivity).
  apply startsWith_app.
Qed.

(** [extract] never throws and never changes a file or a directory: every
    failure inside it ends as [null]. *)
Theorem extract_never_throws (rt : Runtime.t) (file : FileInfo.t) (w : World.t) :
  exists content w',
    ContentExtractor.extract rt file w = (Ok content, w') /\ observes w w'.
Proof.
  destruct (Returns_extract rt file w) as (content & w' & E).
  exists content, w'. split; [exact E|].
  exact (proj2 (Runs_extract rt file w _ w' E)).
Qed.

(** The summary of a media file or of an archive is made of the record of
    the file alone: below the ceiling, [extract] returns it without a call
    on the file system and without a log line, so the file need not even
    exist. *)
Theorem extract_media_and_archives_without_io (rt : Runtime.t) (file : FileInfo.t)
    (w : World.t) :
  (FileInfo.type file = Media /\ FileInfo.size file <= 50 * MiB)
  \/ (FileInfo.type file = Archive /\ FileInfo.size file <= 10 * MiB) ->
  exists summary,
    ContentExtractor.extract rt file w = (Ok (Some summary), w)
    /\ JS.startsWith (match FileInfo.type file with
                      | Media => "Media file: "
                      | _ => "Archive: "
                      end +:+ FileInfo.name file +:+ JS.nl) summary = true.
Proof.
  intros [[Ht Hs] | [Ht Hs]];
    unfold ContentExtractor.extract, ContentExtractor.maxSize,
      ContentExtractor.MAX_FILE_SIZE, tryCatch;
    rewrite Ht.
  - destruct (Z.ltb_spec (50 * 1024 * 1024) (FileInfo.size file)) as [Hlt | _];
      [unfold MiB in Hs; lia|].
    unfold ContentExtractor.extractMedia, ret.
    eexists. split; [reflexivity|].
    cbn [JS.join]. apply startsWith_line.
  - destruct (Z.ltb_spec (10 * 1024 * 1024) (FileInfo.size file)) as [Hlt | _];
      [unfold MiB in Hs; lia|].
    unfold ContentExtractor.extractArchiveMetadata, ret.
    eexists. split; [reflexivity|].
    cbn [JS.join]. apply startsWith_line.
Qed.

Lemma extract_media_and_archives_without_io_witness :
  exists summary,
    ContentExtractor.extract sampleRuntime backup_tar sampleWorld
    = (Ok (Some summary), sampleWorld)
    /\ JS.startsWith ("Archive: " +:+ "backup.tar" +:+ JS.nl) summary = true.
Proof.
  apply (extract_media_and_archives_without_io sampleRuntime backup_tar sampleWorld).
  right. split; [reflexivity | vm_compute; discriminate].
Defined.

(** A document with an extension [extractDocument] has no case for yields
    null, and nothing is read or logged; for [odt] the one effect is the
    line logged, the file is not read either. *)
Theorem extract_document_without_a_reader (rt : Runtime.t) (file : FileInfo.t)
    (w : World.t) :
  FileInfo.type file = Document ->
  FileInfo.size file <= 10 * MiB ->
  (JS.toLowerCase (FileInfo.extension file) ∉ documentExtensions ->
   ContentExtractor.extract rt file w = (Ok None, w))
  /\ (JS.toLowerCase (FileInfo.extension file) = "odt" ->
      exists w', ContentExtractor.extract rt file w = (Ok None, w')
                 /\ World.trace w' = World.trace w
                 /\ World.console w'
                    = ("ODT extraction not yet implemented for " +:+ FileInfo.name file)
                      :: World.console w).
Proof.
  intros Ht Hs.
  unfold ContentExtractor.extract, ContentExtractor.maxSize,
    ContentExtractor.MAX_FILE_SIZE, tryCatch.
  rewrite Ht.
  destruct (Z.ltb_spec (10 * 1024 * 1024) (FileInfo.size file)) as [Hlt | _];
    [unfold MiB in Hs; lia|].
  unfold ContentExtractor.extractDocument. split.
  - intros Hnot.
    assert (Hne : forall k, k ∈ documentExtensions ->
                            String.eqb (JS.toLowerCase (FileInfo.extension file)) k = false).
    { intros k Hk. apply String.eqb_neq. intros Heq. apply Hnot. rewrite Heq. exact Hk. }
    unfold JS.arr_includes, existsb.
    rewrite !Hne by (unfold documentExtensions; set_solver).
    reflexivity.
  - intros ->. cbn. eexists. split; [reflexivity|]. split; reflexivity.
Qed.

Lemma extract_document_without_a_reader_witness :
  ContentExtractor.extract sampleRuntime sheet_xls sampleWorld = (Ok None, sampleWorld).
Proof.
  refine (proj1 (extract_document_without_a_reader sampleRuntime sheet_xls sampleWorld
                   eq_refl _) _).
  - vm_compute. discriminate.
  - replace (JS.toLowerCase (FileInfo.extension sheet_xls)) with "xls" by reflexivity.
    intros Hin. unfold documentExtensions in Hin.
    repeat (apply elem_of_cons in Hin as [Hin | Hin]; [discriminate|]).
    inversion Hin.
Defined.

(** A file that is not there. For a code or data file the read throws,
    [extract] logs the failure and yields null; for a file of unknown type
    the inner [catch] swallows the error and nothing is logged. *)
Theorem extract_of_a_missing_file (rt : Runtime.t) (file : FileInfo.t) (w : World.t) :
  World.files w !! FileInfo.path file = None ->
  FileInfo.size file <= 10 * MiB ->
  (FileInfo.type file ∈ [Code; Data] ->
   exists w' reason,
     ContentExtractor.extract rt file w = (Ok None, w')
     /\ World.console w'
        = ("Failed to extract content from " +:+ FileInfo.name file +:+ ": Error: " +:+ reason)
          :: World.console w)
  /\ (FileInfo.type file = Unknown ->
      exists w',
        ContentExtractor.extract rt file w = (Ok None, w')
        /\ World.console w' = World.console w).
Proof.
  intros Hmissing Hs.
  assert (Hsize : (ContentExtractor.maxSize file <? FileInfo.size file) = false).
  { unfold ContentExtractor.maxSize, ContentExtractor.MAX_FILE_SIZE.
    apply Z.ltb_ge. unfold MiB in Hs. destruct (FileInfo.type file); lia. }
  unfold ContentExtractor.extract. rewrite Hsize.
  split.
  - intros Ht.
    assert (Hread : exists reason,
               Fs.readFile (FileInfo.path file) w
               = (Throw (JsError reason), Fs.logCall (ReadFile (FileInfo.path file)) w)).
    { unfold Fs.readFile, Fs.readBlob, bind. cbn. rewrite Hmissing.
      unfold Fs.eisdir, Fs.enoent. destruct (Fs.isDir _ _); eauto. }
    destruct Hread as (reason & Hread).
    exists (Fs.consoleLog
              ("Failed to extract content from " +:+ FileInfo.name file +:+ ": Error: "
               +:+ reason)
              (Fs.logCall (ReadFile (FileInfo.path file)) w)).2, reason.
    split; [|reflexivity].
    apply elem_of_cons in Ht as [-> | Ht];
      [|apply list_elem_of_singleton in Ht; rewrite Ht];
      unfold tryCatch, bind, ContentExtractor.extractText; rewrite Hread;
      reflexivity.
  - intros ->.
    unfold tryCatch, ContentExtractor.extractBasic, tryCatch, bind, Fs.readFile,
      Fs.readBlob, bind.
    cbn. rewrite Hmissing. unfold Fs.eisdir, Fs.enoent.
    destruct (Fs.isDir _ _); eexists; split; reflexivity.
Qed.

Lemma extract_of_a_missing_file_witness :
  exists w' reason,
    ContentExtractor.extract sampleRuntime lost_json sampleWorld = (Ok None, w')
    /\ World.console w'
       = ("Failed to extract content from " +:+ "lost.json" +:+ ": Error: " +:+ reason)
         :: World.console sampleWorld.
Proof.
  refine (proj1 (extract_of_a_missing_file sampleRuntime lost_json sampleWorld _ _) _).
  - vm_compute. reflexivity.
  - vm_compute. discriminate.
  - right. left.
Defined.

(** ** The text of an HTML document *)

Lemma afterTag_none (l : list ascii) :
  ContentExtractor.afterTag l = None -> existsb (fun d => Ascii.eqb d ">") l = false.
Proof.
  induction l as [|c r IH]; cbn; [reflexivity|].
  destruct (Ascii.eqb c ">"); [discriminate|]. exact IH.
Qed.

Lemma afterTag_shorter (l rest : list ascii) :
  ContentExtractor.afterTag l = Some rest -> (length rest < length l)%nat.
Proof.
  revert rest. induction l as [|c r IH]; cbn; intros rest H; [discriminate|].
  destruct (Ascii.eqb c ">"); [inversion H; subst; lia|].
  apply IH in H. lia.
Qed.

Lemma afterTag_suffix (l rest : list ascii) (P : ascii -> bool) :
  ContentExtractor.afterTag l = Some rest -> existsb P rest = true -> existsb P l = true.
Proof.
  revert rest. induction l as [|c r IH]; cbn; intros rest H Hex; [discriminate|].
  destruct (Ascii.eqb c ">").
  - inversion H; subst. rewrite Hex. apply orb_true_r.
  - rewrite (IH _ H Hex). apply orb_true_r.
Qed.

Lemma stripTags_keeps_none (P : ascii -> bool) (fuel : nat) (l : list ascii) :
  existsb P l = false -> existsb P (ContentExtractor.stripTags fuel l) = false.
Proof.
  revert l. induction fuel as [|fuel IH]; intros l H; [exact H|].
  destruct l as [|c r]; [reflexivity|]. cbn [ContentExtractor.stripTags].
  cbn in H. apply orb_false_iff in H as [Hc Hr].
  destruct (Ascii.eqb c "<").
  - destruct (ContentExtractor.afterTag r) as [rest|] eqn:E.
    + apply IH. destruct (existsb P rest) eqn:Ex; [|reflexivity].
      rewrite (afterTag_suffix _ _ _ E Ex) in Hr. discriminate.
    + cbn. rewrite Hc. apply IH. exact Hr.
  - cbn. rewrite Hc. apply IH. exact Hr.
Qed.

(** With fuel for every character, no tag is left. *)
Lemma stripTags_no_tag (fuel : nat) (l : list ascii) :
  (length l <= fuel)%nat -> hasTag (ContentExtractor.stripTags fuel l) = false.
Proof.
  revert l. induction fuel as [|fuel IH]; intros l Hlen.
  - destruct l; [reflexivity | cbn in Hlen; lia].
  - destruct l as [|c r]; [reflexivity|]. cbn [ContentExtractor.stripTags].
    cbn in Hlen.
    destruct (Ascii.eqb c "<") eqn:Ec.
    + destruct (ContentExtractor.afterTag r) as [rest|] eqn:E.
      * apply IH. apply afterTag_shorter in E. lia.
      * cbn [hasTag]. rewrite (stripTags_keeps_none _ _ _ (afterTag_none _ E)).
        rewrite andb_false_r. cbn. apply IH. lia.
    + cbn [hasTag]. rewrite Ec. cbn. apply IH. lia.
Qed.

Lemma space_is_no_bracket (c : ascii) :
  ContentExtractor.isSpace c = true -> Ascii.eqb c "<" = false /\ Ascii.eqb c ">" = false.
Proof. destruct c as [[] [] [] [] [] [] [] []]; vm_compute; intros; split; congruence. Qed.

Lemma collapseSpaces_brackets (inRun : bool) (l : list ascii) :
  existsb (fun d => Ascii.eqb d ">") (ContentExtractor.collapseSpaces inRun l)
  = existsb (fun d => Ascii.eqb d ">") l.
Proof.
  revert inRun. induction l as [|c r IH]; intros inRun; [reflexivity|].
  cbn [ContentExtractor.collapseSpaces].
  destruct (ContentExtractor.isSpace c) eqn:Es.
  - destruct (space_is_no_bracket c Es) as [_ Hgt].
    cbn [existsb]. rewrite Hgt. cbn. destruct inRun; cbn; apply IH.
  - cbn. rewrite IH. reflexivity.
Qed.

Lemma collapseSpaces_no_tag (inRun : bool) (l : list ascii) :
  hasTag (ContentExtractor.collapseSpaces inRun l) = hasTag l.
Proof.
  revert inRun. induction l as [|c r IH]; intros inRun; [reflexivity|].
  cbn [ContentExtractor.collapseSpaces].
  destruct (ContentExtractor.isSpace c) eqn:Es.
  - destruct (space_is_no_bracket c Es) as [Hlt _].
    cbn [hasTag]. rewrite Hlt. cbn. destruct inRun; cbn; apply IH.
  - cbn [hasTag]. rewrite collapseSpaces_brackets, IH. reflexivity.
Qed.

Lemma collapseSpaces_runs (l : list ascii) :
  forall inRun,
    hasSpaceRun (ContentExtractor.collapseSpaces inRun l) = false
    /\ (inRun = true ->
        forall c, head (ContentExtractor.collapseSpaces inRun l) = Some c ->
                  ContentExtractor.isSpace c = false)
    /\ Forall (fun c => ContentExtractor.isSpace c = true -> c = " "%char)
              (ContentExtractor.collapseSpaces inRun l).
Proof.
  induction l as [|c r IH]; intros inRun.
  - cbn. split; [reflexivity|]. split; [discriminate | constructor].
  - cbn [ContentExtractor.collapseSpaces].
    destruct (ContentExtractor.isSpace c) eqn:Es.
    + destruct (IH true) as (Hrun & Hhead & Hall).
      destruct inRun.
      * split; [exact Hrun|]. split; [intros _; apply Hhead; reflexivity | exact Hall].
      * split; [|split; [discriminate | constructor; [reflexivity | exact Hall]]].
        cbn [hasSpaceRun].
        destruct (ContentExtractor.collapseSpaces true r) as [|d r'] eqn:E; [reflexivity|].
        rewrite (Hhead eq_refl d eq_refl). rewrite andb_false_r. exact Hrun.
    + destruct (IH false) as (Hrun & _ & Hall).
      split; [|split; [intros _ d [= <-]; exact Es | constructor; [congruence | exact Hall]]].
      cbn [hasSpaceRun].
      destruct (ContentExtractor.collapseSpaces false r) as [|d r'] eqn:E; [reflexivity|].
      rewrite Es. exact Hrun.
Qed.

Lemma takeWhile_dropWhile {A} (f : A -> bool) (l : list A) :
  Path.takeWhile f l ++ Path.dropWhile f l = l.
Proof.
  induction l as [|x l IH]; cbn; [reflexivity|].
  destruct (f x); cbn; [rewrite IH|]; reflexivity.
Qed.

Lemma takeWhile_all {A} (f : A -> bool) (l : list A) :
  Forall (fun x => f x = true) (Path.takeWhile f l).
Proof.
  induction l as [|x l IH]; cbn; [constructor|].
  destruct (f x) eqn:E; constructor; assumption.
Qed.

Lemma dropWhile_head {A} (f : A -> bool) (l : list A) (x : A) :
  head (Path.dropWhile f l) = Some x -> f x = false.
Proof.
  induction l as [|y l IH]; cbn; [discriminate|].
  destruct (f y) eqn:E; [exact IH|]. intros [= <-]. exact E.
Qed.

(** [trim] cuts white space off both ends, and all of it. *)
Lemma trim_cuts (l : list ascii) :
  exists before after,
    l = before ++ ContentExtractor.trim l ++ after
    /\ (forall c, head (ContentExtractor.trim l) = Some c ->
                  ContentExtractor.isSpace c = false)
    /\ (forall c, head (rev (ContentExtractor.trim l)) = Some c ->
                  ContentExtractor.isSpace c = false).
Proof.
  unfold ContentExtractor.trim.
  set (l1 := Path.dropWhile ContentExtractor.isSpace l).
  set (kept := Path.dropWhile ContentExtractor.isSpace (rev l1)).
  assert (H1 : l = Path.takeWhile ContentExtractor.isSpace l ++ l1)
    by (symmetry; apply takeWhile_dropWhile).
  assert (H2 : l1 = rev kept ++ rev (Path.takeWhile ContentExtractor.isSpace (rev l1))).
  { rewrite <- rev_app_distr. subst kept. rewrite takeWhile_dropWhile.
    symmetry. apply rev_involutive. }
  exists (Path.takeWhile ContentExtractor.isSpace l),
         (rev (Path.takeWhile ContentExtractor.isSpace (rev l1))).
  split; [rewrite <- H2; exact H1|]. split.
  - intros c Hc. apply (dropWhile_head ContentExtractor.isSpace l). fold l1.
    rewrite H2. destruct (rev kept); [discriminate | exact Hc].
  - intros c Hc. rewrite rev_involutive in Hc.
    apply (dropWhile_head ContentExtractor.isSpace (rev l1)). exact Hc.
Qed.

Lemma hasTag_app (a b : list ascii) :
  hasTag (a ++ b) = false -> hasTag a = false /\ hasTag b = false.
Proof.
  induction a as [|c a IH]; cbn; [auto|].
  intros H. apply orb_false_iff in H as [Hc H]. destruct (IH H) as [Ha Hb].
  split; [|exact Hb]. rewrite Ha, orb_false_r.
  rewrite existsb_app in Hc.
  destruct (Ascii.eqb c "<"); [|reflexivity]. cbn in *.
  apply orb_false_iff in Hc as [Hc _]. exact Hc.
Qed.

Lemma hasSpaceRun_app (a b : list ascii) :
  hasSpaceRun (a ++ b) = false -> hasSpaceRun a = false /\ hasSpaceRun b = false.
Proof.
  induction a as [|c a IH]; [auto|].
  destruct a as [|d a].
  - cbn. destruct b as [|d b]; [auto|]. intros H.
    apply orb_false_iff in H as [_ H]. auto.
  - change (hasSpaceRun ((c :: d :: a) ++ b))
      with ((ContentExtractor.isSpace c && ContentExtractor.isSpace d)
            || hasSpaceRun ((d :: a) ++ b)).
    change (hasSpaceRun (c :: d :: a))
      with ((ContentExtractor.isSpace c && ContentExtractor.isSpace d)
            || hasSpaceRun (d :: a)).
    intros H. apply orb_false_iff in H as [Hc H]. destruct (IH H) as [Ha Hb].
    rewrite Hc, Ha. auto.
Qed.

(** The text [extractHTML] returns for an HTML document that can be read
    has no tag left (no [<] with a [>] after it), has no white space but
    single spaces, none of them next to another, and neither starts nor
    ends with one. *)
Theorem html_text_is_plain (rt : Runtime.t) (file : FileInfo.t) (w : World.t)
    (node : FsNode.t) :
  FileInfo.type file = Document ->
  JS.toLowerCase (FileInfo.extension file) ∈ ["html"; "htm"] ->
  FileInfo.size file <= 10 * MiB ->
  World.files w !! FileInfo.path file = Some node ->
  let out := htmlText (blob_raw (FsNode.blob node)) in
  let chars := list_ascii_of_string out in
  (exists w', ContentExtractor.extract rt file w = (Ok (Some out), w'))
  /\ hasTag chars = false
  /\ hasSpaceRun chars = false
  /\ Forall (fun c => ContentExtractor.isSpace c = true -> c = " "%char) chars
  /\ (forall c, head chars = Some c -> ContentExtractor.isSpace c = false)
  /\ (forall c, head (rev chars) = Some c -> ContentExtractor.isSpace c = false).
Proof.
  intros Ht Hext Hs Hnode. cbv zeta. split.
  - unfold ContentExtractor.extract, ContentExtractor.maxSize,
      ContentExtractor.MAX_FILE_SIZE.
    rewrite Ht.
    destruct (Z.ltb_spec (10 * 1024 * 1024) (FileInfo.size file)) as [Hlt | _];
      [unfold MiB in Hs; lia|].
    assert (Hdoc : ContentExtractor.extractDocument rt file
                   = ContentExtractor.extractHTML file).
    { unfold ContentExtractor.extractDocument.
      apply elem_of_cons in Hext as [-> | Hext];
        [|apply list_elem_of_singleton in Hext; rewrite Hext]; reflexivity. }
    rewrite Hdoc.
    assert (Hread : Fs.readFile (FileInfo.path file) w
                    = (Ok (blob_raw (FsNode.blob node)),
                       Fs.logCall (ReadFile (FileInfo.path file)) w)).
    { unfold Fs.readFile, Fs.readBlob, bind. cbn. rewrite Hnode. reflexivity. }
    unfold ContentExtractor.extractHTML, tryCatch, bind. rewrite Hread.
    eexists. reflexivity.
  - unfold htmlText. cbv zeta. rewrite list_ascii_of_string_of_list_ascii.
    set (chars := list_ascii_of_string (blob_raw (FsNode.blob node))).
    set (text := ContentExtractor.collapseSpaces false
                   (ContentExtractor.stripTags (length chars) chars)).
    assert (Htag : hasTag text = false).
    { subst text. rewrite collapseSpaces_no_tag. apply stripTags_no_tag. lia. }
    destruct (collapseSpaces_runs (ContentExtractor.stripTags (length chars) chars) false)
      as (Hrun & _ & Hall).
    fold text in Hrun, Hall.
    destruct (trim_cuts text) as (before & after & Hcut & Hhead & Hlast).
    rewrite Hcut in Htag, Hrun, Hall.
    apply hasTag_app in Htag as [_ Htag]. apply hasTag_app in Htag as [Htag _].
    apply hasSpaceRun_app in Hrun as [_ Hrun].
    apply hasSpaceRun_app in Hrun as [Hrun _].
    apply Forall_app in Hall as [_ Hall]. apply Forall_app in Hall as [Hall _].
    repeat split; assumption.
Qed.

Lemma html_text_is_plain_witness :
  (exists w', ContentExtractor.extract sampleRuntime page_html pageWorld
              = (Ok (Some "Hello, world <"), w'))
  /\ hasTag (list_ascii_of_string "Hello, world <") = false.
Proof.
  assert (Hext : JS.toLowerCase (FileInfo.extension page_html) ∈ ["html"; "htm"]) by left.
  assert (Hs : FileInfo.size page_html <= 10 * MiB) by (vm_compute; discriminate).
  assert (Hnode : World.files pageWorld !! FileInfo.path page_html = Some page_node)
    by (vm_compute; reflexivity).
  pose proof (html_text_is_plain sampleRuntime page_html pageWorld page_node
                eq_refl Hext Hs Hnode) as (Hrun & Htag & _).
  split; [exact Hrun | exact Htag].
Defined.

(** ** The body of a file of no special type *)

Lemma substring0_all (n : Z) (s : string) :
  Z.of_nat (String.length s) <= n -> JS.substring0 n s = s.
Proof.
  unfold JS.substring0. intros H.
  assert (Hn : (String.length s <= Z.to_nat n)%nat) by lia. clear H.
  revert Hn. generalize (Z.to_nat n). intros k. revert k.
  induction s as [|c s IH]; intros [|k] H; cbn in *; try reflexivity; try lia.
  rewrite IH by lia. reflexivity.
Qed.

(** The body of a data file, an archive or a file of unknown type: the
    list of its properties; then, when there is content, a preview of at
    most 1000 characters in a fenced block, marked as truncated exactly
    when the content is longer. Null and the empty string give no
    preview. *)
Theorem generateDefaultContent_preview (rt : Runtime.t) (file : FileInfo.t)
    (content : option string) :
  (content = None \/ content = Some "" ->
   MarkdownGenerator.generateDefaultContent rt file content = fileInformation rt file)
  /\ (forall s, content = Some s -> s <> "" -> JS.len s <= 1000 ->
      MarkdownGenerator.generateDefaultContent rt file content
      = fileInformation rt file +:+ JS.nl +:+ JS.nl +:+ previewBlock s [])
  /\ (forall s, content = Some s -> 1000 < JS.len s ->
      exists first1000 rest,
        JS.len first1000 = 1000 /\ s = first1000 +:+ rest
        /\ MarkdownGenerator.generateDefaultContent rt file content
           = fileInformation rt file +:+ JS.nl +:+ JS.nl
             +:+ previewBlock first1000 ["... (truncated)"]).
Proof.
  split; [|split].
  - intros [-> | ->]; reflexivity.
  - intros s -> Hne Hlen. unfold MarkdownGenerator.generateDefaultContent.
    rewrite truthy_nonempty by assumption.
    destruct (Z.ltb_spec 1000 (JS.len s)); [lia|].
    rewrite substring0_all by (unfold JS.len in *; lia).
    unfold fileInformation, previewBlock. cbn [JS.join app].
    rewrite <- !append_assoc. reflexivity.
  - intros s -> Hlen.
    assert (s <> "") by (intros ->; vm_compute in Hlen; discriminate).
    exists (JS.substring0 1000 s).
    destruct (substring0_prefix (Z.to_nat 1000) s) as [rest Hrest]. exists rest.
    split; [|split; [exact Hrest|]].
    + unfold JS.len, JS.substring0 in *. rewrite substring0_length; lia.
    + unfold MarkdownGenerator.generateDefaultContent.
      rewrite truthy_nonempty by assumption.
      destruct (Z.ltb_spec 1000 (JS.len s)); [|lia].
      unfold fileInformation, previewBlock. cbn [JS.join app].
      rewrite <- !append_assoc. reflexivity.
Qed.

Lemma generateDefaultContent_preview_witness :
  MarkdownGenerator.generateDefaultContent sampleRuntime report_bin (Some "0123")
  = fileInformation sampleRuntime report_bin +:+ JS.nl +:+ JS.nl +:+ previewBlock "0123" [].
Proof.
  apply (proj1 (proj2 (generateDefaultContent_preview sampleRuntime report_bin
                         (Some "0123"))) "0123" eq_refl).
  - discriminate.
  - vm_compute. discriminate.
Defined.

(** ** The frontmatter block *)

Lemma chars_app (a b : string) :
  list_ascii_of_string (a +:+ b) = list_ascii_of_string a ++ list_ascii_of_string b.
Proof.
  induction a as [|c a IH]; [reflexivity|].
  change (c :: list_ascii_of_string (a +:+ b)
          = c :: (list_ascii_of_string a ++ list_ascii_of_string b)).
  f_equal. exact IH.
Qed.

Lemma jsonChar_printable (c : ascii) :
  forallb fromSpaceOn (list_ascii_of_string (MarkdownGenerator.jsonChar c)) = true.
Proof. destruct c as [[] [] [] [] [] [] [] []]; vm_compute; reflexivity. Qed.

Lemma jsonChars_printable (s : string) :
  forallb fromSpaceOn (list_ascii_of_string (MarkdownGenerator.jsonChars s)) = true.
Proof.
  induction s as [|c s IH]; cbn [MarkdownGenerator.jsonChars]; [reflexivity|].
  rewrite chars_app, forallb_app, jsonChar_printable, IH. reflexivity.
Qed.

(** The characters [String(n)] is made of. *)
Lemma pretty_N_go_chars (P : ascii -> bool) (x : N) :
  (forall d, d ∈ list_ascii_of_string "0123456789" -> P d = true) ->
  forall s, forallb P (list_ascii_of_string s) = true ->
            forallb P (list_ascii_of_string (pretty_N_go x s)) = true.
Proof.
  intros HP. induction (N.lt_wf_0 x) as [x _ IH]. intros s Hs.
  destruct (decide (x = 0)%N) as [-> | Hx]; [rewrite pretty_N_go_0; exact Hs|].
  rewrite pretty_N_go_step by lia.
  apply IH; [apply N.div_lt; lia|].
  cbn [list_ascii_of_string forallb]. rewrite Hs, andb_true_r.
  apply HP. unfold pretty_N_char. repeat case_match; cbn; repeat constructor.
Qed.

Lemma ofZ_chars (P : ascii -> bool) (n : Z) :
  (forall d, d ∈ list_ascii_of_string "0123456789-" -> P d = true) ->
  forallb P (list_ascii_of_string (JS.ofZ n)) = true.
Proof.
  intros HP. unfold JS.ofZ, pretty, pretty_Z.
  assert (HP' : forall d, d ∈ list_ascii_of_string "0123456789" -> P d = true).
  { intros d Hd. apply HP. cbn in *.
    repeat (apply elem_of_cons in Hd as [-> | Hd]; [repeat constructor|]).
    inversion Hd. }
  assert (HN : forall x : N, forallb P (list_ascii_of_string (pretty x)) = true).
  { intros x. unfold pretty, pretty_N. destruct (decide (x = 0)%N).
    - cbn. rewrite HP'; [reflexivity | cbn; repeat constructor].
    - apply pretty_N_go_chars; [exact HP' | reflexivity]. }
  destruct n as [|p|p].
  - cbn. rewrite HP'; [reflexivity | cbn; repeat constructor].
  - apply HN.
  - rewrite chars_app, forallb_app. apply andb_true_intro. split.
    + cbn. rewrite HP; [reflexivity | cbn; repeat constructor].
    + apply (HN (Npos p)).
Qed.

Lemma ofZ_printable (n : Z) :
  forallb fromSpaceOn (list_ascii_of_string (JS.ofZ n)) = true.
Proof.
  apply ofZ_chars. intros d Hd. cbn in Hd.
  repeat (apply elem_of_cons in Hd as [-> | Hd]; [reflexivity|]).
  inversion Hd.
Qed.

Lemma stringify_scalar_printable (v : Frontmatter.Value) :
  (forall items, v <> Frontmatter.Arr items) ->
  forallb fromSpaceOn (list_ascii_of_string (MarkdownGenerator.stringify v)) = true.
Proof.
  intros Hv. destruct v as [s | n | items]; cbn [MarkdownGenerator.stringify].
  - rewrite !chars_app, !forallb_app, jsonChars_printable. reflexivity.
  - apply ofZ_printable.
  - exfalso. eapply Hv. reflexivity.
Qed.

(** The frontmatter block: the opening fence, one line for each field
    before the tags, the tags one below the other, the closing fence. A
    field before the tags never leaves its line: its value is written by
    [JSON.stringify], which escapes the quote, the backslash and every
    code unit below 32, the line feed, the carriage return and the tab
    among them, so the line holds none. The tags are written as they
    are. *)
Theorem frontmatter_fields_stay_on_their_line (frontmatter : Frontmatter.t) :
  MarkdownGenerator.generateFrontmatter frontmatter
  = JS.join JS.nl
      (["---"] ++ scalarLines frontmatter
       ++ ["tags:"] ++ map (fun tag => "  - " +:+ tag) (Frontmatter.tags frontmatter)
       ++ ["---" +:+ JS.nl])
  /\ Forall (fun line => forallb fromSpaceOn (list_ascii_of_string line) = true)
            (scalarLines frontmatter)
  /\ (5 <= length (scalarLines frontmatter) <= 8)%nat.
Proof.
  split; [|split].
  - unfold MarkdownGenerator.generateFrontmatter, scalarLines, Frontmatter.entries.
    destruct (Frontmatter.sourceLocation frontmatter),
      (Frontmatter.archiveType frontmatter), (Frontmatter.extractedFiles frontmatter);
      cbn; rewrite <- ?app_assoc; reflexivity.
  - unfold scalarLines. apply Forall_forall. intros line Hin.
    apply list_elem_of_fmap in Hin as ([key value] & -> & Hin).
    apply list_elem_of_In, filter_In in Hin as [Hin Hkey]. cbn [fst snd] in *.
    rewrite !chars_app, !forallb_app. rewrite stringify_scalar_printable.
    + unfold Frontmatter.entries in Hin.
      destruct (Frontmatter.sourceLocation frontmatter),
        (Frontmatter.archiveType frontmatter), (Frontmatter.extractedFiles frontmatter);
        cbn in Hin;
        repeat (destruct Hin as [[= <- <-] | Hin]; [reflexivity|]);
        destruct Hin.
    + intros items ->. unfold Frontmatter.entries in Hin.
      destruct (Frontmatter.sourceLocation frontmatter),
        (Frontmatter.archiveType frontmatter), (Frontmatter.extractedFiles frontmatter);
        cbn in Hin;
        repeat (destruct Hin as [Heq | Hin];
                [inversion Heq; subst; cbn in Hkey; discriminate|]);
        destruct Hin.
  - unfold scalarLines, Frontmatter.entries.
    destruct (Frontmatter.sourceLocation frontmatter),
      (Frontmatter.archiveType frontmatter), (Frontmatter.extractedFiles frontmatter);
      cbn; lia.
Qed.

(** ** What a run leaves on the disk *)

Lemma writeFile_files (rt : Runtime.t) (p : string) (data : Blob) (w w' : World.t) :
  Fs.writeFile rt p data w = (Ok tt, w') ->
  exists node, FsNode.blob node = data
               /\ World.files w' = <[p := node]> (World.files w).
Proof.
  unfold Fs.writeFile. destruct (Fs.writable _ _ _ _) as [err|] eqn:E.
  - destruct (writable_throws _ _ _ _ _ E) as (e & ->). discriminate.
  - intros [= <-]. unfold Fs.putFile. cbn. eexists. split; [|reflexivity]. reflexivity.
Qed.

Lemma rename_files (src dst : string) (w w' : World.t) :
  Fs.rename src dst w = (Ok tt, w') ->
  exists node, World.files w !! src = Some node
               /\ World.files w' = <[dst := node]> (delete src (World.files w)).
Proof.
  unfold Fs.rename. cbn. destruct (World.files w !! src) as [node|]; [|discriminate].
  destruct (Fs.writable _ _ _ _) as [err|] eqn:E.
  - destruct (writable_throws _ _ _ _ _ E) as (e & ->). discriminate.
  - intros [= <-]. exists node. split; reflexivity.
Qed.

Lemma copyFile_files (rt : Runtime.t) (src dst : string) (w w' : World.t) :
  Fs.copyFile rt src dst w = (Ok tt, w') ->
  exists node copy, World.files w !! src = Some node
                    /\ FsNode.blob copy = FsNode.blob node
                    /\ World.files w' = <[dst := copy]> (World.files w).
Proof.
  unfold Fs.copyFile. cbn. destruct (World.files w !! src) as [node|]; [|discriminate].
  destruct (Fs.writable _ _ _ _) as [err|] eqn:E.
  - destruct (writable_throws _ _ _ _ _ E) as (e & ->). discriminate.
  - intros [= <-]. unfold Fs.putFile. cbn. eexists node, _.
    split; [reflexivity|]. split; [|reflexivity]. reflexivity.
Qed.

(** After a run that is no dry run and succeeds, for a file that is no
    archive: the note is a file at the markdown path and holds the rendered
    content; the original, with the bytes it had, is at the relocation
    path; it is gone from where it was when it was moved, and still there
    when it was copied. (The note is assumed to land neither on the source
    nor on the relocation path.) *)
Theorem run_places_the_note_and_the_original (rt : Runtime.t) (config : Config.t)
    (fuel : nat) (file : FileInfo.t) (options : ProcessOptions.t) (w w' : World.t)
    (pf : ProcessedFile.t) :
  FileInfo.type file <> Archive ->
  ProcessOptions.dryRun options = false ->
  FileProcessor.processFile rt config fuel file options w = (Ok pf, w') ->
  ProcessedFile.markdownPath pf <> FileInfo.path file ->
  ProcessedFile.markdownPath pf <> ProcessedFile.originalNewPath pf ->
  (exists note, World.files w' !! ProcessedFile.markdownPath pf = Some note
                /\ FsNode.blob note = text (ProcessedFile.content pf))
  /\ (exists source moved,
        World.files w !! FileInfo.path file = Some source
        /\ World.files w' !! ProcessedFile.originalNewPath pf = Some moved
        /\ FsNode.blob moved = FsNode.blob source)
  /\ (ProcessedFile.originalNewPath pf <> FileInfo.path file ->
      World.files w' !! FileInfo.path file
      = if ProcessOptions.copy options then World.files w !! FileInfo.path file else None).
Proof.
  intros Ht Hwet H Hmd1 Hmd2.
  apply processFile_plain_Ok in H; [|exact Ht].
  rewrite run_is_dry_run_then_placeFiles in H.
  destruct (FileProcessor.processFileAsNormal rt config file (withDryRun true options) w)
    as [[pf0 | e |] w1] eqn:Edry; try discriminate.
  destruct (dry_run_observes rt config file (withDryRun true options) eq_refl w _ w1 Edry)
    as (_ & Hfiles & _).
  destruct (FileProcessor.placeFiles rt options file _ _ _ w1) as [[[] | e |] w2] eqn:Eplace;
    inversion H; subst; clear H.
  unfold FileProcessor.placeFiles, FileProcessor.ensureDirectory in Eplace.
  rewrite Hwet in Eplace. cbn [negb] in Eplace.
  apply bind_Ok in Eplace as ([] & wa & Hmk1 & Eplace).
  apply bind_Ok in Eplace as ([] & wb & Hmk2 & Eplace).
  apply bind_Ok in Eplace as ([] & wc & Hwr & Eplace).
  apply mkdir_files in Hmk1. apply mkdir_files in Hmk2.
  apply writeFile_files in Hwr as (note & Hnote & Hwc).
  rewrite Hmk2, Hmk1, Hfiles in Hwc.
  destruct (ProcessOptions.copy options).
  - apply copyFile_files in Eplace as (source & copy & Hsrc & Hcopy & Hw').
    rewrite Hwc, lookup_insert_ne in Hsrc by exact Hmd1.
    split; [|split].
    + exists note. split; [|exact Hnote].
      rewrite Hw', lookup_insert_ne by (intros Heq; apply Hmd2; congruence).
      rewrite Hwc, lookup_insert_eq. reflexivity.
    + exists source, copy. split; [exact Hsrc|]. split; [|exact Hcopy].
      rewrite Hw', lookup_insert_eq. reflexivity.
    + intros Hne. rewrite Hw', lookup_insert_ne by exact Hne.
      rewrite Hwc, lookup_insert_ne by exact Hmd1. reflexivity.
  - apply rename_files in Eplace as (source & Hsrc & Hw').
    rewrite Hwc, lookup_insert_ne in Hsrc by exact Hmd1.
    split; [|split].
    + exists note. split; [|exact Hnote].
      rewrite Hw', lookup_insert_ne by (intros Heq; apply Hmd2; congruence).
      rewrite lookup_delete_ne by (intros Heq; apply Hmd1; congruence).
      rewrite Hwc, lookup_insert_eq. reflexivity.
    + exists source, source. split; [exact Hsrc|]. split; [|reflexivity].
      rewrite Hw', lookup_insert_eq. reflexivity.
    + intros Hne. rewrite Hw', lookup_insert_ne by exact Hne.
      rewrite lookup_delete_eq. reflexivity.
Qed.

Lemma run_places_the_note_and_the_original_witness :
  exists note,
    World.files notes_wet_run.2 !! ProcessedFile.markdownPath (returned notes_wet_run)
    = Some note
    /\ FsNode.blob note = text (ProcessedFile.content (returned notes_wet_run)).
Proof.
  assert (Ht : FileInfo.type meeting_notes <> Archive) by discriminate.
  assert (Hrun : notes_wet_run = (Ok (returned notes_wet_run), notes_wet_run.2))
    by (vm_compute; reflexivity).
  assert (H1 : ProcessedFile.markdownPath (returned notes_wet_run)
               <> FileInfo.path meeting_notes) by (vm_compute; discriminate).
  assert (H2 : ProcessedFile.markdownPath (returned notes_wet_run)
               <> ProcessedFile.originalNewPath (returned notes_wet_run))
    by (vm_compute; discriminate).
  exact (proj1 (run_places_the_note_and_the_original sampleRuntime sampleConfig 1
                  meeting_notes wetOptions sampleWorld notes_wet_run.2
                  (returned notes_wet_run) Ht eq_refl Hrun H1 H2)).
Defined.

(** ** The members of an archive *)

Lemma processExtracted_step (rt : Runtime.t) (member : FileInfo.t -> M ProcessedFile.t)
    (childResults : list ProcessedFile.t) (extractedFile : string) (w w' : World.t)
    (r : Outcome (list ProcessedFile.t)) :
  FileProcessor.processExtracted rt member childResults extractedFile w = (r, w') ->
  r <> OutOfFuel ->
  exists outcome,
    memberStep rt member extractedFile w outcome w'
    /\ r = Ok (childResults ++ option_list outcome).
Proof.
  unfold FileProcessor.processExtracted, tryCatch, bind.
  destruct (Fs.stat rt extractedFile w) as [[stat | e |] w1] eqn:Estat.
  - fold (memberInfo extractedFile stat).
    destruct (member (memberInfo extractedFile stat) w1) as [[pf | e |] w2] eqn:E.
    + intros [= <- <-] _. exists (Some pf). split; [|reflexivity].
      eapply member_processed; eassumption.
    + unfold ret. intros H _. exists None. rewrite app_nil_r.
      destruct (Fs.consoleLog _ w2) as [[[] | e' |] w3] eqn:Elog;
        try (unfold Fs.consoleLog in Elog; discriminate).
      injection H as <- <-. split; [|reflexivity].
      eapply member_failed; [exact Estat | exact E | apply warning_line |].
      unfold Fs.consoleLog in Elog. injection Elog as <-. reflexivity.
    + intros [= <- <-] Hne. congruence.
  - unfold ret. intros H _. exists None. rewrite app_nil_r.
    destruct (Fs.consoleLog _ w1) as [[[] | e' |] w3] eqn:Elog;
      try (unfold Fs.consoleLog in Elog; discriminate).
    injection H as <- <-. split; [|reflexivity].
    eapply member_not_found; [exact Estat | apply warning_line |].
    unfold Fs.consoleLog in Elog. injection Elog as <-. reflexivity.
  - intros [= <- <-] Hne. congruence.
Qed.

Lemma membersRun_paths (rt : Runtime.t) (member : FileInfo.t -> M ProcessedFile.t)
    (extractedFiles : list string) (w w' : World.t)
    (outcomes : list (option ProcessedFile.t)) :
  (forall fileInfo wa pf wb,
     member fileInfo wa = (Ok pf, wb) -> ProcessedFile.original pf = fileInfo) ->
  membersRun rt member extractedFiles w outcomes w' ->
  Forall2 (fun extractedFile outcome =>
             forall pf, outcome = Some pf ->
                        FileInfo.path (ProcessedFile.original pf) = extractedFile)
          extractedFiles outcomes
  /\ sublist (map (fun pf => FileInfo.path (ProcessedFile.original pf)) (omap id outcomes))
             extractedFiles.
Proof.
  intros Horiginal. induction 1 as [w | extractedFile rest w w1 w' outcome outcomes Hstep _ IH].
  - split; constructor.
  - destruct IH as [Hall Hsub].
    assert (Hpath : forall pf, outcome = Some pf ->
                      FileInfo.path (ProcessedFile.original pf) = extractedFile).
    { intros pf ->. inversion Hstep; subst.
      match goal with
      | Hrun : member _ _ = (Ok pf, _) |- _ => rewrite (Horiginal _ _ _ _ Hrun)
      end. reflexivity. }
    split; [constructor; assumption|].
    destruct outcome as [pf|].
    + change (omap id (Some pf :: outcomes)) with (pf :: omap id outcomes).
      cbn [map]. rewrite (Hpath pf eq_refl). apply sublist_skip. exact Hsub.
    + change (omap id (None :: outcomes)) with (omap id outcomes).
      apply sublist_cons. exact Hsub.
Qed.

(** A member of an archive that cannot be processed is left out of the
    summary and never fails the archive. The loop over the extracted files
    handles them one after the other, each in the world the ones before it
    have left: a member that [stat] finds and the per-file routine
    processes gives the record the routine returned, which is for the path
    the member was extracted to; a member for which either throws gives
    no record and a line in the log. What the loop returns is the records
    of that, in the order of the extraction. *)
Theorem failed_members_are_left_out (rt : Runtime.t) (config : Config.t) (fuel : nat)
    (options : ProcessOptions.t) (extractedFiles : list string) :
  forall (childResults : list ProcessedFile.t) (w w' : World.t)
         (r : Outcome (list ProcessedFile.t)),
    FileProcessor.foldM
      (FileProcessor.processExtracted rt
         (fun member => FileProcessor.processFile rt config fuel member options))
      childResults extractedFiles w = (r, w') ->
    r <> OutOfFuel ->
    exists outcomes,
      membersRun rt (fun member => FileProcessor.processFile rt config fuel member options)
                 extractedFiles w outcomes w'
      /\ r = Ok (childResults ++ omap id outcomes)
      /\ Forall2 (fun extractedFile outcome =>
                    forall pf, outcome = Some pf ->
                               FileInfo.path (ProcessedFile.original pf) = extractedFile)
                 extractedFiles outcomes
      /\ sublist (map (fun pf => FileInfo.path (ProcessedFile.original pf))
                      (omap id outcomes))
                 extractedFiles.
Proof.
  assert (Hrun : forall (childResults : list ProcessedFile.t) (w w' : World.t)
                        (r : Outcome (list ProcessedFile.t)),
             FileProcessor.foldM
               (FileProcessor.processExtracted rt
                  (fun member => FileProcessor.processFile rt config fuel member options))
               childResults extractedFiles w = (r, w') ->
             r <> OutOfFuel ->
             exists outcomes,
               membersRun rt
                 (fun member => FileProcessor.processFile rt config fuel member options)
                 extractedFiles w outcomes w'
               /\ r = Ok (childResults ++ omap id outcomes)).
  { induction extractedFiles as [|extractedFile rest IH]; intros childResults w w' r H Hne.
    - cbn in H. inversion H; subst. exists []. rewrite app_nil_r.
      split; [constructor | reflexivity].
    - cbn [FileProcessor.foldM] in H. unfold bind at 1 in H.
      destruct (FileProcessor.processExtracted rt _ childResults extractedFile w)
        as [r1 w1] eqn:E1.
      assert (Hne1 : r1 <> OutOfFuel).
      { intros ->. inversion H; subst. congruence. }
      destruct (processExtracted_step _ _ _ _ _ _ _ E1 Hne1) as (outcome & Hstep & ->).
      destruct (IH _ _ _ _ H Hne) as (outcomes & Hrest & ->).
      exists (outcome :: outcomes). split; [econstructor; eassumption|].
      rewrite <- app_assoc. destruct outcome; reflexivity. }
  intros childResults w w' r H Hne.
  destruct (Hrun _ _ _ _ H Hne) as (outcomes & Hmembers & ->).
  exists outcomes. split; [exact Hmembers|]. split; [reflexivity|].
  eapply membersRun_paths; [|exact Hmembers].
  intros fileInfo wa pf wb E. exact (processFile_original _ _ _ _ _ _ _ _ E).
Qed.

Lemma failed_members_are_left_out_witness :
  members_run = (members_run.1, members_run.2)
  /\ members_run.1 <> OutOfFuel
  /\ exists outcomes,
       membersRun sampleRuntime
         (fun member =>
            FileProcessor.processFile sampleRuntime sampleConfig 1 member wetOptions)
         ["/in/project-meeting-notes.txt"; "/in/missing.txt"] sampleWorld outcomes
         members_run.2
       /\ members_run.1 = Ok ([] ++ omap id outcomes)
       /\ Forall2 (fun extractedFile outcome =>
                     forall pf, outcome = Some pf ->
                                FileInfo.path (ProcessedFile.original pf) = extractedFile)
                  ["/in/project-meeting-notes.txt"; "/in/missing.txt"] outcomes
       /\ sublist (map (fun pf => FileInfo.path (ProcessedFile.original pf))
                       (omap id outcomes))
                  ["/in/project-meeting-notes.txt"; "/in/missing.txt"].
Proof.
  assert (Hrun : members_run = (members_run.1, members_run.2))
    by (destruct members_run; reflexivity).
  assert (Hne : members_run.1 <> OutOfFuel) by (vm_compute; discriminate).
  split; [exact Hrun|]. split; [exact Hne|].
  exact (failed_members_are_left_out sampleRuntime sampleConfig 1 wetOptions
           ["/in/project-meeting-notes.txt"; "/in/missing.txt"] [] sampleWorld
           members_run.2 members_run.1 Hrun Hne).
Defined.

(** The second of two members is missing: it is left out, and the line
    says so. *)
Example missing_member_is_logged :
  match members_run.1 with
  | Ok children =>
      map (fun pf => FileInfo.path (ProcessedFile.original pf)) children
      = ["/in/project-meeting-notes.txt"]
  | _ => False
  end
  /\ match head (World.console members_run.2) with
     | Some line => memberWarning "/in/missing.txt" line
     | None => False
     end.
Proof. vm_compute. split; reflexivity. Qed.

(** ** The preview of a source file *)

Lemma join_split (c : ascii) (s : string) :
  JS.join (String c "") (JS.split c s) = s.
Proof.
  induction s as [|a s IH]; [reflexivity|].
  cbn [JS.split]. destruct (Ascii.eqb_spec a c) as [-> | Hne].
  - destruct (JS.split c s) as [|seg segs] eqn:E; [exfalso; exact (split_nonempty _ _ E)|].
    change (JS.join (String c "") ("" :: seg :: segs))
      with (String c (JS.join (String c "") (seg :: segs))).
    rewrite IH. reflexivity.
  - destruct (JS.split c s) as [|seg segs] eqn:E; [exfalso; exact (split_nonempty _ _ E)|].
    rewrite <- IH. destruct segs; reflexivity.
Qed.

Lemma join_app_nonempty (sep : string) (a b : list string) :
  a <> [] -> b <> [] -> JS.join sep (a ++ b) = JS.join sep a +:+ sep +:+ JS.join sep b.
Proof.
  intros Ha Hb. induction a as [|x a IH]; [contradiction|].
  destruct a as [|y a].
  - cbn [app JS.join]. destruct b; [contradiction | reflexivity].
  - change (JS.join sep ((x :: y :: a) ++ b))
      with (x +:+ sep +:+ JS.join sep ((y :: a) ++ b)).
    rewrite IH by discriminate.
    change (JS.join sep (x :: y :: a)) with (x +:+ sep +:+ JS.join sep (y :: a)).
    rewrite <- !append_assoc. reflexivity.
Qed.

(** The body of a source file ends with a preview in a fenced block. For
    a text of at most 50 lines the preview is the text, unchanged; for a
    longer one it is the text up to the end of its 50th line, and the line
    that marks the cut follows. *)
Theorem generateCodeContent_preview (rt : Runtime.t) (file : FileInfo.t) (content : string) :
  content <> "" ->
  let language := MarkdownGenerator.getLanguageFromExtension (FileInfo.extension file) in
  (exists before,
     MarkdownGenerator.generateCodeContent rt file (Some content)
     = before +:+ JS.nl
       +:+ JS.join JS.nl
             (["## Code Preview"; "```" +:+ language; codePreview content]
              ++ (if (50 <? length (codeLines content))%nat
                  then ["// ... (truncated)"] else [])
              ++ ["```"]))
  /\ ((length (codeLines content) <= 50)%nat -> codePreview content = content)
  /\ ((50 < length (codeLines content))%nat ->
      exists rest, content = codePreview content +:+ JS.nl +:+ rest).
Proof.
  intros Hne. cbv zeta. split; [|split].
  - unfold MarkdownGenerator.generateCodeContent. rewrite truthy_nonempty by exact Hne.
    fold (codeLines content).
    match goal with
    | |- context [JS.join JS.nl (?a ++ ?b ++ ?c ++ ?d ++ ?e ++ ?f)] =>
        exists (JS.join JS.nl (a ++ b ++ c));
        replace (a ++ b ++ c ++ d ++ e ++ f) with ((a ++ b ++ c) ++ (d ++ e ++ f))
          by (rewrite <- !app_assoc; reflexivity);
        rewrite join_app_nonempty by discriminate
    end.
    reflexivity.
  - intros Hlen. unfold codePreview. rewrite firstn_all2 by exact Hlen.
    apply join_split.
  - intros Hlen. unfold codePreview.
    pose proof (join_split JS.nl_char content) as Hjoin. fold (codeLines content) in Hjoin.
    rewrite <- (firstn_skipn 50 (codeLines content)) in Hjoin at 1.
    change (String JS.nl_char "") with JS.nl in Hjoin.
    rewrite join_app_nonempty in Hjoin.
    + eexists. symmetry. exact Hjoin.
    + destruct (codeLines content); cbn in *; [lia | discriminate].
    + intros Hnil. apply (f_equal (@length _)) in Hnil.
      rewrite length_skipn in Hnil. cbn in Hnil. lia.
Qed.

Lemma generateCodeContent_preview_witness :
  (length (codeLines "import os") <= 50)%nat /\ codePreview "import os" = "import os".
Proof.
  assert (Hne : "import os" <> "") by discriminate.
  assert (Hlen : (length (codeLines "import os") <= 50)%nat) by (vm_compute; lia).
  split; [exact Hlen|].
  exact (proj1 (proj2 (generateCodeContent_preview sampleRuntime main_py "import os" Hne))
           Hlen).
Defined.

(** ** A dry run writes into the temporary directories only *)

Section KeepsLemmas.
Context (R : World.t -> World.t -> Prop) `{!PreOrder R}.

Lemma Keeps_ret {A} (a : A) : Keeps R (ret a).
Proof. intros w r w' H. inversion H; subst. reflexivity. Qed.

Lemma Keeps_bind {A B} (m : M A) (k : A -> M B) :
  Keeps R m -> (forall a, Keeps R (k a)) -> Keeps R (bind m k).
Proof.
  intros Hm Hk w r w' H. unfold bind in H.
  destruct (m w) as [[a | e |] w1] eqn:E; pose proof (Hm _ _ _ E) as HR.
  - etransitivity; [exact HR|]. eapply Hk. exact H.
  - inversion H; subst. exact HR.
  - inversion H; subst. exact HR.
Qed.

Lemma Keeps_tryCatch {A} (body : M A) (handler : Thrown -> M A) :
  Keeps R body -> (forall e, Keeps R (handler e)) -> Keeps R (tryCatch body handler).
Proof.
  intros Hm Hk w r w' H. unfold tryCatch in H.
  destruct (body w) as [[a | e |] w1] eqn:E; pose proof (Hm _ _ _ E) as HR.
  - inversion H; subst. exact HR.
  - etransitivity; [exact HR|]. eapply Hk. exact H.
  - inversion H; subst. exact HR.
Qed.

Lemma Keeps_tryFinally {A} (body : M A) (cleanup : M unit) :
  Keeps R body -> Keeps R cleanup -> Keeps R (tryFinally body cleanup).
Proof.
  intros Hm Hc w r w' H. unfold tryFinally in H.
  destruct (body w) as [rb w1] eqn:E. pose proof (Hm _ _ _ E) as HR.
  destruct rb as [a | e |]; [| |inversion H; subst; exact HR];
    destruct (cleanup w1) as [[[] | e' |] w2] eqn:E2; pose proof (Hc _ _ _ E2) as HR2;
    inversion H; subst; etransitivity; eassumption.
Qed.

Lemma Keeps_foldM {A B} (f : A -> B -> M A) (l : list B) :
  (forall acc x, Keeps R (f acc x)) -> forall acc, Keeps R (FileProcessor.foldM f acc l).
Proof.
  intros Hf. induction l as [|x l IH]; intros acc; cbn.
  - apply Keeps_ret.
  - apply Keeps_bind; [apply Hf | exact IH].
Qed.
End KeepsLemmas.

Lemma Runs_Keeps {A} (R : World.t -> World.t -> Prop) (m : M A) : Runs R m -> Keeps R m.
Proof. intros H w r w' E. exact (proj2 (H w r w' E)). Qed.

Lemma Keeps_weaken {A} (R R' : World.t -> World.t -> Prop) (m : M A) :
  (forall w w', R w w' -> R' w w') -> Keeps R m -> Keeps R' m.
Proof. intros HRR Hm w r w' H. apply HRR. eapply Hm. exact H. Qed.

#[global] Instance outsideKept_preorder (rt : Runtime.t) : PreOrder (outsideKept rt).
Proof.
  split.
  - intros w p _. reflexivity.
  - intros w1 w2 w3 H12 H23 p Hp. rewrite (H23 p Hp). apply H12. exact Hp.
Qed.

Lemma same_files_outside (rt : Runtime.t) (w w' : World.t) :
  World.files w' = World.files w -> outsideKept rt w w'.
Proof. intros H p _. rewrite H. reflexivity. Qed.

Lemma observes_outside (rt : Runtime.t) (w w' : World.t) :
  observes w w' -> outsideKept rt w w'.
Proof. intros (H & _). apply same_files_outside. exact H. Qed.

Lemma startsWith_trans (a b c : string) :
  JS.startsWith a b = true -> JS.startsWith b c = true -> JS.startsWith a c = true.
Proof.
  revert b c. induction a as [|x a IH]; intros b c Hab Hbc; [reflexivity|].
  destruct b as [|y b]; [discriminate|]. destruct c as [|z c]; [discriminate|].
  cbn in *. apply andb_true_iff in Hab as [Hxy Hab]. apply andb_true_iff in Hbc as [Hyz Hbc].
  apply Ascii.eqb_eq in Hxy, Hyz. subst. rewrite Ascii.eqb_refl. cbn. eapply IH; eassumption.
Qed.

Section Confined.
Context (rt : Runtime.t) (config : Config.t).
Hypothesis tempDir_absolute : forall n, Path.isAbsolute (tempDir rt n) = true.
Hypothesis tempDir_no_slash : forall n, Path.hasTrailingSeparator (tempDir rt n) = false.

Lemma Keeps_consoleLog (line : string) : Keeps (outsideKept rt) (Fs.consoleLog line).
Proof. apply Runs_Keeps. eapply Runs_weaken; [apply observes_outside | apply Runs_consoleLog]. Qed.

Lemma Keeps_mkdir (p : string) : Keeps (outsideKept rt) (Fs.mkdir p).
Proof. intros w r w' H. apply same_files_outside. eapply mkdir_files. exact H. Qed.

Lemma Keeps_writeFile (n : nat) (p : string) (data : Blob) :
  inside (Path.normalize (tempDir rt n)) p ->
  Keeps (outsideKept rt) (Fs.writeFile rt p data).
Proof.
  intros Hin w r w' H. unfold Fs.writeFile in H.
  destruct (Fs.writable _ _ _ _) as [err|]; inversion H; subst.
  - apply same_files_outside. reflexivity.
  - intros q Hq. unfold Fs.putFile. cbn. apply lookup_insert_ne.
    intros <-. apply Hq. exists n. right. exact Hin.
Qed.

Lemma locate_normalize (p : string) :
  Path.isAbsolute p = true -> Path.hasTrailingSeparator p = false ->
  Fs.locate p = Path.normalize p.
Proof.
  intros Habs Htrail. unfold Fs.locate, Path.normalize. rewrite Habs, Htrail.
  destruct p as [|c p]; [discriminate|]. cbn [String.eqb].
  destruct (String.eqb _ ""); [reflexivity|].
  cbn [negb]. rewrite append_empty_r. reflexivity.
Qed.

Lemma Keeps_rm (n : nat) : Keeps (outsideKept rt) (Fs.rm rt (tempDir rt n)).
Proof.
  intros w r w' H. unfold Fs.rm in H.
  destruct (Runtime.rmRefused rt _); inversion H; subst; clear H.
  { apply same_files_outside. reflexivity. }
  rewrite (locate_normalize _ (tempDir_absolute n) (tempDir_no_slash n)).
  intros q Hq. cbn.
  destruct (World.files w !! q) as [node|] eqn:E.
  - apply map_lookup_filter_Some. split; [exact E|]. cbn.
    destruct (String.eqb_spec q (Path.normalize (tempDir rt n))) as [-> | Hne].
    + exfalso. apply Hq. exists n. right. left. reflexivity.
    + cbn. destruct (JS.startsWith (Path.normalize (tempDir rt n) +:+ "/") q) eqn:Es;
        [|reflexivity].
      exfalso. apply Hq. exists n. right. right. left. exact Es.
  - apply map_lookup_filter_None. left. exact E.
Qed.

Lemma Keeps_extractEntry (n : nat) (entry : ZipEntry) :
  Keeps (outsideKept rt) (FileProcessor.extractEntry rt (tempDir rt n) entry).
Proof.
  unfold FileProcessor.extractEntry.
  apply Keeps_bind; [typeclasses eauto | apply Keeps_mkdir | intros _].
  apply Keeps_bind; [typeclasses eauto | | intros buffer].
  - destruct (entry_buffer entry); intros w r w' H; inversion H; subst; reflexivity.
  - apply Keeps_bind; [typeclasses eauto | | intros _; apply Keeps_ret; typeclasses eauto].
    apply (Keeps_writeFile n). apply safePath_inside; auto.
Qed.

Lemma Keeps_extractEntries (n : nat) (entries : list ZipEntry) :
  forall extracted,
    Keeps (outsideKept rt) (FileProcessor.extractEntries rt (tempDir rt n) entries extracted).
Proof.
  induction entries as [|entry rest IH]; intros extracted;
    cbn [FileProcessor.extractEntries].
  - apply Keeps_ret. typeclasses eauto.
  - destruct (FileProcessor.isFileEntry entry); [|apply IH].
    intros w r w' H.
    destruct (FileProcessor.extractEntry rt (tempDir rt n) entry w) as [[p | e |] w1] eqn:E;
      pose proof (Keeps_extractEntry n entry _ _ _ E) as HR.
    + etransitivity; [exact HR|]. eapply IH. exact H.
    + inversion H; subst. exact HR.
    + inversion H; subst. exact HR.
Qed.

Lemma Keeps_extractArchive (n : nat) (file : FileInfo.t) :
  Keeps (outsideKept rt) (FileProcessor.extractArchive rt file (tempDir rt n)).
Proof.
  unfold FileProcessor.extractArchive.
  destruct (String.eqb _ "zip").
  - apply Keeps_bind; [typeclasses eauto | | intros opened].
    { intros w r w' H. apply same_files_outside.
      exact (proj1 (proj2 (openArchive_result _ _ _ _ _ H))). }
    apply Keeps_bind; [typeclasses eauto | | intros result].
    { destruct opened; [apply Keeps_extractEntries | apply Keeps_ret; typeclasses eauto]. }
    destruct result.2;
      repeat (apply Keeps_bind; [typeclasses eauto | apply Keeps_consoleLog | intros _]);
      apply Keeps_ret; typeclasses eauto.
  - apply Keeps_bind; [typeclasses eauto | apply Keeps_consoleLog | intros _].
    apply Keeps_ret. typeclasses eauto.
Qed.

Lemma Keeps_dry_processFileAsNormal (file : FileInfo.t) (options : ProcessOptions.t) :
  ProcessOptions.dryRun options = true ->
  Keeps (outsideKept rt) (FileProcessor.processFileAsNormal rt config file options).
Proof.
  intros Hdry. apply Runs_Keeps. eapply Runs_weaken; [apply observes_outside|].
  apply dry_run_observes. exact Hdry.
Qed.

Lemma Keeps_observer {A} (m : M A) : Runs observes m -> Keeps (outsideKept rt) m.
Proof. intros H. apply Runs_Keeps. eapply Runs_weaken; [apply observes_outside | exact H]. Qed.

Lemma Keeps_dry_placeFiles (file : FileInfo.t) (options : ProcessOptions.t)
    (markdownPath originalNewPath markdownContent : string) :
  ProcessOptions.dryRun options = true ->
  Keeps (outsideKept rt)
    (FileProcessor.placeFiles rt options file markdownPath originalNewPath markdownContent).
Proof.
  intros Hdry. unfold FileProcessor.placeFiles. rewrite Hdry. cbn [negb].
  apply Keeps_ret. typeclasses eauto.
Qed.

Lemma mkdtemp_result (w w1 : World.t) (r : Outcome string) :
  Fs.mkdtemp rt (tempPrefix rt) w = (r, w1) ->
  World.files w1 = World.files w
  /\ forall dir, r = Ok dir -> dir = tempDir rt (World.tmpSeq w).
Proof.
  unfold Fs.mkdtemp. cbn.
  destruct (negb _); [intros [= <- <-]; split; [reflexivity | discriminate]|].
  destruct (_ || _); intros [= <- <-]; (split; [reflexivity|]); [discriminate|].
  intros dir [= <-]. reflexivity.
Qed.

Lemma Keeps_dry_processArchiveRecursively (member : FileInfo.t -> M ProcessedFile.t)
    (file : FileInfo.t) (options : ProcessOptions.t) :
  ProcessOptions.dryRun options = true ->
  (forall memberFile, Keeps (outsideKept rt) (member memberFile)) ->
  Keeps (outsideKept rt)
    (FileProcessor.processArchiveRecursively rt config member file options).
Proof.
  intros Hdry Hmember w r w' H.
  unfold FileProcessor.processArchiveRecursively in H. fold (tempPrefix rt) in H.
  unfold bind at 1 in H.
  destruct (Fs.mkdtemp rt (tempPrefix rt) w) as [rd w1] eqn:Emk.
  destruct (mkdtemp_result _ _ _ Emk) as [Hfiles Hdir].
  assert (H1 : outsideKept rt w w1) by (apply same_files_outside; exact Hfiles).
  destruct rd as [dir | e |]; [|inversion H; subst; exact H1 ..].
  rewrite (Hdir dir eq_refl) in H.
  etransitivity; [exact H1|]. revert H. generalize (World.tmpSeq w). intros n H.
  revert H. apply Keeps_tryFinally; [typeclasses eauto | |].
  - apply Keeps_bind; [typeclasses eauto | apply Keeps_consoleLog | intros _].
    apply Keeps_bind; [typeclasses eauto | apply Keeps_extractArchive | intros extracted].
    destruct extracted as [|extracted more].
    + apply Keeps_bind; [typeclasses eauto | apply Keeps_consoleLog | intros _].
      apply Keeps_dry_processFileAsNormal. exact Hdry.
    + apply Keeps_bind; [typeclasses eauto | apply Keeps_consoleLog | intros _].
      apply Keeps_bind; [typeclasses eauto | | intros children].
      { apply Keeps_foldM; [typeclasses eauto|]. intros acc q.
        unfold FileProcessor.processExtracted.
        apply Keeps_tryCatch; [typeclasses eauto | |].
        - apply Keeps_bind; [typeclasses eauto | apply Keeps_observer; eauto with runs |].
          intros stat.
          apply Keeps_bind; [typeclasses eauto | apply Hmember | intros pf].
          apply Keeps_ret. typeclasses eauto.
        - intros e.
          apply Keeps_bind; [typeclasses eauto | apply Keeps_consoleLog | intros _].
          apply Keeps_ret. typeclasses eauto. }
      apply Keeps_bind; [typeclasses eauto | apply Keeps_observer; eauto with runs |].
      intros archiveContent.
      apply Keeps_bind; [typeclasses eauto | apply Keeps_observer; eauto with runs |].
      intros folders.
      apply Keeps_bind; [typeclasses eauto | apply Keeps_observer; eauto with runs |].
      intros markdownPath.
      apply Keeps_bind; [typeclasses eauto | apply Keeps_observer; eauto with runs |].
      intros dst.
      apply Keeps_bind; [typeclasses eauto | apply Keeps_observer; eauto with runs |].
      intros date.
      apply Keeps_bind; [typeclasses eauto | apply Keeps_dry_placeFiles; exact Hdry |].
      intros _. apply Keeps_ret. typeclasses eauto.
  - apply Keeps_tryCatch; [typeclasses eauto | apply Keeps_rm | intros e].
    apply Keeps_consoleLog.
Qed.

Lemma Keeps_dry_processFile (fuel : nat) (file : FileInfo.t) (options : ProcessOptions.t) :
  ProcessOptions.dryRun options = true ->
  Keeps (outsideKept rt) (FileProcessor.processFile rt config fuel file options).
Proof.
  intros Hdry. revert file. induction fuel as [|fuel IH]; intros file.
  - intros w r w' H. inversion H; subst. reflexivity.
  - cbn [FileProcessor.processFile].
    destruct (decide (FileInfo.type file = Archive)).
    + apply Keeps_dry_processArchiveRecursively; [exact Hdry | exact IH].
    + apply Keeps_dry_processFileAsNormal. exact Hdry.
Qed.
End Confined.

(** A dry run of any file, an archive nested to any depth included,
    changes no file outside the temporary directories of the archive
    routine: every file that is not one of those directories and not
    below one of them is, after the run, what it was before. *)
Theorem dry_run_is_confined_to_temporary_directories (rt : Runtime.t) (config : Config.t)
    (fuel : nat) (file : FileInfo.t) (options : ProcessOptions.t) (w w' : World.t)
    (r : Outcome ProcessedFile.t) :
  (forall n, Path.isAbsolute (tempDir rt n) = true) ->
  (forall n, Path.hasTrailingSeparator (tempDir rt n) = false) ->
  ProcessOptions.dryRun options = true ->
  FileProcessor.processFile rt config fuel file options w = (r, w') ->
  forall p, ~ inTemp rt p -> World.files w' !! p = World.files w !! p.
Proof.
  intros Habs Hslash Hdry H.
  exact (Keeps_dry_processFile rt config Habs Hslash fuel file options Hdry w r w' H).
Qed.

Lemma chars_empty (s : string) : list_ascii_of_string s = [] -> s = "".
Proof. destruct s; [reflexivity | discriminate]. Qed.

Lemma hasTrailingSeparator_suffix (a b : string) :
  b <> "" ->
  forallb (fun c => negb (Path.is_slash c)) (list_ascii_of_string b) = true ->
  Path.hasTrailingSeparator (a +:+ b) = false.
Proof.
  intros Hb Hall. unfold Path.hasTrailingSeparator.
  rewrite chars_app, rev_app_distr.
  destruct (rev (list_ascii_of_string b)) as [|c r] eqn:E.
  - exfalso. apply Hb, chars_empty.
    apply (f_equal (@rev _)) in E. rewrite rev_involutive in E. exact E.
  - cbn. rewrite forallb_forall in Hall.
    apply negb_true_iff, Hall. apply in_rev. rewrite E. left. reflexivity.
Qed.

Lemma dry_run_is_confined_to_temporary_directories_witness :
  ProcessOptions.dryRun dryOptions = true
  /\ forall p, ~ inTemp sampleRuntime p ->
       World.files bundle_dry_run.2 !! p = World.files sampleWorld !! p.
Proof.
  assert (Hprefix : tempPrefix sampleRuntime = "/tmp/polish-archive-")
    by (vm_compute; reflexivity).
  assert (Habs : forall n, Path.isAbsolute (tempDir sampleRuntime n) = true).
  { intros n. unfold tempDir. rewrite Hprefix. reflexivity. }
  assert (Hslash : forall n, Path.hasTrailingSeparator (tempDir sampleRuntime n) = false).
  { intros n. unfold tempDir. apply hasTrailingSeparator_suffix.
    - cbn. discriminate.
    - change (Runtime.tmpSuffix sampleRuntime n) with ("t" +:+ JS.ofZ (Z.of_nat n)).
      rewrite chars_app, forallb_app. apply andb_true_intro. split; [reflexivity|].
      apply ofZ_chars. intros d Hd. cbn in Hd.
      repeat (apply elem_of_cons in Hd as [-> | Hd]; [reflexivity|]).
      inversion Hd. }
  assert (Hrun : FileProcessor.processFile sampleRuntime sampleConfig 3 bundle_zip
                   dryOptions sampleWorld = (bundle_dry_run.1, bundle_dry_run.2))
    by (vm_compute; reflexivity).
  split; [reflexivity|].
  exact (dry_run_is_confined_to_temporary_directories sampleRuntime sampleConfig 3
           bundle_zip dryOptions sampleWorld bundle_dry_run.2 bundle_dry_run.1
           Habs Hslash eq_refl Hrun).
Defined.


(** ** The footer of a note *)

Lemma generate_ends_with_footer (rt : Runtime.t) (file : FileInfo.t)
    (content : option string) (frontmatter : Frontmatter.t) :
  exists before,
    MarkdownGenerator.generate rt file content frontmatter
    = before +:+ MarkdownGenerator.generateFooter file.
Proof.
  unfold MarkdownGenerator.generate. cbn [JS.join].
  eexists. rewrite !append_assoc. reflexivity.
Qed.

(** Every note ends with the footer, and the footer links the path the
    file was read from, not the path it is moved or copied to: for every
    record the per-file routine returns, for an archive too, the content
    ends with [*Original file: [name](file://source path)*]. *)
Theorem note_footer_links_the_source (rt : Runtime.t) (config : Config.t) (fuel : nat)
    (file : FileInfo.t) (options : ProcessOptions.t) (w w' : World.t)
    (pf : ProcessedFile.t) :
  FileProcessor.processFile rt config fuel file options w = (Ok pf, w') ->
  exists before,
    ProcessedFile.content pf
    = before +:+ "*Original file: [" +:+ FileInfo.name file +:+ "](file://"
             +:+ FileInfo.path file +:+ ")*".
Proof.
  intros H.
  assert (Hgen : exists content frontmatter,
             ProcessedFile.content pf
             = MarkdownGenerator.generate rt file content frontmatter).
  { destruct fuel as [|fuel]; [discriminate|]. cbn [FileProcessor.processFile] in H.
    assert (Hplain : forall w1 w2,
               FileProcessor.processFileAsNormal rt config file options w1 = (Ok pf, w2) ->
               exists content frontmatter,
                 ProcessedFile.content pf
                 = MarkdownGenerator.generate rt file content frontmatter).
    { intros w1 w2 E. unfold FileProcessor.processFileAsNormal in E.
      inv_bind E. inv_bind E. inv_bind E. inv_bind E. inv_bind E. inv_bind E. inv_ret E.
      cbn [ProcessedFile.content]. eexists _, _. reflexivity. }
    destruct (decide (FileInfo.type file = Archive)); [|eapply Hplain; exact H].
    unfold FileProcessor.processArchiveRecursively in H.
    inv_bind H. apply tryFinally_Ok in H as (w1 & H).
    inv_bind H. inv_bind H.
    destruct a1 as [|extracted more].
    - inv_bind H. eapply Hplain. exact H.
    - inv_bind H. inv_bind H. inv_bind H. inv_bind H. inv_bind H. inv_bind H. inv_bind H. inv_bind H. inv_ret H.
      cbn [ProcessedFile.content]. eexists _, _. reflexivity. }
  destruct Hgen as (content & frontmatter & ->).
  destruct (generate_ends_with_footer rt file content frontmatter) as (before & ->).
  unfold MarkdownGenerator.generateFooter.
  exists (before +:+ JS.nl +:+ "---" +:+ JS.nl).
  rewrite <- !append_assoc. reflexivity.
Qed.

Lemma note_footer_links_the_source_witness :
  notes_wet_run = (Ok (returned notes_wet_run), notes_wet_run.2)
  /\ exists before,
       ProcessedFile.content (returned notes_wet_run)
       = before +:+ "*Original file: [" +:+ "project-meeting-notes.txt" +:+ "](file://"
                +:+ "/in/project-meeting-notes.txt" +:+ ")*".
Proof.
  assert (Hrun : notes_wet_run = (Ok (returned notes_wet_run), notes_wet_run.2))
    by (vm_compute; reflexivity).
  split; [exact Hrun|].
  exact (note_footer_links_the_source sampleRuntime sampleConfig 1 meeting_notes wetOptions
           sampleWorld notes_wet_run.2 (returned notes_wet_run) Hrun).
Defined.
